(** * AI-Report-Assistant: a shallow embedding of the report pipeline

    The development follows the JavaScript services of the repository:
    [MistralService] (the LLM gateway), [SqlGenerationService] (the SQL
    synthesizer and its knowledge base), [AnalyticsService] (statistics
    utilities), [DataEnrichmentService] and [ReportService] (fallback query
    execution, streaming, table resolution).

    Conventions of the embedding.
    - A JavaScript string is a [string]: a sequence of 8-bit code units read
      as Latin-1, which is closed under [toLowerCase], [trim] and the regular
      expressions the services use.
    - A JavaScript number is an exact rational [Q]; a number that can be
      [NaN] is an [option Q] with [None] for [NaN].  Rounding and infinities
      are not modelled.
    - An exception is a value of type [Error]; a computation that can throw
      returns a sum [Error + A].
    - A plain object used as a dictionary is an association list in
      [Object.keys] order (own properties only). *)

From Stdlib Require Import String Ascii List ZArith QArith Qabs Lia Lqa Bool.
From Stdlib Require Import DecimalString Sorted Permutation.
From stdpp Require Import base gmap strings list.

Open Scope string_scope.

(* ================================================================== *)
(** * Part I. Definitions                                              *)
(* ================================================================== *)

(** ** JavaScript strings *)

Module JsString.

Definition code (c : ascii) : nat := nat_of_ascii c.

Definition in_range (lo hi : nat) (c : ascii) : bool :=
  (lo <=? code c)%nat && (code c <=? hi)%nat.

Definition is_upper_az (c : ascii) : bool := in_range 65 90 c.
Definition is_lower_az (c : ascii) : bool := in_range 97 122 c.
Definition is_digit (c : ascii) : bool := in_range 48 57 c.

(** [\w] of a regular expression. *)
Definition is_word (c : ascii) : bool :=
  is_upper_az c || is_lower_az c || is_digit c || (code c =? 95)%nat.

(** [\s] of a regular expression, which is also what [trim] strips:
    TAB, LF, VT, FF, CR, space and the no-break space. *)
Definition is_space (c : ascii) : bool :=
  in_range 9 13 c || (code c =? 32)%nat || (code c =? 160)%nat.

(** [String.prototype.toLowerCase] on one Latin-1 code unit. *)
Definition lower_char (c : ascii) : ascii :=
  if is_upper_az c || (in_range 192 222 c && negb (code c =? 215)%nat)
  then ascii_of_nat (code c + 32) else c.

(** The canonical form a case-insensitive regular expression compares
    (upper case; a code unit whose upper case leaves Latin-1 stays). *)
Definition canon (c : ascii) : ascii :=
  if is_lower_az c || (in_range 224 254 c && negb (code c =? 247)%nat)
  then ascii_of_nat (code c - 32) else c.

Fixpoint toLowerCase (s : string) : string :=
  match s with
  | EmptyString => EmptyString
  | String c s' => String (lower_char c) (toLowerCase s')
  end.

Fixpoint toUpperCaseAscii (s : string) : string :=
  match s with
  | EmptyString => EmptyString
  | String c s' => String (canon c) (toUpperCaseAscii s')
  end.

(** [s.startsWith(p)]. *)
Definition startsWith (s p : string) : bool := String.prefix p s.

(** A literal of a regular expression with flag [i] matched at the start
    of [s]. *)
Fixpoint starts_with_ci (kw s : string) : bool :=
  match kw, s with
  | EmptyString, _ => true
  | String k kw', String c s' =>
      Ascii.eqb (canon k) (canon c) && starts_with_ci kw' s'
  | String _ _, EmptyString => false
  end.

Fixpoint trimStart (s : string) : string :=
  match s with
  | EmptyString => EmptyString
  | String c s' => if is_space c then trimStart s' else s
  end.

Fixpoint trimEnd (s : string) : string :=
  match s with
  | EmptyString => EmptyString
  | String c s' =>
      match trimEnd s' with
      | EmptyString => if is_space c then EmptyString else String c EmptyString
      | r => String c r
      end
  end.

Definition trim (s : string) : string := trimEnd (trimStart s).

(** [s.includes(p)]. *)
Fixpoint includes (s p : string) : bool :=
  String.prefix p s ||
  match s with
  | EmptyString => false
  | String _ s' => includes s' p
  end.

(** [s.endsWith(p)]. *)
Definition endsWith (s p : string) : bool :=
  let n := String.length s in
  let m := String.length p in
  (m <=? n)%nat && String.eqb (String.substring (n - m) m s) p.

(** The first [n] code units dropped. *)
Fixpoint drop_chars (n : nat) (s : string) : string :=
  match n, s with
  | O, _ => s
  | S n', String _ s' => drop_chars n' s'
  | S _, EmptyString => EmptyString
  end.

(** [s.substring(0, s.length - n)]. *)
Definition drop_last (n : nat) (s : string) : string :=
  String.substring 0 (String.length s - n) s.

(** [s.replace(/p/g, "")] for a literal, non-empty [p]: every occurrence
    is removed, scanning from the left; [skip] counts the code units of the
    current match still to drop. *)
Fixpoint remove_all_from (p s : string) (skip : nat) : string :=
  match s with
  | EmptyString => EmptyString
  | String c s' =>
      match skip with
      | S k => remove_all_from p s' k
      | O =>
          if String.prefix p s
          then remove_all_from p s' (String.length p - 1)
          else String c (remove_all_from p s' 0)
      end
  end.

Definition remove_all (p s : string) : string := remove_all_from p s 0.

(** [s.replace(p, r)] for a literal [p]: the first occurrence only. *)
Fixpoint replace_first (p r s : string) : string :=
  if String.prefix p s then r +:+ drop_chars (String.length p) s
  else match s with
       | EmptyString => EmptyString
       | String c s' => String c (replace_first p r s')
       end.

(** [s.split(",")]. *)
Fixpoint split_on (sep : ascii) (s : string) : list string :=
  match s with
  | EmptyString => [EmptyString]
  | String c s' =>
      let r := split_on sep s' in
      if Ascii.eqb c sep then EmptyString :: r
      else match r with
           | h :: t => String c h :: t
           | [] => [String c EmptyString]
           end
  end.

(** [s.split(/\W+/)]: the pieces between maximal runs of non-word
    code units. *)
Fixpoint split_nonword (s : string) : list string :=
  match s with
  | EmptyString => [EmptyString]
  | String c s' =>
      if is_word c then
        match split_nonword s' with
        | h :: t => String c h :: t
        | [] => [String c EmptyString]
        end
      else
        match s' with
        | String c' _ =>
            if is_word c' then EmptyString :: split_nonword s'
            else split_nonword s'
        | EmptyString => EmptyString :: split_nonword s'
        end
  end.

(** [l.join(sep)]. *)
Fixpoint join (sep : string) (l : list string) : string :=
  match l with
  | [] => EmptyString
  | [x] => x
  | x :: rest => x +:+ sep +:+ join sep rest
  end.

(** [/p$/i.test(s)] for a literal [p]. *)
Definition ends_with_ci (s p : string) : bool :=
  let n := String.length s in
  let m := String.length p in
  (m <=? n)%nat && starts_with_ci p (String.substring (n - m) m s).

(** [s.replace(/p$/i, r)] for a literal [p]. *)
Definition replace_suffix_ci (p r s : string) : string :=
  if ends_with_ci s p then drop_last (String.length p) s +:+ r else s.

(** [s.replace(/p$/, r)] for a literal [p]. *)
Definition replace_suffix (p r s : string) : string :=
  if endsWith s p then drop_last (String.length p) s +:+ r else s.

(** [n] digits at the start of [s]: what follows them. *)
Fixpoint after_digits (n : nat) (s : string) : option string :=
  match n with
  | O => Some s
  | S n' =>
      match s with
      | String c s' => if is_digit c then after_digits n' s' else None
      | EmptyString => None
      end
  end.

(** One given code unit at the start of [s]: what follows it. *)
Definition after_char (c : ascii) (s : option string) : option string :=
  match s with
  | Some (String c' s') => if Ascii.eqb c c' then Some s' else None
  | _ => None
  end.

Definition and_then (s : option string) (f : string -> option string)
  : option string :=
  match s with
  | Some x => f x
  | None => None
  end.

Definition matched (s : option string) : bool :=
  match s with
  | Some _ => true
  | None => false
  end.

(** The number of code units at the start of [s] that satisfy [p]. *)
Fixpoint count_leading (p : ascii -> bool) (s : string) : nat :=
  match s with
  | String c s' => if p c then S (count_leading p s') else O
  | EmptyString => O
  end.

(** The double quote and the line feed, as one-unit strings. *)
Definition dq : string := String (ascii_of_nat 34) EmptyString.
Definition nl : string := String (ascii_of_nat 10) EmptyString.

End JsString.

(** ** Numbers *)

Module JsNumber.

Definition Qlt_bool (a b : Q) : bool := negb (Qle_bool b a).

(** [a / b] where a zero divisor gives no finite number. *)
Definition div (a b : Q) : option Q :=
  if Qeq_bool b 0 then None else Some (a / b)%Q.

(** [x > c] for a number that can be [NaN]. *)
Definition gt (x : option Q) (c : Q) : bool :=
  match x with
  | Some q => Qlt_bool c q
  | None => false
  end.

Definition Qabs_lt (q c : Q) : bool := Qlt_bool (Qabs q) c.

End JsNumber.

(** ** The numbers of the engine *)

Module JsDouble.

(** The numbers of the engine are IEEE doubles, rounded at every
    operation, with two infinities and [NaN].  Where the result of the code
    depends on that, numbers are kept abstract: a type with the operations
    the code applies, of which nothing is assumed here.  A theorem names
    the laws of doubles it relies on. *)
Record Ops : Type := {
  number : Type;
  (* the number that a literal, an index or a length denotes *)
  lit : Q -> number;
  add : number -> number -> number;
  sub : number -> number -> number;
  mul : number -> number -> number;
  div : number -> number -> number;
  (* [Math.abs] *)
  abs : number -> number;
  (* [a < b], [a <= b] and [a === b] *)
  lt : number -> number -> bool;
  le : number -> number -> bool;
  strictEq : number -> number -> bool;
  isNaN : number -> bool
}.

Arguments lit {_} _.
Arguments add {_} _ _.
Arguments sub {_} _ _.
Arguments mul {_} _ _.
Arguments div {_} _ _.
Arguments abs {_} _.
Arguments lt {_} _ _.
Arguments le {_} _ _.
Arguments strictEq {_} _ _.
Arguments isNaN {_} _.

(** One structure of this kind: the rationals with [NaN], computed
    exactly. *)
Definition lift2 (f : Q -> Q -> Q) (a b : option Q) : option Q :=
  match a, b with
  | Some x, Some y => Some (f x y)
  | _, _ => None
  end.

Definition test2 (f : Q -> Q -> bool) (a b : option Q) : bool :=
  match a, b with
  | Some x, Some y => f x y
  | _, _ => false
  end.

Definition Rational : Ops :=
  {| number := option Q;
     lit := Some;
     add := lift2 Qplus;
     sub := lift2 Qminus;
     mul := lift2 Qmult;
     div := fun a b =>
              match a, b with
              | Some x, Some y => JsNumber.div x y
              | _, _ => None
              end;
     abs := option_map Qabs;
     lt := test2 JsNumber.Qlt_bool;
     le := test2 Qle_bool;
     strictEq := test2 Qeq_bool;
     isNaN := fun a => match a with Some _ => false | None => true end |}.

End JsDouble.

(** ** Array.prototype.sort *)

Module JsArray.

Section Sort.
Context {A : Type}.
(** The comparator's result; [None] is [NaN], which [sort] reads as 0. *)
Variable cmp : A -> A -> option Q.

Definition comes_before (x y : A) : bool :=
  match cmp x y with
  | Some q => JsNumber.Qlt_bool q 0
  | None => false
  end.

Fixpoint insert_sorted (x : A) (l : list A) : list A :=
  match l with
  | [] => [x]
  | y :: l' => if comes_before x y then x :: l else y :: insert_sorted x l'
  end.

(** A stable sort: elements are inserted in their original order, each
    after the elements it does not strictly precede. *)
Definition sort (l : list A) : list A :=
  fold_left (fun acc x => insert_sorted x acc) l [].

End Sort.

(** [[...new Set(l)]]: the first occurrence of each element, in order. *)
Fixpoint unique {A : Type} (eqb : A -> A -> bool) (l : list A) : list A :=
  match l with
  | [] => []
  | x :: l' => x :: List.filter (fun y => negb (eqb x y)) (unique eqb l')
  end.

(** [l.slice(i, j)]. *)
Definition slice {A : Type} (i j : nat) (l : list A) : list A :=
  firstn (j - i) (skipn i l).

End JsArray.

(** ** Errors and throwing computations *)

Module Js.

(** An [Error] object: its message and the [statusCode] property, which
    only the gateway sets. *)
Record Error : Type := mkError {
  message : string;
  statusCode : option Z
}.

(** [new Error(msg)]. *)
Definition new_Error (msg : string) : Error := mkError msg None.

(** The decimal text of a natural number, as a template literal prints it. *)
Definition nat_to_string (n : nat) : string :=
  DecimalString.NilZero.string_of_uint (Nat.to_uint n).

End Js.

(** ** MistralService: the LLM gateway *)

Module MistralService.
Import JsString Js.

Definition maxRetries : nat := 3.
Definition baseDelay : Q := 1000.

(** What a run leaves behind: each call of the operation and each wait. *)
Inductive Event : Type :=
| Invoked
| Delayed (ms : Q).

(** [error.statusCode === n]. *)
Definition has_status (error : Error) (n : Z) : bool :=
  match statusCode error with
  | Some s => (s =? n)%Z
  | None => false
  end.

(** [error?.statusCode === 429 || (error.message &&
    error.message.includes("429")) || (error.message &&
    error.message.includes("rate limit"))]; an empty message is falsy. *)
Definition isRateLimit (error : Error) : bool :=
  has_status error 429
  || (negb (String.eqb (message error) "") && includes (message error) "429")
  || (negb (String.eqb (message error) "")
      && includes (message error) "rate limit").

Section Retry.
(** The outside world: the remote service and the random generator. *)
Variable World : Type.
Variable A : Type.
Variable operation : World -> (Error + A) * World.
(** [Math.random()]. *)
Variable random : World -> Q * World.

(** [baseDelay * Math.pow(2, retryCount + 1) + Math.random() * 1000]. *)
Definition delayTime (retryCount : nat) (rnd : Q) : Q :=
  (baseDelay * inject_Z (2 ^ Z.of_nat (retryCount + 1)) + rnd * 1000)%Q.

Definition rateLimitExceeded : Error :=
  new_Error "API rate limit exceeded. Please try again later.".

Definition maxAttemptsExceeded (error : Error) : Error :=
  new_Error ("Maximum retry attempts (" +:+ nat_to_string maxRetries
             +:+ ") exceeded: " +:+ message error).

(** [retryWithBackoff(operation, retryCount)]; [fuel] bounds the depth of
    the recursion, and [None] is a run that needs more of it. *)
Fixpoint retryWithBackoff_fuel (fuel retryCount : nat) (w : World)
  : option ((Error + A) * list Event * World) :=
  match fuel with
  | O => None
  | S fuel' =>
      let '(r, w1) := operation w in
      match r with
      | inr v => Some (inr v, [Invoked], w1)
      | inl error =>
          if isRateLimit error && (retryCount <? maxRetries)%nat then
            let '(rnd, w2) := random w1 in
            match retryWithBackoff_fuel fuel' (retryCount + 1) w2 with
            | Some (r', tr, w3) =>
                Some (r', Invoked :: Delayed (delayTime retryCount rnd) :: tr, w3)
            | None => None
            end
          else if (maxRetries <=? retryCount)%nat then
            if isRateLimit error
            then Some (inl rateLimitExceeded, [Invoked], w1)
            else Some (inl (maxAttemptsExceeded error), [Invoked], w1)
          else Some (inl error, [Invoked], w1)
      end
  end.

Definition retryWithBackoff (retryCount : nat) (w : World)
  : option ((Error + A) * list Event * World) :=
  retryWithBackoff_fuel (S (maxRetries - retryCount)) retryCount w.

End Retry.

(** The waits of a run, in order. *)
Fixpoint delays (tr : list Event) : list Q :=
  match tr with
  | [] => []
  | Invoked :: tr' => delays tr'
  | Delayed d :: tr' => d :: delays tr'
  end.

(** The number of times the operation ran. *)
Fixpoint invocations (tr : list Event) : nat :=
  match tr with
  | [] => O
  | Invoked :: tr' => S (invocations tr')
  | Delayed _ :: tr' => invocations tr'
  end.

(** One message of the chat transport. *)
Record Message : Type := { role : string; content : string }.

(** What [fetch] answers: [response.ok], [response.status], the text
    [JSON.stringify] gives for the error body, and the outcome of reading
    [data.choices[0].message.content]. *)
Record Response : Type := {
  ok : bool;
  status : nat;
  errorText : string;
  completion : Error + string
}.

Section Generate.
Variable World : Type.
Variable fetch : list Message -> World -> (Error + Response) * World.
Variable random : World -> Q * World.

(** The body of the request: an inner [try] whose [catch] re-tags the
    failure. *)
Definition request (messages : list Message) (w : World)
  : (Error + string) * World :=
  let '(r, w1) := fetch messages w in
  let attempt : Error + string :=
    match r with
    | inl e => inl e
    | inr response =>
        if negb (ok response) then
          if (status response =? 429)%nat
          then inl (mkError "Requests rate limit exceeded" (Some 429%Z))
          else inl (new_Error ("Mistral API error: "
                               +:+ nat_to_string (status response)
                               +:+ " " +:+ errorText response))
        else completion response
    end in
  match attempt with
  | inr text => (inr text, w1)
  | inl error =>
      if has_status error 429
         || (negb (String.eqb (message error) "")
             && includes (message error) "rate limit")
      then (inl (mkError "Rate limit exceeded" (Some 429%Z)), w1)
      else (inl (new_Error ("AI Service Error: " +:+ message error)), w1)
  end.

(** [generateMistralResponse(prompt, conversationHistory)]. *)
Definition generateMistralResponse (prompt : string)
  (conversationHistory : list Message) (w : World)
  : option ((Error + string) * list Event * World) :=
  let messages :=
    (conversationHistory ++ [{| role := "user"; content := prompt |}])%list in
  retryWithBackoff World string (request messages) random 0 w.

End Generate.

End MistralService.

(** ** Plain objects used as dictionaries *)

Module JsObject.

(** The own properties of an object, in [Object.keys] order. *)
Definition obj (V : Type) : Type := list (string * V).

Fixpoint get {V : Type} (o : obj V) (k : string) : option V :=
  match o with
  | [] => None
  | (k', v) :: o' => if String.eqb k k' then Some v else get o' k
  end.

Definition has {V : Type} (o : obj V) (k : string) : bool :=
  match get o k with
  | Some _ => true
  | None => false
  end.

Definition keys {V : Type} (o : obj V) : list string := map fst o.

(** [o[k] = v]: an existing property keeps its place, a new one goes last. *)
Fixpoint set {V : Type} (o : obj V) (k : string) (v : V) : obj V :=
  match o with
  | [] => [(k, v)]
  | (k', v') :: o' =>
      if String.eqb k k' then (k, v) :: o' else (k', v') :: set o' k v
  end.

(** The property names that every plain object inherits from
    [Object.prototype]: eleven functions, and the accessor [__proto__],
    which reads as the prototype itself. *)
Definition prototypeNames : list string :=
  ["constructor"; "__defineGetter__"; "__defineSetter__"; "hasOwnProperty";
   "__lookupGetter__"; "__lookupSetter__"; "isPrototypeOf";
   "propertyIsEnumerable"; "toString"; "valueOf"; "__proto__";
   "toLocaleString"].

Definition inherited (k : string) : bool :=
  existsb (String.eqb k) prototypeNames.

(** Whether [o[k]] is truthy, for an object whose own values all are: [k]
    is an own property, or a name that [o[k]] finds on the prototype. *)
Definition truthyAt {V : Type} (o : obj V) (k : string) : bool :=
  has o k || inherited k.

End JsObject.

(** ** SqlGenerationService: the SQL synthesizer *)

Module SqlGenerationService.
Import JsString Js.

(** *** cleanSQLResponse *)

Definition sqlKeywords : list string :=
  ["SELECT"; "WITH"; "INSERT"; "UPDATE"; "DELETE"].

(** [sql.match(/(SELECT|WITH|INSERT|UPDATE|DELETE)[\s\S]*/i)]: the text
    from the leftmost keyword to the end. *)
Fixpoint matchSql (sql : string) : option string :=
  if existsb (fun kw => starts_with_ci kw sql) sqlKeywords then Some sql
  else match sql with
       | EmptyString => None
       | String _ sql' => matchSql sql'
       end.

Definition defaultQuery : string := "SELECT * FROM users LIMIT 10".

Definition cleanSQLResponse (response : string) : string :=
  if String.eqb response "" then ""
  else
    let sql := remove_all "```" (remove_all "```sql" response) in
    match matchSql sql with
    | Some m => trim m
    | None => defaultQuery
    end.

(** [/^(SELECT|WITH)/i.test(sql.trim())]. *)
Definition startsWithSelectOrWith (sql : string) : bool :=
  starts_with_ci "SELECT" (trim sql) || starts_with_ci "WITH" (trim sql).

(** *** The knowledge base and findSimilarQueries *)

Record QueryPattern : Type := {
  query : string;
  userPrompt : string;
  tables : list string;
  joins : list string;
  whereConditions : string;
  resultCount : nat;
  timestamp : string
}.

(** [{...entry, similarity}]. *)
Record ScoredPattern : Type := {
  entry : QueryPattern;
  similarity : option Q
}.

(** [new Set(text.toLowerCase().split(/\W+/).filter(w => w.length > 2))],
    as the list of its members in insertion order. *)
Definition wordSet (text : string) : list string :=
  JsArray.unique String.eqb
    (List.filter (fun w => (2 <? String.length w)%nat)
       (split_nonword (toLowerCase text))).

Definition has_word (words : list string) (w : string) : bool :=
  existsb (String.eqb w) words.

(** The count kept by [promptWords.forEach]. *)
Definition overlap (promptWords entryWords : list string) : nat :=
  List.length (List.filter (has_word entryWords) promptWords).

(** [overlap / Math.max(promptWords.size, entryWords.size)]. *)
Definition wordSimilarity (promptWords entryWords : list string) : option Q :=
  JsNumber.div (inject_Z (Z.of_nat (overlap promptWords entryWords)))
    (inject_Z (Z.of_nat (Nat.max (List.length promptWords)
                                 (List.length entryWords)))).

Definition score (promptWords : list string) (e : QueryPattern)
  : ScoredPattern :=
  {| entry := e;
     similarity := wordSimilarity promptWords (wordSet (userPrompt e)) |}.

(** [(a, b) => b.similarity - a.similarity]. *)
Definition bySimilarityDesc (a b : ScoredPattern) : option Q :=
  match similarity b, similarity a with
  | Some sb, Some sa => Some (sb - sa)%Q
  | _, _ => None
  end.

Definition findSimilarQueries (successfulQueries : list QueryPattern)
  (prompt : string) : list ScoredPattern :=
  let promptWords := wordSet prompt in
  JsArray.slice 0 3
    (JsArray.sort bySimilarityDesc
       (List.filter (fun e => JsNumber.gt (similarity e) (3 # 10))
          (map (score promptWords) successfulQueries))).

(** *** identifyRelevantTables *)

(** One column of a table, as the introspection reports it. *)
Record Column : Type := {
  column_name : string;
  data_type : string
}.

Record TableInfo : Type := { columns : list Column }.

(** The schema snapshot: table name to table description. *)
Definition Schemas : Type := JsObject.obj TableInfo.

(** [text.replace(/```.*?\n?/g, "")]: the lazy [.*?] matches nothing, so
    each fence goes together with a line feed right after it. *)
Fixpoint strip_fences_from (s : string) (skip : nat) : string :=
  match s with
  | EmptyString => EmptyString
  | String c s' =>
      match skip with
      | S k => strip_fences_from s' k
      | O =>
          if String.prefix "```" s then
            strip_fences_from s'
              (if String.prefix nl (drop_chars 3 s) then 3 else 2)
          else String c (strip_fences_from s' 0)
      end
  end.

Definition strip_fences (s : string) : string := strip_fences_from s 0.

Definition pad12 : string := "            ".

Definition tableIdentificationPrompt (prompt : string) (schemas : Schemas)
  : string :=
  nl +:+ pad12 +:+ "Given this user request: " +:+ dq +:+ prompt +:+ dq
  +:+ nl +:+ pad12 +:+ "And these table names: "
  +:+ join ", " (JsObject.keys schemas)
  +:+ nl +:+ pad12
  +:+ nl +:+ pad12
  +:+ "Analyze the request carefully to determine which tables are most relevant."
  +:+ nl +:+ pad12 +:+ "Consider:"
  +:+ nl +:+ pad12
  +:+ "1. Direct mentions of table names or their singular/plural forms"
  +:+ nl +:+ pad12
  +:+ "2. References to data that would be stored in specific tables"
  +:+ nl +:+ pad12
  +:+ "3. The relationships between tables that might be needed to fulfill the request"
  +:+ nl +:+ pad12
  +:+ nl +:+ pad12
  +:+ "Return only the names of tables that are relevant to this query, as a comma-separated list."
  +:+ nl +:+ pad12
  +:+ "Be thorough - include all tables that might be needed to properly answer the query."
  +:+ nl +:+ pad12 +:+ "Do not include any additional text or formatting."
  +:+ nl +:+ "        ".

Section Identify.
Variable World : Type.
(** [this.mistralService.generateMistralResponse], injected by the
    constructor. *)
Variable generateMistralResponse : string -> World -> (Error + string) * World.

(** [table && schemas[table]]: a non-empty name under which the schema,
    a plain object, holds a table or inherits a property. *)
Definition knownTable (schemas : Schemas) (table : string) : bool :=
  negb (String.eqb table "") && JsObject.truthyAt schemas table.

Definition identifyRelevantTables (prompt : string) (schemas : Schemas)
  (w : World) : (Error + list string) * World :=
  let '(r, w1) :=
    generateMistralResponse (tableIdentificationPrompt prompt schemas) w in
  match r with
  | inl e => (inl e, w1)
  | inr relevantTablesStr =>
      (inr (List.filter (knownTable schemas)
              (map (fun table => toLowerCase (trim table))
                 (split_on "," (strip_fences relevantTablesStr)))), w1)
  end.

End Identify.

End SqlGenerationService.

(** ** Values and rows *)

Module JsValue.

(** The scalars a result row holds. *)
Inductive value : Type :=
| VUndefined
| VNull
| VBool (b : bool)
| VNum (q : Q)
| VNaN
| VStr (s : string).

(** A result row: column name to value. *)
Definition row : Type := JsObject.obj value.

(** [row[k]]. *)
Definition field (r : row) (k : string) : value :=
  match JsObject.get r k with
  | Some v => v
  | None => VUndefined
  end.

(** [v === null || v === undefined]. *)
Definition nullish (v : value) : bool :=
  match v with
  | VUndefined | VNull => true
  | _ => false
  end.

(** [a === b]. *)
Definition strict_eq (a b : value) : bool :=
  match a, b with
  | VUndefined, VUndefined => true
  | VNull, VNull => true
  | VBool x, VBool y => Bool.eqb x y
  | VNum x, VNum y => Qeq_bool x y
  | VStr x, VStr y => String.eqb x y
  | _, _ => false
  end.

(** The equality of [Set] and [includes]: [NaN] equals itself. *)
Definition same_value_zero (a b : value) : bool :=
  match a, b with
  | VNaN, VNaN => true
  | _, _ => strict_eq a b
  end.

(** [[...new Set(l)]] on values. *)
Definition uniq (l : list value) : list value :=
  JsArray.unique same_value_zero l.

(** A non-empty string: [typeof v === "string" && v.trim() !== ""]. *)
Definition nonblank_string (v : value) : bool :=
  match v with
  | VStr s => negb (String.eqb (JsString.trim s) "")
  | _ => false
  end.

End JsValue.

(** ** The heap of mutable objects *)

Module JsHeap.
Import JsValue.

(** The statistics of one column, and the results object that
    [enrichDataWithCalculations] hangs on its copy: its [aggregates]
    property when it has one, and the names of its other properties. *)
Record Aggregate : Type := { mean : value; stdDev : value }.

Record CalculationResults : Type := {
  aggregates : option (JsObject.obj Aggregate);
  otherKeys : list string
}.

(** A reference to an object. *)
Definition loc : Type := positive.

(** A mutable object: a row, or an array of references to rows with the
    [calculationResults] property it may carry. *)
Inductive object : Type :=
| ORow (fields : row)
| OArray (items : list loc) (calculationResults : option CalculationResults).

Abbreviation heap := (gmap loc object).

(** A computation on the heap; [None] is a read through a reference that
    holds no object of the expected kind, which a well-formed heap excludes. *)
Definition M (A : Type) : Type := heap -> option (A * heap).

Definition ret {A : Type} (a : A) : M A := fun h => Some (a, h).

Definition bind {A B : Type} (m : M A) (f : A -> M B) : M B :=
  fun h =>
    match m h with
    | Some (a, h') => f a h'
    | None => None
    end.

Declare Scope heap_scope.
Delimit Scope heap_scope with heap.
Notation "x <- m ;; k" := (bind m (fun x => k))
  (at level 100, m at next level, right associativity) : heap_scope.
Notation "m ;;; k" := (bind m (fun _ => k))
  (at level 100, right associativity) : heap_scope.

(** A new object, at a reference the heap does not use yet. *)
Definition alloc (o : object) : M loc :=
  fun h => let l := fresh (dom h) in Some (l, <[l := o]> h).

Definition read_row (l : loc) : M row :=
  fun h =>
    match h !! l with
    | Some (ORow r) => Some (r, h)
    | _ => None
    end.

Definition read_items (l : loc) : M (list loc) :=
  fun h =>
    match h !! l with
    | Some (OArray items _) => Some (items, h)
    | _ => None
    end.

(** [row[k] = v] on the row object at [l]. *)
Definition set_field (l : loc) (k : string) (v : value) : M unit :=
  fun h =>
    match h !! l with
    | Some (ORow r) => Some (tt, <[l := ORow (JsObject.set r k v)]> h)
    | _ => None
    end.

(** [array.calculationResults = c]. *)
Definition set_calculationResults (l : loc) (c : CalculationResults) : M unit :=
  fun h =>
    match h !! l with
    | Some (OArray items _) => Some (tt, <[l := OArray items (Some c)]> h)
    | _ => None
    end.

(** A loop over a list, in order. *)
Fixpoint for_each {A : Type} (l : list A) (body : A -> M unit) : M unit :=
  match l with
  | [] => ret tt
  | x :: l' => bind (body x) (fun _ => for_each l' body)
  end.

Fixpoint map_m {A B : Type} (f : A -> M B) (l : list A) : M (list B) :=
  match l with
  | [] => ret []
  | x :: l' =>
      bind (f x) (fun y => bind (map_m f l') (fun ys => ret (y :: ys)))
  end.

(** What [JSON.stringify] then [JSON.parse] make of a row: a property
    that is [undefined] is dropped, and [NaN] becomes [null]. *)
Definition json_row (r : row) : row :=
  omap (fun kv : string * value =>
          match snd kv with
          | VUndefined => None
          | VNaN => Some (fst kv, VNull)
          | v => Some (fst kv, v)
          end) r.

Definition copy_row (l : loc) : M loc :=
  (r <- read_row l ;; alloc (ORow (json_row r)))%heap.

(** [JSON.parse(JSON.stringify(data))] on an array of rows: new row
    objects and a new array, which has no named property. *)
Definition deep_copy (data : loc) : M loc :=
  (items <- read_items data ;;
   copies <- map_m copy_row items ;;
   alloc (OArray copies None))%heap.

(** The rows an array reference stands for. *)
Definition contents (h : heap) (data : loc) : option (list row) :=
  match read_items data h with
  | Some (items, _) =>
      match map_m read_row items h with
      | Some (rows, _) => Some rows
      | None => None
      end
  | None => None
  end.

End JsHeap.

(** ** AnalyticsService: the statistics utilities *)

Module AnalyticsService.
Import JsString JsValue.

(** [null] or a number, as [calculateCorrelation] returns it. *)
Inductive Correlation : Type :=
| CNull
| CNumber (n : option Q).

(** What [calculateCorrelationMatrix] returns: [{error}] or [{matrix}]. *)
Inductive MatrixResult : Type :=
| MatrixError (error : string)
| Matrix (matrix : gmap string (gmap string Correlation)).

Record OutlierResult : Type := {
  outliers : list row;
  normalData : option (list row);
  bounds : option (option Q * option Q);
  quartiles : option (option Q * option Q)
}.

Section DataUtils.
(** [parseFloat], [NaN] being [None]. *)
Variable parseFloat : value -> option Q.
(** [sampleCorrelation] of the statistics library; it may throw. *)
Variable sampleCorrelation : list Q -> list Q -> Js.Error + option Q.

(** [data.map(item => parseFloat(item[field])).filter(v => !isNaN(v))]. *)
Definition numericValues (data : list row) (fld : string) : list Q :=
  omap (fun item => parseFloat (field item fld)) data.

Definition calculateCorrelation (data : option (list row))
  (fieldX fieldY : string) : Correlation :=
  match data with
  | None => CNull
  | Some rows =>
      if (List.length rows <? 3)%nat then CNull
      else
        let pairs :=
          omap (fun item =>
                  match parseFloat (field item fieldX),
                        parseFloat (field item fieldY) with
                  | Some x, Some y => Some (x, y)
                  | _, _ => None
                  end) rows in
        if (List.length pairs <? 3)%nat then CNull
        else
          match sampleCorrelation (map fst pairs) (map snd pairs) with
          | inr r => CNumber r
          | inl _ => CNull
          end
  end.

(** [matrix[field1][field2] = c]; the row of [field1] exists, the
    initialisation having created one for every field. *)
Definition setEntry (matrix : gmap string (gmap string Correlation))
  (field1 field2 : string) (c : Correlation)
  : gmap string (gmap string Correlation) :=
  alter (fun r => <[field2 := c]> r) field1 matrix.

(** The initialisation: [matrix[field1] = {}], then one entry per field. *)
Definition initRow (fields : list string) (field1 : string)
  : gmap string Correlation :=
  fold_left
    (fun r field2 =>
       <[field2 := if String.eqb field1 field2
                   then CNumber (Some 1%Q) else CNull]> r)
    fields ∅.

Definition initMatrix (fields : list string)
  : gmap string (gmap string Correlation) :=
  fold_left (fun m field1 => <[field1 := initRow fields field1]> m) fields ∅.

(** The inner loop, [j] from [i + 1]. *)
Definition fillRow (data : option (list row)) (field1 : string)
  (rest : list string) (matrix : gmap string (gmap string Correlation))
  : gmap string (gmap string Correlation) :=
  fold_left
    (fun m field2 =>
       let correlation := calculateCorrelation data field1 field2 in
       setEntry (setEntry m field1 field2 correlation)
         field2 field1 correlation)
    rest matrix.

(** The outer loop over [i]. *)
Fixpoint fillMatrix (data : option (list row)) (fields : list string)
  (matrix : gmap string (gmap string Correlation))
  : gmap string (gmap string Correlation) :=
  match fields with
  | [] => matrix
  | field1 :: rest => fillMatrix data rest (fillRow data field1 rest matrix)
  end.

Definition calculateCorrelationMatrix (data : option (list row))
  (fields : list string) : MatrixResult :=
  match data with
  | None => MatrixError "Insufficient data for correlation matrix"
  | Some rows =>
      if (List.length rows =? 0)%nat || (List.length fields <? 2)%nat
      then MatrixError "Insufficient data for correlation matrix"
      else Matrix (fillMatrix data fields (initMatrix fields))
  end.

(** [matrix[a][b]]. *)
Definition entry (matrix : gmap string (gmap string Correlation))
  (a b : string) : option Correlation :=
  match matrix !! a with
  | Some r => r !! b
  | None => None
  end.

(** [x < y] and [x > y] on numbers that can be [NaN]. *)
Definition lt_nan (x y : option Q) : bool :=
  match x, y with
  | Some a, Some b => JsNumber.Qlt_bool a b
  | _, _ => false
  end.

Definition le_nan (x y : option Q) : bool :=
  match x, y with
  | Some a, Some b => Qle_bool a b
  | _, _ => false
  end.

Definition sub_nan (x y : option Q) : option Q :=
  match x, y with
  | Some a, Some b => Some (a - b)%Q
  | _, _ => None
  end.

Definition add_nan (x y : option Q) : option Q :=
  match x, y with
  | Some a, Some b => Some (a + b)%Q
  | _, _ => None
  end.

Definition scale_nan (c : Q) (x : option Q) : option Q :=
  match x with
  | Some a => Some (c * a)%Q
  | None => None
  end.

(** The IQR method. *)
Definition detectOutliers (data : option (list row)) (fld : string)
  : OutlierResult :=
  let unchanged :=
    {| outliers := []; normalData := data;
       bounds := None; quartiles := None |} in
  match data with
  | None => unchanged
  | Some rows =>
      if (List.length rows <? 4)%nat then unchanged
      else
        let values := numericValues rows fld in
        if (List.length values <? 4)%nat then unchanged
        else
          let sorted := JsArray.sort (fun a b => Some (a - b)%Q) values in
          let q1Idx := (List.length sorted / 4)%nat in
          let q3Idx := (3 * List.length sorted / 4)%nat in
          let q1 := sorted !! q1Idx in
          let q3 := sorted !! q3Idx in
          let iqr := sub_nan q3 q1 in
          let lowerBound := sub_nan q1 (scale_nan (3 # 2) iqr) in
          let upperBound := add_nan q3 (scale_nan (3 # 2) iqr) in
          {| outliers :=
               List.filter
                 (fun item =>
                    match parseFloat (field item fld) with
                    | Some val =>
                        lt_nan (Some val) lowerBound
                        || lt_nan upperBound (Some val)
                    | None => false
                    end) rows;
             normalData :=
               Some (List.filter
                       (fun item =>
                          match parseFloat (field item fld) with
                          | Some val =>
                              le_nan lowerBound (Some val)
                              && le_nan (Some val) upperBound
                          | None => true
                          end) rows);
             bounds := Some (lowerBound, upperBound);
             quartiles := Some (q1, q3) |}
  end.

End DataUtils.

(** *** detectTrend *)

(** The details of a trend: the numbers are the engine's. *)
Record TrendDetails (D : JsDouble.Ops) : Type := {
  slope : JsDouble.number D;
  firstValue : JsDouble.number D;
  lastValue : JsDouble.number D;
  changePercent : JsDouble.number D
}.

Arguments slope {D} _.
Arguments firstValue {D} _.
Arguments lastValue {D} _.
Arguments changePercent {D} _.

Record TrendResult (D : JsDouble.Ops) : Type := {
  trend : string;
  details : option (TrendDetails D)
}.

Arguments trend {D} _.
Arguments details {D} _.

Section Trend.
Import JsDouble.
Variable D : Ops.
(** [parseFloat], a number or [NaN]. *)
Variable parseFloat : value -> number D.
(** [sum] of the statistics library. *)
Variable sum : list (number D) -> number D.
(** [new Date(v)] as a number of milliseconds, [None] for an invalid
    date. *)
Variable dateValue : value -> option Q.
(** [Array.prototype.sort] under a comparator that is no consistent order:
    the order of the result is the engine's own. *)
Variable implementationSort :
  (row -> row -> option Q) -> list row -> list row.

(** [data.map(item => parseFloat(item[field])).filter(v => !isNaN(v))]. *)
Definition numbers (data : list row) (fld : string) : list (number D) :=
  List.filter (fun val => negb (isNaN val))
    (map (fun item => parseFloat (field item fld)) data).

(** [[...data].sort((a, b) => new Date(a[timeField]) - new Date(b[timeField]))].
    The difference of two valid dates is exact, and when every row has one
    the comparator is a consistent order: the result is the stable sort.
    With an invalid date the difference is [NaN] and the comparator is
    not consistent. *)
Definition sortByTime (rows : list row) (timeField : string) : list row :=
  let compare (a b : row) :=
    sub_nan (dateValue (field a timeField)) (dateValue (field b timeField)) in
  if forallb (fun item => match dateValue (field item timeField) with
                          | Some _ => true
                          | None => false
                          end) rows
  then JsArray.sort compare rows
  else implementationSort compare rows.

(** [Array.from({ length: n }, (_, i) => i)]. *)
Definition indices (n : nat) : list (number D) :=
  map (fun i => lit (inject_Z (Z.of_nat i))) (seq 0 n).

(** [indices.map((x, i) => x * values[i])]. *)
Fixpoint products (xs ys : list (number D)) : list (number D) :=
  match xs, ys with
  | x :: xs', y :: ys' => mul x y :: products xs' ys'
  | _, _ => []
  end.

(** The trend of a slope. *)
Definition classify (slope : number D) : string :=
  if lt (abs slope) (lit (1 # 100)) then "stable"
  else if lt (lit 0) slope then
    if lt (lit (1 # 10)) slope then "strong increase" else "slight increase"
  else
    if lt slope (lit (- (1 # 10))) then "strong decrease"
    else "slight decrease".

(** The percent change from [first] to [last], guarded as in the source. *)
Definition percentChange (first last : number D) : number D :=
  if negb (strictEq first (lit 0))
  then mul (div (sub last first) first) (lit 100)
  else if negb (strictEq last (lit 0)) then lit 100
  else lit 0.

Definition detectTrend (data : option (list row))
  (valueField timeField : string) : TrendResult D :=
  match data with
  | None => {| trend := "insufficient data"; details := None |}
  | Some rows =>
      if (List.length rows <? 3)%nat
      then {| trend := "insufficient data"; details := None |}
      else
        let sortedData := sortByTime rows timeField in
        let values := numbers sortedData valueField in
        if (List.length values <? 3)%nat
        then {| trend := "insufficient valid data"; details := None |}
        else
          let n := lit (inject_Z (Z.of_nat (List.length values))) in
          let idx := indices (List.length values) in
          let sumX := sum idx in
          let sumY := sum values in
          let sumXY := sum (products idx values) in
          let sumXX := sum (map (fun x => mul x x) idx) in
          let slope :=
            div (sub (mul n sumXY) (mul sumX sumY))
                (sub (mul n sumXX) (mul sumX sumX)) in
          let first := nth 0 values (lit 0) in
          let last := nth (List.length values - 1) values (lit 0) in
          {| trend := classify slope;
             details :=
               Some {| slope := slope;
                       firstValue := first;
                       lastValue := last;
                       changePercent := percentChange first last |} |}
  end.

End Trend.

(** [ToNumber] of an operand of [-]; [None] is [NaN]. *)
Definition toNumber (stringToNumber : string -> option Q) (v : value)
  : option Q :=
  match v with
  | VNum q => Some q
  | VNull => Some 0%Q
  | VBool b => Some (if b then 1%Q else 0%Q)
  | VStr s => stringToNumber s
  | VNaN | VUndefined => None
  end.

Definition of_number (n : option Q) : value :=
  match n with
  | Some q => VNum q
  | None => VNaN
  end.

(** [typeof v === "number"]. *)
Definition is_number (v : value) : bool :=
  match v with
  | VNum _ | VNaN => true
  | _ => false
  end.

Section Enrich.
Import JsHeap.
(** [Number(s)] for a string, as the subtraction coerces it. *)
Variable stringToNumber : string -> option Q.

(** The body of the inner loop, for one row and one aggregate. *)
Definition addComparisons (rowRef : loc) (fld : string) (agg : Aggregate)
  : M unit :=
  (r <- read_row rowRef ;;
   match field r fld with
   | VUndefined => ret tt
   | cell =>
       if is_number (mean agg) then
         let diff :=
           sub_nan (toNumber stringToNumber cell)
                   (toNumber stringToNumber (mean agg)) in
         set_field rowRef (fld +:+ "_vs_mean") (of_number diff) ;;;
         match stdDev agg with
         | VNum sd =>
             if JsNumber.Qlt_bool 0 sd then
               set_field rowRef (fld +:+ "_z_score")
                 (of_number (match diff with
                             | Some d => JsNumber.div d sd
                             | None => None
                             end))
             else ret tt
         | _ => ret tt
         end
       else ret tt
   end)%heap.

Definition enrichDataWithCalculations (data : option loc)
  (calculationResults : option CalculationResults) : M (option loc) :=
  match calculationResults with
  | None => ret data
  | Some results =>
      if (List.length (otherKeys results)
          + match aggregates results with Some _ => 1 | None => 0 end
          =? 0)%nat
      then ret data
      else
        match data with
        | None => ret data
        | Some d =>
            (items <- read_items d ;;
             if (List.length items =? 0)%nat then ret data
             else
               enrichedData <- deep_copy d ;;
               set_calculationResults enrichedData results ;;;
               match aggregates results with
               | Some aggs =>
                   rows <- read_items enrichedData ;;
                   for_each rows (fun rowRef =>
                     for_each aggs (fun entry =>
                       addComparisons rowRef (fst entry) (snd entry))) ;;;
                   ret (Some enrichedData)
               | None => ret (Some enrichedData)
               end)%heap
        end
  end.

End Enrich.

End AnalyticsService.

(** ** DataEnrichmentService *)

Module DataEnrichmentService.
Import JsString JsValue Js.

(** A foreign-key edge of the schema. *)
Record Relationship : Type := {
  table_name : string;
  column_name : string;
  foreign_table_name : string;
  foreign_column_name : string
}.

Record ForeignKey : Type := {
  table : string;
  column : string;
  referencedTable : string;
  referencedColumn : string
}.

Record ColumnMeta : Type := {
  type : string;
  format : string;
  isId : bool;
  isName : bool;
  displayName : string
}.

(** [column.replace(/_id$/i, "").replace(/Id$/i, "")]. *)
Definition baseColumnName (column : string) : string :=
  replace_suffix_ci "Id" "" (replace_suffix_ci "_id" "" column).

Definition priorityFields : list string :=
  ["name"; "title"; "label"; "description"; "code"; "username"; "email"].

Definition findDescriptiveField (record : row) : option string :=
  match List.find (fun f => nonblank_string (field record f)) priorityFields with
  | Some f => Some f
  | None =>
      match List.find
              (fun kv : string * value =>
                 negb (endsWith (fst kv) "_id")
                 && negb (endsWith (fst kv) "Id")
                 && negb (String.eqb (fst kv) "id")
                 && nonblank_string (snd kv)) record with
      | Some kv => Some (fst kv)
      | None => None
      end
  end.

(** *** enrichDataWithRelatedInfo *)

Section RelatedInfo.
Import JsHeap.

(** The value the loop over [relatedData] leaves in [row[base + "_name"]],
    when it writes one: each table whose lower-cased name is a candidate
    and that has a record for the key writes, the last one wins. *)
Definition nameWrites (relatedData : JsObject.obj (list row))
  (column : string) (fkValue : value) : list value :=
  let base := baseColumnName column in
  let possibleTableNames :=
    [base; base +:+ "s"; base +:+ "es"; replace_suffix "y" "ies" base] in
  omap (fun entry : string * list row =>
          if existsb (String.eqb (toLowerCase (fst entry))) possibleTableNames
          then
            match List.find
                    (fun r => strict_eq (field r "id") fkValue
                              || strict_eq (field r column) fkValue)
                    (snd entry) with
            | Some relatedRecord =>
                match findDescriptiveField relatedRecord with
                | Some descriptiveField =>
                    Some (field relatedRecord descriptiveField)
                | None => None
                end
            | None => None
            end
          else None) relatedData.

(** The body of the loop over the columns of one row. *)
Definition enrichColumn (relatedData : JsObject.obj (list row))
  (rowRef : loc) (column : string) : M unit :=
  if endsWith column "_id" || endsWith column "Id" then
    (r <- read_row rowRef ;;
     let fkValue := field r column in
     if nullish fkValue then ret tt
     else
       for_each (nameWrites relatedData column fkValue)
         (fun v => set_field rowRef (baseColumnName column +:+ "_name") v))%heap
  else ret tt.

Definition enrichDataWithRelatedInfo (primaryData : option loc)
  (relatedData : option (JsObject.obj (list row))) : M (option loc) :=
  match primaryData, relatedData with
  | Some p, Some related =>
      (items <- read_items p ;;
       if (List.length items =? 0)%nat
          || (List.length (JsObject.keys related) =? 0)%nat
       then ret primaryData
       else
         enrichedData <- deep_copy p ;;
         rows <- read_items enrichedData ;;
         for_each rows (fun rowRef =>
           r <- read_row rowRef ;;
           for_each (JsObject.keys r) (enrichColumn related rowRef)) ;;;
         ret (Some enrichedData))%heap
  | _, _ => ret primaryData
  end.

End RelatedInfo.

(** *** ensureDataConsistency *)

Section Consistency.
Import JsHeap.
(** [parseFloat], [NaN] being [None]. *)
Variable parseFloat : value -> option Q.
(** [new Date(v).getTime()], [NaN] being [None]. *)
Variable dateValue : value -> option Q.
(** [String.prototype.toUpperCase]. *)
Variable toUpperCase : string -> string.

Record TypeCounts : Type := {
  numbers : nat;
  strings : nat;
  booleans : nat;
  dates : nat;
  nulls : nat
}.

(** [/^\d{4}-\d{2}-\d{2}/] and [/^\d{2}\/\d{2}\/\d{4}/]. *)
Definition looksLikeIsoDate (s : string) : bool :=
  matched
    (and_then (after_char "-" (and_then (after_char "-" (after_digits 4 s))
                                 (after_digits 2)))
       (after_digits 2)).

Definition looksLikeSlashDate (s : string) : bool :=
  matched
    (and_then (after_char "/" (and_then (after_char "/" (after_digits 2 s))
                                 (after_digits 2)))
       (after_digits 4)).

Definition mightBeDate (column : string) : bool :=
  let c := toLowerCase column in
  includes c "date" || includes c "time" || includes c "created"
  || includes c "updated".

Definition countValue (dateColumn : bool) (c : TypeCounts) (v : value)
  : TypeCounts :=
  let number := {| numbers := S (numbers c); strings := strings c;
                   booleans := booleans c; dates := dates c;
                   nulls := nulls c |} in
  let str := {| numbers := numbers c; strings := S (strings c);
                booleans := booleans c; dates := dates c;
                nulls := nulls c |} in
  match v with
  | VNull | VUndefined =>
      {| numbers := numbers c; strings := strings c; booleans := booleans c;
         dates := dates c; nulls := S (nulls c) |}
  | VNum _ | VNaN => number
  | VBool _ =>
      {| numbers := numbers c; strings := strings c;
         booleans := S (booleans c); dates := dates c; nulls := nulls c |}
  | VStr s =>
      if dateColumn && (looksLikeIsoDate s || looksLikeSlashDate s) then
        match dateValue v with
        | Some _ =>
            {| numbers := numbers c; strings := strings c;
               booleans := booleans c; dates := S (dates c);
               nulls := nulls c |}
        | None => str
        end
      else
        match parseFloat v with
        | Some _ => if String.eqb (trim s) "" then str else number
        | None => str
        end
  end.

(** The most common type, nulls apart; ["string"] when nothing counts. *)
Definition mostCommonType (c : TypeCounts) : string :=
  fst (fold_left
         (fun best entry =>
            if (snd best <? snd entry)%nat then entry else best)
         [("number", numbers c); ("string", strings c);
          ("boolean", booleans c); ("date", dates c)]
         ("string", O)).

Definition is_integer (q : Q) : bool := (Qden (Qred q) =? 1)%positive.

(** The format of a column, when the first pass sets one. *)
Definition columnFormat (rows : list row) (column type : string)
  : option string :=
  let c := toLowerCase column in
  if String.eqb type "number" then
    if includes c "price" || includes c "cost" || includes c "amount"
       || includes c "total" then Some "currency"
    else if includes c "percent" || includes c "rate" then Some "percent"
    else
      if forallb
           (fun r =>
              match field r column with
              | VNull | VUndefined | VStr _ => true
              | v => match parseFloat v with
                     | Some q => is_integer q
                     | None => false
                     end
              end) rows
      then Some "integer" else Some "decimal"
  else if String.eqb type "date" then Some "date"
  else None.

(** [column.replace(/_/g, " ").replace(/([A-Z])/g, " $1")]. *)
Fixpoint spaced (s : string) : string :=
  match s with
  | EmptyString => EmptyString
  | String c s' =>
      if Ascii.eqb c "_" then String " " (spaced s')
      else if is_upper_az c then String " " (String c (spaced s'))
      else String c (spaced s')
  end.

(** [.replace(/^./, (str) => str.toUpperCase()).trim()]; the dot matches
    no line terminator. *)
Definition capitalized (s : string) : string :=
  trim match s with
       | String c s' =>
           if (code c =? 10)%nat || (code c =? 13)%nat then s
           else toUpperCase (String c EmptyString) +:+ s'
       | EmptyString => EmptyString
       end.

Definition columnMeta (rows : list row) (column : string) : ColumnMeta :=
  let named := endsWith column "_name" || endsWith column "Name" in
  let inferred :=
    if named then None
    else
      Some (mostCommonType
              (fold_left (fun c r => countValue (mightBeDate column) c
                                       (field r column)) rows
                 {| numbers := 0; strings := 0; booleans := 0;
                    dates := 0; nulls := 0 |})) in
  {| type := match inferred with Some t => t | None => "string" end;
     format :=
       match inferred with
       | Some t => match columnFormat rows column t with
                   | Some f => f
                   | None => "text"
                   end
       | None => "text"
       end;
     isId := endsWith column "_id" || endsWith column "Id"
             || String.eqb column "id";
     isName := named;
     displayName := capitalized (spaced column) |}.

Record Consistent : Type := {
  data : loc;
  metadata : JsObject.obj ColumnMeta
}.

Definition ensureDataConsistency (input : option loc) : M Consistent :=
  let nothing :=
    (empty <- alloc (OArray [] None) ;;
     ret {| data := empty; metadata := [] |})%heap in
  match input with
  | None => nothing
  | Some d =>
      (items <- read_items d ;;
       if (List.length items =? 0)%nat then nothing
       else
         consistentData <- deep_copy d ;;
         copies <- read_items consistentData ;;
         rows <- map_m read_row copies ;;
         let columns :=
           match rows with
           | first :: _ => JsObject.keys first
           | [] => []
           end in
         ret {| data := consistentData;
                metadata :=
                  map (fun column => (column, columnMeta rows column))
                      columns |})%heap
  end.

End Consistency.

(** *** performRelatedQueries *)

Definition identifyForeignKeys (sampleRow : row)
  (relationships : list Relationship) : list ForeignKey :=
  let mentions (col : string) (rel : Relationship) : bool :=
    String.eqb (column_name rel) col
    || String.eqb (foreign_column_name rel) col in
  let potentialFkColumns :=
    List.filter
      (fun col => endsWith col "_id" || endsWith col "Id"
                  || String.eqb col "id"
                  || existsb (mentions col) relationships)
      (JsObject.keys sampleRow) in
  omap (fun col =>
          match List.find (mentions col) relationships with
          | Some matchingRel =>
              Some {| table := table_name matchingRel;
                      column := col;
                      referencedTable := foreign_table_name matchingRel;
                      referencedColumn := foreign_column_name matchingRel |}
          | None =>
              if endsWith col "_id" || endsWith col "Id" then
                Some {| table := "";
                        column := col;
                        referencedTable := baseColumnName col;
                        referencedColumn := "id" |}
              else None
          end) potentialFkColumns.

Record Enriched : Type := {
  primaryData : list row;
  relatedData : JsObject.obj (list row)
}.

Section RelatedQueries.
(** The database behind [pool.query], and its answers. *)
Variable World : Type.
Variable pool_query : string -> World -> (Error + list row) * World.
(** The text of a number in a template literal. *)
Variable numberToString : Q -> string.

(** One value of the [IN] list. *)
Definition sqlLiteral (v : value) : string :=
  match v with
  | VStr s => "'" +:+ s +:+ "'"
  | VNum q => numberToString q
  | VNaN => "NaN"
  | VBool true => "true"
  | VBool false => "false"
  | VNull | VUndefined => ""
  end.

Definition relatedQuery (fkInfo : ForeignKey) (fkValues : list value)
  : string :=
  nl +:+ "          SELECT * FROM " +:+ referencedTable fkInfo
  +:+ nl +:+ "          WHERE " +:+ referencedColumn fkInfo +:+ " IN ("
  +:+ join "," (map sqlLiteral fkValues) +:+ ")"
  +:+ nl +:+ "          LIMIT 1000"
  +:+ nl +:+ "        ".

(** The loop over the foreign keys; a query that throws is skipped. *)
Fixpoint fetchRelated (rows : list row) (fks : list ForeignKey)
  (related : JsObject.obj (list row)) (processedRelationships : list string)
  (w : World) : JsObject.obj (list row) * World :=
  match fks with
  | [] => (related, w)
  | fkInfo :: rest =>
      let key := table fkInfo +:+ "_" +:+ column fkInfo in
      if existsb (String.eqb key) processedRelationships
      then fetchRelated rows rest related processedRelationships w
      else
        let fkValues :=
          uniq (List.filter (fun v => negb (nullish v))
                  (map (fun r => field r (column fkInfo)) rows)) in
        if (List.length fkValues =? 0)%nat
        then fetchRelated rows rest related processedRelationships w
        else
          let '(result, w1) := pool_query (relatedQuery fkInfo fkValues) w in
          match result with
          | inr found =>
              if (0 <? List.length found)%nat
              then fetchRelated rows rest
                     (JsObject.set related (referencedTable fkInfo) found)
                     (processedRelationships ++ [key])%list w1
              else fetchRelated rows rest related processedRelationships w1
          | inl _ => fetchRelated rows rest related processedRelationships w1
          end
  end.

Definition performRelatedQueries (rows : list row)
  (relationships : list Relationship) (w : World) : Enriched * World :=
  match rows with
  | [] => ({| primaryData := rows; relatedData := [] |}, w)
  | sampleRow :: _ =>
      let '(related, w1) :=
        fetchRelated rows (identifyForeignKeys sampleRow relationships)
          [] [] w in
      ({| primaryData := rows; relatedData := related |}, w1)
  end.

End RelatedQueries.

End DataEnrichmentService.

(** ** JSON values and JSON.stringify *)

Module JsJson.
Import JsString.

(** A JSON value; numbers are integers here, and an object lists its
    properties in order. *)
Inductive json : Type :=
| JNull
| JBool (b : bool)
| JNum (z : Z)
| JStr (s : string)
| JArr (items : list json)
| JObj (fields : list (string * json)).

Definition hex_digit (n : nat) : ascii :=
  if (n <? 10)%nat then ascii_of_nat (48 + n) else ascii_of_nat (87 + n).

(** One code unit inside a JSON string literal. *)
Definition escape_char (c : ascii) : string :=
  let n := code c in
  if (n =? 34)%nat then "\" +:+ dq
  else if (n =? 92)%nat then "\\"
  else if (n =? 8)%nat then "\b"
  else if (n =? 9)%nat then "\t"
  else if (n =? 10)%nat then "\n"
  else if (n =? 12)%nat then "\f"
  else if (n =? 13)%nat then "\r"
  else if (n <? 32)%nat then
    "\u00" +:+ String (hex_digit (n / 16)) (String (hex_digit (n mod 16)) "")
  else String c "".

Fixpoint escape (s : string) : string :=
  match s with
  | EmptyString => EmptyString
  | String c s' => escape_char c +:+ escape s'
  end.

Definition quote (s : string) : string := dq +:+ escape s +:+ dq.

Definition number_text (z : Z) : string :=
  DecimalString.NilZero.string_of_int (Z.to_int z).

(** [JSON.stringify(j)]. *)
Fixpoint stringify (j : json) : string :=
  match j with
  | JNull => "null"
  | JBool true => "true"
  | JBool false => "false"
  | JNum z => number_text z
  | JStr s => quote s
  | JArr items => "[" +:+ join "," (map stringify items) +:+ "]"
  | JObj fields =>
      "{" +:+ join ","
                (map (fun kv => quote (fst kv) +:+ ":" +:+ stringify (snd kv))
                     fields)
      +:+ "}"
  end.

End JsJson.

(** ** ReportService *)

Module ReportService.
Import JsString JsValue JsJson Js.

(** *** chunkJsonData *)

(** A streamed event, or the final response: an object of JSON values. *)
Definition Event : Type := JsObject.obj json.

Definition chunkSize : nat := 100.

(** The size, in code units, from which a response is sent in pieces. *)
Definition sizeThreshold : nat := 50000.

(** [Math.ceil(n / chunkSize)]. *)
Definition totalChunks (n : nat) : nat := (n + chunkSize - 1) / chunkSize.

Definition chunkEvent (rows : list json) (i : nat) : Event :=
  [("rawDataChunk", JArr (JsArray.slice i (i + chunkSize) rows));
   ("chunkIndex", JNum (Z.of_nat (i / chunkSize)));
   ("totalChunks", JNum (Z.of_nat (totalChunks (List.length rows))))].

(** [for (let i = 0; i < rows.length; i += chunkSize)]; [fuel] bounds the
    number of turns. *)
Fixpoint chunkLoop (fuel : nat) (rows : list json) (i : nat) : list Event :=
  match fuel with
  | O => []
  | S fuel' =>
      if (i <? List.length rows)%nat
      then chunkEvent rows i :: chunkLoop fuel' rows (i + chunkSize)
      else []
  end.

Definition completeEvent (rows : list json) : Event :=
  [("rawDataComplete", JBool true);
   ("rowCount", JNum (Z.of_nat (List.length rows)))].

(** The events [chunkJsonData(data, sendUpdate)] sends, in order.  The
    [rawData] property is an array whenever the response has one. *)
Definition chunkJsonData (data : Event) : list Event :=
  let jsonString := stringify (JObj data) in
  if (String.length jsonString <? sizeThreshold)%nat then [data]
  else
    match JsObject.get data "rawData" with
    | Some (JArr (row :: more)) =>
        let rows := row :: more in
        let metadataOnly :=
          JsObject.set (JsObject.set data "rawData" (JArr []))
            "rawDataPending" (JBool true) in
        (metadataOnly :: chunkLoop (List.length rows) rows 0
         ++ [completeEvent rows])%list
    | _ => [data]
    end.

(** *** Computations that send updates, query the database and throw *)

Section Pipeline.
(** The database behind [pool.query] and the language model behind
    [generateMistralResponse]. *)
Variable World : Type.
Variable pool_query : string -> World -> (Error + list row) * World.
Variable generateMistralResponse : string -> World -> (Error + string) * World.
(** The text of a number in a template literal. *)
Variable numberToString : Q -> string.
(** What [formatDatesInData] writes for a string that [new Date] reads as
    a valid date; [None] for an invalid date. *)
Variable formatDate : string -> option string.
(** [JSON.parse]; [None] when it throws. *)
Variable JSON_parse : string -> option json.
(** [v > 0] for a JSON value [v], with the engine's conversion of [v] to a
    number. *)
Variable gtZero : json -> bool.

Definition State : Type := World * list Event.

Definition Run (A : Type) : Type := State -> (Error + A) * State.

Definition pure {A : Type} (a : A) : Run A := fun s => (inr a, s).

Definition throw {A : Type} (e : Error) : Run A := fun s => (inl e, s).

Definition andThen {A B : Type} (m : Run A) (f : A -> Run B) : Run B :=
  fun s =>
    match m s with
    | (inr a, s') => f a s'
    | (inl e, s') => (inl e, s')
    end.

(** [try { m } catch (error) { handler(error) }]. *)
Definition tryCatch {A : Type} (m : Run A) (handler : Error -> Run A) : Run A :=
  fun s =>
    match m s with
    | (inr a, s') => (inr a, s')
    | (inl e, s') => handler e s'
    end.

Declare Scope run_scope.
Delimit Scope run_scope with run.
Notation "x <- m ;; k" := (andThen m (fun x => k))
  (at level 100, m at next level, right associativity) : run_scope.
Notation "m ;;; k" := (andThen m (fun _ => k))
  (at level 100, right associativity) : run_scope.

(** [sendUpdate({ status: 'processing', message })]. *)
Definition sendUpdate (message : string) : Run unit :=
  fun s =>
    (inr tt,
     (fst s,
      (snd s ++ [[("status", JStr "processing"); ("message", JStr message)]])%list)).

(** [await pool.query(sql)], then [result.rows]. *)
Definition query (sql : string) : Run (list row) :=
  fun s =>
    let '(r, w) := pool_query sql (fst s) in (r, (w, snd s)).

(** *** formatDatesInData *)

(** [/^\w{3}\s\d{2},\s\d{4}/]. *)
Definition looksLikeMonthDate (s : string) : bool :=
  match s with
  | String a (String b (String c (String sp rest))) =>
      is_word a && is_word b && is_word c && is_space sp
      && match after_char "," (after_digits 2 rest) with
         | Some (String sp' rest') =>
             is_space sp' && matched (after_digits 4 rest')
         | _ => false
         end
  | _ => false
  end.

(** Digits, a separator, digits, the separator, digits, at the start. *)
Definition looksLikeDigits (a b c : nat) (sep : ascii) (s : string) : bool :=
  matched
    (and_then (after_char sep (and_then (after_char sep (after_digits a s))
                                 (after_digits b)))
       (after_digits c)).

Definition isLikelyDate (str : string) : bool :=
  looksLikeDigits 4 2 2 "-" str
  || matched
       (and_then
          (after_char ":"
             (and_then
                (after_char "T"
                   (and_then
                      (after_char "-"
                         (and_then (after_char "-" (after_digits 4 str))
                            (after_digits 2)))
                      (after_digits 2)))
                (after_digits 2)))
          (after_digits 2))
  || looksLikeDigits 2 2 4 "/" str
  || looksLikeDigits 4 2 2 "/" str
  || looksLikeDigits 2 2 4 "-" str
  || looksLikeMonthDate str.

Definition formatCell (v : value) : value :=
  match v with
  | VStr s =>
      if isLikelyDate s then
        match formatDate s with
        | Some text => VStr text
        | None => v
        end
      else v
  | _ => v
  end.

Definition formatDatesInData (data : list row) : list row :=
  match data with
  | [] => data
  | _ => map (fun r => map (fun kv => (fst kv, formatCell (snd kv))) r) data
  end.

(** *** executeSqlWithFallback *)

Record MinimalSchema : Type := {
  tables : SqlGenerationService.Schemas;
  relationships : list DataEnrichmentService.Relationship
}.

(** What [executeSqlWithFallback] returns; a [fallbackUsed] that the
    object lacks reads as [false]. *)
Record QueryOutcome : Type := {
  data : list row;
  relatedData : option (JsObject.obj (list row));
  sql : string;
  error : option string;
  fallbackUsed : bool;
  message : option string
}.

Definition executeSqlNonBlocking (sqlText : string) : Run QueryOutcome :=
  (rows <- query sqlText ;;
   pure {| data := formatDatesInData rows; relatedData := None;
           sql := sqlText; error := None; fallbackUsed := false;
           message := None |})%run.

Definition is_ident_start (c : ascii) : bool :=
  is_upper_az c || is_lower_az c || (code c =? 95)%nat.

(** The length of a match, at the start of [s], of the keyword [kw]
    (any case), white space, and an identifier: a letter or underscore,
    then letters, digits and underscores. *)
Definition matchKeywordTable (kw s : string) : option nat :=
  if starts_with_ci kw s then
    let afterKw := drop_chars (String.length kw) s in
    let spaces := count_leading is_space afterKw in
    let name := drop_chars spaces afterKw in
    match name with
    | String c _ =>
        if (0 <? spaces)%nat && is_ident_start c
        then Some (String.length kw + spaces + count_leading is_word name)%nat
        else None
    | EmptyString => None
    end
  else None.

(** [s.match(regex) || []] for that pattern with flags [gi]: the matches,
    left to right, none overlapping another. *)
Fixpoint matchAllFrom (kw s : string) (skip : nat) : list string :=
  match s with
  | EmptyString => []
  | String _ s' =>
      match skip with
      | S k => matchAllFrom kw s' k
      | O =>
          match matchKeywordTable kw s with
          | Some n => String.substring 0 n s :: matchAllFrom kw s' (n - 1)
          | None => matchAllFrom kw s' 0
          end
      end
  end.

(** [m.replace(/kw\s+/i, "")]: the first keyword followed by white space
    goes, with all of that white space. *)
Fixpoint removeKeyword (kw m : string) : string :=
  if starts_with_ci kw m
     && (0 <? count_leading is_space (drop_chars (String.length kw) m))%nat
  then
    let afterKw := drop_chars (String.length kw) m in
    drop_chars (count_leading is_space afterKw) afterKw
  else
    match m with
    | EmptyString => EmptyString
    | String c m' => String c (removeKeyword kw m')
    end.

Definition tablesAfter (kw sqlText : string) : list string :=
  map (fun m => trim (removeKeyword kw m)) (matchAllFrom kw sqlText 0).

(** [`${v}`] for a cell. *)
Definition templateText (v : value) : string :=
  match v with
  | VStr s => s
  | VNum q => numberToString q
  | VNaN => "NaN"
  | VBool true => "true"
  | VBool false => "false"
  | VNull => "null"
  | VUndefined => "undefined"
  end.

(** The loop that fetches the other tables; a table whose query throws is
    skipped. *)
Fixpoint fetchOthers (others : list string)
  (related : JsObject.obj (list row)) : Run (JsObject.obj (list row)) :=
  match others with
  | [] => pure related
  | t :: rest =>
      (related' <-
         tryCatch
           (tableRows <- query ("SELECT * FROM " +:+ t +:+ " LIMIT 1000") ;;
            pure (JsObject.set related t tableRows))
           (fun tableError => pure related) ;;
       fetchOthers rest related')%run
  end.

(** The body of the first inner [try]: [Some] is a [return], [None] falls
    through to the last resort. *)
Definition primaryFallback (found : list string) (minimalSchema : MinimalSchema)
  : Run (option QueryOutcome) :=
  match found with
  | [] => pure None
  | primaryTable :: others =>
      let simpleSql := "SELECT * FROM " +:+ primaryTable +:+ " LIMIT 1000" in
      let plain (rows : list row) :=
        Some {| data := formatDatesInData rows; relatedData := None;
                sql := simpleSql; error := None; fallbackUsed := true;
                message := None |} in
      (sendUpdate ("Querying primary table: " +:+ primaryTable) ;;;
       rows <- query simpleSql ;;
       if (0 <? List.length rows)%nat then
         if (1 <? List.length found)%nat then
           sendUpdate "Fetching related data separately..." ;;;
           related <- fetchOthers others [] ;;
           if (0 <? List.length (JsObject.keys related))%nat then
             sendUpdate "Performing in-memory data processing..." ;;;
             enrichedResult <-
               (fun s =>
                  let '(r, w) :=
                    DataEnrichmentService.performRelatedQueries World
                      pool_query numberToString rows
                      (relationships minimalSchema) (fst s) in
                  (inr r, (w, snd s))) ;;
             pure (Some {| data :=
                             formatDatesInData
                               (DataEnrichmentService.primaryData enrichedResult);
                           relatedData :=
                             Some (DataEnrichmentService.relatedData enrichedResult);
                           sql := simpleSql; error := None;
                           fallbackUsed := true; message := None |})
           else pure (plain rows)
         else pure (plain rows)
       else pure None)%run
  end.

Definition tablesQuery : string :=
  nl +:+ "          SELECT table_name "
  +:+ nl +:+ "          FROM information_schema.tables "
  +:+ nl +:+ "          WHERE table_schema = 'public'"
  +:+ nl +:+ "          LIMIT 10"
  +:+ nl +:+ "        ".

(** The loop over the listed tables: the first one with rows is the
    sample; a table whose query throws is skipped. *)
Fixpoint sampleLoop (tableRows : list row) : Run (option QueryOutcome) :=
  match tableRows with
  | [] => pure None
  | tableRow :: rest =>
      (found <-
         tryCatch
           (let tableName := templateText (field tableRow "table_name") in
            let sampleSql := "SELECT * FROM " +:+ tableName +:+ " LIMIT 100" in
            sampleRows <- query sampleSql ;;
            if (0 <? List.length sampleRows)%nat then
              pure (Some {| data := formatDatesInData sampleRows;
                            relatedData := None;
                            sql := sampleSql; error := None;
                            fallbackUsed := true;
                            message :=
                              Some ("Could not execute original query. "
                                    +:+ "Showing sample data from "
                                    +:+ tableName +:+ " instead.") |})
            else pure None)
           (fun sampleError => pure None) ;;
       match found with
       | Some outcome => pure (Some outcome)
       | None => sampleLoop rest
       end)%run
  end.

Definition noData (sqlText : string) (failure : Error) : QueryOutcome :=
  {| data := []; relatedData := None; sql := sqlText;
     error := Some (Js.message failure); fallbackUsed := true;
     message := Some "Could not retrieve data. Please try a different query." |}.

(** The last resort: a sample from any table that has rows, else the
    empty result. *)
Definition lastResort (sqlText : string) (failure : Error) : Run QueryOutcome :=
  (sendUpdate "Attempting to retrieve sample data..." ;;;
   sample <-
     tryCatch (tableRows <- query tablesQuery ;; sampleLoop tableRows)
              (fun lastResortError => pure None) ;;
   match sample with
   | Some outcome => pure outcome
   | None => pure (noData sqlText failure)
   end)%run.

Definition executeSqlWithFallback (sqlText userPrompt : string)
  (minimalSchema : MinimalSchema) : Run QueryOutcome :=
  tryCatch
    (sendUpdate "Executing SQL query..." ;;; executeSqlNonBlocking sqlText)%run
    (fun failure =>
       (sendUpdate "Initial query failed. Attempting simplified query..." ;;;
        let found :=
          (tablesAfter "from" sqlText ++ tablesAfter "join" sqlText)%list in
        simple <-
          tryCatch (primaryFallback found minimalSchema)
                   (fun fallbackError => pure None) ;;
        match simple with
        | Some outcome => pure outcome
        | None => lastResort sqlText failure
        end)%run).

(** *** Table relevance *)

(** [text.match(/\[[\s\S]*\]/)]: from the first opening bracket to the
    last closing one. *)
Fixpoint upToLastBracket (s : string) : option string :=
  match s with
  | EmptyString => None
  | String c s' =>
      match upToLastBracket s' with
      | Some r => Some (String c r)
      | None => if Ascii.eqb c "]" then Some (String c EmptyString) else None
      end
  end.

Fixpoint matchBrackets (s : string) : option string :=
  match s with
  | EmptyString => None
  | String c s' =>
      if Ascii.eqb c "[" then
        match upToLastBracket s' with
        | Some r => Some (String c r)
        | None => matchBrackets s'
        end
      else matchBrackets s'
  end.

Definition pad8 : string := "        ".

Definition tablesWithAIPrompt (prompt : string) (tableNames : list string)
  : string :=
  nl +:+ pad8 +:+ "Given this user query: " +:+ dq +:+ prompt +:+ dq
  +:+ nl +:+ pad8
  +:+ nl +:+ pad8 +:+ "And these available database tables: "
  +:+ join ", " tableNames
  +:+ nl +:+ pad8
  +:+ nl +:+ pad8 +:+ "Which tables are most relevant to answer this query?"
  +:+ nl +:+ pad8
  +:+ "Return only the table names as a JSON array, nothing else."
  +:+ nl +:+ "      ".

(** [tables.filter(table => tableNames.includes(table))]: the strings of
    the parsed array that name a table. *)
Definition namedTables (tableNames : list string) (parsed : list json)
  : list string :=
  omap (fun j =>
          match j with
          | JStr t => if existsb (String.eqb t) tableNames then Some t else None
          | _ => None
          end) parsed.

(** The whole body is in a [try] whose [catch] returns []. *)
Definition identifyTablesWithAI (prompt : string)
  (schemas : SqlGenerationService.Schemas) : Run (list string) :=
  let tableNames := JsObject.keys schemas in
  tryCatch
    (response <-
       (fun s =>
          let '(r, w) :=
            generateMistralResponse (tablesWithAIPrompt prompt tableNames)
              (fst s) in
          (r, (w, snd s))) ;;
     match matchBrackets response with
     | Some text =>
         match JSON_parse text with
         | Some (JArr parsed) => pure (namedTables tableNames parsed)
         | Some _ => throw (new_Error "tables.filter is not a function")
         | None => throw (new_Error "Unexpected token in JSON")
         end
     | None => pure []
     end)%run
    (fun failure => pure []).

Definition extractTableNamesFromPrompt (prompt : string)
  (schemas : SqlGenerationService.Schemas) : list string :=
  let lowerPrompt := toLowerCase prompt in
  List.filter
    (fun table =>
       includes lowerPrompt (toLowerCase table)
       || includes lowerPrompt (replace_first "_" " " (toLowerCase table)))
    (JsObject.keys schemas).

(** [typeof table === 'string' ? table.toLowerCase() : '']. *)
Definition suggestedName (table : json) : string :=
  match table with
  | JStr t => toLowerCase t
  | _ => ""
  end.

(** The first key of the schema when it is a non-empty string. *)
Definition firstTable (schemas : SqlGenerationService.Schemas)
  : option string :=
  match JsObject.keys schemas with
  | t :: _ => if String.eqb t "" then None else Some t
  | [] => None
  end.

(** [identifyRelevantTablesParallel(userPrompt, schemas, promptAnalysis)];
    [analysisTables] is [promptAnalysis?.dataRequirements?.relevantTables],
    any JSON value: an array or a string has a [length], an object may have
    one of its own, and only an array has a [map].  The schema is a plain
    object, so that [schemas[table]] is truthy for the tables it holds and
    for the names it inherits.  The three approaches start in the order of
    the array, and the rejection of the first is seen when all were
    started. *)
Definition identifyRelevantTablesParallel (prompt : string)
  (schemas : SqlGenerationService.Schemas) (analysisTables : option json)
  : Run (list string) :=
  let approaches : Run (list string) :=
    (fun s =>
       let '(first, w1) :=
         SqlGenerationService.identifyRelevantTables World
           generateMistralResponse prompt schemas (fst s) in
       let '(second, s2) := identifyTablesWithAI prompt schemas (w1, snd s) in
       let third := extractTableNamesFromPrompt prompt schemas in
       match first, second with
       | inr a, inr b =>
           let allTables := JsArray.unique String.eqb (a ++ b ++ third)%list in
           if (0 <? List.length allTables)%nat then (inr allTables, s2)
           else
             match firstTable schemas with
             | Some defaultTable => (inr [defaultTable], s2)
             | None =>
                 (inl (new_Error "No relevant tables identified for this query"),
                  s2)
             end
       | inl e, _ => (inl e, s2)
       | _, inl e => (inl e, s2)
       end) in
  tryCatch
    (match analysisTables with
     | Some (JArr (t :: more)) =>
         let suggestedTables :=
           List.filter (JsObject.truthyAt schemas)
             (map suggestedName (t :: more)) in
         if (0 <? List.length suggestedTables)%nat then pure suggestedTables
         else approaches
     | Some (JStr (String _ _)) =>
         throw (new_Error "relevantTables.map is not a function")
     | Some (JObj properties) =>
         match JsObject.get properties "length" with
         | Some len =>
             if gtZero len
             then throw (new_Error "relevantTables.map is not a function")
             else approaches
         | None => approaches
         end
     | _ => approaches
     end)
    (fun failure =>
       match firstTable schemas with
       | Some fallbackTable => pure [fallbackTable]
       | None => pure []
       end).

End Pipeline.

End ReportService.

(** ** MachineLearningService: hashing words into a frequency vector *)

Module MachineLearningService.
Import JsString.

(** [ToInt32]: the 32-bit two's complement reading of an integer, which
    every bitwise operator applies to its operands and to its result. *)
Definition toInt32 (z : Z) : Z := ((z + 2 ^ 31) mod 2 ^ 32 - 2 ^ 31)%Z.

(** [a << n]. *)
Definition shiftLeft (a n : Z) : Z := toInt32 (Z.shiftl (toInt32 a) n).

(** [a & b]. *)
Definition bitAnd (a b : Z) : Z := toInt32 (Z.land (toInt32 a) (toInt32 b)).

(** One turn of the loop of [simpleHash]:
    [hash = (hash << 5) - hash + char; hash = hash & hash]. *)
Definition hashChar (hash : Z) (char : ascii) : Z :=
  let hash' := (shiftLeft hash 5 - hash + Z.of_nat (code char))%Z in
  bitAnd hash' hash'.

Fixpoint hashFrom (hash : Z) (str : string) : Z :=
  match str with
  | EmptyString => hash
  | String char rest => hashFrom (hashChar hash char) rest
  end.

Definition simpleHash (str : string) : Z := hashFrom 0 str.

(** [text.toLowerCase().split(/\W+/).filter(w => w.length > 2)]: the
    words, repetitions kept. *)
Definition words (text : string) : list string :=
  List.filter (fun w => (2 <? String.length w)%nat)
    (split_nonword (toLowerCase text)).

(** [Math.abs(this.simpleHash(word) % vocabSize)]; the remainder of [%]
    has the sign of the hash. *)
Definition wordIndex (vocabSize : nat) (word : string) : nat :=
  Z.to_nat (Z.abs (Z.rem (simpleHash word) (Z.of_nat vocabSize))).

(** [new Array(vocabSize).fill(0)], then [vector[index] += 1] for each
    word.  With [vocabSize = 0] the index is [NaN] and no element of the
    empty vector changes. *)
Definition countWords (vocabSize : nat) (ws : list string) : list nat :=
  fold_left (fun vector word => alter S (wordIndex vocabSize word) vector)
    ws (replicate vocabSize 0%nat).

(** The counts and their sum are whole numbers; the division is the
    engine's, [vector[i] / sum]. *)
Definition textToVector (D : JsDouble.Ops) (text : string) (vocabSize : nat)
  : list (JsDouble.number D) :=
  let vector := countWords vocabSize (words text) in
  let sum := fold_left Nat.add vector 0%nat in
  if (0 <? sum)%nat
  then map (fun v => JsDouble.div (JsDouble.lit (inject_Z (Z.of_nat v)))
                       (JsDouble.lit (inject_Z (Z.of_nat sum)))) vector
  else map (fun v => JsDouble.lit (inject_Z (Z.of_nat v))) vector.

(** The word-overlap similarity, [NaN] being [None]. *)
Definition calculateTextSimilarity (text1 text2 : string) : option Q :=
  let words1 := SqlGenerationService.wordSet text1 in
  let words2 := SqlGenerationService.wordSet text2 in
  JsNumber.div
    (inject_Z (Z.of_nat (List.length
                           (List.filter (SqlGenerationService.has_word words2)
                              words1))))
    (inject_Z (Z.of_nat (Nat.max (List.length words1) (List.length words2)))).

End MachineLearningService.

(** ** SqlGenerationService: learning from queries and reusing them *)

Module QueryKnowledge.
Import JsString Js JsJson SqlGenerationService.

(** Its [queryPatterns] object is created empty and never read or
    written. *)
(** A usage counter: a whole number, or [NaN]. *)
Inductive Counter : Type :=
| Counted (n : nat)
| NotANumber.

(** [this.queryKnowledgeBase]; [tableUsageStats] holds the own properties
    of the object. *)
Record KnowledgeBase : Type := {
  successfulQueries : list QueryPattern;
  tableUsageStats : gmap string Counter;
  lastUpdated : option string
}.

Definition loadQueryKnowledgeBase : KnowledgeBase :=
  {| successfulQueries := []; tableUsageStats := ∅; lastUpdated := None |}.

(** [(.*?)(?:group by|order by|limit|$)] with flags [is]: the shortest
    text that one of the three key words or the end of the input follows. *)
Fixpoint upToClauseEnd (s : string) : string :=
  if starts_with_ci "group by" s || starts_with_ci "order by" s
     || starts_with_ci "limit" s
  then EmptyString
  else match s with
       | EmptyString => EmptyString
       | String c s' => String c (upToClauseEnd s')
       end.

(** Group 1 of [query.match(/where\s+(.*?)(?:group by|order by|limit|$)/is)]:
    the leftmost [where] that white space follows, all of that white space,
    then the captured text. *)
Fixpoint matchWhere (s : string) : option string :=
  let afterKw := drop_chars 5 s in
  if starts_with_ci "where" s && (0 <? count_leading is_space afterKw)%nat
  then Some (upToClauseEnd
               (drop_chars (count_leading is_space afterKw) afterKw))
  else match s with
       | EmptyString => None
       | String _ s' => matchWhere s'
       end.

(** [if (!stats[table]) stats[table] = 0; stats[table]++] on the plain
    object [stats].  An own counter that is 0 or [NaN] is falsy and is set
    to 0 before it is incremented.  Without an own property the read finds
    what the object inherits under that name, if anything: a function, or
    the prototype for [__proto__].  That is truthy and no number, so the
    increment computes [NaN]; the store then makes an own property, except
    for [__proto__], whose setter ignores a number. *)
Definition countTable (stats : gmap string Counter) (table : string)
  : gmap string Counter :=
  match stats !! table with
  | Some (Counted n) => <[table := Counted (S n)]> stats
  | Some NotANumber => <[table := Counted 1]> stats
  | None =>
      if String.eqb table "__proto__" then stats
      else if JsObject.inherited table then <[table := NotANumber]> stats
      else <[table := Counted 1]> stats
  end.

Section Learn.
Variable World : Type.
(** [new Date().toISOString()]. *)
Variable now : World -> string * World.

(** [learnFromSuccessfulQuery(query, schema, userPrompt, resultCount)];
    the schema is not looked at. *)
Definition learnFromSuccessfulQuery (queryText prompt : string)
  (count : nat) (kb : KnowledgeBase) (w : World) : KnowledgeBase * World :=
  if (count <=? 0)%nat then (kb, w)
  else
    let fromTables := ReportService.tablesAfter "from" queryText in
    let joinTables := ReportService.tablesAfter "join" queryText in
    let conditions :=
      match matchWhere queryText with
      | Some captured => trim captured
      | None => ""
      end in
    let '(stamp, w1) := now w in
    let queryPattern :=
      {| query := queryText; userPrompt := prompt; tables := fromTables;
         joins := joinTables; whereConditions := conditions;
         resultCount := count; timestamp := stamp |} in
    let '(updated, w2) := now w1 in
    ({| successfulQueries := (successfulQueries kb ++ [queryPattern])%list;
        tableUsageStats := fold_left countTable fromTables (tableUsageStats kb);
        lastUpdated := Some updated |}, w2).

End Learn.

(** [calculateTextSimilarity(text1, text2)], [NaN] being [None]. *)
Definition calculateTextSimilarity (text1 text2 : string) : option Q :=
  wordSimilarity (wordSet text1) (wordSet text2).

(** *** Reusing a learned query *)

(** The words of a pattern [w1\s+w2\s+...] with flag [i], matched at the
    start of [s]. *)
Fixpoint matchWordsAt (ws : list string) (s : string) : bool :=
  match ws with
  | [] => true
  | w :: rest =>
      starts_with_ci w s
      && match rest with
         | [] => true
         | _ :: _ =>
             let after := drop_chars (String.length w) s in
             (0 <? count_leading is_space after)%nat
             && matchWordsAt rest
                  (drop_chars (count_leading is_space after) after)
         end
  end.

(** [pattern.test(s)]: a match at some position. *)
Fixpoint testWords (ws : list string) (s : string) : bool :=
  matchWordsAt ws s
  || match s with
     | EmptyString => false
     | String _ s' => testWords ws s'
     end.

Definition allDataPatterns : list (list string) :=
  [["show"; "all"; "data"]; ["fetch"; "all"; "data"]; ["get"; "all"; "data"];
   ["retrieve"; "all"; "data"]; ["return"; "all"; "data"];
   ["display"; "all"; "data"]; ["all"; "records"]; ["complete"; "dataset"];
   ["full"; "dataset"]; ["entire"; "dataset"]; ["no"; "limit"];
   ["without"; "limit"]].

Definition detectAllDataRequest (userPrompt : string) : bool :=
  existsb (fun pattern => testWords pattern userPrompt) allDataPatterns.

Definition extractTablesFromQuery (queryText : string) : list string :=
  if String.eqb queryText "" then []
  else
    JsArray.unique String.eqb
      (ReportService.tablesAfter "from" queryText
       ++ ReportService.tablesAfter "join" queryText)%list.

(** The length of a match of [/LIMIT\s+\d+/i] at the start of [s]. *)
Definition matchLimitAt (s : string) : option nat :=
  if starts_with_ci "LIMIT" s then
    let after := drop_chars 5 s in
    let spaces := count_leading is_space after in
    let digits := count_leading is_digit (drop_chars spaces after) in
    if (0 <? spaces)%nat && (0 <? digits)%nat
    then Some (5 + spaces + digits)%nat
    else None
  else None.

(** [/LIMIT\s+\d+/i.test(s)]. *)
Fixpoint hasLimit (s : string) : bool :=
  match matchLimitAt s with
  | Some _ => true
  | None =>
      match s with
      | EmptyString => false
      | String _ s' => hasLimit s'
      end
  end.

(** [s.replace(/LIMIT\s+\d+/i, "")]: the first match goes. *)
Fixpoint removeLimit (s : string) : string :=
  match matchLimitAt s with
  | Some n => drop_chars n s
  | None =>
      match s with
      | EmptyString => EmptyString
      | String c s' => String c (removeLimit s')
      end
  end.

(** The schema handed to the synthesizer: the columns of the relevant
    tables and the relationships between them. *)
Record MinimalColumn : Type := { name : string; type : string }.

Record MinimalTable : Type := { columns : list MinimalColumn }.

Record MinimalSchema : Type := {
  tables : JsObject.obj MinimalTable;
  relationships : list DataEnrichmentService.Relationship
}.

(** [schemas[tableName].columns.map(...)] where [schemas[tableName]] is
    what the schema inherits: its [columns] is [undefined]. *)
Definition noColumns : Error :=
  new_Error "Cannot read properties of undefined (reading 'map')".

(** The body of the loop over the relevant tables.  The schema is a plain
    object: for a name that it does not hold and that objects inherit,
    [schemas[tableName]] is truthy and has no columns.  The store
    [minimalSchema[tableName] = ...] makes an own property, except under
    the name [__proto__], where it sets the prototype. *)
Definition addMinimalTable (schemas : Schemas)
  (minimalSchema : JsObject.obj MinimalTable) (tableName : string)
  : Error + JsObject.obj MinimalTable :=
  match JsObject.get schemas tableName with
  | Some info =>
      if String.eqb tableName "__proto__" then inr minimalSchema
      else
        inr (JsObject.set minimalSchema tableName
               {| columns :=
                    map (fun col =>
                           {| name := SqlGenerationService.column_name col;
                              type := SqlGenerationService.data_type col |})
                        (SqlGenerationService.columns info) |})
  | None =>
      if JsObject.inherited tableName then inl noColumns
      else inr minimalSchema
  end.

(** [relevantTables.forEach(...)]: a throw ends the loop. *)
Fixpoint addMinimalTables (schemas : Schemas)
  (minimalSchema : JsObject.obj MinimalTable) (relevantTables : list string)
  : Error + JsObject.obj MinimalTable :=
  match relevantTables with
  | [] => inr minimalSchema
  | tableName :: rest =>
      match addMinimalTable schemas minimalSchema tableName with
      | inr next => addMinimalTables schemas next rest
      | inl e => inl e
      end
  end.

(** [createMinimalSchema(schemas, relationships, relevantTables)]; it has
    no [try], so that the throw is the caller's. *)
Definition createMinimalSchema (schemas : Schemas)
  (rels : list DataEnrichmentService.Relationship)
  (relevantTables : list string) : Error + MinimalSchema :=
  match addMinimalTables schemas [] relevantTables with
  | inl e => inl e
  | inr minimalSchema =>
      inr {| tables := minimalSchema;
             relationships :=
               List.filter
                 (fun rel =>
                    existsb (String.eqb
                               (toLowerCase
                                  (DataEnrichmentService.table_name rel)))
                            relevantTables
                    && existsb (String.eqb
                                  (toLowerCase
                                     (DataEnrichmentService.foreign_table_name
                                        rel)))
                               relevantTables)
                 rels |}
  end.

(** [enhanceSqlGenerationWithKnowledge(userPrompt, schema)]; [None] is
    [null]. *)
Definition enhanceSqlGenerationWithKnowledge (kb : KnowledgeBase)
  (userPrompt : string) (schema : MinimalSchema) : option string :=
  let isAllDataRequest := detectAllDataRequest userPrompt in
  match findSimilarQueries (successfulQueries kb) userPrompt with
  | bestMatch :: _ =>
      let tablesInQuery := extractTablesFromQuery (query (entry bestMatch)) in
      let tablesInSchema := map toLowerCase (JsObject.keys (tables schema)) in
      if forallb
           (fun table => existsb (String.eqb (toLowerCase table)) tablesInSchema)
           tablesInQuery
      then
        let modifiedSql := query (entry bestMatch) in
        if isAllDataRequest && hasLimit modifiedSql
        then Some (removeLimit modifiedSql)
        else if negb isAllDataRequest && negb (hasLimit modifiedSql)
        then Some (modifiedSql +:+ " LIMIT 100")
        else Some modifiedSql
      else None
  | [] => None
  end.

(** *** generateAdditionalQueries *)

(** Truthiness of a parsed JSON value. *)
Definition truthy (j : json) : bool :=
  match j with
  | JNull => false
  | JBool b => b
  | JNum z => negb (z =? 0)%Z
  | JStr s => negb (String.eqb s "")
  | JArr _ | JObj _ => true
  end.

(** The text of a parsed JSON value in a template literal. *)
Fixpoint jsonText (j : json) : string :=
  match j with
  | JNull => "null"
  | JBool true => "true"
  | JBool false => "false"
  | JNum z => number_text z
  | JStr s => s
  | JArr items =>
      join "," (map (fun item => match item with
                                 | JNull => ""
                                 | _ => jsonText item
                                 end) items)
  | JObj _ => "[object Object]"
  end.

Definition placeholderSql : string :=
  "SELECT * FROM users LIMIT 10 -- Placeholder for: ".

(** The callback of [parsedQueries.map]; reading a property of [null] and
    calling [trim] on what is not a string throw. *)
Definition validateQuery (queryDescription : string) (q : json)
  : Error + json :=
  let placeholder (description : option json) : json :=
    JObj [("description",
           match description with
           | Some d => if truthy d then d else JStr queryDescription
           | None => JStr queryDescription
           end);
          ("sql",
           JStr (placeholderSql
                 +:+ match description with
                     | Some d => jsonText d
                     | None => "undefined"
                     end))] in
  match q with
  | JNull => inl (new_Error "Cannot read properties of null (reading 'sql')")
  | JObj fields =>
      match JsObject.get fields "sql" with
      | Some (JStr s) =>
          if negb (String.eqb s "") && startsWithSelectOrWith s
          then inr q
          else inr (placeholder (JsObject.get fields "description"))
      | Some v =>
          if truthy v
          then inl (new_Error "query.sql.trim is not a function")
          else inr (placeholder (JsObject.get fields "description"))
      | None => inr (placeholder (JsObject.get fields "description"))
      end
  | _ => inr (placeholder None)
  end.

(** [parsedQueries.map(...)]: the first throw ends it. *)
Fixpoint validateAll (queryDescription : string) (qs : list json)
  : Error + list json :=
  match qs with
  | [] => inr []
  | q :: rest =>
      match validateQuery queryDescription q with
      | inl e => inl e
      | inr v =>
          match validateAll queryDescription rest with
          | inl e => inl e
          | inr vs => inr (v :: vs)
          end
      end
  end.

Definition defaultQueries (queryDescription : string) : list json :=
  [JObj [("description", JStr queryDescription); ("sql", JStr defaultQuery)]].

Section AdditionalQueries.
Variable World : Type.
Variable generateMistralResponse : string -> World -> (Error + string) * World.
(** [JSON.parse]; [None] when it throws. *)
Variable JSON_parse : string -> option json.

(** [schemaText] is [JSON.stringify(schema, null, 2)]. *)
Definition additionalQueriesPrompt (userPrompt schemaText queryDescription
  : string) : string :=
  let pad := "        " in
  nl +:+ pad +:+ "Based on this user request: " +:+ dq +:+ userPrompt +:+ dq
  +:+ nl +:+ pad
  +:+ nl +:+ pad +:+ "We need additional data described as: "
  +:+ dq +:+ queryDescription +:+ dq
  +:+ nl +:+ pad
  +:+ nl +:+ pad +:+ "Using this schema: " +:+ schemaText
  +:+ nl +:+ pad
  +:+ nl +:+ pad
  +:+ "Generate up to 3 SQL queries that would provide the additional data needed."
  +:+ nl +:+ pad +:+ "Format each query as a JSON object with " +:+ dq
  +:+ "description" +:+ dq +:+ " and " +:+ dq +:+ "sql" +:+ dq +:+ " fields."
  +:+ nl +:+ pad +:+ "Return an array of these objects."
  +:+ nl +:+ pad
  +:+ nl +:+ pad +:+ "IMPORTANT: Each SQL query MUST start with SELECT or WITH."
  +:+ nl +:+ "      ".

Definition generateAdditionalQueries (userPrompt schemaText queryDescription
  : string) (w : World) : list json * World :=
  if String.eqb queryDescription "" then ([], w)
  else
    let '(r, w1) :=
      generateMistralResponse
        (additionalQueriesPrompt userPrompt schemaText queryDescription) w in
    match r with
    | inl _ => ([], w1)
    | inr response =>
        match ReportService.matchBrackets response with
        | Some text =>
            match JSON_parse text with
            | Some (JArr parsedQueries) =>
                match validateAll queryDescription parsedQueries with
                | inr validQueries => (validQueries, w1)
                | inl _ => (defaultQueries queryDescription, w1)
                end
            | _ => (defaultQueries queryDescription, w1)
            end
        | None => (defaultQueries queryDescription, w1)
        end
    end.

End AdditionalQueries.

End QueryKnowledge.

(** ** AnalyticsService: anomaly detection by score *)

Module AnomalyDetection.
Import JsString JsValue JsDouble.

(** What [detectAnomaliesZScore] and [detectAnomaliesMAD] return; [stats]
    is [{mean, stdDev, threshold}] for the first and
    [{median, mad, threshold}] for the second. *)
Record AnomalyResult (D : Ops) : Type := {
  outliers : list row;
  normalData : option (list row);
  stats : option (number D * number D * number D)
}.

Arguments outliers {D} _.
Arguments normalData {D} _.
Arguments stats {D} _.

Section Anomalies.
Variable D : Ops.
(** [parseFloat], a number or [NaN]. *)
Variable parseFloat : value -> number D.
(** [mean], [standardDeviation], [median] and [medianAbsoluteDeviation]
    of the statistics library, on a list of at least two numbers. *)
Variable mean : list (number D) -> number D.
Variable standardDeviation : list (number D) -> number D.
Variable median : list (number D) -> number D.
Variable medianAbsoluteDeviation : list (number D) -> number D.

(** [data.map(item => parseFloat(item[field])).filter(val => !isNaN(val))]. *)
Definition values (data : list row) (fld : string) : list (number D) :=
  List.filter (fun val => negb (isNaN val))
    (map (fun item => parseFloat (field item fld)) data).

(** [Math.abs((val - center) / spread)]. *)
Definition score (val center spread : number D) : number D :=
  abs (div (sub val center) spread).

(** The body the two methods share: the centre and the spread of the
    numeric values, then the rows whose score exceeds the threshold and
    the rows whose score does not. *)
Definition detectByScore (center spread : list (number D) -> number D)
  (data : option (list row)) (fld : string) (threshold : number D)
  : AnomalyResult D :=
  let unchanged := {| outliers := []; normalData := data; stats := None |} in
  match data with
  | None => unchanged
  | Some rows =>
      if (List.length rows =? 0)%nat then unchanged
      else
        if (List.length (values rows fld) <? 2)%nat then unchanged
        else
          let centerVal := center (values rows fld) in
          let spreadVal := spread (values rows fld) in
          if strictEq spreadVal (lit 0) then unchanged
          else
            {| outliers :=
                 List.filter
                   (fun item =>
                      let val := parseFloat (field item fld) in
                      if isNaN val then false
                      else lt threshold (score val centerVal spreadVal))
                   rows;
               normalData :=
                 Some (List.filter
                         (fun item =>
                            let val := parseFloat (field item fld) in
                            if isNaN val then true
                            else le (score val centerVal spreadVal) threshold)
                         rows);
               stats := Some (centerVal, spreadVal, threshold) |}
  end.

Definition detectAnomaliesZScore (data : option (list row)) (fld : string)
  (threshold : number D) : AnomalyResult D :=
  detectByScore mean standardDeviation data fld threshold.

Definition detectAnomaliesMAD (data : option (list row)) (fld : string)
  (threshold : number D) : AnomalyResult D :=
  detectByScore median medianAbsoluteDeviation data fld threshold.

End Anomalies.

(** [getCorrelationStrength(correlation)]; [None] is [NaN], for which
    every comparison fails. *)
Definition getCorrelationStrength (correlation : option Q) : string :=
  match correlation with
  | Some c =>
      let absCorr := Qabs c in
      if Qle_bool (9 # 10) absCorr then "Very strong"
      else if Qle_bool (7 # 10) absCorr then "Strong"
      else if Qle_bool (5 # 10) absCorr then "Moderate"
      else if Qle_bool (3 # 10) absCorr then "Weak"
      else "Very weak"
  | None => "Very weak"
  end.

End AnomalyDetection.

(** ** ReportService: fitting the data into a token budget *)

Module DataTruncation.
Import JsString JsJson.

(** [estimateTokenCount(text)]: [Math.ceil(text.length / 4)], and 0 for
    the empty string, which is falsy. *)
Definition estimateTokenCount (text : string) : nat :=
  if String.eqb text "" then 0%nat else ((String.length text + 3) / 4)%nat.

(** [for (let i = 1; i < data.length - 1 && truncatedData.length <
    rowsToKeep - 1; i += step) truncatedData.push(data[i])]; [fuel] bounds
    the number of turns, and [None] is a loop that needs more of it. *)
Fixpoint middleRows (fuel : nat) (data : list json) (i step rowsToKeep : nat)
  (truncatedData : list json) : option (list json) :=
  if (i <? List.length data - 1)%nat
     && (List.length truncatedData <? rowsToKeep - 1)%nat
  then
    match fuel with
    | O => None
    | S fuel' =>
        match data !! i with
        | Some row =>
            middleRows fuel' data (i + step) step rowsToKeep
              (truncatedData ++ [row])%list
        | None => None
        end
    end
  else Some truncatedData.

(** [Math.max(1, Math.floor(maxTokens / singleRowTokens))]; [None] is a
    value no length exceeds ([Infinity], or [NaN] from [0 / 0]), which a
    row without text would give. *)
Definition rowsToKeep (maxTokens : Z) (singleRowTokens : nat) : option Z :=
  if (singleRowTokens =? 0)%nat
  then if (maxTokens <? 0)%Z then Some 1%Z else None
  else Some (Z.max 1 (maxTokens / Z.of_nat singleRowTokens))%Z.

(** [truncateData(data, maxTokens, forceIncludeAll)], [maxTokens] being an
    integer; the result is [None] only if the loop ran out of fuel. *)
Definition truncateData (data : option (list json)) (maxTokens : Z)
  (forceIncludeAll : bool) : option (list json) :=
  match data with
  | None | Some [] => Some []
  | Some (first :: rest) =>
      let rows := first :: rest in
      if forceIncludeAll then Some rows
      else
        let estimatedTokens := estimateTokenCount (stringify (JArr rows)) in
        if (Z.of_nat estimatedTokens <=? maxTokens)%Z then Some rows
        else
          let singleRowTokens := estimateTokenCount (stringify first) in
          match rowsToKeep maxTokens singleRowTokens with
          | None => Some rows
          | Some keep =>
              if (keep <? Z.of_nat (List.length rows))%Z then
                let lastRow :=
                  match rows !! (List.length rows - 1)%nat with
                  | Some row => [row]
                  | None => []
                  end in
                if (2 <? keep)%Z then
                  let middleRowsCount := (keep - 2)%Z in
                  let step :=
                    Z.max 1 ((Z.of_nat (List.length rows) - 2) / middleRowsCount) in
                  match middleRows (List.length rows) rows 1 (Z.to_nat step)
                          (Z.to_nat keep) [first] with
                  | Some middle => Some (middle ++ lastRow)%list
                  | None => None
                  end
                else if (1 <? keep)%Z then Some ([first] ++ lastRow)%list
                else Some [first]
              else Some rows
          end
  end.

End DataTruncation.

(** ** ReportService: business metrics *)

Module BusinessMetrics.
Import JsString.

Record Metric : Type := {
  type : string;
  rawText : string;
  confidence : Q
}.

Definition metricPatterns : list (string * list string) :=
  [("profit", ["profit"; "net income"; "earnings"; "margin"]);
   ("revenue", ["revenue"; "sales"; "income"; "turnover"]);
   ("count", ["count"; "number of"; "how many"; "total number"]);
   ("average", ["average"; "mean"; "avg"]);
   ("maximum", ["maximum"; "highest"; "top"; "best"]);
   ("minimum", ["minimum"; "lowest"; "worst"; "bottom"]);
   ("sum", ["sum"; "total"; "overall"]);
   ("growth", ["growth"; "increase"; "change"; "difference"])].

(** The body of the loop over the concepts: the first metric type one of
    whose patterns the concept contains. *)
Definition conceptMetric (concept : string) : option Metric :=
  let lowerConcept := toLowerCase concept in
  match List.find
          (fun entry : string * list string =>
             existsb (fun pattern => includes lowerConcept pattern) (snd entry))
          metricPatterns with
  | Some entry =>
      Some {| type := fst entry; rawText := concept; confidence := 9 # 10 |}
  | None => None
  end.

(** The body of the loop over the metrics of the prompt analysis. *)
Definition addUnknown (metrics : list Metric) (metric : string) : list Metric :=
  if existsb (fun m => String.eqb (toLowerCase (rawText m)) (toLowerCase metric))
       metrics
  then metrics
  else (metrics ++ [{| type := "unknown"; rawText := metric;
                       confidence := 7 # 10 |}])%list.

(** [identifyBusinessMetrics(extractedConcepts, promptAnalysis)];
    [businessMetrics] is [extractedConcepts.businessMetrics] and
    [analysisMetrics] is [promptAnalysis.intentClassification.metrics],
    [None] when absent. *)
Definition identifyBusinessMetrics (businessMetrics : option (list string))
  (analysisMetrics : option (list string)) : list Metric :=
  let metrics :=
    match businessMetrics with
    | Some concepts => omap conceptMetric concepts
    | None => []
    end in
  match analysisMetrics with
  | Some others => fold_left addUnknown others metrics
  | None => metrics
  end.

End BusinessMetrics.

(** ** DataEnrichmentService: the table structure *)

Module TableStructure.
Import JsString JsValue.
Import DataEnrichmentService.

Record ColumnInfo : Type := {
  name : string;
  columnDisplayName : string;
  columnType : string;
  columnFormat : string
}.

Record Structure : Type := {
  columns : list ColumnInfo;
  primaryKey : option string;
  displayColumns : list string;
  summaryColumns : list string;
  groupableColumns : list string;
  sortableColumns : list string
}.

Section Structure.
(** [a.localeCompare(b)], which depends on the locale of the host. *)
Variable localeCompare : string -> string -> Z.

(** The comparator of [displayColumns.sort]: names first, ids last, then
    the order of the locale.  Every column it is asked about has metadata;
    [None] stands for the [TypeError] that a missing one would raise. *)
Definition byRole (metadata : JsObject.obj ColumnMeta) (a b : string)
  : option Q :=
  match JsObject.get metadata a, JsObject.get metadata b with
  | Some aInfo, Some bInfo =>
      if isName aInfo && negb (isName bInfo) then Some (-1)%Q
      else if negb (isName aInfo) && isName bInfo then Some 1%Q
      else if isId aInfo && negb (isId bInfo) then Some 1%Q
      else if negb (isId aInfo) && isId bInfo then Some (-1)%Q
      else Some (inject_Z (localeCompare a b))
  | _, _ => None
  end.

(** [generateConsistentTableStructure(data, metadata)]: [tableData] and
    [tableStructure], the latter [None] for the empty object. *)
Definition generateConsistentTableStructure (data : option (list row))
  (metadata : JsObject.obj ColumnMeta) : list row * option Structure :=
  match data with
  | None | Some [] => ([], None)
  | Some rows =>
      let names := JsObject.keys metadata in
      let columnsWhere (test : ColumnMeta -> bool) :=
        map fst (List.filter (fun entry : string * ColumnMeta => test (snd entry))
                   metadata) in
      let shown :=
        columnsWhere
          (fun info => negb (isId info) || (List.length names <=? 3)%nat) in
      let sorted := JsArray.sort (byRole metadata) shown in
      (rows,
       Some {| columns :=
                 map (fun entry : string * ColumnMeta =>
                        {| name := fst entry;
                           columnDisplayName := displayName (snd entry);
                           columnType := type (snd entry);
                           columnFormat := format (snd entry) |})
                     metadata;
               primaryKey := List.find (fun col => String.eqb col "id") names;
               displayColumns :=
                 if (10 <? List.length sorted)%nat
                 then JsArray.slice 0 10 sorted else sorted;
               summaryColumns :=
                 columnsWhere (fun info => String.eqb (type info) "number");
               groupableColumns :=
                 columnsWhere
                   (fun info => String.eqb (type info) "string"
                                || String.eqb (type info) "boolean");
               sortableColumns := names |})
  end.

End Structure.

End TableStructure.

(** ** DataEnrichmentService: the relationship graph *)

Module RelationshipGraph.
Import JsString.
Import DataEnrichmentService.

Record Edge : Type := {
  sourceTable : string;
  sourceColumn : string;
  targetTable : string;
  targetColumn : string
}.

(** One step of a path: ['direct'] or ['inverse'], and the edge taken. *)
Record Step : Type := {
  kind : string;
  edge : Edge
}.

Record TableNode : Type := {
  nodeName : string;
  nodeColumns : list string
}.

Record Graph : Type := {
  tables : gmap string TableNode;
  directRelationships : gmap string (list Edge);
  inverseRelationships : gmap string (list Edge);
  pathCache : gmap string (list (list Step))
}.

(** What [m[k]] finds on a plain object of arrays: the own array; without
    one, the value that every object inherits under that name (a
    function, or the prototype itself under [__proto__]); or nothing. *)
Inductive Slot : Type :=
| OwnEdges (edges : list Edge)
| InheritedValue
| Missing.

Definition slot (m : gmap string (list Edge)) (k : string) : Slot :=
  match m !! k with
  | Some edges => OwnEdges edges
  | None => if JsObject.inherited k then InheritedValue else Missing
  end.

(** [if (!m[k]) m[k] = []; m[k].push(e)].  An array and an inherited
    value are both truthy; the inherited value has no [push], and calling
    it raises a [TypeError]: [None]. *)
Definition pushEdge (m : gmap string (list Edge)) (k : string) (e : Edge)
  : option (gmap string (list Edge)) :=
  match slot m k with
  | OwnEdges edges => Some (<[k := (edges ++ [e])%list]> m)
  | InheritedValue => None
  | Missing => Some (<[k := [e]]> m)
  end.

(** The three stores of the loop over [Object.keys(schema.tables)].  The
    program builds [schema.tables] by assignments, which make no own
    property [__proto__]; under any other name a store makes an own
    property. *)
Definition addTableNode (g : Graph)
  (entry : string * SqlGenerationService.TableInfo) : Graph :=
  let tableName := fst entry in
  {| tables :=
       <[tableName :=
           {| nodeName := tableName;
              nodeColumns := map SqlGenerationService.column_name
                               (SqlGenerationService.columns (snd entry)) |}]>
         (tables g);
     directRelationships := <[tableName := []]> (directRelationships g);
     inverseRelationships := <[tableName := []]> (inverseRelationships g);
     pathCache := pathCache g |}.

(** The body of [relationships.forEach]: the direct edge, then the
    inverse edge. *)
Definition addRelationship (g : Graph) (rel : Relationship) : option Graph :=
  match pushEdge (directRelationships g) (table_name rel)
          {| sourceTable := table_name rel;
             sourceColumn := column_name rel;
             targetTable := foreign_table_name rel;
             targetColumn := foreign_column_name rel |} with
  | None => None
  | Some direct =>
      match pushEdge (inverseRelationships g) (foreign_table_name rel)
              {| sourceTable := foreign_table_name rel;
                 sourceColumn := foreign_column_name rel;
                 targetTable := table_name rel;
                 targetColumn := column_name rel |} with
      | None => None
      | Some inverse =>
          Some {| tables := tables g;
                  directRelationships := direct;
                  inverseRelationships := inverse;
                  pathCache := pathCache g |}
      end
  end.

(** [relationships.forEach(...)]: a throw ends the loop. *)
Fixpoint addRelationships (g : Graph) (rels : list Relationship)
  : option Graph :=
  match rels with
  | [] => Some g
  | rel :: rest =>
      match addRelationship g rel with
      | Some g' => addRelationships g' rest
      | None => None
      end
  end.

Definition emptyGraph : Graph :=
  {| tables := ∅; directRelationships := ∅; inverseRelationships := ∅;
     pathCache := ∅ |}.

(** [buildRelationshipGraph(schema, relationships)]; [schemaTables] is
    [schema.tables] when the schema has them, and [relationships] is
    [None] when it is not an array.  The [catch] answers any throw with a
    new, empty graph. *)
Definition buildRelationshipGraph
  (schemaTables : option SqlGenerationService.Schemas)
  (relationships : option (list Relationship)) : Graph :=
  let withTables :=
    match schemaTables with
    | Some ts => fold_left addTableNode ts emptyGraph
    | None => emptyGraph
    end in
  match relationships with
  | Some rels =>
      match addRelationships withTables rels with
      | Some g => g
      | None => emptyGraph
      end
  | None => withTables
  end.

(** [m[t] || []], as the [for ... of] loop takes it: an inherited value
    is truthy and not iterable, and the loop raises a [TypeError]:
    [None]. *)
Definition edgesFrom (m : gmap string (list Edge)) (t : string)
  : option (list Edge) :=
  match slot m t with
  | OwnEdges edges => Some edges
  | InheritedValue => None
  | Missing => Some []
  end.

(** The [TypeError] of a [for ... of] loop over a value that is not
    iterable; the message names the variable. *)
Definition notIterable (variable : string) : Js.Error :=
  Js.new_Error (variable +:+ " is not iterable").

(** A [for ... of] loop whose body pushes paths or throws. *)
Definition collect {A B : Type} (body : A -> Js.Error + list B)
  : list A -> Js.Error + list B :=
  fix loop (l : list A) : Js.Error + list B :=
    match l with
    | [] => inr []
    | x :: rest =>
        match body x with
        | inl e => inl e
        | inr found =>
            match loop rest with
            | inl e => inl e
            | inr more => inr (found ++ more)%list
            end
        end
    end.

(** The helper [dfs(currentTable, targetTable, currentPath, visited,
    depth)], as the list of the paths it pushes, in order, or the error
    it throws.  [budget] is [maxDepth + 1 - depth]: at 0 the depth
    exceeds [maxDepth]. *)
Fixpoint dfs (g : Graph) (target : string) (budget : nat)
  (currentTable : string) (currentPath : list Step) (visited : gset string)
  : Js.Error + list (list Step) :=
  match budget with
  | O => inr []
  | S budget' =>
      if String.eqb currentTable target then inr [currentPath]
      else
        let visited' := {[ currentTable ]} ∪ visited in
        let explore (label : string) (rels : list Edge) :=
          collect
            (fun rel =>
               let nextTable := targetTable rel in
               if decide (nextTable ∈ visited') then inr []
               else dfs g target budget' nextTable
                      (currentPath ++ [{| kind := label; edge := rel |}])%list
                      visited')
            rels in
        match edgesFrom (directRelationships g) currentTable with
        | None => inl (notIterable "directRelationships")
        | Some directs =>
            match explore "direct" directs with
            | inl e => inl e
            | inr found =>
                match edgesFrom (inverseRelationships g) currentTable with
                | None => inl (notIterable "inverseRelationships")
                | Some inverses =>
                    match explore "inverse" inverses with
                    | inl e => inl e
                    | inr more => inr (found ++ more)%list
                    end
                end
            end
        end
  end.

Definition cacheKey (sourceTable targetTable : string) (maxDepth : nat)
  : string :=
  sourceTable +:+ "-" +:+ targetTable +:+ "-" +:+ Js.nat_to_string maxDepth.

(** [findRelationshipPaths(graph, sourceTable, targetTable, maxDepth)]:
    the paths or the error thrown, and the graph with its cache.  The key
    holds a hyphen, so that it names nothing that the cache inherits. *)
Definition findRelationshipPaths (g : Graph) (source target : string)
  (maxDepth : nat) : (Js.Error + list (list Step)) * Graph :=
  match pathCache g !! cacheKey source target maxDepth with
  | Some cached => (inr cached, g)
  | None =>
      match dfs g target (S maxDepth) source [] ∅ with
      | inl e => (inl e, g)
      | inr paths =>
          (inr paths,
           {| tables := tables g;
              directRelationships := directRelationships g;
              inverseRelationships := inverseRelationships g;
              pathCache :=
                <[cacheKey source target maxDepth := paths]> (pathCache g) |})
      end
  end.

End RelationshipGraph.

(** ** DataEnrichmentService: batches of queries *)

Module BatchQueries.
Import JsString JsValue Js.

Record BatchQuery : Type := { id : string; sql : string }.

(** [{id, success: true, rows, rowCount}] or
    [{id, success: false, error}]. *)
Record BatchResult : Type := {
  resultId : string;
  success : bool;
  rows : option (list row);
  rowCount : option Z;
  error : option string
}.

Section Batch.
Variable World : Type.
(** [pool.query(sql)]: the rows and the row count of the answer, or a
    throw. *)
Variable pool_query : string -> World -> (Error + list row * Z) * World.

(** The callback of [queries.map]; its [catch] turns a throw into a
    result. *)
Definition runQuery (q : BatchQuery) (w : World) : BatchResult * World :=
  let '(r, w1) := pool_query (sql q) w in
  match r with
  | inr (found, count) =>
      ({| resultId := id q; success := true; rows := Some found;
          rowCount := Some count; error := None |}, w1)
  | inl e =>
      ({| resultId := id q; success := false; rows := None;
          rowCount := None; error := Some (message e) |}, w1)
  end.

(** The queries start in the order of the array. *)
Fixpoint runAll (queries : list BatchQuery) (w : World)
  : list BatchResult * World :=
  match queries with
  | [] => ([], w)
  | q :: rest =>
      let '(r, w1) := runQuery q w in
      let '(rs, w2) := runAll rest w1 in
      (r :: rs, w2)
  end.

Definition performBatchQueries (queries : option (list BatchQuery))
  (w : World) : list BatchResult * World :=
  match queries with
  | None | Some [] => ([], w)
  | Some qs => runAll qs w
  end.

End Batch.

End BatchQueries.

(** ** DataEnrichmentService: keeping the relevant fields *)

Module DataFilter.
Import JsString JsValue.

(** The part of the prompt analysis that is read:
    [promptAnalysis.dataRequirements.relevantFields], [None] when absent. *)
Record PromptAnalysis : Type := {
  relevantFields : option (list string)
}.

(** [s.replace(/\s+/g, '_')]: each run of white space becomes one
    underscore. *)
Fixpoint underscored (s : string) : string :=
  match s with
  | EmptyString => EmptyString
  | String c s' =>
      if is_space c then
        match s' with
        | String c' _ =>
            if is_space c' then underscored s'
            else String "_" (underscored s')
        | EmptyString => String "_" EmptyString
        end
      else String c (underscored s')
  end.

Definition keepField (normalizedRelevantFields : list string) (fld : string)
  : bool :=
  let normalizedField := toLowerCase fld in
  String.eqb normalizedField "id" || endsWith normalizedField "_id"
  || endsWith normalizedField "name" || includes normalizedField "name_"
  || existsb
       (fun relevantField =>
          includes normalizedField relevantField
          || includes relevantField normalizedField)
       normalizedRelevantFields.

(** [filteredRow[field] = row[field]] for each kept field. *)
Definition pick (fieldsToKeep : list string) (r : row) : row :=
  fold_left (fun filteredRow fld => JsObject.set filteredRow fld (field r fld))
    fieldsToKeep [].

Definition filterDataBasedOnPromptAnalysis (data : option (list row))
  (promptAnalysis : option PromptAnalysis) : option (list row) :=
  match data, promptAnalysis with
  | Some (first :: rest), Some analysis =>
      let filteredData := map JsHeap.json_row (first :: rest) in
      let relevant :=
        match relevantFields analysis with
        | Some fields => fields
        | None => []
        end in
      if (List.length relevant =? 0)%nat then Some filteredData
      else
        let normalizedRelevantFields :=
          map (fun fld => underscored (toLowerCase fld)) relevant in
        let availableFields := JsObject.keys (JsHeap.json_row first) in
        let fieldsToKeep :=
          List.filter (keepField normalizedRelevantFields) availableFields in
        if (List.length fieldsToKeep =? 0)%nat
           || (List.length fieldsToKeep =? List.length availableFields)%nat
        then Some filteredData
        else Some (map (pick fieldsToKeep) filteredData)
  | _, _ => data
  end.

End DataFilter.

(** ** The report controller *)

Module ReportController.
Import JsString JsJson Js.

(** The HTTP response as the handler drives it: the status code, the
    headers the handler sets itself, the chunks written to the body, and
    whether the response was ended. *)
Record Response : Type := {
  status : nat;
  headers : list (string * string);
  body : list string;
  ended : bool
}.

Definition freshResponse : Response :=
  {| status := 200; headers := []; body := []; ended := false |}.

(** [res.headersSent]: the headers go out with the first write. *)
Definition headersSent (res : Response) : bool :=
  negb ((List.length (body res) =? 0)%nat) || ended res.

(** [res.status(code)]. *)
Definition setStatus (code : nat) (res : Response) : Response :=
  {| status := code; headers := headers res; body := body res;
     ended := ended res |}.

(** [res.setHeader(name, value)]. *)
Definition setHeader (name value : string) (res : Response) : Response :=
  {| status := status res; headers := (headers res ++ [(name, value)])%list;
     body := body res; ended := ended res |}.

(** [res.write(chunk)]. *)
Definition write (chunk : string) (res : Response) : Response :=
  {| status := status res; headers := headers res;
     body := (body res ++ [chunk])%list; ended := ended res |}.

(** [res.end()]. *)
Definition endResponse (res : Response) : Response :=
  {| status := status res; headers := headers res; body := body res;
     ended := true |}.

(** [res.json(value)]: the text of the value is written and the response
    ended. *)
Definition sendJson (value : json) (res : Response) : Response :=
  endResponse (write (stringify value) res).

(** [`data: ${JSON.stringify(update)}\n\n`]. *)
Definition frame (update : JsObject.obj json) : string :=
  "data: " +:+ stringify (JObj update) +:+ nl +:+ nl.

Definition failure (error : Error) : JsObject.obj json :=
  [("error", JStr "Failed to generate report");
   ("message", JStr (message error))].

Section Handlers.
Variable World : Type.
(** [reportService.generateReportStream(prompt, history, sendUpdate)]: the
    updates it sends, in order, and then its return or its throw. *)
Variable generateReportStream :
  string -> list json -> World ->
  (list (JsObject.obj json) * (Error + unit)) * World.
(** [reportService.generateReport(prompt, history)]. *)
Variable generateReportOnce :
  string -> list json -> World -> (Error + json) * World.

(** [generateReport(req, res)]; [prompt] and [conversationHistory] are the
    properties of the request body, [None] when absent. *)
Definition generateReport (prompt : option string)
  (conversationHistory : option (list json)) (w : World)
  : Response * World :=
  let res := freshResponse in
  match prompt with
  | None | Some EmptyString =>
      (sendJson (JObj [("error", JStr "Prompt is required")])
         (setStatus 400 res), w)
  | Some text =>
      let res1 :=
        setHeader "Connection" "keep-alive"
          (setHeader "Cache-Control" "no-cache"
             (setHeader "Content-Type" "text/event-stream" res)) in
      let history := match conversationHistory with
                     | Some h => h
                     | None => []
                     end in
      let '(updates, outcome, w1) := generateReportStream text history w in
      let res2 := fold_left (fun r update => write (frame update) r) updates res1 in
      match outcome with
      | inr _ => (endResponse res2, w1)
      | inl error =>
          if negb (headersSent res2)
          then (sendJson (JObj (failure error)) (setStatus 500 res2), w1)
          else (endResponse (write (frame (failure error)) res2), w1)
      end
  end.

(** [generateReportNonStreaming(req, res)]. *)
Definition generateReportNonStreaming (prompt : option string)
  (conversationHistory : option (list json)) (w : World)
  : Response * World :=
  let res := freshResponse in
  match prompt with
  | None | Some EmptyString =>
      (sendJson (JObj [("error", JStr "Prompt is required")])
         (setStatus 400 res), w)
  | Some text =>
      let history := match conversationHistory with
                     | Some h => h
                     | None => []
                     end in
      let '(outcome, w1) := generateReportOnce text history w in
      match outcome with
      | inr report => (sendJson report res, w1)
      | inl error => (sendJson (JObj (failure error)) (setStatus 500 res), w1)
      end
  end.

End Handlers.

End ReportController.

(** ** The chat page: the columns shown at first *)

Module ChatBot.
Import JsString.

(** [/p/i.test(s)] for a literal [p]. *)
Fixpoint includes_ci (s p : string) : bool :=
  starts_with_ci p s
  || match s with
     | EmptyString => false
     | String _ s' => includes_ci s' p
     end.

(** The patterns of [selectImportantColumns]: the first two are anchored
    at the end. *)
Definition isImportant (col : string) : bool :=
  ends_with_ci col "id" || ends_with_ci col "name"
  || existsb (includes_ci col)
       ["title"; "date"; "time"; "status"; "type"; "category"; "amount";
        "price"].

(** [selectImportantColumns(allColumns, data)]; the data is not looked
    at. *)
Definition selectImportantColumns (allColumns : list string) : list string :=
  if (List.length allColumns <=? 5)%nat then allColumns
  else
    let importantColumns := List.filter isImportant allColumns in
    if (3 <=? List.length importantColumns)%nat
    then JsArray.slice 0 5 importantColumns
    else JsArray.slice 0 5 allColumns.

(** The updater of [toggleColumnVisibility(column)], applied to the
    columns shown. *)
Definition toggleColumnVisibility (column : string) (prev : list string)
  : list string :=
  if existsb (String.eqb column) prev
  then List.filter (fun col => negb (String.eqb col column)) prev
  else (prev ++ [column])%list.

End ChatBot.

(* ================================================================== *)
(** * Part II. Properties                                              *)
(* ================================================================== *)

(** ** Numbers *)

Module JsNumberProps.

Lemma Qlt_bool_true a b : JsNumber.Qlt_bool a b = true <-> (a < b)%Q.
Proof.
  unfold JsNumber.Qlt_bool. rewrite negb_true_iff.
  split.
  - intros H. apply Qnot_le_lt. intros Hle. apply Qle_bool_iff in Hle. congruence.
  - intros H. destruct (Qle_bool b a) eqn:E; [|reflexivity].
    apply Qle_bool_iff in E. exfalso. eapply Qlt_not_le; eauto.
Qed.

Lemma Qlt_bool_false a b : JsNumber.Qlt_bool a b = false <-> (b <= a)%Q.
Proof.
  unfold JsNumber.Qlt_bool. rewrite negb_false_iff. apply Qle_bool_iff.
Qed.

End JsNumberProps.

Module MistralServiceProps.
Import JsString Js MistralService.

Lemma isRateLimit_spec (e : Error) :
  isRateLimit e = true <->
  statusCode e = Some 429%Z \/ includes (message e) "429" = true
  \/ includes (message e) "rate limit" = true.
Proof.
  unfold isRateLimit, has_status.
  rewrite !orb_true_iff, !andb_true_iff, !negb_true_iff.
  split.
  - intros [[H|[_ H]]|[_ H]]; [left|right; left; exact H|right; right; exact H].
    destruct (statusCode e) as [s|]; [|discriminate].
    apply Z.eqb_eq in H. congruence.
  - intros [H|[H|H]].
    + rewrite H. left. left. reflexivity.
    + left. right. split; [|exact H].
      destruct (message e); [discriminate H|reflexivity].
    + right. split; [|exact H].
      destruct (message e); [discriminate H|reflexivity].
Qed.

Section RetryFacts.
Variable World : Type.
Variable A : Type.
Variable operation : World -> (Error + A) * World.
Variable random : World -> Q * World.

Abbreviation retry := (retryWithBackoff World A operation random).
Abbreviation retry_fuel := (retryWithBackoff_fuel World A operation random).

(** Fuel beyond the retries that remain changes nothing. *)
Lemma retry_fuel_enough : forall k fuel rc w,
  (maxRetries - rc < fuel)%nat -> (maxRetries - rc <= k)%nat ->
  retry_fuel fuel rc w = retry_fuel (S k) rc w.
Proof.
  induction k as [|k IH]; intros fuel rc w Hf Hk.
  - destruct fuel as [|fuel]; [lia|]. cbn [retryWithBackoff_fuel].
    destruct (operation w) as [[e|v] w1]; [|reflexivity].
    replace (rc <? maxRetries)%nat with false
      by (symmetry; apply Nat.ltb_ge; lia).
    rewrite andb_false_r. reflexivity.
  - destruct fuel as [|fuel]; [lia|]. 
    cbn [retryWithBackoff_fuel].
    destruct (operation w) as [[e|v] w1]; [|reflexivity].
    destruct (isRateLimit e && (rc <? maxRetries)%nat) eqn:E; [|reflexivity].
    apply andb_prop in E as [_ E]. apply Nat.ltb_lt in E.
    destruct (random w1) as [rnd w2].
    rewrite (IH fuel (rc + 1)%nat w2) by lia. reflexivity.
Qed.

Lemma retry_step_success rc w v w1 :
  operation w = (inr v, w1) -> retry rc w = Some (inr v, [Invoked], w1).
Proof.
  intros H. unfold retryWithBackoff. cbn [retryWithBackoff_fuel].
  rewrite H. reflexivity.
Qed.

Lemma retry_step_rethrow rc w e w1 :
  (rc < maxRetries)%nat -> operation w = (inl e, w1) -> isRateLimit e = false ->
  retry rc w = Some (inl e, [Invoked], w1).
Proof.
  intros Hrc H He. unfold retryWithBackoff. cbn [retryWithBackoff_fuel].
  rewrite H, He. cbn [andb].
  replace (maxRetries <=? rc)%nat with false
    by (symmetry; apply Nat.leb_gt; lia).
  reflexivity.
Qed.

Lemma retry_step_wait rc w e w1 :
  (rc < maxRetries)%nat -> operation w = (inl e, w1) -> isRateLimit e = true ->
  retry rc w =
  match retry (rc + 1) (snd (random w1)) with
  | Some (r, tr, w') =>
      Some (r, Invoked :: Delayed (delayTime rc (fst (random w1))) :: tr, w')
  | None => None
  end.
Proof.
  intros Hrc H He. unfold retryWithBackoff.
  cbn [retryWithBackoff_fuel]. rewrite H, He.
  replace (rc <? maxRetries)%nat with true
    by (symmetry; apply Nat.ltb_lt; lia).
  cbn [andb]. destruct (random w1) as [rnd w2]. cbn [fst snd].
  rewrite (retry_fuel_enough (maxRetries - (rc + 1)) (maxRetries - rc) (rc + 1) w2)
    by lia.
  reflexivity.
Qed.

Lemma retry_step_exhausted rc w e w1 :
  (maxRetries <= rc)%nat -> operation w = (inl e, w1) ->
  retry rc w =
  Some (inl (if isRateLimit e then rateLimitExceeded else maxAttemptsExceeded e),
        [Invoked], w1).
Proof.
  intros Hrc H. unfold retryWithBackoff. cbn [retryWithBackoff_fuel].
  rewrite H.
  replace (rc <? maxRetries)%nat with false
    by (symmetry; apply Nat.ltb_ge; lia).
  rewrite andb_false_r.
  replace (maxRetries <=? rc)%nat with true
    by (symmetry; apply Nat.leb_le; lia).
  destruct (isRateLimit e); reflexivity.
Qed.

(** Every run ends, with one call more than it has waits, and at most
    [maxRetries - retryCount] waits. *)
Lemma retry_terminates : forall k rc w,
  (maxRetries - rc = k)%nat ->
  exists r tr w', retry rc w = Some (r, tr, w')
    /\ (List.length (delays tr) <= k)%nat
    /\ invocations tr = S (List.length (delays tr)).
Proof.
  induction k as [|k IH]; intros rc w Hk.
  - destruct (operation w) as [[e|v] w1] eqn:H.
    + eexists _, _, _. rewrite (retry_step_exhausted rc w e w1) by (try lia; assumption).
      split; [reflexivity|]. simpl. split; [lia|reflexivity].
    + eexists _, _, _. rewrite (retry_step_success rc w v w1 H).
      split; [reflexivity|]. simpl. split; [lia|reflexivity].
  - destruct (operation w) as [[e|v] w1] eqn:H.
    + destruct (isRateLimit e) eqn:He.
      * rewrite (retry_step_wait rc w e w1) by (try lia; assumption).
        destruct (IH (rc + 1)%nat (snd (random w1))) as (r & tr & w' & -> & Hd & Hi); [lia|].
        eexists _, _, _. split; [reflexivity|]. simpl. rewrite Hi. split; [lia|reflexivity].
      * eexists _, _, _. rewrite (retry_step_rethrow rc w e w1) by (try lia; assumption).
        split; [reflexivity|]. simpl. split; [lia|reflexivity].
    + eexists _, _, _. rewrite (retry_step_success rc w v w1 H).
      split; [reflexivity|]. simpl. split; [lia|reflexivity].
Qed.

Hypothesis random_unit : forall w, (0 <= fst (random w))%Q /\ (fst (random w) < 1)%Q.

Lemma delayTime_bounds rc w :
  (1000 * inject_Z (2 ^ Z.of_nat (rc + 1)) <= delayTime rc (fst (random w)))%Q /\
  (delayTime rc (fst (random w)) < 1000 * inject_Z (2 ^ Z.of_nat (rc + 1)) + 1000)%Q.
Proof.
  unfold delayTime, baseDelay. destruct (random_unit w) as [H0 H1].
  generalize dependent (fst (random w)). intros q H0 H1.
  generalize (inject_Z (2 ^ Z.of_nat (rc + 1))). intros p. split; lra.
Qed.

End RetryFacts.

Lemma exceeded_errors_differ (e : Error) : rateLimitExceeded <> maxAttemptsExceeded e.
Proof. unfold rateLimitExceeded, maxAttemptsExceeded, new_Error. intros H. discriminate H. Qed.

(** C3 (amended).  [retryWithBackoff] treats an error as a rate-limit error
    exactly when its status code is 429 or its message contains "429" or
    "rate limit".  A run from retry count 0 always ends, after at most 3
    waits and one call more than waits.  A success is returned at once; an
    error that is not a rate-limit error is rethrown unchanged, with no wait,
    while fewer than 3 retries were made; a rate-limit error then makes the
    run wait between [1000 * 2^(retryCount+1)] and 1000 ms more, and retry.
    After 3 retries a rate-limit error raises the rate-limit-exceeded error
    and any other error the maximum-attempts error, which differ.  A service
    that always fails with a rate-limit error is called 4 times, with waits
    in [2000,3000), [4000,5000) and [8000,9000). *)
Theorem retryWithBackoff_policy (World A : Type)
  (operation : World -> (Error + A) * World) (random : World -> Q * World)
  (random_unit : forall w, (0 <= fst (random w))%Q /\ (fst (random w) < 1)%Q) :
  let retry := retryWithBackoff World A operation random in
  (forall e, isRateLimit e = true <->
             statusCode e = Some 429%Z \/ includes (message e) "429" = true
             \/ includes (message e) "rate limit" = true) /\
  (forall w, exists r tr w',
      retry 0%nat w = Some (r, tr, w')
      /\ (List.length (delays tr) <= 3)%nat
      /\ invocations tr = S (List.length (delays tr))) /\
  (forall rc w v w1,
      operation w = (inr v, w1) -> retry rc w = Some (inr v, [Invoked], w1)) /\
  (forall rc w e w1,
      (rc < 3)%nat -> operation w = (inl e, w1) -> isRateLimit e = false ->
      retry rc w = Some (inl e, [Invoked], w1)) /\
  (forall rc w e w1,
      (rc < 3)%nat -> operation w = (inl e, w1) -> isRateLimit e = true ->
      exists d,
        (1000 * inject_Z (2 ^ Z.of_nat (rc + 1)) <= d)%Q
        /\ (d < 1000 * inject_Z (2 ^ Z.of_nat (rc + 1)) + 1000)%Q
        /\ retry rc w =
           match retry (rc + 1)%nat (snd (random w1)) with
           | Some (r, tr, w') => Some (r, Invoked :: Delayed d :: tr, w')
           | None => None
           end) /\
  (forall w e w1,
      operation w = (inl e, w1) ->
      retry 3%nat w =
      Some (inl (if isRateLimit e then rateLimitExceeded
                 else maxAttemptsExceeded e), [Invoked], w1)) /\
  (forall e, rateLimitExceeded <> maxAttemptsExceeded e) /\
  ((forall w, exists e w1, operation w = (inl e, w1) /\ isRateLimit e = true) ->
   forall w, exists d0 d1 d2 w',
      retry 0%nat w =
      Some (inl rateLimitExceeded,
            [Invoked; Delayed d0; Invoked; Delayed d1; Invoked; Delayed d2;
             Invoked], w')
      /\ (2000 <= d0)%Q /\ (d0 < 3000)%Q
      /\ (4000 <= d1)%Q /\ (d1 < 5000)%Q
      /\ (8000 <= d2)%Q /\ (d2 < 9000)%Q).
Proof.
  cbv zeta. split_and!.
  - apply isRateLimit_spec.
  - intros w. apply (retry_terminates World A operation random 3 0 w). reflexivity.
  - intros rc w v w1. apply retry_step_success.
  - intros rc w e w1. apply retry_step_rethrow.
  - intros rc w e w1 Hrc H He.
    exists (delayTime rc (fst (random w1))).
    destruct (delayTime_bounds World random random_unit rc w1) as [Hlo Hhi].
    split; [exact Hlo|]. split; [exact Hhi|].
    apply (retry_step_wait World A operation random rc w e w1); assumption.
  - intros w e w1. apply retry_step_exhausted. unfold maxRetries. lia.
  - apply exceeded_errors_differ.
  - intros Hall w.
    destruct (Hall w) as (e0 & w1 & H0 & He0).
    destruct (Hall (snd (random w1))) as (e1 & w2 & H1 & He1).
    destruct (Hall (snd (random w2))) as (e2 & w3 & H2 & He2).
    destruct (Hall (snd (random w3))) as (e3 & w4 & H3 & He3).
    exists (delayTime 0 (fst (random w1))), (delayTime 1 (fst (random w2))),
           (delayTime 2 (fst (random w3))), w4.
    split.
    + rewrite (retry_step_wait World A operation random 0 w e0 w1)
        by (try assumption; unfold maxRetries; lia).
      change (0 + 1)%nat with 1%nat.
      rewrite (retry_step_wait World A operation random 1 (snd (random w1)) e1 w2)
        by (try assumption; unfold maxRetries; lia).
      change (1 + 1)%nat with 2%nat.
      rewrite (retry_step_wait World A operation random 2 (snd (random w2)) e2 w3)
        by (try assumption; unfold maxRetries; lia).
      change (2 + 1)%nat with 3%nat.
      rewrite (retry_step_exhausted World A operation random 3 (snd (random w3)) e3 w4)
        by (try assumption; unfold maxRetries; lia).
      rewrite He3. reflexivity.
    + destruct (delayTime_bounds World random random_unit 0 w1) as [L0 U0].
      destruct (delayTime_bounds World random random_unit 1 w2) as [L1 U1].
      destruct (delayTime_bounds World random random_unit 2 w3) as [L2 U2].
      change (inject_Z (2 ^ Z.of_nat (0 + 1))) with 2%Q in *.
      change (inject_Z (2 ^ Z.of_nat (1 + 1))) with 4%Q in *.
      change (inject_Z (2 ^ Z.of_nat (2 + 1))) with 8%Q in *.
      split_and!; lra.
Qed.

(** A service that always answers 429, and a generator that always
    gives one half. *)
Definition always429 (w : unit) : (Error + string) * unit :=
  (inl (mkError "Rate limit exceeded" (Some 429%Z)), w).
Definition half (w : unit) : Q * unit := (1 # 2, w).

(** C3, witness: the policy at this service and generator. *)
Lemma retryWithBackoff_policy_witness :
  (forall w : unit, (0 <= fst (half w))%Q /\ (fst (half w) < 1)%Q) /\
  exists d0 d1 d2 w',
    retryWithBackoff unit string always429 half 0 tt =
    Some (inl rateLimitExceeded,
          [Invoked; Delayed d0; Invoked; Delayed d1; Invoked; Delayed d2;
           Invoked], w')
    /\ (2000 <= d0)%Q /\ (d0 < 3000)%Q
    /\ (4000 <= d1)%Q /\ (d1 < 5000)%Q
    /\ (8000 <= d2)%Q /\ (d2 < 9000)%Q.
Proof.
  assert (Hh : forall w : unit, (0 <= fst (half w))%Q /\ (fst (half w) < 1)%Q).
  { intros w. split; [unfold Qle|unfold Qlt]; simpl; lia. }
  split; [exact Hh|].
  apply (retryWithBackoff_policy unit string always429 half Hh).
  intros w. exists (mkError "Rate limit exceeded" (Some 429%Z)), w.
  split; reflexivity.
Defined.

(** The gateway answers 500 with the body [[429]]. *)
Definition answer500 (_ : list Message) (w : unit)
  : (Error + Response) * unit :=
  (inr {| ok := false; status := 500; errorText := "[429]";
          completion := inl (new_Error "unused") |}, w).

(** C3, counterexample: the error has no status code and no "rate limit"
    in its message, and the request is retried three times all the same,
    because the message contains "429". *)
Lemma retry_on_429_in_message :
  let e := new_Error "AI Service Error: Mistral API error: 500 [429]" in
  request unit answer500 [] tt = (inl e, tt)
  /\ statusCode e = None
  /\ includes (message e) "rate limit" = false
  /\ generateMistralResponse unit answer500 half "hello" [] tt =
     Some (inl rateLimitExceeded,
           [Invoked; Delayed (delayTime 0 (1 # 2));
            Invoked; Delayed (delayTime 1 (1 # 2));
            Invoked; Delayed (delayTime 2 (1 # 2)); Invoked], tt).
Proof. cbv zeta. repeat split; reflexivity. Qed.

End MistralServiceProps.

Module SqlGenerationServiceProps.
Import JsString SqlGenerationService.

Lemma space_canon_fixed (c : ascii) : is_space c = true -> canon c = c.
Proof.
  destruct c as [[] [] [] [] [] [] [] []]; vm_compute; intros H; try reflexivity; discriminate H.
Qed.

Definition no_space (kw : string) : bool :=
  forallb (fun k => negb (is_space (canon k))) (list_ascii_of_string kw).

Lemma ci_head_not_space k c :
  is_space (canon k) = false -> Ascii.eqb (canon k) (canon c) = true ->
  is_space c = false.
Proof.
  intros Hk Heq. apply Ascii.eqb_eq in Heq.
  destruct (is_space c) eqn:Hc; [|reflexivity].
  rewrite (space_canon_fixed c Hc) in Heq. congruence.
Qed.

Lemma trimEnd_cons_not_space c s :
  is_space c = false -> trimEnd (String c s) = String c (trimEnd s).
Proof. intros Hc. simpl. rewrite Hc. destruct (trimEnd s); reflexivity. Qed.

Lemma trimEnd_keeps_keyword kw : forall m,
  no_space kw = true -> starts_with_ci kw m = true ->
  starts_with_ci kw (trimEnd m) = true.
Proof.
  induction kw as [|k kw IH]; intros m Hns Hm.
  - reflexivity.
  - destruct m as [|c m]; [discriminate|].
    unfold no_space in Hns. simpl in Hns, Hm.
    apply andb_prop in Hns as [Hk Hns]. apply andb_prop in Hm as [Hc Hm].
    apply negb_true_iff in Hk.
    rewrite trimEnd_cons_not_space by (eapply ci_head_not_space; eauto).
    simpl. rewrite Hc. simpl. apply IH; assumption.
Qed.

Lemma trim_keeps_keyword kw m :
  kw <> "" -> no_space kw = true -> starts_with_ci kw m = true ->
  starts_with_ci kw (trim m) = true.
Proof.
  intros Hne Hns Hm. unfold trim.
  destruct kw as [|k kw]; [congruence|].
  destruct m as [|c m]; [discriminate|].
  assert (Hc : is_space c = false).
  { unfold no_space in Hns. simpl in Hns, Hm.
    apply andb_prop in Hns as [Hk _]. apply andb_prop in Hm as [Hc _].
    apply negb_true_iff in Hk. eapply ci_head_not_space; eauto. }
  simpl trimStart. rewrite Hc. apply trimEnd_keeps_keyword; assumption.
Qed.

Lemma matchSql_keyword sql : forall m,
  matchSql sql = Some m ->
  existsb (fun kw => starts_with_ci kw m) sqlKeywords = true.
Proof.
  induction sql as [|c sql IH]; intros m H.
  - vm_compute in H. discriminate.
  - cbn [matchSql] in H.
    destruct (existsb (fun kw => starts_with_ci kw (String c sql)) sqlKeywords) eqn:E.
    + injection H as <-. exact E.
    + apply IH. exact H.
Qed.

Lemma trim_idempotent_on_keyword m :
  existsb (fun kw => starts_with_ci kw m) sqlKeywords = true ->
  existsb (fun kw => starts_with_ci kw (trim m)) sqlKeywords = true.
Proof.
  intros H. apply existsb_exists in H as (kw & Hin & Hkw).
  apply existsb_exists. exists kw. split; [exact Hin|].
  apply trim_keeps_keyword; [| |exact Hkw];
    simpl in Hin; intuition (subst; try discriminate; reflexivity).
Qed.

Lemma trimEnd_idem s : trimEnd (trimEnd s) = trimEnd s.
Proof.
  induction s as [|c s IH]; [reflexivity|].
  simpl. destruct (trimEnd s) as [|d r] eqn:E.
  - destruct (is_space c) eqn:Hc; [reflexivity|]. simpl. rewrite Hc. reflexivity.
  - cbn [trimEnd]. cbn [trimEnd] in IH. rewrite IH. reflexivity.
Qed.

(** C1 (amended).  [cleanSQLResponse] gives the empty string for an empty
    response; for any other response the result, after trimming, starts
    (case-insensitively) with one of SELECT, WITH, INSERT, UPDATE, DELETE;
    and it is the default SELECT query when the response, fences removed,
    holds none of these keywords. *)
Theorem cleanSQLResponse_keyword (response : string) :
  (response = "" -> cleanSQLResponse response = "") /\
  (response <> "" ->
   existsb (fun kw => starts_with_ci kw (trim (cleanSQLResponse response)))
     sqlKeywords = true) /\
  (matchSql (remove_all "```" (remove_all "```sql" response)) = None ->
   response <> "" -> cleanSQLResponse response = defaultQuery).
Proof.
  unfold cleanSQLResponse. split; [|split].
  - intros ->. reflexivity.
  - intros Hne. destruct (String.eqb_spec response ""); [contradiction|].
    destruct (matchSql _) as [m|] eqn:E.
    + apply trim_idempotent_on_keyword, trim_idempotent_on_keyword.
      eapply matchSql_keyword; eauto.
    + reflexivity.
  - intros E Hne. destruct (String.eqb_spec response ""); [contradiction|].
    rewrite E. reflexivity.
Qed.

(** C1, counterexample: a response that is a DELETE statement comes back
    as it is, and starts with neither SELECT nor WITH. *)
Lemma cleanSQLResponse_delete :
  cleanSQLResponse "DELETE FROM users" = "DELETE FROM users" /\
  startsWithSelectOrWith (cleanSQLResponse "DELETE FROM users") = false.
Proof. split; reflexivity. Qed.

End SqlGenerationServiceProps.

Module JsArrayProps.
Import JsArray.

Section SortFacts.
Context {A : Type} (cmp : A -> A -> option Q).

Lemma insert_sorted_perm x l : Permutation (insert_sorted cmp x l) (x :: l).
Proof.
  induction l as [|y l IH]; simpl; [reflexivity|].
  destruct (comes_before cmp x y); [reflexivity|].
  rewrite IH. apply perm_swap.
Qed.

Lemma sort_from_perm l : forall acc,
  Permutation (fold_left (fun acc x => insert_sorted cmp x acc) l acc) (acc ++ l).
Proof.
  induction l as [|x l IH]; intros acc; simpl.
  - rewrite app_nil_r. reflexivity.
  - rewrite IH, insert_sorted_perm. apply Permutation_middle.
Qed.

Lemma sort_perm l : Permutation (sort cmp l) l.
Proof. unfold sort. rewrite sort_from_perm. reflexivity. Qed.

(** Sortedness for a comparator that orders the elements of a list by
    a rational key, largest first or smallest first. *)
Variable P : A -> Prop.
Variable R : A -> A -> Prop.
Hypothesis R_trans : forall x y z, P x -> P y -> P z -> R x y -> R y z -> R x z.
Hypothesis before_R : forall x y, P x -> P y -> comes_before cmp x y = true -> R x y.
Hypothesis after_R : forall x y, P x -> P y -> comes_before cmp x y = false -> R y x.

Lemma insert_sorted_Forall x l : P x -> Forall P l -> Forall P (insert_sorted cmp x l).
Proof.
  intros Hx Hl. eapply Permutation_Forall; [symmetry; apply insert_sorted_perm|].
  constructor; assumption.
Qed.

Lemma insert_sorted_sorted x l :
  P x -> Forall P l -> StronglySorted R l ->
  StronglySorted R (insert_sorted cmp x l).
Proof.
  intros Hx Hl Hs. induction Hs as [|y l Hs IH Hy]; simpl.
  - repeat constructor.
  - apply Forall_cons_iff in Hl as [Py Pl].
    destruct (comes_before cmp x y) eqn:E.
    + constructor; [constructor; assumption|].
      constructor; [eauto|].
      rewrite Forall_forall in *. intros z Hz.
      eapply (R_trans x y z); eauto. 
    + constructor; [apply IH; assumption|].
      eapply Permutation_Forall; [symmetry; apply insert_sorted_perm|].
      constructor; [eauto|assumption].
Qed.

Lemma sort_from_sorted l : forall acc,
  Forall P l -> Forall P acc -> StronglySorted R acc ->
  StronglySorted R (fold_left (fun acc x => insert_sorted cmp x acc) l acc).
Proof.
  induction l as [|x l IH]; intros acc Hl Hacc Hs; simpl; [assumption|].
  apply Forall_cons_iff in Hl as [Hx Hl].
  apply IH; [assumption| |].
  - apply insert_sorted_Forall; assumption.
  - apply insert_sorted_sorted; assumption.
Qed.

Lemma sort_sorted l : Forall P l -> StronglySorted R (sort cmp l).
Proof. intros Hl. apply sort_from_sorted; [assumption|constructor|constructor]. Qed.

End SortFacts.

Lemma StronglySorted_firstn {A} (R : A -> A -> Prop) n l :
  StronglySorted R l -> StronglySorted R (firstn n l).
Proof.
  intros Hs. revert n. induction Hs as [|x l Hs IH Hx]; intros [|n]; simpl; try constructor.
  - apply IH.
  - rewrite Forall_forall in *. intros y Hy. apply Hx. eapply subseteq_take; eauto.
Qed.
Lemma StronglySorted_lookup {A} (R : A -> A -> Prop) (l : list A) :
  StronglySorted R l ->
  forall i j a b, (i < j)%nat -> l !! i = Some a -> l !! j = Some b -> R a b.
Proof.
  intros Hs. induction Hs as [|x l Hs IH Hx]; intros i j a b Hij Ha Hb.
  - rewrite lookup_nil in Ha. discriminate.
  - destruct j as [|j]; [lia|]. destruct i as [|i]; simplify_eq/=.
    + rewrite Forall_forall in Hx. apply Hx.
      eapply list_elem_of_lookup_2; eauto.
    + eapply (IH i j); eauto. lia.
Qed.

End JsArrayProps.

Module SqlKnowledgeProps.
Import JsString SqlGenerationService JsNumberProps JsArrayProps.








End SqlKnowledgeProps.

Module AnalyticsServiceProps.
Import JsString JsValue AnalyticsService.

(** *** The correlation matrix *)

Section MatrixFacts.
Variable parseFloat : value -> option Q.
Variable sampleCorrelation : list Q -> list Q -> Js.Error + option Q.

Abbreviation matrix_t := (gmap string (gmap string Correlation)).

Definition symmetric (m : matrix_t) : Prop :=
  forall a b, entry m a b = entry m b a.

Definition has_rows (fs : list string) (m : matrix_t) : Prop :=
  forall f, f ∈ fs -> is_Some (m !! f).

Lemma entry_setEntry (m : matrix_t) f1 f2 c a b :
  is_Some (m !! f1) ->
  entry (setEntry m f1 f2 c) a b =
  if decide (a = f1 /\ b = f2) then Some c else entry m a b.
Proof.
  intros [r Hr]. unfold entry, setEntry. rewrite lookup_alter.
  destruct (decide (f1 = a)) as [<-|Hne].
  - rewrite Hr. simpl. rewrite lookup_insert.
    destruct (decide (f2 = b)) as [<-|Hb].
    + rewrite decide_True by auto. reflexivity.
    + rewrite decide_False by (intros [_ ->]; auto). reflexivity.
  - rewrite decide_False by (intros [-> _]; auto). reflexivity.
Qed.

Lemma setEntry_rows (m : matrix_t) f1 f2 c f :
  is_Some (setEntry m f1 f2 c !! f) <-> is_Some (m !! f).
Proof.
  unfold setEntry. rewrite lookup_alter.
  destruct (decide (f1 = f)) as [<-|]; [|reflexivity].
  rewrite fmap_is_Some. reflexivity.
Qed.

(** One step of the inner loop: both entries of the pair get the value. *)
Definition setPair (m : matrix_t) f1 f2 c : matrix_t :=
  setEntry (setEntry m f1 f2 c) f2 f1 c.

Lemma setPair_symmetric (m : matrix_t) f1 f2 c :
  is_Some (m !! f1) -> is_Some (m !! f2) ->
  symmetric m -> symmetric (setPair m f1 f2 c).
Proof.
  intros H1 H2 Hs a b. unfold setPair.
  rewrite !entry_setEntry by (try apply setEntry_rows; assumption).
  destruct (decide (a = f2 /\ b = f1)) as [Hab|Hab];
    destruct (decide (b = f2 /\ a = f1)) as [Hba|Hba];
    destruct (decide (a = f1 /\ b = f2)) as [Hab'|Hab'];
    destruct (decide (b = f1 /\ a = f2)) as [Hba'|Hba'];
    try reflexivity; try apply Hs; tauto.
Qed.

Lemma setPair_diagonal (m : matrix_t) f1 f2 c a :
  is_Some (m !! f1) -> is_Some (m !! f2) -> f1 <> f2 ->
  entry (setPair m f1 f2 c) a a = entry m a a.
Proof.
  intros H1 H2 Hne. unfold setPair.
  rewrite !entry_setEntry by (try apply setEntry_rows; assumption).
  destruct (decide (a = f2 /\ a = f1)) as [[Ea Eb]|Hno]; [congruence|].
  destruct (decide (a = f1 /\ a = f2)) as [[Ea Eb]|Hno']; [congruence|].
  reflexivity.
Qed.

Lemma setPair_rows (m : matrix_t) f1 f2 c f :
  is_Some (setPair m f1 f2 c !! f) <-> is_Some (m !! f).
Proof. unfold setPair. rewrite !setEntry_rows. reflexivity. Qed.

Lemma fillRow_facts data f1 : forall rest (m : matrix_t),
  is_Some (m !! f1) -> has_rows rest m ->
  let m' := fillRow parseFloat sampleCorrelation data f1 rest m in
  (forall f, is_Some (m' !! f) <-> is_Some (m !! f))
  /\ (symmetric m -> symmetric m')
  /\ (f1 ∉ rest -> forall a, entry m' a a = entry m a a).
Proof.
  induction rest as [|f2 rest IH]; intros m H1 Hrows; cbv zeta.
  - simpl. split_and!; [reflexivity|auto|auto].
  - unfold fillRow. cbn [fold_left].
    set (c := calculateCorrelation parseFloat sampleCorrelation data f1 f2).
    change (setEntry (setEntry m f1 f2 c) f2 f1 c) with (setPair m f1 f2 c).
    assert (H2 : is_Some (m !! f2)) by (apply Hrows; left).
    destruct (IH (setPair m f1 f2 c)) as (Hd & Hsym & Hdiag).
    { apply setPair_rows, H1. }
    { intros f Hf. apply setPair_rows, Hrows. right. exact Hf. }
    split_and!.
    + intros f. rewrite <- (setPair_rows m f1 f2 c f). apply Hd.
    + intros Hs. apply Hsym. apply setPair_symmetric; assumption.
    + intros Hnotin a. rewrite not_elem_of_cons in Hnotin. destruct Hnotin as [Hne Hnotin].
      unfold fillRow in Hdiag. rewrite Hdiag by assumption.
      apply setPair_diagonal; assumption.
Qed.

Lemma fillMatrix_facts data : forall fields (m : matrix_t),
  has_rows fields m ->
  let m' := fillMatrix parseFloat sampleCorrelation data fields m in
  (symmetric m -> symmetric m')
  /\ (NoDup fields -> forall a, entry m' a a = entry m a a).
Proof.
  induction fields as [|f1 rest IH]; intros m Hrows; cbv zeta.
  - simpl. auto.
  - cbn [fillMatrix].
    destruct (fillRow_facts data f1 rest m) as (Hd & Hsym & Hdiag).
    { apply Hrows. left. }
    { intros f Hf. apply Hrows. right. exact Hf. }
    destruct (IH (fillRow parseFloat sampleCorrelation data f1 rest m)) as (Hsym' & Hdiag').
    { intros f Hf. apply Hd, Hrows. right. exact Hf. }
    split.
    + intros Hs. apply Hsym', Hsym, Hs.
    + intros Hnd a. apply NoDup_cons in Hnd as [Hnotin Hnd].
      rewrite Hdiag' by assumption. apply Hdiag. exact Hnotin.
Qed.

Lemma fold_insert_lookup {V} (f : string -> V) (l : list string) :
  forall (r : gmap string V) k,
  fold_left (fun r k' => <[k' := f k']> r) l r !! k =
  if decide (k ∈ l) then Some (f k) else r !! k.
Proof.
  induction l as [|x l IH]; intros r k; cbn [fold_left].
  - rewrite decide_False by apply not_elem_of_nil. reflexivity.
  - rewrite IH. destruct (decide (k ∈ l)) as [Hin|Hnotin].
    + rewrite decide_True by (right; exact Hin). reflexivity.
    + destruct (decide (k = x)) as [->|Hne].
      * rewrite decide_True by left. apply lookup_insert_eq.
      * rewrite decide_False by (rewrite elem_of_cons; tauto).
        apply lookup_insert_ne. auto.
Qed.

Lemma entry_initMatrix fields a b :
  entry (initMatrix fields) a b =
  if decide (a ∈ fields) then
    if decide (b ∈ fields)
    then Some (if String.eqb a b then CNumber (Some 1%Q) else CNull)
    else None
  else None.
Proof.
  unfold entry, initMatrix.
  rewrite (fold_insert_lookup (initRow fields) fields ∅ a).
  destruct (decide (a ∈ fields)); [|rewrite lookup_empty; reflexivity].
  unfold initRow.
  rewrite (fold_insert_lookup
             (fun field2 => if String.eqb a field2 then CNumber (Some 1%Q) else CNull)
             fields ∅ b).
  destruct (decide (b ∈ fields)); [reflexivity|apply lookup_empty].
Qed.

Lemma initMatrix_rows fields : has_rows fields (initMatrix fields).
Proof.
  intros f Hf. unfold initMatrix.
  rewrite (fold_insert_lookup (initRow fields) fields ∅ f).
  rewrite decide_True by assumption. eauto.
Qed.

Lemma initMatrix_symmetric fields : symmetric (initMatrix fields).
Proof.
  intros a b. rewrite !entry_initMatrix.
  repeat case_decide; try reflexivity.
  rewrite (String.eqb_sym a b). reflexivity.
Qed.

End MatrixFacts.

(** C6 (amended).  In the matrix [calculateCorrelationMatrix] returns, the
    entry for (A, B) equals the entry for (B, A) for all A and B; and when
    no field name is repeated in the field list, every diagonal entry
    (A, A) is 1. *)
Theorem calculateCorrelationMatrix_symmetric
  (parseFloat : value -> option Q)
  (sampleCorrelation : list Q -> list Q -> Js.Error + option Q)
  (data : option (list row)) (fields : list string)
  (matrix : gmap string (gmap string Correlation)) :
  calculateCorrelationMatrix parseFloat sampleCorrelation data fields
    = Matrix matrix ->
  (forall a b, entry matrix a b = entry matrix b a)
  /\ (NoDup fields ->
      forall a, a ∈ fields -> entry matrix a a = Some (CNumber (Some 1%Q))).
Proof.
  unfold calculateCorrelationMatrix. destruct data as [rows|]; [|discriminate].
  destruct (_ || _); [discriminate|]. intros [= <-].
  destruct (fillMatrix_facts parseFloat sampleCorrelation (Some rows) fields
              (initMatrix fields) (initMatrix_rows fields)) as [Hsym Hdiag].
  split.
  - apply Hsym, initMatrix_symmetric.
  - intros Hnd a Ha. rewrite Hdiag by assumption. rewrite entry_initMatrix.
    rewrite !decide_True by assumption. rewrite String.eqb_refl. reflexivity.
Qed.

(** [parseFloat] on cells that are numbers, [null], [undefined] or
    booleans (a string cell is read as not numeric). *)
Definition parseFloat_cells (v : value) : option Q :=
  match v with
  | VNum q => Some q
  | _ => None
  end.

(** A statistics library that is not reached. *)
Definition noCorrelation (_ _ : list Q) : Js.Error + option Q :=
  inl (Js.new_Error "sampleCorrelation requires at least two data points").

(** C6, witness: two rows, fields [a] and [b]. *)
Lemma calculateCorrelationMatrix_symmetric_witness :
  let data := Some [[("a", VNum 1); ("b", VNum 2)];
                    [("a", VNum 3); ("b", VNum 5)]] in
  exists matrix,
    calculateCorrelationMatrix parseFloat_cells noCorrelation data ["a"; "b"]
      = Matrix matrix
    /\ (forall a b, entry matrix a b = entry matrix b a)
    /\ (NoDup ["a"; "b"] ->
        forall a, a ∈ ["a"; "b"] -> entry matrix a a = Some (CNumber (Some 1%Q))).
Proof.
  cbv zeta. eexists. split; [reflexivity|].
  apply (calculateCorrelationMatrix_symmetric parseFloat_cells noCorrelation
           (Some [[("a", VNum 1); ("b", VNum 2)]; [("a", VNum 3); ("b", VNum 5)]])
           ["a"; "b"]).
  reflexivity.
Defined.

(** C6, counterexample: with the field [x] listed twice, the diagonal
    entry (x, x) is overwritten by [null]. *)
Lemma calculateCorrelationMatrix_repeated_field :
  exists matrix,
    calculateCorrelationMatrix parseFloat_cells noCorrelation
      (Some [[("x", VNum 1)]]) ["x"; "x"] = Matrix matrix
    /\ entry matrix "x" "x" = Some CNull.
Proof. eexists. split; [reflexivity|]. vm_compute. reflexivity. Qed.

(** *** Outliers *)

(** C7.  With fewer than 4 rows, or fewer than 4 numeric values in the
    chosen field, [detectOutliers] returns no outliers and the data it was
    given as [normalData]. *)
Theorem detectOutliers_too_few (parseFloat : value -> option Q)
  (data : option (list row)) (fld : string) :
  (forall rows, data = Some rows ->
     (List.length rows < 4)%nat
     \/ (List.length (numericValues parseFloat rows fld) < 4)%nat) ->
  detectOutliers parseFloat data fld =
  {| outliers := []; normalData := data; bounds := None; quartiles := None |}.
Proof.
  intros H. unfold detectOutliers. destruct data as [rows|]; [|reflexivity].
  destruct (List.length rows <? 4)%nat eqn:E1; [reflexivity|].
  destruct (List.length (numericValues parseFloat rows fld) <? 4)%nat eqn:E2;
    [reflexivity|].
  apply Nat.ltb_ge in E1, E2. destruct (H rows eq_refl); lia.
Qed.

(** C7, witness: five rows, three of them numeric in [price]. *)
Lemma detectOutliers_too_few_witness :
  let data := Some [[("price", VNum 1)]; [("price", VNull)];
                    [("price", VNum 2)]; [("price", VStr "n/a")];
                    [("price", VNum 900)]] in
  detectOutliers parseFloat_cells data "price" =
  {| outliers := []; normalData := data; bounds := None; quartiles := None |}.
Proof.
  cbv zeta. apply detectOutliers_too_few.
  intros rows [= <-]. right. simpl. lia.
Defined.

End AnalyticsServiceProps.

Module TrendProps.
Import JsString JsValue AnalyticsService JsNumberProps AnalyticsServiceProps.
Import JsDouble.

(** The literals that [detectTrend] compares a slope with. *)
Definition thresholds : list Q := [- (1 # 10); - (1 # 100); 0; 1 # 100; 1 # 10]%Q.

(** The laws of doubles that the classification relies on: [<] is a
    strict order, which [NaN] never satisfies; [Math.abs] is exact, so that
    [|x| < q] means [-q < x < q] and [q < |x|] means [q < x] or [x < -q];
    and the five literals compare as their decimal values do. *)
Record OrderLaws (D : Ops) : Prop := {
  lt_trans : forall a b c : number D,
    lt a b = true -> lt b c = true -> lt a c = true;
  lt_asym : forall a b : number D, lt a b = true -> lt b a = false;
  abs_lt : forall (x : number D) (q : Q),
    (0 < q)%Q -> lt (abs x) (lit q) = lt (lit (- q)) x && lt x (lit q);
  abs_gt : forall (x : number D) (q : Q),
    (0 < q)%Q -> lt (lit q) (abs x) = lt (lit q) x || lt x (lit (- q));
  lit_lt : forall p q : Q,
    In p thresholds -> In q thresholds -> (p < q)%Q ->
    @lt D (lit p) (lit q) = true
}.

Section Facts.
Variable D : Ops.
Variable parseFloat : value -> number D.
Variable sum : list (number D) -> number D.
Variable dateValue : value -> option Q.
Variable implementationSort :
  (row -> row -> option Q) -> list row -> list row.

(** The products under the sum, read by position. *)
Lemma products_from (f : nat -> number D) (d : number D) :
  forall (l : list (number D)) (k : nat),
    products D (map f (seq k (List.length l))) l
    = map (fun i => mul (f i) (nth (i - k) l d)) (seq k (List.length l)).
Proof.
  induction l as [|y l IH]; intros k; [reflexivity|].
  cbn [List.length seq map products]. rewrite Nat.sub_diag. cbn [nth].
  f_equal. rewrite IH. apply map_ext_in. intros i Hi. apply in_seq in Hi.
  replace (i - k)%nat with (S (i - S k)) by lia. reflexivity.
Qed.

Lemma products_indices (values : list (number D)) (d : number D) :
  products D (indices D (List.length values)) values
  = map (fun i => mul (lit (inject_Z (Z.of_nat i))) (nth i values d))
      (seq 0 (List.length values)).
Proof.
  unfold indices. rewrite (products_from _ d values 0).
  apply map_ext. intros i. rewrite Nat.sub_0_r. reflexivity.
Qed.

Hypothesis laws : OrderLaws D.

Lemma threshold_lt (p q : Q) :
  In p thresholds -> In q thresholds -> (p < q)%Q ->
  @lt D (lit p) (lit q) = true.
Proof. apply (lit_lt D laws). Qed.

Ltac threshold :=
  apply threshold_lt; [simpl; tauto|simpl; tauto|reflexivity].

Lemma classify_spec (s : number D) :
  In (classify D s)
     ["stable"; "strong increase"; "slight increase"; "strong decrease";
      "slight decrease"]
  /\ (classify D s = "stable" <-> lt (abs s) (lit (1 # 100)) = true)
  /\ (classify D s = "strong increase" <-> lt (lit (1 # 10)) s = true)
  /\ (classify D s = "strong decrease" <-> lt s (lit (- (1 # 10))) = true)
  /\ (classify D s = "strong increase" \/ classify D s = "strong decrease"
      <-> lt (lit (1 # 10)) (abs s) = true)
  /\ (classify D s = "slight increase"
      <-> lt (abs s) (lit (1 # 100)) = false /\ lt (lit 0) s = true
          /\ lt (lit (1 # 10)) s = false)
  /\ (classify D s = "slight decrease"
      <-> lt (abs s) (lit (1 # 100)) = false /\ lt (lit 0) s = false
          /\ lt s (lit (- (1 # 10))) = false).
Proof.
  assert (Hup : lt (lit (1 # 10)) s = true ->
                lt (lit 0) s = true /\ lt (abs s) (lit (1 # 100)) = false).
  { intros H. split.
    - apply (lt_trans D laws _ (lit (1 # 10))); [threshold|exact H].
    - rewrite (abs_lt D laws) by reflexivity.
      assert (H1 : lt (lit (1 # 100)) s = true).
      { apply (lt_trans D laws _ (lit (1 # 10))); [threshold|exact H]. }
      rewrite (lt_asym D laws _ _ H1). apply andb_false_r. }
  assert (Hdown : lt s (lit (- (1 # 10))) = true ->
                  lt (lit 0) s = false /\ lt (abs s) (lit (1 # 100)) = false).
  { intros H. split.
    - destruct (lt (lit 0) s) eqn:E; [|reflexivity].
      assert (H1 : @lt D (lit 0) (lit (- (1 # 10))) = true).
      { apply (lt_trans D laws _ s); assumption. }
      assert (H2 : @lt D (lit (- (1 # 10))) (lit 0) = true) by threshold.
      rewrite (lt_asym D laws _ _ H2) in H1. discriminate H1.
    - rewrite (abs_lt D laws) by reflexivity.
      assert (H1 : lt s (lit (- (1 # 100))) = true).
      { apply (lt_trans D laws _ (lit (- (1 # 10)))); [exact H|threshold]. }
      rewrite (lt_asym D laws _ _ H1). reflexivity. }
  assert (Hstrong : lt (lit (1 # 10)) (abs s)
                    = lt (lit (1 # 10)) s || lt s (lit (- (1 # 10)))).
  { apply (abs_gt D laws). reflexivity. }
  unfold classify.
  destruct (lt (abs s) (lit (1 # 100))) eqn:A.
  { assert (Q0 : lt (lit (1 # 10)) s = false).
    { destruct (lt (lit (1 # 10)) s) eqn:E; [|reflexivity].
      destruct (Hup eq_refl) as [_ C]. congruence. }
    assert (R0 : lt s (lit (- (1 # 10))) = false).
    { destruct (lt s (lit (- (1 # 10)))) eqn:E; [|reflexivity].
      destruct (Hdown eq_refl) as [_ C]. congruence. }
    rewrite Hstrong, Q0, R0.
    split_and!; try (simpl; tauto);
      (split; [try discriminate; intros [H|H]; discriminate H
              |try discriminate; intros H; try discriminate H;
               destruct H as [H _]; discriminate H]). }
  destruct (lt (lit 0) s) eqn:P.
  - assert (R0 : lt s (lit (- (1 # 10))) = false).
    { destruct (lt s (lit (- (1 # 10)))) eqn:E; [|reflexivity].
      destruct (Hdown eq_refl) as [C _]. congruence. }
    rewrite Hstrong, R0, orb_false_r.
    destruct (lt (lit (1 # 10)) s) eqn:Q0.
    + split_and!; try (simpl; tauto);
        (split; [try discriminate; auto
                |try discriminate; intros H; try reflexivity;
                 try (left; reflexivity);
                 destruct H as (_ & H1 & H2); discriminate]).
    + split_and!; try (simpl; tauto);
        (split; [try discriminate; auto; intros [H|H]; discriminate H
                |try discriminate; intros H; try reflexivity;
                 destruct H as (_ & H1 & H2); discriminate]).
  - assert (Q0 : lt (lit (1 # 10)) s = false).
    { destruct (lt (lit (1 # 10)) s) eqn:E; [|reflexivity].
      destruct (Hup eq_refl) as [C _]. congruence. }
    rewrite Hstrong, Q0, orb_false_l.
    destruct (lt s (lit (- (1 # 10)))) eqn:R0.
    + split_and!; try (simpl; tauto);
        (split; [try discriminate; auto
                |try discriminate; intros H; try reflexivity;
                 try (right; reflexivity);
                 destruct H as (_ & H1 & H2); discriminate]).
    + split_and!; try (simpl; tauto);
        (split; [try discriminate; auto; intros [H|H]; discriminate H
                |try discriminate; intros H; try reflexivity;
                 destruct H as (_ & H1 & H2); discriminate]).
Qed.

Lemma percentChange_spec (first last : number D) :
  (strictEq first (lit 0) = true -> strictEq last (lit 0) = true ->
   percentChange D first last = lit 0)
  /\ (strictEq first (lit 0) = true -> strictEq last (lit 0) = false ->
      percentChange D first last = lit 100)
  /\ (strictEq first (lit 0) = false ->
      percentChange D first last = mul (div (sub last first) first) (lit 100)).
Proof.
  unfold percentChange.
  destruct (strictEq first (lit 0)), (strictEq last (lit 0)); cbn [negb];
    split_and!; intros; try discriminate; reflexivity.
Qed.

End Facts.

(** C8.  For at least three rows whose time-sorted series has at least
    three numeric values, [detectTrend] reports as slope the least-squares
    slope of the values against their positions 0, 1, 2, ..., in the
    closed form
    (n Sxy - Sx Sy) / (n Sxx - Sx Sx), computed with the engine's numbers
    and the library's [sum].  It calls the slope "stable" exactly when
    its absolute value is below 0.01, and otherwise an increase or a
    decrease, strong exactly when the absolute value exceeds 0.1: a strong
    increase exactly when the slope is above 0.1 and a strong decrease
    exactly when it is below -0.1.  The percent change divides by the
    first value only when that is not 0; when it is 0 the change is 100 if
    the last value is not 0, and 0 otherwise. *)
Theorem detectTrend_classification (D : Ops)
  (parseFloat : value -> number D) (sum : list (number D) -> number D)
  (dateValue : value -> option Q)
  (implementationSort : (row -> row -> option Q) -> list row -> list row)
  (rows : list row) (valueField timeField : string) :
  let sortedData := sortByTime dateValue implementationSort rows timeField in
  let values := numbers D parseFloat sortedData valueField in
  let count := List.length values in
  let value (i : nat) := nth i values (lit 0) in
  let position (i : nat) : number D := lit (inject_Z (Z.of_nat i)) in
  let n : number D := lit (inject_Z (Z.of_nat count)) in
  let sumX := sum (map position (seq 0 count)) in
  let sumY := sum values in
  let sumXY := sum (map (fun i => mul (position i) (value i)) (seq 0 count)) in
  let sumXX :=
    sum (map (fun i => mul (position i) (position i)) (seq 0 count)) in
  let s := div (sub (mul n sumXY) (mul sumX sumY))
               (sub (mul n sumXX) (mul sumX sumX)) in
  let first := value 0%nat in
  let last := value (count - 1)%nat in
  OrderLaws D ->
  (3 <= List.length rows)%nat ->
  (3 <= count)%nat ->
  exists t c,
    detectTrend D parseFloat sum dateValue implementationSort (Some rows)
      valueField timeField =
    {| trend := t;
       details := Some {| slope := s; firstValue := first;
                          lastValue := last; changePercent := c |} |}
    /\ In t ["stable"; "strong increase"; "slight increase";
             "strong decrease"; "slight decrease"]
    /\ (t = "stable" <-> lt (abs s) (lit (1 # 100)) = true)
    /\ (t = "strong increase" <-> lt (lit (1 # 10)) s = true)
    /\ (t = "strong decrease" <-> lt s (lit (- (1 # 10))) = true)
    /\ (t = "strong increase" \/ t = "strong decrease"
        <-> lt (lit (1 # 10)) (abs s) = true)
    /\ (t = "slight increase"
        <-> lt (abs s) (lit (1 # 100)) = false /\ lt (lit 0) s = true
            /\ lt (lit (1 # 10)) s = false)
    /\ (t = "slight decrease"
        <-> lt (abs s) (lit (1 # 100)) = false /\ lt (lit 0) s = false
            /\ lt s (lit (- (1 # 10))) = false)
    /\ (strictEq first (lit 0) = true -> strictEq last (lit 0) = true ->
        c = lit 0)
    /\ (strictEq first (lit 0) = true -> strictEq last (lit 0) = false ->
        c = lit 100)
    /\ (strictEq first (lit 0) = false ->
        c = mul (div (sub last first) first) (lit 100)).
Proof.
  intros sortedData values count value position n sumX sumY sumXY sumXX s
    first last laws Hrows Hlen.
  exists (classify D s), (percentChange D first last).
  split.
  - unfold detectTrend. fold sortedData. fold values.
    replace (List.length rows <? 3)%nat with false
      by (symmetry; apply Nat.ltb_ge; exact Hrows).
    replace (List.length values <? 3)%nat with false
      by (symmetry; apply Nat.ltb_ge; exact Hlen).
    rewrite (products_indices D values (lit 0)).
    unfold indices. rewrite map_map. reflexivity.
  - destruct (classify_spec D laws s) as (C0 & C1 & C2 & C3 & C4 & C5 & C6).
    destruct (percentChange_spec D first last) as (P1 & P2 & P3).
    split_and!; assumption.
Qed.

(** The exact rationals satisfy the laws. *)
Lemma bool_eq_iff (a b : bool) : (a = true <-> b = true) -> a = b.
Proof. destruct a, b; intros [H1 H2]; auto; symmetry; auto. Qed.

Lemma rational_laws : OrderLaws Rational.
Proof.
  split.
  - intros [a|] [b|] [c|]; cbn; try discriminate.
    rewrite !Qlt_bool_true. apply Qlt_trans.
  - intros [a|] [b|]; cbn; try discriminate.
    rewrite Qlt_bool_true, Qlt_bool_false. apply Qlt_le_weak.
  - intros [x|] q Hq; cbn; [|reflexivity].
    apply bool_eq_iff. rewrite andb_true_iff, !Qlt_bool_true.
    apply Qabs_Qlt_condition.
  - intros [x|] q Hq; cbn; [|reflexivity].
    apply bool_eq_iff. rewrite orb_true_iff, !Qlt_bool_true.
    split.
    + apply Qabs_case; intros Hx H; [left|right]; lra.
    + intros [H|H]; apply Qabs_case; intros; lra.
  - intros p q _ _ H. cbn. apply Qlt_bool_true, H.
Qed.

(** The library's [sum] on exact rationals. *)
Definition exactSum (l : list (option Q)) : option Q :=
  fold_right (lift2 Qplus) (Some 0%Q) l.

(** An engine that leaves an array it cannot order as it is. *)
Definition leavesOrder (compare : row -> row -> option Q) (l : list row)
  : list row := l.

(** C8, witness: three readings 10, 0, 5 at dates 3, 1, 2; in time order
    the series starts at 0 and ends at 10, so the change is 100 percent. *)
Lemma detectTrend_classification_witness :
  let rows := [[("t", VNum 3); ("v", VNum 10)];
               [("t", VNum 1); ("v", VNum 0)];
               [("t", VNum 2); ("v", VNum 5)]] in
  exists (t : string) (s c : number Rational),
    detectTrend Rational parseFloat_cells exactSum parseFloat_cells
      leavesOrder (Some rows) "v" "t" =
    {| trend := t;
       details := Some {| slope := s; firstValue := lit 0;
                          lastValue := lit 10; changePercent := c |} |}
    /\ (s = lit (30 # 6) /\ t = "strong increase")
    /\ c = lit 100.
Proof.
  cbv zeta.
  destruct (detectTrend_classification Rational parseFloat_cells exactSum
              parseFloat_cells leavesOrder
              [[("t", VNum 3); ("v", VNum 10)];
               [("t", VNum 1); ("v", VNum 0)];
               [("t", VNum 2); ("v", VNum 5)]] "v" "t" rational_laws)
    as (t & c & Hrun & _ & _ & Hstrong & _ & _ & _ & _ & _ & H100 & _).
  { simpl. lia. }
  { simpl. lia. }
  eexists t, _, c. split; [exact Hrun|]. split.
  - split; [vm_compute; reflexivity|]. apply Hstrong. vm_compute. reflexivity.
  - apply H100; vm_compute; reflexivity.
Defined.

End TrendProps.

Module JsHeapProps.
Import JsValue JsHeap.

(** A total-correctness triple: from a heap that satisfies [P] the
    computation returns, with a result and a heap that satisfy [Q]. *)
Definition triple {A : Type} (P : heap -> Prop) (m : M A)
  (Q : A -> heap -> Prop) : Prop :=
  forall h, P h -> exists a h', m h = Some (a, h') /\ Q a h'.

Lemma triple_ret {A} (P : heap -> Prop) (a : A) (Q : A -> heap -> Prop) :
  (forall h, P h -> Q a h) -> triple P (ret a) Q.
Proof. intros H h Hh. exists a, h. split; [reflexivity|auto]. Qed.

Lemma triple_bind {A B} (P : heap -> Prop) (m : M A) (R : A -> heap -> Prop)
  (f : A -> M B) (Q : B -> heap -> Prop) :
  triple P m R -> (forall a, triple (R a) (f a) Q) -> triple P (bind m f) Q.
Proof.
  intros Hm Hf h Hh. destruct (Hm h Hh) as (a & h1 & E & Ha).
  destruct (Hf a h1 Ha) as (b & h2 & E' & Hb).
  exists b, h2. unfold bind. rewrite E. auto.
Qed.

Lemma triple_weaken {A} (P P' : heap -> Prop) (m : M A)
  (Q Q' : A -> heap -> Prop) :
  triple P' m Q' -> (forall h, P h -> P' h) ->
  (forall a h, Q' a h -> Q a h) -> triple P m Q.
Proof.
  intros Hm HP HQ h Hh. destruct (Hm h (HP h Hh)) as (a & h' & E & Ha).
  exists a, h'. auto.
Qed.

Lemma triple_for_each {A} (I : heap -> Prop) (l : list A) (body : A -> M unit) :
  (forall x, x ∈ l -> triple I (body x) (fun _ => I)) ->
  triple I (for_each l body) (fun _ => I).
Proof.
  induction l as [|x l IH]; intros Hbody; simpl.
  - apply triple_ret. auto.
  - eapply triple_bind.
    + apply Hbody. left.
    + intros u. apply IH. intros y Hy. apply Hbody. right. exact Hy.
Qed.

(** The objects of [h0] are still there, and each reference of [fresh] is
    a row that [h0] does not have. *)
Definition framed (h0 : heap) (fresh : list loc) (h : heap) : Prop :=
  h0 ⊆ h /\ forall c, c ∈ fresh -> h0 !! c = None /\ exists r, h !! c = Some (ORow r).

Lemma triple_read_row h0 fresh c :
  c ∈ fresh ->
  triple (framed h0 fresh) (read_row c) (fun _ => framed h0 fresh).
Proof.
  intros Hc h Hh. destruct Hh as [Hsub Hrows].
  destruct (Hrows c Hc) as (_ & r & Hr).
  exists r, h. unfold read_row. rewrite Hr. split; [reflexivity|split; assumption].
Qed.

Lemma triple_set_field h0 fresh c k v :
  c ∈ fresh ->
  triple (framed h0 fresh) (set_field c k v) (fun _ => framed h0 fresh).
Proof.
  intros Hc h [Hsub Hrows].
  destruct (Hrows c Hc) as (Hnone & r & Hr).
  eexists tt, _. unfold set_field. rewrite Hr. split; [reflexivity|].
  split.
  - apply insert_subseteq_r; assumption.
  - intros c' Hc'. destruct (Hrows c' Hc') as (Hn' & r' & Hr').
    split; [exact Hn'|].
    destruct (decide (c = c')) as [<-|Hne].
    + rewrite lookup_insert_eq. eauto.
    + rewrite lookup_insert_ne by assumption. eauto.
Qed.

Lemma alloc_fresh o (h : heap) :
  exists l, alloc o h = Some (l, <[l := o]> h) /\ h !! l = None.
Proof.
  exists (fresh (dom h)). split; [reflexivity|].
  apply not_elem_of_dom. apply is_fresh.
Qed.

Lemma map_m_cons {A B} (f : A -> M B) x l h :
  map_m f (x :: l) h =
  match f x h with
  | Some (y, h1) =>
      match map_m f l h1 with
      | Some (ys, h2) => Some (y :: ys, h2)
      | None => None
      end
  | None => None
  end.
Proof.
  cbn [map_m]. unfold bind, ret. destruct (f x h) as [[y h1]|]; [|reflexivity].
  destruct (map_m f l h1) as [[ys h2]|]; reflexivity.
Qed.

Lemma read_rows_heap (h : heap) : forall items rows h',
  map_m read_row items h = Some (rows, h') -> h' = h.
Proof.
  induction items as [|x items IH]; intros rows h' E.
  - cbn in E. unfold ret in E. congruence.
  - rewrite map_m_cons in E. unfold read_row at 1 in E.
    destruct (h !! x) as [[?|]|]; try discriminate.
    destruct (map_m read_row items h) as [[? ?]|] eqn:E'; [|discriminate].
    specialize (IH _ _ eq_refl). subst. congruence.
Qed.

(** Copying the rows one by one. *)
Lemma copy_rows_spec h0 : forall items rows done h,
  h0 ⊆ h ->
  map_m read_row items h0 = Some (rows, h0) ->
  (forall c, c ∈ done -> h0 !! c = None /\ exists r, h !! c = Some (ORow r)) ->
  exists copies h',
    map_m copy_row items h = Some (copies, h')
    /\ h0 ⊆ h'
    /\ (forall c, c ∈ (done ++ copies)%list ->
          h0 !! c = None /\ exists r, h' !! c = Some (ORow r))
    /\ List.length copies = List.length items.
Proof.
  induction items as [|l items IH]; intros rows done h Hsub Hread Hdone.
  - exists [], h. split; [reflexivity|]. rewrite app_nil_r. auto.
  - rewrite map_m_cons in Hread. unfold read_row at 1 in Hread.
    destruct (h0 !! l) as [[r|]|] eqn:El; try discriminate.
    destruct (map_m read_row items h0) as [[rows' h0']|] eqn:Eitems; [|discriminate].
    assert (h0' = h0) as -> by (eapply read_rows_heap; eauto).
    destruct (alloc_fresh (ORow (json_row r)) h) as (c & Halloc & Hc).
    destruct (IH rows' (done ++ [c])%list (<[c := ORow (json_row r)]> h))
      as (copies & h' & Hcopy & Hsub' & Hrows' & Hlen).
    { apply insert_subseteq_r; [|assumption].
      eapply lookup_weaken_None; eauto. }
    { reflexivity. }
    { intros c' Hc'. apply elem_of_app in Hc' as [Hc'|Hc'].
      - destruct (Hdone c' Hc') as (Hn & r' & Hr'). split; [exact Hn|].
        exists r'. rewrite lookup_insert_ne; [exact Hr'|].
        intros <-. congruence.
      - apply list_elem_of_singleton in Hc' as ->. split.
        + eapply lookup_weaken_None; eauto.
        + eexists. apply lookup_insert_eq. }
    exists (c :: copies), h'. split_and!.
    + rewrite map_m_cons. unfold copy_row at 1, bind, read_row.
      rewrite (lookup_weaken _ _ _ _ El Hsub).
      rewrite Halloc, Hcopy. reflexivity.
    + exact Hsub'.
    + intros c' Hc'. apply Hrows'. rewrite <- app_assoc. exact Hc'.
    + simpl. rewrite Hlen. reflexivity.
Qed.

Lemma triple_map_m {A B} (I : heap -> Prop) (f : A -> M B) (l : list A) :
  (forall x, x ∈ l -> triple I (f x) (fun _ => I)) ->
  triple I (map_m f l) (fun _ => I).
Proof.
  induction l as [|x l IH]; intros Hf; cbn [map_m].
  - apply triple_ret. auto.
  - eapply triple_bind; [apply Hf; left|]. intros y.
    eapply triple_bind; [apply IH; intros z Hz; apply Hf; right; exact Hz|].
    intros ys. apply triple_ret. auto.
Qed.

Lemma contents_inv (h : heap) d rows :
  contents h d = Some rows ->
  exists items cr,
    h !! d = Some (OArray items cr)
    /\ map_m read_row items h = Some (rows, h).
Proof.
  unfold contents, read_items. intros H.
  destruct (h !! d) as [[r|items cr]|] eqn:E; try discriminate.
  destruct (map_m read_row items h) as [[rows' h']|] eqn:E'; [|discriminate].
  injection H as ->. exists items, cr. split; [reflexivity|].
  rewrite (read_rows_heap _ _ _ _ E') in E'. exact E'.
Qed.

Lemma read_rows_mono (h h' : heap) : forall items rows,
  h ⊆ h' -> map_m read_row items h = Some (rows, h) ->
  map_m read_row items h' = Some (rows, h').
Proof.
  induction items as [|x items IH]; intros rows Hsub H.
  - cbn in *. unfold ret in *. congruence.
  - rewrite map_m_cons in *. unfold read_row at 1 in H. unfold read_row at 1.
    destruct (h !! x) as [[r|]|] eqn:E; try discriminate.
    rewrite (lookup_weaken _ _ _ _ E Hsub).
    destruct (map_m read_row items h) as [[rows' h1]|] eqn:E'; [|discriminate].
    pose proof (read_rows_heap _ _ _ _ E') as ->.
    rewrite (IH rows' Hsub eq_refl). congruence.
Qed.

(** An extension of the heap leaves what an array stands for as it was. *)
Lemma contents_mono (h h' : heap) d rows :
  h ⊆ h' -> contents h d = Some rows -> contents h' d = Some rows.
Proof.
  intros Hsub H. destruct (contents_inv h d rows H) as (items & cr & Ed & Er).
  unfold contents, read_items. rewrite (lookup_weaken _ _ _ _ Ed Hsub).
  rewrite (read_rows_mono h h' items rows Hsub Er). reflexivity.
Qed.

(** The copy: a new array of new rows, the heap otherwise as it was. *)
Lemma deep_copy_spec (h : heap) d rows :
  contents h d = Some rows ->
  exists e copies h',
    deep_copy d h = Some (e, h')
    /\ h !! e = None
    /\ h' !! e = Some (OArray copies None)
    /\ framed h copies h'
    /\ List.length copies = List.length rows.
Proof.
  intros H. destruct (contents_inv h d rows H) as (items & cr & Ed & Er).
  destruct (copy_rows_spec h items rows [] h) as (copies & h1 & Hc & Hsub & Hrows & Hlen);
    [reflexivity|exact Er|intros c Hc; inversion Hc|].
  destruct (alloc_fresh (OArray copies None) h1) as (e & Halloc & He).
  exists e, copies, (<[e := OArray copies None]> h1). split_and!.
  - unfold deep_copy, bind, read_items. rewrite Ed, Hc. exact Halloc.
  - eapply lookup_weaken_None; eauto.
  - apply lookup_insert_eq.
  - split.
    + apply insert_subseteq_r; [|exact Hsub]. eapply lookup_weaken_None; eauto.
    + intros c Hin. destruct (Hrows c Hin) as (Hn & r & Hr).
      split; [exact Hn|]. exists r. rewrite lookup_insert_ne; [exact Hr|].
      intros <-. congruence.
  - rewrite Hlen. clear -Er. revert rows Er.
    induction items as [|x items IH]; intros rows Er.
    + cbn in Er. unfold ret in Er. injection Er as <-. reflexivity.
    + rewrite map_m_cons in Er. unfold read_row at 1 in Er.
      destruct (h !! x) as [[r|]|]; try discriminate.
      destruct (map_m read_row items h) as [[rows' h1]|] eqn:E'; [|discriminate].
      pose proof (read_rows_heap _ _ _ _ E') as ->.
      injection Er as <-. simpl. rewrite (IH rows' eq_refl). reflexivity.
Qed.

End JsHeapProps.

Module EnrichmentProps.
Import JsValue JsHeap JsHeapProps.

(** What a stage owes its input: it returns, every object of the heap it
    started from is still there unchanged, and so the input array stands
    for the same rows. *)
Definition leaves_unchanged {A : Type} (m : M A) (h : heap) (d : loc)
  (rows : list row) : Prop :=
  exists res h', m h = Some (res, h') /\ h ⊆ h' /\ contents h' d = Some rows.

(** The run has been computed to [Some (_, h')], with [Hsub : h ⊆ h']. *)
Ltac returned Hc Hsub :=
  eexists _, _; split_and!;
  [reflexivity | exact Hsub | exact (contents_mono _ _ _ _ Hsub Hc)].

(** The run has been computed to [Some (_, h)]: the heap is the same. *)
Ltac returned_same Hc :=
  eexists _, _; split_and!; [reflexivity | reflexivity | exact Hc].

Lemma bind_run {A B} (m : M A) (f : A -> M B) (h : heap) a h' :
  m h = Some (a, h') -> bind m f h = f a h'.
Proof. intros H. unfold bind. rewrite H. reflexivity. Qed.

Lemma read_items_run (h : heap) d items cr :
  h !! d = Some (OArray items cr) -> read_items d h = Some (items, h).
Proof. intros H. unfold read_items. rewrite H. reflexivity. Qed.

Lemma framed_set_calculationResults (h0 h : heap) copies e c :
  h0 !! e = None -> h !! e = Some (OArray copies None) -> framed h0 copies h ->
  exists h', set_calculationResults e c h = Some (tt, h')
    /\ h' !! e = Some (OArray copies (Some c)) /\ framed h0 copies h'.
Proof.
  intros He Harr [Hsub Hrows]. eexists. unfold set_calculationResults.
  rewrite Harr. split; [reflexivity|]. split; [apply lookup_insert_eq|].
  split.
  - apply insert_subseteq_r; assumption.
  - intros c' Hc'. destruct (Hrows c' Hc') as (Hn & r & Hr).
    split; [exact Hn|]. exists r. rewrite lookup_insert_ne; [exact Hr|].
    intros <-. congruence.
Qed.

Section Calculations.
Variable stringToNumber : string -> option Q.

Lemma triple_addComparisons h0 copies rowRef fld agg :
  rowRef ∈ copies ->
  triple (framed h0 copies)
    (AnalyticsService.addComparisons stringToNumber rowRef fld agg)
    (fun _ => framed h0 copies).
Proof.
  intros Hin. unfold AnalyticsService.addComparisons.
  eapply triple_bind; [apply triple_read_row; exact Hin|].
  intros r.
  assert (Hret : triple (framed h0 copies) (ret tt) (fun _ => framed h0 copies))
    by (apply triple_ret; auto).
  assert (Hbody : triple (framed h0 copies)
    (if AnalyticsService.is_number (mean agg) then
       bind (set_field rowRef (fld +:+ "_vs_mean")
               (AnalyticsService.of_number
                  (AnalyticsService.sub_nan
                     (AnalyticsService.toNumber stringToNumber (field r fld))
                     (AnalyticsService.toNumber stringToNumber (mean agg)))))
         (fun _ =>
            match stdDev agg with
            | VNum sd =>
                if JsNumber.Qlt_bool 0 sd then
                  set_field rowRef (fld +:+ "_z_score")
                    (AnalyticsService.of_number
                       (match AnalyticsService.sub_nan
                                (AnalyticsService.toNumber stringToNumber (field r fld))
                                (AnalyticsService.toNumber stringToNumber (mean agg)) with
                        | Some d => JsNumber.div d sd
                        | None => None
                        end))
                else ret tt
            | _ => ret tt
            end)
     else ret tt)
    (fun _ => framed h0 copies)).
  { destruct (AnalyticsService.is_number (mean agg)); [|exact Hret].
    eapply triple_bind; [apply triple_set_field; exact Hin|].
    intros u. destruct (stdDev agg); try exact Hret.
    destruct (JsNumber.Qlt_bool 0 q); [|exact Hret].
    apply triple_set_field; exact Hin. }
  destruct (field r fld); try exact Hbody. exact Hret.
Qed.

Lemma enrichDataWithCalculations_frame (h : heap) d rows calc :
  contents h d = Some rows ->
  leaves_unchanged
    (AnalyticsService.enrichDataWithCalculations stringToNumber (Some d) calc)
    h d rows.
Proof.
  intros Hc. unfold leaves_unchanged, AnalyticsService.enrichDataWithCalculations.
  destruct calc as [results|];
    [|returned_same Hc].
  destruct (_ =? 0)%nat;
    [returned_same Hc|].
  destruct (contents_inv h d rows Hc) as (items & cr & Ed & Er).
  rewrite (bind_run _ _ _ _ _ (read_items_run _ _ _ _ Ed)).
  destruct (List.length items =? 0)%nat;
    [returned_same Hc|].
  destruct (deep_copy_spec h d rows Hc) as (e & copies & h1 & Hcopy & He & Harr & Hfr & _).
  rewrite (bind_run _ _ _ _ _ Hcopy).
  destruct (framed_set_calculationResults h h1 copies e results He Harr Hfr)
    as (h2 & Hset & Harr2 & Hfr2).
  rewrite (bind_run _ _ _ _ _ Hset).
  destruct (aggregates results) as [aggs|].
  - rewrite (bind_run _ _ _ _ _ (read_items_run _ _ _ _ Harr2)).
    assert (Hloop : triple (framed h copies)
              (for_each copies (fun rowRef =>
                 for_each aggs (fun entry =>
                   AnalyticsService.addComparisons stringToNumber rowRef
                     (fst entry) (snd entry))))
              (fun _ => framed h copies)).
    { apply triple_for_each. intros rowRef Hin.
      apply triple_for_each. intros entry _.
      apply triple_addComparisons. exact Hin. }
    destruct (Hloop h2 Hfr2) as (u & h3 & Hrun & Hsub & _).
    rewrite (bind_run _ _ _ _ _ Hrun).
    returned Hc Hsub.
  - destruct Hfr2 as [Hsub _].
    returned Hc Hsub.
Qed.

End Calculations.

Lemma triple_enrichColumn h0 copies related rowRef column :
  rowRef ∈ copies ->
  triple (framed h0 copies)
    (DataEnrichmentService.enrichColumn related rowRef column)
    (fun _ => framed h0 copies).
Proof.
  intros Hin. unfold DataEnrichmentService.enrichColumn.
  destruct (_ || _); [|apply triple_ret; auto].
  eapply triple_bind; [apply triple_read_row; exact Hin|].
  intros r. destruct (nullish (field r column)); [apply triple_ret; auto|].
  apply triple_for_each. intros v _. apply triple_set_field. exact Hin.
Qed.

Lemma enrichDataWithRelatedInfo_frame (h : heap) d rows related :
  contents h d = Some rows ->
  leaves_unchanged
    (DataEnrichmentService.enrichDataWithRelatedInfo (Some d) related) h d rows.
Proof.
  intros Hc. unfold leaves_unchanged, DataEnrichmentService.enrichDataWithRelatedInfo.
  destruct related as [related|];
    [|returned_same Hc].
  destruct (contents_inv h d rows Hc) as (items & cr & Ed & Er).
  rewrite (bind_run _ _ _ _ _ (read_items_run _ _ _ _ Ed)).
  destruct (_ || _);
    [returned_same Hc|].
  destruct (deep_copy_spec h d rows Hc) as (e & copies & h1 & Hcopy & He & Harr & Hfr & _).
  rewrite (bind_run _ _ _ _ _ Hcopy).
  rewrite (bind_run _ _ _ _ _ (read_items_run _ _ _ _ Harr)).
  assert (Hloop : triple (framed h copies)
            (for_each copies (fun rowRef =>
               bind (read_row rowRef) (fun r =>
                 for_each (JsObject.keys r)
                   (DataEnrichmentService.enrichColumn related rowRef))))
            (fun _ => framed h copies)).
  { apply triple_for_each. intros rowRef Hin.
    eapply triple_bind; [apply triple_read_row; exact Hin|].
    intros r. apply triple_for_each. intros column _.
    apply triple_enrichColumn. exact Hin. }
  destruct (Hloop h1 Hfr) as (u & h2 & Hrun & Hsub & _).
  rewrite (bind_run _ _ _ _ _ Hrun).
  returned Hc Hsub.
Qed.

Section Consistency.
Variable parseFloat : value -> option Q.
Variable dateValue : value -> option Q.
Variable toUpperCase : string -> string.

Lemma ensureDataConsistency_frame (h : heap) d rows :
  contents h d = Some rows ->
  leaves_unchanged
    (DataEnrichmentService.ensureDataConsistency parseFloat dateValue
       toUpperCase (Some d)) h d rows.
Proof.
  intros Hc. unfold leaves_unchanged, DataEnrichmentService.ensureDataConsistency.
  destruct (contents_inv h d rows Hc) as (items & cr & Ed & Er).
  rewrite (bind_run _ _ _ _ _ (read_items_run _ _ _ _ Ed)).
  destruct (List.length items =? 0)%nat.
  - destruct (alloc_fresh (OArray [] None) h) as (l & Hl & Hnone).
    rewrite (bind_run _ _ _ _ _ Hl).
    pose proof (insert_subseteq h l (OArray [] None) Hnone) as Hsub.
    returned Hc Hsub.
  - destruct (deep_copy_spec h d rows Hc) as (e & copies & h1 & Hcopy & He & Harr & Hfr & _).
    rewrite (bind_run _ _ _ _ _ Hcopy).
    rewrite (bind_run _ _ _ _ _ (read_items_run _ _ _ _ Harr)).
    assert (Hread : triple (framed h copies) (map_m read_row copies)
                      (fun _ => framed h copies)).
    { apply triple_map_m. intros c Hin. apply triple_read_row. exact Hin. }
    destruct (Hread h1 Hfr) as (copied & h2 & Hrun & Hsub & _).
    rewrite (bind_run _ _ _ _ _ Hrun).
    returned Hc Hsub.
Qed.

End Consistency.

(** C9.  Each stage that returns an enriched copy of the rows leaves its
    input as it was: called on an array of rows, [enrichDataWithRelatedInfo],
    [ensureDataConsistency] and [enrichDataWithCalculations] return, every
    object the heap held before the call (the input array and each of its
    row objects among them) is unchanged after it, and the input array
    still stands for the same rows. *)
Theorem enrichment_leaves_input_unchanged
  (parseFloat dateValue : value -> option Q) (toUpperCase : string -> string)
  (stringToNumber : string -> option Q)
  (h : heap) (d : loc) (rows : list row)
  (related : option (JsObject.obj (list row)))
  (calc : option CalculationResults) :
  contents h d = Some rows ->
  leaves_unchanged
    (DataEnrichmentService.enrichDataWithRelatedInfo (Some d) related) h d rows
  /\ leaves_unchanged
       (DataEnrichmentService.ensureDataConsistency parseFloat dateValue
          toUpperCase (Some d)) h d rows
  /\ leaves_unchanged
       (AnalyticsService.enrichDataWithCalculations stringToNumber (Some d) calc)
       h d rows.
Proof.
  intros Hc. split_and!.
  - apply enrichDataWithRelatedInfo_frame, Hc.
  - apply ensureDataConsistency_frame, Hc.
  - apply enrichDataWithCalculations_frame, Hc.
Qed.

(** A heap with an array of two rows at reference 1. *)
Definition sampleRows : list row :=
  [[("user_id", VNum 7); ("amount", VNum 10)];
   [("user_id", VNum 8); ("amount", VNum 14)]].

Definition sampleHeap : heap :=
  <[1%positive := OArray [2%positive; 3%positive] None]>
    (<[2%positive := ORow [("user_id", VNum 7); ("amount", VNum 10)]]>
       (<[3%positive := ORow [("user_id", VNum 8); ("amount", VNum 14)]]> ∅)).

Definition sampleRelated : option (JsObject.obj (list row)) :=
  Some [("users", [[("id", VNum 7); ("name", VStr "Ann")]])].

Definition sampleCalc : option CalculationResults :=
  Some {| aggregates :=
            Some [("amount", {| mean := VNum 12; stdDev := VNum 2 |})];
          otherKeys := [] |}.

(** C9, witness: the three stages on the sample heap. *)
Lemma enrichment_leaves_input_unchanged_witness :
  contents sampleHeap 1%positive = Some sampleRows
  /\ leaves_unchanged
       (DataEnrichmentService.enrichDataWithRelatedInfo (Some 1%positive)
          sampleRelated) sampleHeap 1%positive sampleRows
  /\ leaves_unchanged
       (DataEnrichmentService.ensureDataConsistency
          AnalyticsServiceProps.parseFloat_cells (fun _ => None)
          JsString.toUpperCaseAscii (Some 1%positive))
       sampleHeap 1%positive sampleRows
  /\ leaves_unchanged
       (AnalyticsService.enrichDataWithCalculations (fun _ => None)
          (Some 1%positive) sampleCalc) sampleHeap 1%positive sampleRows.
Proof.
  assert (Hc : contents sampleHeap 1%positive = Some sampleRows)
    by (vm_compute; reflexivity).
  split; [exact Hc|].
  apply (enrichment_leaves_input_unchanged
           AnalyticsServiceProps.parseFloat_cells (fun _ => None)
           JsString.toUpperCaseAscii (fun _ => None)
           sampleHeap 1%positive sampleRows sampleRelated sampleCalc Hc).
Defined.

(** The copies do get the new columns: the stage is not the identity. *)
Example enrichDataWithRelatedInfo_sample :
  exists e h',
    DataEnrichmentService.enrichDataWithRelatedInfo (Some 1%positive)
      sampleRelated sampleHeap = Some (Some e, h')
    /\ contents h' e =
       Some [[("user_id", VNum 7); ("amount", VNum 10); ("user_name", VStr "Ann")];
             [("user_id", VNum 8); ("amount", VNum 14)]]
    /\ contents h' 1%positive = Some sampleRows.
Proof. eexists _, _. split; [vm_compute; reflexivity|]. split; vm_compute; reflexivity. Qed.

Example enrichDataWithCalculations_sample :
  exists e h',
    AnalyticsService.enrichDataWithCalculations (fun _ => None)
      (Some 1%positive) sampleCalc sampleHeap = Some (Some e, h')
    /\ contents h' e =
       Some [[("user_id", VNum 7); ("amount", VNum 10);
              ("amount_vs_mean", VNum (10 - 12));
              ("amount_z_score", VNum ((10 - 12) / 2))];
             [("user_id", VNum 8); ("amount", VNum 14);
              ("amount_vs_mean", VNum (14 - 12));
              ("amount_z_score", VNum ((14 - 12) / 2))]]
    /\ contents h' 1%positive = Some sampleRows.
Proof. eexists _, _. split; [vm_compute; reflexivity|]. split; vm_compute; reflexivity. Qed.

End EnrichmentProps.

Module JsObjectProps.
Import JsObject.

Lemma get_set_eq {V} (o : obj V) k v : get (set o k v) k = Some v.
Proof.
  induction o as [|[k' v'] o IH]; simpl.
  - rewrite String.eqb_refl. reflexivity.
  - destruct (String.eqb k k') eqn:E; simpl.
    + rewrite String.eqb_refl. reflexivity.
    + rewrite E. exact IH.
Qed.

Lemma get_set_ne {V} (o : obj V) k k' v : k <> k' -> get (set o k v) k' = get o k'.
Proof.
  intros Hne. induction o as [|[k0 v0] o IH]; simpl.
  - destruct (String.eqb_spec k' k); [congruence|reflexivity].
  - destruct (String.eqb_spec k k0) as [->|Hk]; simpl.
    + destruct (String.eqb_spec k' k0); [congruence|reflexivity].
    + destruct (String.eqb_spec k' k0); [reflexivity|exact IH].
Qed.



End JsObjectProps.

Module ChunkProps.
Import JsString JsJson ReportService JsObjectProps.

(** The metadata event, in the claim's words: the response with
    [rawData] emptied and [rawDataPending] set. *)
Definition pendingEvent (data : Event) : Event :=
  JsObject.set (JsObject.set data "rawData" (JArr [])) "rawDataPending"
    (JBool true).

(** The chunk event number [k], in the claim's words: rows [100 k] to
    [100 k + 100], tagged with [k] and the number of chunks. *)
Definition nthChunk (rows : list json) (k : nat) : Event :=
  [("rawDataChunk", JArr (firstn 100 (skipn (100 * k) rows)));
   ("chunkIndex", JNum (Z.of_nat k));
   ("totalChunks", JNum (Z.of_nat ((List.length rows + 99) / 100)))].

Lemma chunkEvent_nth rows k : chunkEvent rows (k * chunkSize) = nthChunk rows k.
Proof.
  unfold chunkEvent, nthChunk, JsArray.slice, totalChunks, chunkSize.
  replace (k * 100 + 100 - k * 100)%nat with 100%nat by lia.
  replace (k * 100 / 100)%nat with k by (symmetry; apply Nat.div_mul; lia).
  replace (k * 100)%nat with (100 * k)%nat by lia.
  replace (List.length rows + 100 - 1)%nat with (List.length rows + 99)%nat by lia.
  reflexivity.
Qed.

Lemma totalChunks_step n : (0 < n)%nat ->
  totalChunks n = S (totalChunks (n - chunkSize)).
Proof.
  intros Hn. unfold totalChunks, chunkSize.
  destruct (le_lt_dec 100 n) as [Hge|Hlt].
  - replace (n + 100 - 1)%nat with ((n - 100 + 100 - 1) + 1 * 100)%nat by lia.
    rewrite Nat.div_add by lia. lia.
  - replace (n - 100)%nat with 0%nat by lia.
    replace (n + 100 - 1)%nat with ((n - 1) + 1 * 100)%nat by lia.
    rewrite Nat.div_add by lia.
    rewrite (Nat.div_small (n - 1) 100) by lia.
    reflexivity.
Qed.

(** With enough fuel the loop sends chunk [k], [k + 1], ... up to the
    last one. *)
Lemma chunkLoop_from rows : forall fuel k,
  (List.length rows <= k * chunkSize + fuel)%nat ->
  chunkLoop fuel rows (k * chunkSize) =
  map (nthChunk rows)
      (seq k (totalChunks (List.length rows - k * chunkSize))).
Proof.
  induction fuel as [|fuel IH]; intros k Hfuel.
  - replace (List.length rows - k * chunkSize)%nat with 0%nat by lia.
    reflexivity.
  - cbn [chunkLoop].
    destruct (k * chunkSize <? List.length rows)%nat eqn:E.
    + apply Nat.ltb_lt in E.
      rewrite (totalChunks_step (List.length rows - k * chunkSize)) by lia.
      cbn [seq map]. rewrite chunkEvent_nth. f_equal.
      replace (k * chunkSize + chunkSize)%nat with (S k * chunkSize)%nat by lia.
      rewrite IH by (unfold chunkSize in *; lia).
      replace (List.length rows - k * chunkSize - chunkSize)%nat
        with (List.length rows - S k * chunkSize)%nat by lia.
      reflexivity.
    + apply Nat.ltb_ge in E.
      replace (List.length rows - k * chunkSize)%nat with 0%nat by lia.
      reflexivity.
Qed.

Lemma chunkLoop_all rows :
  chunkLoop (List.length rows) rows 0 =
  map (nthChunk rows) (seq 0 ((List.length rows + 99) / 100)).
Proof.
  change 0%nat with (0 * chunkSize)%nat at 1.
  rewrite (chunkLoop_from rows (List.length rows) 0) by lia.
  unfold totalChunks, chunkSize.
  replace (List.length rows - 0 * 100 + 100 - 1)%nat
    with (List.length rows + 99)%nat by lia.
  reflexivity.
Qed.

Lemma length_append (a b : string) :
  String.length (a +:+ b) = (String.length a + String.length b)%nat.
Proof. induction a as [|c a IH]; simpl; [reflexivity|]. rewrite IH. reflexivity. Qed.

Lemma length_escape (s : string) :
  (String.length s <= String.length (escape s))%nat.
Proof.
  induction s as [|c s IH]; simpl; [lia|].
  rewrite length_append.
  assert (1 <= String.length (escape_char c))%nat; [|lia].
  unfold escape_char.
  repeat (match goal with |- context [if ?b then _ else _] => destruct b end);
    simpl; lia.
Qed.

Lemma length_of_list (l : list ascii) :
  String.length (string_of_list_ascii l) = List.length l.
Proof. induction l as [|c l IH]; simpl; [reflexivity|]. rewrite IH. reflexivity. Qed.

(** A large response without rows goes out as it is. *)
Lemma chunkJsonData_no_rows (data : Event) :
  (sizeThreshold <= String.length (stringify (JObj data)))%nat ->
  JsObject.get data "rawData" = None
  \/ JsObject.get data "rawData" = Some (JArr []) ->
  chunkJsonData data = [data].
Proof.
  intros Hsize Hget. unfold chunkJsonData.
  replace (String.length (stringify (JObj data)) <? sizeThreshold)%nat with false
    by (symmetry; apply Nat.ltb_ge; exact Hsize).
  destruct Hget as [-> | ->]; reflexivity.
Qed.

(** C4 (amended).  A response whose serialisation is shorter than 50,000
    code units is sent as one event.  Otherwise, when its [rawData] is a
    non-empty array, the events are: the response with [rawData] replaced
    by [[]] and [rawDataPending] set to [true] (its other properties as
    they were); one event per consecutive slice of 100 rows, carrying the
    slice as [rawDataChunk], its number as [chunkIndex] and
    [ceil(rowCount / 100)] as [totalChunks]; and the final event
    [{rawDataComplete: true, rowCount}].  With 250 rows these are exactly
    three chunk events, of 100, 100 and 50 rows.  When [rawData] is absent
    or empty, the response is sent unchanged as the only event. *)
Theorem chunkJsonData_events (data : Event) :
  let size := String.length (stringify (JObj data)) in
  ((size < sizeThreshold)%nat -> chunkJsonData data = [data])
  /\ (forall rows,
        (sizeThreshold <= size)%nat ->
        JsObject.get data "rawData" = Some (JArr rows) -> rows <> [] ->
        chunkJsonData data =
          (pendingEvent data
           :: map (nthChunk rows) (seq 0 ((List.length rows + 99) / 100))
           ++ [[("rawDataComplete", JBool true);
                ("rowCount", JNum (Z.of_nat (List.length rows)))]])%list
        /\ JsObject.get (pendingEvent data) "rawData" = Some (JArr [])
        /\ JsObject.get (pendingEvent data) "rawDataPending" = Some (JBool true)
        /\ (forall k, k <> "rawData" -> k <> "rawDataPending" ->
                      JsObject.get (pendingEvent data) k = JsObject.get data k))
  /\ (forall rows,
        (sizeThreshold <= size)%nat ->
        JsObject.get data "rawData" = Some (JArr rows) ->
        List.length rows = 250%nat ->
        exists c0 c1 c2,
          rows = (c0 ++ c1 ++ c2)%list
          /\ List.length c0 = 100%nat /\ List.length c1 = 100%nat
          /\ List.length c2 = 50%nat
          /\ chunkJsonData data =
             [pendingEvent data;
              [("rawDataChunk", JArr c0); ("chunkIndex", JNum 0);
               ("totalChunks", JNum 3)];
              [("rawDataChunk", JArr c1); ("chunkIndex", JNum 1);
               ("totalChunks", JNum 3)];
              [("rawDataChunk", JArr c2); ("chunkIndex", JNum 2);
               ("totalChunks", JNum 3)];
              [("rawDataComplete", JBool true); ("rowCount", JNum 250)]])
  /\ ((sizeThreshold <= size)%nat ->
      JsObject.get data "rawData" = None
      \/ JsObject.get data "rawData" = Some (JArr []) ->
      chunkJsonData data = [data]).
Proof.
  cbv zeta.
  assert (Hbig : forall rows,
    (sizeThreshold <= String.length (stringify (JObj data)))%nat ->
    JsObject.get data "rawData" = Some (JArr rows) -> rows <> [] ->
    chunkJsonData data =
      (pendingEvent data
       :: map (nthChunk rows) (seq 0 ((List.length rows + 99) / 100))
       ++ [[("rawDataComplete", JBool true);
            ("rowCount", JNum (Z.of_nat (List.length rows)))]])%list).
  { intros rows Hsize Hget Hne. unfold chunkJsonData.
    replace (String.length (stringify (JObj data)) <? sizeThreshold)%nat with false
      by (symmetry; apply Nat.ltb_ge; exact Hsize).
    rewrite Hget. destruct rows as [|row more]; [congruence|].
    rewrite chunkLoop_all. reflexivity. }
  split_and!.
  - intros Hsize. unfold chunkJsonData.
    replace (String.length (stringify (JObj data)) <? sizeThreshold)%nat with true
      by (symmetry; apply Nat.ltb_lt; exact Hsize).
    reflexivity.
  - intros rows Hsize Hget Hne. split_and!.
    + apply Hbig; assumption.
    + unfold pendingEvent. rewrite get_set_ne by discriminate. apply get_set_eq.
    + unfold pendingEvent. apply get_set_eq.
    + intros k Hk1 Hk2. unfold pendingEvent.
      rewrite !get_set_ne by congruence. reflexivity.
  - intros rows Hsize Hget Hlen.
    exists (firstn 100 rows), (firstn 100 (skipn 100 rows)),
           (firstn 100 (skipn 200 rows)).
    split_and!.
    + rewrite <- (firstn_skipn 100 rows) at 1. f_equal.
      rewrite <- (firstn_skipn 100 (skipn 100 rows)) at 1. f_equal.
      rewrite skipn_skipn. simpl Nat.add.
      symmetry. apply firstn_all2. rewrite length_skipn. lia.
    + rewrite length_firstn. lia.
    + rewrite length_firstn, length_skipn. lia.
    + rewrite length_firstn, length_skipn. lia.
    + rewrite (Hbig rows Hsize Hget) by (intros ->; discriminate Hlen).
      unfold nthChunk. rewrite Hlen.
      change ((250 + 99) / 100)%nat with 3%nat. reflexivity.
  - apply chunkJsonData_no_rows.
Qed.

(** A final response with no rows and a report of 50,000 letters. *)
Definition longReport : string :=
  string_of_list_ascii (repeat "a"%char sizeThreshold).

Definition responseWithoutRows : Event :=
  [("status", JStr "complete"); ("report", JStr longReport);
   ("rawData", JArr [])].

(** C4, counterexample: the serialisation is not below the threshold, and
    yet the only event is the response itself, with no [rawDataPending]
    flag and no completion event after it. *)
Lemma chunkJsonData_without_rows :
  (sizeThreshold <= String.length (stringify (JObj responseWithoutRows)))%nat
  /\ chunkJsonData responseWithoutRows = [responseWithoutRows]
  /\ JsObject.get responseWithoutRows "rawDataPending" = None.
Proof.
  assert (Hsize : (sizeThreshold <= String.length (stringify (JObj responseWithoutRows)))%nat).
  { unfold responseWithoutRows. cbn [stringify map fst snd join].
    unfold quote. rewrite !length_append.
    pose proof (length_escape longReport) as H.
    assert (String.length longReport = sizeThreshold) as Hl.
    { unfold longReport. rewrite length_of_list. apply repeat_length. }
    generalize dependent sizeThreshold. intros t Ht. lia. }
  split_and!.
  - exact Hsize.
  - apply chunkJsonData_no_rows; [exact Hsize|]. right. reflexivity.
  - reflexivity.
Qed.

End ChunkProps.

Module FallbackProps.
Import JsString JsValue JsJson Js ReportService.

Section Facts.
Variable World : Type.
Variable pool_query : string -> World -> (Error + list row) * World.
Variable numberToString : Q -> string.
Variable formatDate : string -> option string.

Abbreviation State := (World * list Event)%type.
Abbreviation Run A := (State -> (Error + A) * State).

(** A fallback that returns has rows to show. *)
Definition has_rows (r : option QueryOutcome) : Prop :=
  forall outcome, r = Some outcome ->
    fallbackUsed outcome = true /\ data outcome <> [].

Lemma formatDatesInData_nonempty rows :
  (0 < List.length rows)%nat -> formatDatesInData formatDate rows <> [].
Proof. destruct rows; simpl; [lia|discriminate]. Qed.

Lemma performRelatedQueries_rows rows rels w :
  DataEnrichmentService.primaryData
    (fst (DataEnrichmentService.performRelatedQueries World pool_query
            numberToString rows rels w)) = rows.
Proof.
  unfold DataEnrichmentService.performRelatedQueries.
  destruct rows as [|r rows]; [reflexivity|].
  destruct (DataEnrichmentService.fetchRelated _ _ _ _ _ _ _ _); reflexivity.
Qed.

(** The query step, spelled out. *)
Lemma query_run sqlText (s : State) :
  query World pool_query sqlText s =
  (fst (pool_query sqlText (fst s)), (snd (pool_query sqlText (fst s)), snd s)).
Proof. unfold query. destruct (pool_query sqlText (fst s)); reflexivity. Qed.

Lemma fetchOthers_returns others : forall related (s : State),
  exists related' s',
    fetchOthers World pool_query others related s = (inr related', s').
Proof.
  induction others as [|t rest IH]; intros related s.
  - eexists _, _. reflexivity.
  - cbn [fetchOthers]. unfold andThen at 1, tryCatch, andThen.
    rewrite query_run.
    destruct (pool_query _ (fst s)) as [[e|tableRows] w]; cbn [fst snd]; apply IH.
Qed.

Lemma primaryFallback_has_rows found schema (s : State) r s' :
  primaryFallback World pool_query numberToString formatDate found schema s
    = (inr r, s') ->
  has_rows r.
Proof.
  unfold primaryFallback. destruct found as [|primaryTable others].
  { intros [= <- _] outcome H. discriminate H. }
  unfold andThen at 1. unfold sendUpdate at 1.
  unfold andThen at 1. rewrite query_run. cbn [fst snd].
  destruct (pool_query _ (fst s)) as [[e|rows] w]; cbn [fst snd]; [discriminate|].
  destruct (0 <? List.length rows)%nat eqn:Hrows.
  2:{ intros [= <- _] outcome H. discriminate H. }
  apply Nat.ltb_lt in Hrows.
  assert (Hplain : forall (st st' : State) r',
    pure World
      (Some {| data := formatDatesInData formatDate rows; relatedData := None;
               sql := "SELECT * FROM " +:+ primaryTable +:+ " LIMIT 1000";
               error := None; fallbackUsed := true; message := None |}) st
      = (inr r', st') -> has_rows r').
  { intros st st' r' [= <- _] outcome [= <-]. split; [reflexivity|].
    apply formatDatesInData_nonempty, Hrows. }
  destruct (1 <? List.length (primaryTable :: others))%nat; [|apply Hplain].
  unfold andThen at 1. unfold sendUpdate at 1.
  unfold andThen at 1.
  match goal with |- context [fetchOthers World pool_query others [] ?st] =>
    destruct (fetchOthers_returns others [] st) as (related & s1 & ->) end.
  destruct (0 <? List.length (JsObject.keys related))%nat; [|apply Hplain].
  unfold andThen at 1. unfold sendUpdate at 1.
  unfold andThen at 1.
  match goal with |- context [DataEnrichmentService.performRelatedQueries
                                World pool_query numberToString rows ?rels ?w0] =>
    pose proof (performRelatedQueries_rows rows rels w0) as Hsame;
    destruct (DataEnrichmentService.performRelatedQueries
                World pool_query numberToString rows rels w0) as [enriched w1]
  end.
  cbn [fst] in Hsame.
  intros [= <- _] outcome [= <-]. split; [reflexivity|]. cbn [data].
  rewrite Hsame. apply formatDatesInData_nonempty, Hrows.
Qed.

Lemma sampleLoop_returns tableRows : forall (s : State),
  exists r s',
    sampleLoop World pool_query numberToString formatDate tableRows s
      = (inr r, s')
    /\ has_rows r.
Proof.
  induction tableRows as [|tableRow rest IH]; intros s.
  - eexists _, _. split; [reflexivity|]. intros outcome H. discriminate H.
  - cbn [sampleLoop]. unfold andThen at 1, tryCatch, andThen.
    rewrite query_run.
    destruct (pool_query _ (fst s)) as [[e|sampleRows] w]; cbn [fst snd].
    + apply IH.
    + destruct (0 <? List.length sampleRows)%nat eqn:Hrows.
      * eexists _, _. split; [reflexivity|].
        intros outcome [= <-]. split; [reflexivity|].
        apply formatDatesInData_nonempty, Nat.ltb_lt, Hrows.
      * apply IH.
Qed.

(** The last resort returns, with rows or with the empty result. *)
Lemma lastResort_returns sqlText failure (s : State) :
  exists outcome s',
    lastResort World pool_query numberToString formatDate sqlText failure s
      = (inr outcome, s')
    /\ fallbackUsed outcome = true
    /\ (data outcome = [] -> outcome = noData sqlText failure)
    /\ ((forall q w, exists e w', pool_query q w = (inl e, w')) ->
        outcome = noData sqlText failure).
Proof.
  unfold lastResort.
  unfold andThen at 1. unfold sendUpdate at 1.
  unfold andThen at 1. unfold tryCatch at 1.
  unfold andThen at 1. rewrite query_run. cbn [fst snd].
  destruct (pool_query tablesQuery (fst s)) as [[e'|tableRows] w] eqn:Htables;
    cbn [fst snd].
  - eexists _, _. split; [reflexivity|]. split_and!; auto.
  - match goal with |- context [sampleLoop World pool_query numberToString
                                  formatDate tableRows ?st] =>
      destruct (sampleLoop_returns tableRows st) as (r & s2 & -> & Hr) end.
    destruct r as [outcome|].
    + eexists _, _. split; [reflexivity|].
      destruct (Hr outcome eq_refl) as [Hf Hd]. split_and!.
      * exact Hf.
      * intros H. contradiction.
      * intros Hall. destruct (Hall tablesQuery (fst s)) as (e0 & w0 & H0).
        rewrite H0 in Htables. discriminate.
    + eexists _, _. split; [reflexivity|]. split_and!; auto.
Qed.

(** A database that always throws gives the primary-table fallback
    nothing to return. *)
Lemma primaryFallback_throws found schema (s : State) outcome s' :
  (forall q w, exists e w', pool_query q w = (inl e, w')) ->
  primaryFallback World pool_query numberToString formatDate found schema s
    <> (inr (Some outcome), s').
Proof.
  intros Hall. unfold primaryFallback.
  destruct found as [|primaryTable others]; [discriminate|].
  unfold andThen at 1. unfold sendUpdate at 1.
  unfold andThen at 1. rewrite query_run. cbn [fst snd].
  match goal with |- context [pool_query ?q (fst s)] =>
    destruct (Hall q (fst s)) as (e0 & w0 & ->) end.
  discriminate.
Qed.

End Facts.

(** C2.  [executeSqlWithFallback] never raises: whatever the SQL text and
    whatever the database does on each query (answer or throw), it returns
    an object.  When the primary query succeeds, the object holds its rows.
    When the primary query throws, the object has [fallbackUsed = true],
    and if its [data] is empty it is the last-resort object: [data = []],
    [fallbackUsed = true] and the message "Could not retrieve data. Please
    try a different query.".  With a database that throws on every query,
    that last-resort object is what is returned. *)
Theorem executeSqlWithFallback_never_raises (World : Type)
  (pool_query : string -> World -> (Error + list row) * World)
  (numberToString : Q -> string) (formatDate : string -> option string)
  (sqlText userPrompt : string) (minimalSchema : MinimalSchema)
  (w : World) (sent : list Event) :
  exists outcome s',
    executeSqlWithFallback World pool_query numberToString formatDate
      sqlText userPrompt minimalSchema (w, sent) = (inr outcome, s')
    /\ (forall rows w', pool_query sqlText w = (inr rows, w') ->
        data outcome = formatDatesInData formatDate rows)
    /\ (forall failure w', pool_query sqlText w = (inl failure, w') ->
        fallbackUsed outcome = true
        /\ (data outcome = [] ->
            outcome =
            {| data := []; relatedData := None; sql := sqlText;
               error := Some (Js.message failure); fallbackUsed := true;
               message :=
                 Some "Could not retrieve data. Please try a different query." |}))
    /\ ((forall q w0, exists e w', pool_query q w0 = (inl e, w')) ->
        exists failure,
          outcome =
          {| data := []; relatedData := None; sql := sqlText;
             error := Some (Js.message failure); fallbackUsed := true;
             message :=
               Some "Could not retrieve data. Please try a different query." |}).
Proof.
  unfold executeSqlWithFallback. unfold tryCatch at 1.
  unfold andThen at 1. unfold sendUpdate at 1.
  unfold executeSqlNonBlocking. unfold andThen at 1. rewrite query_run.
  cbn [fst snd].
  destruct (pool_query sqlText w) as [[failure|rows] w1] eqn:Hprimary; cbn [fst snd].
  - unfold andThen at 1. unfold sendUpdate at 1.
    unfold andThen at 1. unfold tryCatch at 1.
    match goal with |- context [primaryFallback World pool_query numberToString
                                  formatDate ?found minimalSchema ?st] =>
      destruct (primaryFallback World pool_query numberToString formatDate
                  found minimalSchema st) as [[e|[outcome|]] s1] eqn:Hfallback
    end.
    + destruct (lastResort_returns World pool_query numberToString formatDate
                  sqlText failure s1)
        as (outcome & s' & Hrun & Hf & Hd & Hall).
      exists outcome, s'. split; [exact Hrun|]. split_and!.
      * intros rows w' H. discriminate H.
      * intros failure' w' [= <- _]. split; [exact Hf|exact Hd].
      * intros Hthrows. exists failure. apply Hall, Hthrows.
    + destruct (primaryFallback_has_rows World pool_query numberToString
                  formatDate _ _ _ _ _ Hfallback outcome eq_refl) as [Hf Hd].
      eexists _, _. split; [reflexivity|]. split_and!.
      * intros rows w' H. discriminate H.
      * intros failure' w' _. split; [exact Hf|]. intros H. contradiction.
      * intros Hthrows. exfalso.
        exact (primaryFallback_throws World pool_query numberToString
                 formatDate _ _ _ _ _ Hthrows Hfallback).
    + destruct (lastResort_returns World pool_query numberToString formatDate
                  sqlText failure s1)
        as (outcome & s' & Hrun & Hf & Hd & Hall).
      exists outcome, s'. split; [exact Hrun|]. split_and!.
      * intros rows w' H. discriminate H.
      * intros failure' w' [= <- _]. split; [exact Hf|exact Hd].
      * intros Hthrows. exists failure. apply Hall, Hthrows.
  - eexists _, _. split; [reflexivity|]. split_and!.
    + intros rows' w' [= <- _]. reflexivity.
    + intros failure w' H. discriminate H.
    + intros Hthrows. destruct (Hthrows sqlText w) as (e & w' & H).
      rewrite H in Hprimary. discriminate.
Qed.

(** A database that throws on every query. *)
Definition alwaysThrows (q : string) (w : unit) : (Error + list row) * unit :=
  (inl (new_Error "connection refused"), w).

(** The ladder on that database: every step is tried, and the last-resort
    object comes back. *)
Example executeSqlWithFallback_all_fail :
  executeSqlWithFallback unit alwaysThrows (fun _ => "") (fun _ => None)
    "SELECT u.name FROM users u JOIN orders o ON o.user_id = u.id" "who buys"
    {| tables := []; relationships := [] |} (tt, [])
  = (inr {| data := []; relatedData := None;
            sql := "SELECT u.name FROM users u JOIN orders o ON o.user_id = u.id";
            error := Some "connection refused"; fallbackUsed := true;
            message :=
              Some "Could not retrieve data. Please try a different query." |},
     (tt,
      [[("status", JStr "processing"); ("message", JStr "Executing SQL query...")];
       [("status", JStr "processing");
        ("message", JStr "Initial query failed. Attempting simplified query...")];
       [("status", JStr "processing");
        ("message", JStr "Querying primary table: users")];
       [("status", JStr "processing");
        ("message", JStr "Attempting to retrieve sample data...")]])).
Proof. vm_compute. reflexivity. Qed.

End FallbackProps.

Module TableRelevanceProps.
Import JsString JsValue JsJson Js ReportService JsObjectProps.


Lemma unique_nil {A} (eqb : A -> A -> bool) l :
  JsArray.unique eqb l = [] -> l = [].
Proof. destruct l; [reflexivity|discriminate]. Qed.





Section Facts.
Variable World : Type.
Variable generateMistralResponse : string -> World -> (Error + string) * World.
Variable JSON_parse : string -> option json.




End Facts.


Definition parseFails (text : string) : option json := None.
Definition neverPositive (v : json) : bool := false.


(** A language model that suggests an inherited name in its list. *)
Definition llmSuggestsInherited (q : string) (w : unit)
  : (Error + string) * unit :=
  (inr "users, constructor", w).

(** The same through the first strategy: the answer of the language model
    is filtered by [table && schemas[table]]. *)
Example identifyRelevantTablesParallel_inherited_answer :
  identifyRelevantTablesParallel unit llmSuggestsInherited parseFails
    neverPositive "list the users"
    [("users", {| SqlGenerationService.columns := [] |})] None (tt, [])
  = (inr ["users"; "constructor"], (tt, [])).
Proof. vm_compute. reflexivity. Qed.

(** A language model that names tables in both of its answers. *)
Definition llmAnswers (q : string) (w : unit) : (Error + string) * unit :=
  (inr "Orders, customers , invoices", w).

(** The three strategies together: the first answer is lower-cased and
    filtered by the schema, the prompt names [users]. *)
Example identifyRelevantTablesParallel_sample :
  identifyRelevantTablesParallel unit llmAnswers parseFails neverPositive
    "orders per customer for all users"
    [("users", {| SqlGenerationService.columns := [] |});
     ("orders", {| SqlGenerationService.columns := [] |});
     ("customers", {| SqlGenerationService.columns := [] |})]
    None (tt, [])
  = (inr ["orders"; "customers"; "users"], (tt, [])).
Proof. vm_compute. reflexivity. Qed.

End TableRelevanceProps.

(** ** The services on sample inputs *)

Module Samples.
Import JsString JsValue JsJson Js.

(** A service that is rate-limited once, then answers. *)
Definition limitedOnce (calls : nat) : (Error + string) * nat :=
  match calls with
  | O => (inl (mkError "Rate limit exceeded" (Some 429%Z)), 1%nat)
  | S _ => (inr "SELECT 1", S calls)
  end.

Definition jitterHalf (calls : nat) : Q * nat := (1 # 2, calls).

Example retry_after_one_rate_limit :
  MistralService.retryWithBackoff nat string limitedOnce jitterHalf 0 0%nat =
  Some (inr "SELECT 1",
        [MistralService.Invoked;
         MistralService.Delayed (MistralService.delayTime 0 (1 # 2));
         MistralService.Invoked], 2%nat).
Proof. reflexivity. Qed.

Definition alwaysBroken (calls : nat) : (Error + string) * nat :=
  (inl (new_Error "socket hang up"), S calls).

Example other_error_is_not_retried :
  MistralService.retryWithBackoff nat string alwaysBroken jitterHalf 0 0%nat =
  Some (inl (new_Error "socket hang up"), [MistralService.Invoked], 1%nat).
Proof. reflexivity. Qed.

Example cleanSQLResponse_fenced :
  SqlGenerationService.cleanSQLResponse
    ("Here is the query:" +:+ nl +:+ "```sql" +:+ nl
     +:+ "select id from users;  " +:+ nl +:+ "```" +:+ nl)
  = "select id from users;".
Proof. reflexivity. Qed.

Example cleanSQLResponse_prose :
  SqlGenerationService.cleanSQLResponse "I cannot answer that."
  = "SELECT * FROM users LIMIT 10".
Proof. reflexivity. Qed.

Definition learned (prompt sqlText : string) : SqlGenerationService.QueryPattern :=
  {| SqlGenerationService.query := sqlText;
     SqlGenerationService.userPrompt := prompt;
     SqlGenerationService.tables := [];
     SqlGenerationService.joins := [];
     SqlGenerationService.whereConditions := "";
     SqlGenerationService.resultCount := 1;
     SqlGenerationService.timestamp := "" |}.

Example findSimilarQueries_sample :
  map (fun e => (SqlGenerationService.query (SqlGenerationService.entry e),
                 SqlGenerationService.similarity e))
      (SqlGenerationService.findSimilarQueries
         [learned "show all users please now" "q2";
          learned "products by price" "q3";
          learned "Show ALL users" "q1";
          learned "" "q4"]
         "show users, all!")
  = [("q1", Some (3 # 3)); ("q2", Some (3 # 5))].
Proof. vm_compute. reflexivity. Qed.

Definition priced (p : Z) : row := [("price", VNum (inject_Z p))].

Example detectOutliers_sample :
  AnalyticsService.outliers
    (AnalyticsService.detectOutliers AnalyticsServiceProps.parseFloat_cells
       (Some [priced 3; priced 100; priced 1; priced 4; priced 2]) "price")
  = [priced 100].
Proof. vm_compute. reflexivity. Qed.

Example tablesAfter_sample :
  ReportService.tablesAfter "from"
    "SELECT u.name FROM  users u JOIN orders o ON o.uid = u.id WHERE u.id IN (select uid from vip)"
  = ["users"; "vip"]
  /\ ReportService.tablesAfter "join"
       "SELECT u.name FROM  users u JOIN orders o ON o.uid = u.id"
     = ["orders"].
Proof. split; vm_compute; reflexivity. Qed.

Example stringify_sample :
  stringify (JObj [("rows", JArr [JNum 1; JNull; JBool true]);
                   ("note", JStr ("a" +:+ nl +:+ "b"))])
  = "{" +:+ dq +:+ "rows" +:+ dq +:+ ":[1,null,true],"
    +:+ dq +:+ "note" +:+ dq +:+ ":" +:+ dq +:+ "a\nb" +:+ dq +:+ "}".
Proof. vm_compute. reflexivity. Qed.

(** A small response goes out whole. *)
Example chunkJsonData_small :
  ReportService.chunkJsonData
    [("status", JStr "complete"); ("rawData", JArr [JObj [("id", JNum 1)]])]
  = [[("status", JStr "complete"); ("rawData", JArr [JObj [("id", JNum 1)]])]].
Proof. vm_compute. reflexivity. Qed.

End Samples.

(** ** MachineLearningService *)

Module MachineLearningServiceProps.
Import JsString MachineLearningService.

(** The hash of the text books: [31 * h + c] over the code units, in
    unbounded integers. *)
Fixpoint polynomialFrom (h : Z) (str : string) : Z :=
  match str with
  | EmptyString => h
  | String c rest => polynomialFrom (31 * h + Z.of_nat (code c))%Z rest
  end.

Definition int32 (z : Z) : Prop := (- 2 ^ 31 <= z < 2 ^ 31)%Z.

Lemma toInt32_spec z : int32 (toInt32 z) /\ exists k, (toInt32 z = z + k * 2 ^ 32)%Z.
Proof.
  unfold toInt32, int32.
  assert (H := Z.mod_pos_bound (z + 2 ^ 31) (2 ^ 32) ltac:(lia)).
  split; [lia|].
  exists (- ((z + 2 ^ 31) / 2 ^ 32))%Z.
  assert (D := Z.div_mod (z + 2 ^ 31) (2 ^ 32) ltac:(lia)).
  lia.
Qed.

Lemma int32_unique x y k : int32 x -> int32 y -> (x = y + k * 2 ^ 32)%Z -> x = y.
Proof. unfold int32. change (2 ^ 31)%Z with 2147483648%Z.
  change (2 ^ 32)%Z with 4294967296%Z. lia. Qed.

Lemma toInt32_congr a b k : (a = b + k * 2 ^ 32)%Z -> toInt32 a = toInt32 b.
Proof.
  intros E.
  destruct (toInt32_spec a) as [Ra [ka Ea]], (toInt32_spec b) as [Rb [kb Eb]].
  apply (int32_unique _ _ (ka + k - kb)%Z Ra Rb). lia.
Qed.

Lemma toInt32_int32 z : int32 z -> toInt32 z = z.
Proof.
  intros R. destruct (toInt32_spec z) as [Rz [k E]].
  apply (int32_unique _ _ k Rz R E).
Qed.

Lemma hashChar_step h H c :
  h = toInt32 H -> hashChar h c = toInt32 (31 * H + Z.of_nat (code c)).
Proof.
  intros ->. unfold hashChar, bitAnd, shiftLeft.
  rewrite Z.land_diag.
  rewrite (toInt32_int32 (toInt32 _)) by apply toInt32_spec.
  rewrite (toInt32_int32 (toInt32 H)) by apply toInt32_spec.
  rewrite Z.shiftl_mul_pow2 by lia.
  destruct (toInt32_spec H) as [_ [k E]].
  destruct (toInt32_spec (toInt32 H * 2 ^ 5)) as [_ [k' E']].
  apply (toInt32_congr _ _ (k' + 31 * k)%Z).
  rewrite E'. rewrite E. change (2 ^ 5)%Z with 32%Z. lia.
Qed.

Lemma hashFrom_polynomial str : forall h H,
  h = toInt32 H -> hashFrom h str = toInt32 (polynomialFrom H str).
Proof.
  induction str as [|c rest IH]; intros h H E; simpl; [exact E|].
  apply IH, hashChar_step, E.
Qed.

(** X1. [simpleHash] is the polynomial hash with multiplier 31 of the
    code units of the string, read as a 32-bit two's complement integer:
    whatever the length of the string, the result lies between -2^31
    and 2^31 - 1. *)
Theorem simpleHash_polynomial (str : string) :
  simpleHash str = toInt32 (polynomialFrom 0 str)
  /\ (- 2 ^ 31 <= simpleHash str < 2 ^ 31)%Z.
Proof.
  assert (E : simpleHash str = toInt32 (polynomialFrom 0 str)).
  { apply hashFrom_polynomial. symmetry. apply toInt32_int32.
    unfold int32. lia. }
  split; [exact E|]. rewrite E. apply toInt32_spec.
Qed.

(** *** textToVector *)

Lemma wordIndex_bound n w : (0 < n)%nat -> (wordIndex n w < n)%nat.
Proof.
  intros Hn. unfold wordIndex.
  assert (B := Z.rem_bound_abs (simpleHash w) (Z.of_nat n) ltac:(lia)).
  lia.
Qed.

Lemma fold_add_sum l : forall a, fold_left Nat.add l a = (a + sum_list l)%nat.
Proof.
  induction l as [|x l IH]; intros a; simpl; [lia|]. rewrite IH. lia.
Qed.

Lemma sum_list_alter_S l : forall i, (i < List.length l)%nat ->
  sum_list (alter S i l) = S (sum_list l).
Proof.
  induction l as [|x l IH]; intros i Hi; [simpl in Hi; lia|].
  destruct i as [|i]; [reflexivity|].
  change (alter S (S i) (x :: l)) with (x :: alter S i l).
  cbn [sum_list sum_list_with]. rewrite IH by (simpl in Hi; lia). lia.
Qed.

Lemma countWords_facts n ws : (0 < n)%nat ->
  List.length (countWords n ws) = n
  /\ sum_list (countWords n ws) = List.length ws.
Proof.
  intros Hn. unfold countWords.
  assert (G : forall v, List.length v = n ->
            List.length (fold_left (fun vector word =>
                                 alter S (wordIndex n word) vector) ws v) = n
            /\ sum_list (fold_left (fun vector word =>
                                 alter S (wordIndex n word) vector) ws v)
               = (sum_list v + List.length ws)%nat).
  { induction ws as [|w ws IH]; intros v Hv; simpl; [split; [exact Hv|lia]|].
    destruct (IH (alter S (wordIndex n w) v)) as [L S'].
    { rewrite length_alter. exact Hv. }
    split; [exact L|]. rewrite S'.
    rewrite sum_list_alter_S by (rewrite Hv; apply wordIndex_bound, Hn). lia. }
  destruct (G (replicate n 0%nat)) as [L S'].
  { apply length_replicate. }
  split; [exact L|]. rewrite S', sum_list_replicate. lia.
Qed.

(** The number of words that fall on position [i] of the vector. *)
Definition occurrences (vocabSize : nat) (ws : list string) (i : nat) : nat :=
  List.length (List.filter (fun w => (wordIndex vocabSize w =? i)%nat) ws).

Lemma alter_map_seq (f : nat -> nat) : forall n a k,
  alter S k (map f (seq a n))
  = map (fun i => if (i =? a + k)%nat then S (f i) else f i) (seq a n).
Proof.
  induction n as [|n IH]; intros a k; [reflexivity|].
  cbn [seq map]. destruct k as [|k].
  - change (alter S 0%nat (f a :: map f (seq (S a) n)))
      with (S (f a) :: map f (seq (S a) n)).
    rewrite Nat.add_0_r, Nat.eqb_refl. f_equal.
    apply map_ext_in. intros i Hi. apply in_seq in Hi.
    replace (i =? a)%nat with false by (symmetry; apply Nat.eqb_neq; lia).
    reflexivity.
  - change (alter S (S k) (f a :: map f (seq (S a) n)))
      with (f a :: alter S k (map f (seq (S a) n))).
    replace (a =? a + S k)%nat with false
      by (symmetry; apply Nat.eqb_neq; lia).
    f_equal. rewrite IH. apply map_ext. intros i.
    replace (S a + k)%nat with (a + S k)%nat by lia. reflexivity.
Qed.

Lemma countWords_occurrences n ws :
  countWords n ws = map (occurrences n ws) (seq 0 n).
Proof.
  unfold countWords.
  assert (G : forall f,
    fold_left (fun vector word => alter S (wordIndex n word) vector) ws
      (map f (seq 0 n))
    = map (fun i => (f i + occurrences n ws i)%nat) (seq 0 n)).
  { induction ws as [|w ws IH]; intros f.
    - cbn [fold_left]. apply map_ext. intros i. unfold occurrences. simpl. lia.
    - cbn [fold_left]. rewrite alter_map_seq, IH. apply map_ext. intros i.
      unfold occurrences. cbn [List.filter]. rewrite Nat.add_0_l.
      rewrite (Nat.eqb_sym i).
      destruct (wordIndex n w =? i)%nat; cbn [List.length]; lia. }
  assert (R : forall a, map (fun _ : nat => 0%nat) (seq a n) = replicate n 0%nat).
  { clear. induction n as [|n IH]; intros a; [reflexivity|].
    cbn [seq map replicate]. f_equal. apply IH. }
  rewrite <- (R 0%nat), G. reflexivity.
Qed.

(** X2. For a positive [vocabSize], [textToVector] returns [vocabSize]
    entries.  When the text has words of more than two characters, entry
    [i] is the number of these words whose hash falls on [i], divided by
    the number of all of them, and the counts add up to that number; when
    it has none, every entry is 0. *)
Theorem textToVector_frequencies (D : JsDouble.Ops) (text : string)
  (vocabSize : nat) :
  (0 < vocabSize)%nat ->
  let ws := words text in
  let share (i : nat) :=
    JsDouble.div
      (JsDouble.lit (inject_Z (Z.of_nat (occurrences vocabSize ws i))))
      (JsDouble.lit (inject_Z (Z.of_nat (List.length ws)))) in
  List.length (textToVector D text vocabSize) = vocabSize
  /\ (ws <> [] -> textToVector D text vocabSize = map share (seq 0 vocabSize))
  /\ (ws = [] ->
      textToVector D text vocabSize = replicate vocabSize (JsDouble.lit 0))
  /\ sum_list (map (occurrences vocabSize ws) (seq 0 vocabSize))
     = List.length ws.
Proof.
  intros Hn ws share. unfold textToVector. fold ws.
  destruct (countWords_facts vocabSize ws Hn) as [L S'].
  rewrite fold_add_sum. rewrite Nat.add_0_l, S'.
  rewrite countWords_occurrences in *.
  split_and!.
  - destruct (0 <? List.length ws)%nat; rewrite length_map; exact L.
  - intros Hne. destruct ws as [|w ws']; [congruence|].
    cbn [List.length Nat.ltb Nat.leb]. rewrite map_map. reflexivity.
  - intros E. rewrite E. cbn [List.length Nat.ltb Nat.leb].
    rewrite map_map. clear.
    assert (R : forall a,
      map (fun i => @JsDouble.lit D
                      (inject_Z (Z.of_nat (occurrences vocabSize [] i))))
        (seq a vocabSize) = replicate vocabSize (JsDouble.lit 0)).
    { induction vocabSize as [|n IH]; intros a; [reflexivity|].
      cbn [seq map replicate]. f_equal. apply IH. }
    apply R.
  - exact S'.
Qed.

(** X2, witness: a vocabulary of 100 positions. *)
Lemma textToVector_frequencies_witness :
  List.length (textToVector JsDouble.Rational "total sales per region" 100)
  = 100%nat.
Proof.
  apply (textToVector_frequencies JsDouble.Rational "total sales per region"
           100).
  lia.
Defined.

End MachineLearningServiceProps.

(** ** SqlGenerationService: the knowledge base *)

Module QueryKnowledgeProps.
Import JsString Js JsJson SqlGenerationService QueryKnowledge.
Import JsNumberProps JsArrayProps SqlKnowledgeProps.

(** *** Word sets and their overlap *)

Lemma unique_subset {A} (eqb : A -> A -> bool) (l : list A) x :
  In x (JsArray.unique eqb l) -> In x l.
Proof.
  revert x. induction l as [|y l IH]; intros x H; simpl in *; [exact H|].
  destruct H as [->|H]; [left; reflexivity|].
  apply filter_In in H as [H _]. right. apply IH, H.
Qed.

Lemma unique_NoDup l : List.NoDup (JsArray.unique String.eqb l).
Proof.
  induction l as [|x l IH]; simpl; constructor.
  - intros H. apply filter_In in H as [_ H].
    rewrite String.eqb_refl in H. discriminate.
  - apply List.NoDup_filter, IH.
Qed.

Lemma wordSet_NoDup text : List.NoDup (wordSet text).
Proof. apply unique_NoDup. Qed.

Lemma has_word_In ws w : has_word ws w = true <-> In w ws.
Proof.
  unfold has_word. rewrite existsb_exists. split.
  - intros (x & Hx & E). apply String.eqb_eq in E. subst. exact Hx.
  - intros H. exists w. split; [exact H|apply String.eqb_refl].
Qed.

Lemma overlap_sym a b :
  List.NoDup a -> List.NoDup b -> overlap a b = overlap b a.
Proof.
  intros Ha Hb. unfold overlap.
  apply Permutation_length, NoDup_Permutation.
  - apply NoDup_ListNoDup, List.NoDup_filter, Ha.
  - apply NoDup_ListNoDup, List.NoDup_filter, Hb.
  - intros x. rewrite !list_elem_of_In, !filter_In, !has_word_In. tauto.
Qed.

Lemma overlap_le a b : (overlap a b <= List.length a)%nat.
Proof. unfold overlap. apply List.filter_length_le. Qed.

Lemma overlap_self a : overlap a a = List.length a.
Proof.
  unfold overlap. rewrite List.forallb_filter_id; [reflexivity|].
  apply forallb_forall. intros x Hx. apply has_word_In, Hx.
Qed.

Lemma nat_Q_pos n : (0 < n)%nat -> (0 < inject_Z (Z.of_nat n))%Q.
Proof. intros H. change 0%Q with (inject_Z 0). rewrite <- Zlt_Qlt. lia. Qed.

Lemma nat_Q_nonzero n : (0 < n)%nat -> Qeq_bool (inject_Z (Z.of_nat n)) 0 = false.
Proof.
  intros H. destruct (Qeq_bool _ _) eqn:E; [|reflexivity].
  apply Qeq_bool_eq in E. assert (P := nat_Q_pos n H). rewrite E in P.
  exfalso. apply (Qlt_irrefl 0), P.
Qed.

Lemma wordSimilarity_range a b s :
  wordSimilarity a b = Some s -> (0 <= s)%Q /\ (s <= 1)%Q.
Proof.
  unfold wordSimilarity, JsNumber.div.
  destruct (Qeq_bool _ _) eqn:E; [discriminate|]. intros [= <-].
  assert (Hm : (0 < Nat.max (List.length a) (List.length b))%nat).
  { destruct (Nat.max _ _) eqn:M; [|lia]. exfalso.
    vm_compute in E. discriminate. }
  assert (P := nat_Q_pos _ Hm). assert (L := overlap_le a b).
  split.
  - apply Qle_shift_div_l; [exact P|]. rewrite Qmult_0_l.
    change 0%Q with (inject_Z 0). rewrite <- Zle_Qle. lia.
  - apply Qle_shift_div_r; [exact P|]. rewrite Qmult_1_l.
    rewrite <- Zle_Qle. lia.
Qed.

Lemma wordSimilarity_None a b :
  wordSimilarity a b = None <-> a = [] /\ b = [].
Proof.
  unfold wordSimilarity, JsNumber.div. split.
  - destruct (Qeq_bool _ _) eqn:E; [|discriminate]. intros _.
    destruct a, b; simpl in E; try (split; reflexivity);
      rewrite nat_Q_nonzero in E by lia; discriminate.
  - intros [-> ->]. reflexivity.
Qed.

Lemma wordSimilarity_self a :
  a <> [] -> exists s, wordSimilarity a a = Some s /\ (s == 1)%Q.
Proof.
  intros Hne. unfold wordSimilarity, JsNumber.div.
  rewrite overlap_self, Nat.max_id.
  assert (Hl : (0 < List.length a)%nat) by (destruct a; [congruence|simpl; lia]).
  rewrite nat_Q_nonzero by exact Hl.
  eexists. split; [reflexivity|]. field.
  intros E. assert (P := nat_Q_pos _ Hl). rewrite E in P.
  apply (Qlt_irrefl 0), P.
Qed.

(** X3. The word-overlap similarity of two texts does not depend on their
    order; it is [NaN] exactly when neither text has a word of more than
    two characters, and otherwise a number between 0 and 1, which is 1 for
    a text compared with itself.  [MachineLearningService] computes the
    same value. *)
Theorem calculateTextSimilarity_symmetric (text1 text2 : string) :
  calculateTextSimilarity text1 text2 = calculateTextSimilarity text2 text1
  /\ MachineLearningService.calculateTextSimilarity text1 text2
     = calculateTextSimilarity text1 text2
  /\ (calculateTextSimilarity text1 text2 = None
      <-> wordSet text1 = [] /\ wordSet text2 = [])
  /\ (forall s, calculateTextSimilarity text1 text2 = Some s ->
                (0 <= s)%Q /\ (s <= 1)%Q)
  /\ (calculateTextSimilarity text1 text1 = None
      \/ exists s, calculateTextSimilarity text1 text1 = Some s /\ (s == 1)%Q).
Proof.
  unfold calculateTextSimilarity. split_and!.
  - unfold wordSimilarity.
    rewrite (overlap_sym _ _ (wordSet_NoDup text1) (wordSet_NoDup text2)).
    rewrite Nat.max_comm. reflexivity.
  - reflexivity.
  - apply wordSimilarity_None.
  - apply wordSimilarity_range.
  - destruct (wordSet text1) as [|w ws] eqn:E.
    + left. reflexivity.
    + right. apply wordSimilarity_self. congruence.
Qed.

(** *** Learning *)

Section LearnFacts.
Variable World : Type.
Variable now : World -> string * World.

(** What one mention of the table does to its counter. *)
Definition mention (t : string) (counter : option Counter) : option Counter :=
  match counter with
  | Some (Counted n) => Some (Counted (S n))
  | Some NotANumber => Some (Counted 1)
  | None =>
      if String.eqb t "__proto__" then None
      else if JsObject.inherited t then Some NotANumber
      else Some (Counted 1)
  end.

(** The number a counter shows, [NaN] and an absent counter showing
    nothing. *)
Definition shown (counter : option Counter) : nat :=
  match counter with
  | Some (Counted n) => n
  | _ => 0%nat
  end.

Lemma countTable_lookup stats table t :
  countTable stats table !! t
  = if String.eqb table t then mention t (stats !! t) else stats !! t.
Proof.
  unfold countTable, mention. destruct (String.eqb_spec table t) as [->|Hne].
  - destruct (stats !! t) as [[n|]|] eqn:E; rewrite ?lookup_insert_eq; auto.
    destruct (String.eqb t "__proto__"); [exact E|].
    destruct (JsObject.inherited t); rewrite lookup_insert_eq; reflexivity.
  - destruct (stats !! table) as [[n|]|];
      rewrite ?lookup_insert_ne by exact Hne; auto.
    destruct (String.eqb table "__proto__"); [reflexivity|].
    destruct (JsObject.inherited table);
      rewrite lookup_insert_ne by exact Hne; reflexivity.
Qed.

Lemma fold_countTable_lookup ts : forall stats t,
  fold_left countTable ts stats !! t
  = Nat.iter (List.length (List.filter (fun table => String.eqb table t) ts))
      (mention t) (stats !! t).
Proof.
  induction ts as [|x ts IH]; intros stats t; [reflexivity|].
  cbn [fold_left List.filter]. rewrite IH, countTable_lookup.
  destruct (String.eqb x t); [|reflexivity].
  cbn [List.length]. symmetry. apply Nat.iter_succ_r.
Qed.

Lemma mention_counted t k : forall counter,
  JsObject.inherited t = false \/ counter <> None ->
  (0 < k)%nat ->
  Nat.iter k (mention t) counter = Some (Counted (shown counter + k)).
Proof.
  induction k as [|k IH]; intros counter Hown Hk; [lia|].
  rewrite Nat.iter_succ_r.
  assert (E : exists n, mention t counter = Some (Counted n)
                        /\ n = S (shown counter)).
  { destruct counter as [[n|]|]; simpl; try (eexists; split; reflexivity).
    destruct Hown as [Hown|Hown]; [|congruence].
    assert (P : String.eqb t "__proto__" = false).
    { destruct (String.eqb_spec t "__proto__") as [->|]; [|reflexivity].
      discriminate Hown. }
    rewrite P, Hown. eexists; split; reflexivity. }
  destruct E as (n & E & Hn). rewrite E.
  destruct k as [|k]; [simpl; f_equal; f_equal; lia|].
  rewrite IH by (try lia; right; discriminate). simpl. f_equal. f_equal. lia.
Qed.

Lemma mention_inherited t k :
  JsObject.inherited t = true -> t <> "__proto__" ->
  Nat.iter (S k) (mention t) None
  = if (k =? 0)%nat then Some NotANumber else Some (Counted k).
Proof.
  intros Hin Hp. rewrite Nat.iter_succ_r.
  assert (E : mention t None = Some NotANumber).
  { simpl. destruct (String.eqb_spec t "__proto__"); [contradiction|].
    rewrite Hin. reflexivity. }
  rewrite E. destruct k as [|k]; [reflexivity|].
  rewrite mention_counted by (try lia; right; discriminate).
  simpl. reflexivity.
Qed.

Lemma mention_proto k : Nat.iter k (mention "__proto__") None = None.
Proof. induction k as [|k IH]; [reflexivity|]. simpl. rewrite IH. reflexivity. Qed.

(** X4. [learnFromSuccessfulQuery] ignores a query that returned no row.
    Otherwise it appends one pattern, which records the query, the prompt
    and the row count, after the patterns it already has, and counts the
    tables that the FROM clauses of the query name.  For a table that has
    a counter, or whose name is not one that objects inherit, the counter
    then shows its former number plus the number of these clauses; a table
    that no clause names keeps what it had.  For a table without a counter
    whose name objects inherit, such as [constructor], the first clause
    stores [NaN] and the count restarts with the second; the name
    [__proto__] never gets a counter. *)
Theorem learnFromSuccessfulQuery_records (queryText prompt : string)
  (count : nat) (kb : KnowledgeBase) (w : World) :
  let kb' := fst (learnFromSuccessfulQuery World now queryText prompt count kb w) in
  let clauses (t : string) :=
    List.length (List.filter (fun table => String.eqb table t)
                   (ReportService.tablesAfter "from" queryText)) in
  (count = 0%nat ->
   learnFromSuccessfulQuery World now queryText prompt count kb w = (kb, w))
  /\ ((0 < count)%nat ->
      (exists pattern,
         successfulQueries kb' = (successfulQueries kb ++ [pattern])%list
         /\ query pattern = queryText /\ userPrompt pattern = prompt
         /\ resultCount pattern = count)
      /\ (forall t,
            clauses t = 0%nat ->
            tableUsageStats kb' !! t = tableUsageStats kb !! t)
      /\ (forall t,
            (0 < clauses t)%nat ->
            JsObject.inherited t = false \/ tableUsageStats kb !! t <> None ->
            tableUsageStats kb' !! t
            = Some (Counted (shown (tableUsageStats kb !! t) + clauses t)))
      /\ (forall t,
            (0 < clauses t)%nat ->
            JsObject.inherited t = true -> t <> "__proto__" ->
            tableUsageStats kb !! t = None ->
            tableUsageStats kb' !! t
            = if (clauses t =? 1)%nat then Some NotANumber
              else Some (Counted (clauses t - 1)))
      /\ (tableUsageStats kb !! "__proto__" = None ->
          tableUsageStats kb' !! "__proto__" = None)).
Proof.
  cbv zeta. unfold learnFromSuccessfulQuery. split.
  - intros ->. reflexivity.
  - intros Hc. destruct (count <=? 0)%nat eqn:E; [apply Nat.leb_le in E; lia|].
    destruct (now w) as [stamp w1]. destruct (now w1) as [updated w2]. simpl.
    split_and!.
    + eexists. split; [reflexivity|]. simpl. auto.
    + intros t Hk. rewrite fold_countTable_lookup, Hk. reflexivity.
    + intros t Hk Hown. rewrite fold_countTable_lookup.
      apply mention_counted; assumption.
    + intros t Hk Hin Hp Hnone. rewrite fold_countTable_lookup, Hnone.
      destruct (List.length _) as [|k] eqn:Ek; [lia|].
      rewrite (mention_inherited t k Hin Hp).
      replace (S k =? 1)%nat with (k =? 0)%nat by (destruct k; reflexivity).
      replace (S k - 1)%nat with k by lia. reflexivity.
    + intros Hnone. rewrite fold_countTable_lookup, Hnone. apply mention_proto.
Qed.

(** A clock that always shows the same instant. *)
Definition fixedClock (w : unit) : string * unit :=
  ("2024-01-01T00:00:00.000Z", w).

(** A table named [constructor]: the first query that reads it leaves
    [NaN] as its usage, and the second query a count of 1. *)
Example learnFromSuccessfulQuery_inherited_name :
  let once := fst (learnFromSuccessfulQuery unit fixedClock
                     "SELECT * FROM constructor" "all constructors" 4
                     loadQueryKnowledgeBase tt) in
  let twice := fst (learnFromSuccessfulQuery unit fixedClock
                      "SELECT * FROM constructor" "all constructors" 4
                      once tt) in
  tableUsageStats once !! "constructor" = Some NotANumber
  /\ tableUsageStats twice !! "constructor" = Some (Counted 1).
Proof. vm_compute. split; reflexivity. Qed.



End LearnFacts.

Definition clock (w : nat) : string * nat := ("2024-01-01T00:00:00.000Z", S w).


Example learnFromSuccessfulQuery_sample :
  let kb := fst (learnFromSuccessfulQuery nat clock
                   "SELECT o.id FROM orders o JOIN users u ON u.id = o.uid WHERE o.total > 10  ORDER BY o.id"
                   "orders of users" 7 loadQueryKnowledgeBase 0%nat) in
  map (fun p => (SqlGenerationService.tables p, joins p, whereConditions p))
      (successfulQueries kb)
  = [(["orders"], ["users"], "o.total > 10")]
  /\ tableUsageStats kb !! "orders" = Some (Counted 1)
  /\ lastUpdated kb = Some "2024-01-01T00:00:00.000Z".
Proof. vm_compute. repeat split. Qed.

(** *** Table names taken from a query *)

(** What [[a-z_][a-z0-9_]*] with flag [i] matches in full. *)
Definition isIdentifier (t : string) : bool :=
  match t with
  | String c rest =>
      ReportService.is_ident_start c
      && forallb is_word (list_ascii_of_string rest)
  | EmptyString => false
  end.

Lemma word_not_space c : is_word c = true -> is_space c = false.
Proof.
  destruct c as [[] [] [] [] [] [] [] []]; vm_compute; intros H;
    try reflexivity; discriminate H.
Qed.

Lemma ident_start_word c : ReportService.is_ident_start c = true -> is_word c = true.
Proof.
  unfold ReportService.is_ident_start, is_word. intros H.
  apply orb_prop in H as [H|H]; [apply orb_prop in H as [H|H]|];
    rewrite H; rewrite ?orb_true_r; reflexivity.
Qed.

Lemma starts_with_ci_prefix kw : forall s n,
  starts_with_ci kw s = true -> (String.length kw <= n)%nat ->
  starts_with_ci kw (String.substring 0 n s) = true.
Proof.
  induction kw as [|k kw IH]; intros s n H Hn; [reflexivity|].
  destruct s as [|c s]; [discriminate|].
  destruct n as [|n]; [simpl in Hn; lia|].
  simpl in *. apply andb_prop in H as [H1 H2]. rewrite H1. simpl.
  apply IH; [exact H2|lia].
Qed.

Lemma drop_chars_prefix a : forall b s,
  drop_chars a (String.substring 0 (a + b) s)
  = String.substring 0 b (drop_chars a s).
Proof.
  induction a as [|a IH]; intros b s; [reflexivity|].
  destruct s as [|c s]; simpl.
  - destruct b; reflexivity.
  - apply IH.
Qed.

Lemma count_leading_prefix p : forall n s,
  count_leading p (String.substring 0 n s) = Nat.min n (count_leading p s).
Proof.
  induction n as [|n IH]; intros s.
  - destruct s; reflexivity.
  - destruct s as [|c s]; [reflexivity|]. simpl.
    destruct (p c); [rewrite IH; reflexivity|reflexivity].
Qed.

Lemma leading_run p : forall s,
  forallb p (list_ascii_of_string (String.substring 0 (count_leading p s) s))
  = true.
Proof.
  induction s as [|c s IH]; [reflexivity|]. simpl.
  destruct (p c) eqn:E; [|reflexivity]. simpl. rewrite E. exact IH.
Qed.

Lemma trimEnd_words s :
  forallb is_word (list_ascii_of_string s) = true -> trimEnd s = s.
Proof.
  induction s as [|c s IH]; [reflexivity|]. simpl. intros H.
  apply andb_prop in H as [Hc Hs]. rewrite (IH Hs).
  rewrite (word_not_space c Hc). destruct s; reflexivity.
Qed.

Lemma trim_words s :
  forallb is_word (list_ascii_of_string s) = true -> trim s = s.
Proof.
  intros H. unfold trim. destruct s as [|c s]; [reflexivity|].
  simpl in H. assert (H' := H). apply andb_prop in H' as [Hc _].
  cbn [trimStart]. rewrite (word_not_space c Hc).
  apply trimEnd_words. exact H.
Qed.

Lemma removeKeyword_unfold kw m :
  ReportService.removeKeyword kw m
  = if starts_with_ci kw m
       && (0 <? count_leading is_space (drop_chars (String.length kw) m))%nat
    then drop_chars (count_leading is_space (drop_chars (String.length kw) m))
           (drop_chars (String.length kw) m)
    else match m with
         | EmptyString => EmptyString
         | String c m' => String c (ReportService.removeKeyword kw m')
         end.
Proof. destruct m; reflexivity. Qed.

Lemma matched_table_identifier kw s n :
  ReportService.matchKeywordTable kw s = Some n ->
  isIdentifier (trim (ReportService.removeKeyword kw (String.substring 0 n s)))
  = true.
Proof.
  unfold ReportService.matchKeywordTable.
  destruct (starts_with_ci kw s) eqn:Hkw; [|discriminate].
  set (afterKw := drop_chars (String.length kw) s).
  set (spaces := count_leading is_space afterKw).
  destruct (drop_chars spaces afterKw) as [|c rest] eqn:Hname; [discriminate|].
  destruct ((0 <? spaces)%nat && ReportService.is_ident_start c) eqn:Hok;
    [|discriminate].
  apply andb_prop in Hok as [Hsp Hc]. apply Nat.ltb_lt in Hsp.
  intros [= <-].
  assert (Hcw := ident_start_word c Hc).
  assert (Hrun := leading_run is_word (String c rest)).
  cbn [count_leading] in Hrun |- *. rewrite Hcw in Hrun |- *.
  set (w := count_leading is_word rest) in *.
  rewrite removeKeyword_unfold.
  rewrite starts_with_ci_prefix by (exact Hkw || lia).
  rewrite <- Nat.add_assoc, drop_chars_prefix. fold afterKw.
  rewrite count_leading_prefix. fold spaces.
  replace (Nat.min (spaces + S w) spaces) with spaces by lia.
  replace (0 <? spaces)%nat with true by (symmetry; apply Nat.ltb_lt, Hsp).
  cbn [andb].
  rewrite drop_chars_prefix, Hname.
  rewrite (trim_words _ Hrun).
  cbn [String.substring] in *. unfold isIdentifier. rewrite Hc.
  simpl in Hrun. apply andb_prop in Hrun as [_ Hrun]. exact Hrun.
Qed.

Lemma matchAllFrom_matches kw : forall s skip,
  Forall (fun m => exists s' n,
            ReportService.matchKeywordTable kw s' = Some n
            /\ m = String.substring 0 n s')
    (ReportService.matchAllFrom kw s skip).
Proof.
  induction s as [|c s IH]; intros skip; [constructor|].
  cbn [ReportService.matchAllFrom]. destruct skip as [|k]; [|apply IH].
  destruct (ReportService.matchKeywordTable kw (String c s)) as [n|] eqn:E;
    [|apply IH].
  constructor; [|apply IH]. exists (String c s), n. split; [exact E|reflexivity].
Qed.

Lemma tablesAfter_identifiers kw sqlText :
  Forall (fun t => isIdentifier t = true) (ReportService.tablesAfter kw sqlText).
Proof.
  unfold ReportService.tablesAfter. apply List.Forall_forall. intros t Ht.
  apply in_map_iff in Ht as (m & <- & Hm).
  assert (H := matchAllFrom_matches kw sqlText 0).
  rewrite List.Forall_forall in H. destruct (H m Hm) as (s' & n & Hn & ->).
  eapply matched_table_identifier, Hn.
Qed.

(** X6. Every table name that [extractTablesFromQuery] takes from a query
    is an identifier: a letter or underscore followed by letters, digits
    and underscores, so never empty and free of white space, quotes and
    punctuation.  No name is listed twice.  The same holds for the names
    read after FROM and after JOIN, which the fallback execution and the
    learning step interpolate into SQL text. *)
Theorem extracted_tables_are_identifiers (queryText : string) :
  Forall (fun t => isIdentifier t = true) (extractTablesFromQuery queryText)
  /\ List.NoDup (extractTablesFromQuery queryText)
  /\ Forall (fun t => isIdentifier t = true)
       (ReportService.tablesAfter "from" queryText)
  /\ Forall (fun t => isIdentifier t = true)
       (ReportService.tablesAfter "join" queryText).
Proof.
  split_and!; try apply tablesAfter_identifiers.
  - unfold extractTablesFromQuery.
    destruct (String.eqb queryText ""); [constructor|].
    apply List.Forall_forall. intros t Ht. apply unique_subset in Ht.
    apply in_app_or in Ht as [Ht|Ht];
      [assert (H := tablesAfter_identifiers "from" queryText)
      |assert (H := tablesAfter_identifiers "join" queryText)];
      rewrite List.Forall_forall in H; apply H, Ht.
  - unfold extractTablesFromQuery.
    destruct (String.eqb queryText ""); [constructor|apply unique_NoDup].
Qed.

Example extractTablesFromQuery_sample :
  extractTablesFromQuery
    "select * from orders o join users u on u.id = o.uid where o.id in (select oid from Orders)"
  = ["orders"; "Orders"; "users"].
Proof. vm_compute. reflexivity. Qed.

(** *** Reusing a learned query *)

Lemma hasLimit_cons c s :
  hasLimit (String c s)
  = match matchLimitAt (String c s) with
    | Some _ => true
    | None => hasLimit s
    end.
Proof. reflexivity. Qed.

Lemma removeLimit_cons c s :
  removeLimit (String c s)
  = match matchLimitAt (String c s) with
    | Some n => drop_chars n (String c s)
    | None => String c (removeLimit s)
    end.
Proof. reflexivity. Qed.

Lemma hasLimit_append s t : hasLimit t = true -> hasLimit (s +:+ t) = true.
Proof.
  intros Ht. induction s as [|c s IH]; [exact Ht|].
  change (String c s +:+ t) with (String c (s +:+ t)).
  rewrite hasLimit_cons. destruct (matchLimitAt _); [reflexivity|exact IH].
Qed.

Lemma removeLimit_without s : hasLimit s = false -> removeLimit s = s.
Proof.
  induction s as [|c s IH].
  - intros _. reflexivity.
  - rewrite hasLimit_cons, removeLimit_cons.
    destruct (matchLimitAt _); [discriminate|]. intros H. rewrite (IH H).
    reflexivity.
Qed.

(** X7. When [enhanceSqlGenerationWithKnowledge] proposes a query, it is
    the best match of [findSimilarQueries], and every table that match
    reads exists in the current schema (names compared without case).
    For a request that does not ask for all data the proposal carries a
    LIMIT clause: the learned query as it is when it has one, and with
    " LIMIT 100" appended when it has none.  For a request for all data the
    proposal is the learned query without its first LIMIT clause. *)
Theorem enhanceSql_proposal (kb : KnowledgeBase) (userPrompt : string)
  (schema : MinimalSchema) (sql : string) :
  enhanceSqlGenerationWithKnowledge kb userPrompt schema = Some sql ->
  exists best rest,
    findSimilarQueries (successfulQueries kb) userPrompt = best :: rest
    /\ (forall t, In t (extractTablesFromQuery (query (entry best))) ->
          exists k, In k (JsObject.keys (tables schema))
                    /\ toLowerCase k = toLowerCase t)
    /\ (detectAllDataRequest userPrompt = false ->
        hasLimit sql = true
        /\ sql = if hasLimit (query (entry best)) then query (entry best)
                 else query (entry best) +:+ " LIMIT 100")
    /\ (detectAllDataRequest userPrompt = true ->
        sql = removeLimit (query (entry best))).
Proof.
  unfold enhanceSqlGenerationWithKnowledge.
  destruct (findSimilarQueries _ _) as [|best rest]; [discriminate|].
  destruct (forallb _ _) eqn:Hall; [|discriminate].
  intros H. exists best, rest. split; [reflexivity|]. split.
  - intros t Ht. rewrite forallb_forall in Hall. specialize (Hall t Ht).
    apply existsb_exists in Hall as (k' & Hk' & E).
    apply String.eqb_eq in E. apply in_map_iff in Hk' as (k & <- & Hk).
    exists k. split; [exact Hk|]. symmetry. exact E.
  - destruct (detectAllDataRequest userPrompt);
      destruct (hasLimit (query (entry best))) eqn:HL;
      cbn [andb negb] in H; injection H as <-.
    + split; [discriminate|]. reflexivity.
    + split; [discriminate|]. intros _. symmetry. apply removeLimit_without, HL.
    + split; [|discriminate]. intros _. split; [exact HL|reflexivity].
    + split; [|discriminate]. intros _. split; [|reflexivity].
      apply hasLimit_append. reflexivity.
Qed.

Definition ordersKnowledge : KnowledgeBase :=
  fst (learnFromSuccessfulQuery nat clock "SELECT * FROM orders"
         "show large orders" 3 loadQueryKnowledgeBase 0%nat).

Definition ordersSchema : MinimalSchema :=
  {| tables := [("Orders", {| columns := [] |})]; relationships := [] |}.

Lemma enhanceSql_proposal_witness :
  exists best rest,
    findSimilarQueries (successfulQueries ordersKnowledge) "show large orders"
    = best :: rest
    /\ (forall t, In t (extractTablesFromQuery (query (entry best))) ->
          exists k, In k (JsObject.keys (tables ordersSchema))
                    /\ toLowerCase k = toLowerCase t)
    /\ (detectAllDataRequest "show large orders" = false ->
        hasLimit "SELECT * FROM orders LIMIT 100" = true
        /\ "SELECT * FROM orders LIMIT 100"
           = if hasLimit (query (entry best)) then query (entry best)
             else query (entry best) +:+ " LIMIT 100")
    /\ (detectAllDataRequest "show large orders" = true ->
        "SELECT * FROM orders LIMIT 100" = removeLimit (query (entry best))).
Proof.
  apply (enhanceSql_proposal ordersKnowledge "show large orders" ordersSchema
           "SELECT * FROM orders LIMIT 100").
  vm_compute. reflexivity.
Defined.

Example enhanceSql_all_data :
  enhanceSqlGenerationWithKnowledge
    (fst (learnFromSuccessfulQuery nat clock
            "SELECT * FROM orders LIMIT   25 OFFSET 5"
            "show large orders" 3 loadQueryKnowledgeBase 0%nat))
    "show large orders, with  NO   limit" ordersSchema
  = Some "SELECT * FROM orders  OFFSET 5"
  /\ enhanceSqlGenerationWithKnowledge ordersKnowledge "show large orders"
       {| tables := [("users", {| columns := [] |})]; relationships := [] |}
     = None.
Proof. vm_compute. split; reflexivity. Qed.

(** *** createMinimalSchema *)

Lemma keys_set {V} (o : JsObject.obj V) k v :
  JsObject.keys (JsObject.set o k v)
  = if existsb (String.eqb k) (JsObject.keys o) then JsObject.keys o
    else (JsObject.keys o ++ [k])%list.
Proof.
  induction o as [|[k' v'] o IH]; simpl; [reflexivity|].
  destruct (String.eqb k k') eqn:E; simpl.
  - apply String.eqb_eq in E. subst. reflexivity.
  - rewrite IH. destruct (existsb _ _); reflexivity.
Qed.

Lemma existsb_eqb_In k (l : list string) :
  existsb (String.eqb k) l = true <-> In k l.
Proof.
  rewrite existsb_exists. split.
  - intros (x & Hx & E). apply String.eqb_eq in E. subst. exact Hx.
  - intros H. exists k. split; [exact H|apply String.eqb_refl].
Qed.

Lemma keys_set_NoDup {V} (o : JsObject.obj V) k v :
  List.NoDup (JsObject.keys o) -> List.NoDup (JsObject.keys (JsObject.set o k v)).
Proof.
  intros H. rewrite keys_set. destruct (existsb _ _) eqn:E; [exact H|].
  apply List.NoDup_app; [exact H|repeat constructor; intros []|].
  intros x Hx [<-|[]]. apply existsb_eqb_In in Hx. congruence.
Qed.

Section MinimalSchemaFacts.
Variable schemas : Schemas.

Definition minimalTable (info : TableInfo) : MinimalTable :=
  {| columns :=
       map (fun col => {| name := SqlGenerationService.column_name col;
                          type := SqlGenerationService.data_type col |})
           (SqlGenerationService.columns info) |}.

(** A name that the schema does not hold and that objects inherit. *)
Definition unowned (t : string) : bool :=
  JsObject.inherited t && negb (JsObject.has schemas t).

(** What the loop does with one table when it does not throw. *)
Definition withTable (m : JsObject.obj MinimalTable) (x : string)
  : JsObject.obj MinimalTable :=
  match JsObject.get schemas x with
  | Some info =>
      if String.eqb x "__proto__" then m
      else JsObject.set m x (minimalTable info)
  | None => m
  end.

Lemma addMinimalTable_cases m x :
  (unowned x = true /\ addMinimalTable schemas m x = inl noColumns)
  \/ (unowned x = false /\ addMinimalTable schemas m x = inr (withTable m x)).
Proof.
  unfold addMinimalTable, withTable, unowned, JsObject.has.
  destruct (JsObject.get schemas x) as [info|].
  - right. rewrite andb_false_r. split; [reflexivity|].
    destruct (String.eqb x "__proto__"); reflexivity.
  - destruct (JsObject.inherited x); [left|right]; split; reflexivity.
Qed.

Lemma withTable_get m x t :
  JsObject.get (withTable m x) t
  = if String.eqb t x && negb (String.eqb t "__proto__")
    then match JsObject.get schemas t with
         | Some info => Some (minimalTable info)
         | None => JsObject.get m t
         end
    else JsObject.get m t.
Proof.
  unfold withTable. destruct (String.eqb_spec t x) as [->|Hne]; cbn [andb].
  - destruct (JsObject.get schemas x) as [info|];
      destruct (String.eqb x "__proto__"); cbn [negb]; try reflexivity.
    apply JsObjectProps.get_set_eq.
  - destruct (JsObject.get schemas x) as [info|]; [|reflexivity].
    destruct (String.eqb x "__proto__"); [reflexivity|].
    apply JsObjectProps.get_set_ne. congruence.
Qed.

Lemma withTable_NoDup m x :
  List.NoDup (JsObject.keys m) -> List.NoDup (JsObject.keys (withTable m x)).
Proof.
  intros H. unfold withTable. destruct (JsObject.get schemas x); [|exact H].
  destruct (String.eqb x "__proto__"); [exact H|]. apply keys_set_NoDup, H.
Qed.

Lemma addMinimalTables_throws ts : forall m,
  (exists t, In t ts /\ unowned t = true) ->
  addMinimalTables schemas m ts = inl noColumns.
Proof.
  induction ts as [|x ts IH]; intros m (t & Ht & Hu); [destruct Ht|].
  cbn [addMinimalTables].
  destruct (addMinimalTable_cases m x) as [[Hx ->]|[Hx ->]]; [reflexivity|].
  apply IH. destruct Ht as [->|Ht]; [congruence|]. exists t. auto.
Qed.

Lemma addMinimalTables_returns ts : forall m,
  (forall t, In t ts -> unowned t = false) ->
  exists m',
    addMinimalTables schemas m ts = inr m'
    /\ (forall t,
          JsObject.get m' t
          = if existsb (String.eqb t) ts && negb (String.eqb t "__proto__")
            then match JsObject.get schemas t with
                 | Some info => Some (minimalTable info)
                 | None => JsObject.get m t
                 end
            else JsObject.get m t)
    /\ (List.NoDup (JsObject.keys m) -> List.NoDup (JsObject.keys m')).
Proof.
  induction ts as [|x ts IH]; intros m Hall.
  - exists m. split; [reflexivity|]. split; [reflexivity|auto].
  - cbn [addMinimalTables].
    destruct (addMinimalTable_cases m x) as [[Hx _]|[_ ->]].
    { rewrite Hall in Hx by (left; reflexivity). discriminate Hx. }
    destruct (IH (withTable m x)) as (m' & -> & Hget & Hnd).
    { intros t Ht. apply Hall. right. exact Ht. }
    exists m'. split; [reflexivity|]. split.
    + intros t. rewrite Hget, withTable_get. cbn [existsb].
      destruct (String.eqb t x), (existsb (String.eqb t) ts),
        (String.eqb t "__proto__"), (JsObject.get schemas t); reflexivity.
    + intros H. apply Hnd, withTable_NoDup, H.
Qed.

End MinimalSchemaFacts.

(** X8. The schema is a plain object.  [createMinimalSchema] throws a
    [TypeError] exactly when a relevant table is a name that the schema
    does not hold and that objects inherit, such as [constructor].
    Otherwise the minimal schema holds, as its own properties, exactly the
    relevant tables that the schema has, each once, with the names and
    types of its columns in order, save a table named [__proto__], which
    no store can make an own property; its relationships are those of the
    input, in order, whose two table names, in lower case, are both
    relevant. *)
Theorem createMinimalSchema_tables (schemas : Schemas)
  (rels : list DataEnrichmentService.Relationship)
  (relevantTables : list string) :
  ((exists t, In t relevantTables /\ unowned schemas t = true) <->
   createMinimalSchema schemas rels relevantTables = inl noColumns)
  /\ ((forall t, In t relevantTables -> unowned schemas t = false) ->
      exists minimal,
        createMinimalSchema schemas rels relevantTables = inr minimal
        /\ (forall t,
              JsObject.get (tables minimal) t
              = if existsb (String.eqb t) relevantTables
                   && negb (String.eqb t "__proto__")
                then option_map minimalTable (JsObject.get schemas t)
                else None)
        /\ List.NoDup (JsObject.keys (tables minimal))
        /\ sublist (relationships minimal) rels
        /\ (forall rel,
              In rel (relationships minimal) <->
              In rel rels
              /\ In (toLowerCase (DataEnrichmentService.table_name rel))
                   relevantTables
              /\ In (toLowerCase
                       (DataEnrichmentService.foreign_table_name rel))
                   relevantTables)).
Proof.
  assert (Hreturns :
    (forall t, In t relevantTables -> unowned schemas t = false) ->
    exists minimal,
      createMinimalSchema schemas rels relevantTables = inr minimal
      /\ (forall t,
            JsObject.get (tables minimal) t
            = if existsb (String.eqb t) relevantTables
                 && negb (String.eqb t "__proto__")
              then option_map minimalTable (JsObject.get schemas t)
              else None)
      /\ List.NoDup (JsObject.keys (tables minimal))
      /\ sublist (relationships minimal) rels
      /\ (forall rel,
            In rel (relationships minimal) <->
            In rel rels
            /\ In (toLowerCase (DataEnrichmentService.table_name rel))
                 relevantTables
            /\ In (toLowerCase
                     (DataEnrichmentService.foreign_table_name rel))
                 relevantTables)).
  { intros H. unfold createMinimalSchema.
    destruct (addMinimalTables_returns schemas relevantTables [] H)
      as (m' & -> & Hget & Hnd).
    eexists. split; [reflexivity|]. cbn [tables relationships]. split_and!.
    + intros t. rewrite Hget. cbn [JsObject.get].
      destruct (_ && _); [|reflexivity].
      destruct (JsObject.get schemas t); reflexivity.
    + apply Hnd. constructor.
    + induction rels as [|r rels IH]; simpl; [constructor|].
      destruct (_ && _); [apply sublist_skip|apply sublist_cons]; exact IH.
    + intros rel. rewrite filter_In, andb_true_iff, !existsb_exists.
      split.
      * intros (H0 & (a & Ha & Ea) & (b & Hb & Eb)).
        apply String.eqb_eq in Ea, Eb. subst. auto.
      * intros (H0 & Ha & Hb). split; [exact H0|].
        split; [exists (toLowerCase (DataEnrichmentService.table_name rel))
               |exists (toLowerCase
                          (DataEnrichmentService.foreign_table_name rel))];
          (split; [assumption|apply String.eqb_refl]). }
  split; [|exact Hreturns].
  split.
  - intros H. unfold createMinimalSchema.
    rewrite (addMinimalTables_throws schemas relevantTables [] H).
    reflexivity.
  - intros Hthrow.
    destruct (existsb (unowned schemas) relevantTables) eqn:E.
    + apply existsb_exists in E. exact E.
    + exfalso. destruct Hreturns as (minimal & Hrun & _).
      * intros t Ht. destruct (unowned schemas t) eqn:U; [|reflexivity].
        assert (C : existsb (unowned schemas) relevantTables = true).
        { apply existsb_exists. exists t. auto. }
        congruence.
      * congruence.
Qed.

(** A schema of one table. *)
Definition usersOnly : Schemas :=
  [("users",
    {| SqlGenerationService.columns :=
         [{| SqlGenerationService.column_name := "id";
             SqlGenerationService.data_type := "integer" |}] |})].

(** The relevant tables [users] and [constructor]: the second makes the
    function throw. *)
Example createMinimalSchema_inherited_name :
  createMinimalSchema usersOnly [] ["users"; "constructor"] = inl noColumns.
Proof. reflexivity. Qed.

Example createMinimalSchema_sample :
  createMinimalSchema usersOnly [] ["users"; "orders"]
  = inr {| tables :=
             [("users", {| columns := [{| name := "id"; type := "integer" |}] |})];
           relationships := [] |}.
Proof. reflexivity. Qed.

(** *** generateAdditionalQueries *)

(** A query object whose [sql] is a string that, trimmed, starts with
    SELECT or WITH. *)
Definition runsSelect (q : json) : Prop :=
  exists fields s,
    q = JObj fields /\ JsObject.get fields "sql" = Some (JStr s)
    /\ startsWithSelectOrWith s = true.

Lemma placeholder_runsSelect text :
  startsWithSelectOrWith (placeholderSql +:+ text) = true.
Proof.
  unfold startsWithSelectOrWith. apply orb_true_iff. left.
  apply SqlGenerationServiceProps.trim_keeps_keyword;
    [discriminate|reflexivity|reflexivity].
Qed.

Lemma validateQuery_runsSelect d q v :
  validateQuery d q = inr v -> runsSelect v.
Proof.
  assert (P : forall desc,
            runsSelect
              (JObj [("description",
                      match desc with
                      | Some x => if truthy x then x else JStr d
                      | None => JStr d
                      end);
                     ("sql", JStr (placeholderSql
                                   +:+ match desc with
                                       | Some x => jsonText x
                                       | None => "undefined"
                                       end))])).
  { intros desc. eexists _, _. split; [reflexivity|].
    split; [reflexivity|apply placeholder_runsSelect]. }
  unfold validateQuery. destruct q as [|b|z|s|items|fields];
    try (intros [= <-]; apply (P None)); try discriminate.
  destruct (JsObject.get fields "sql") as [[|b|z|s|items|fs]|] eqn:E;
    cbn [truthy];
    try (intros [= <-]; apply P);
    try discriminate.
  - destruct b; [discriminate|]. intros [= <-]. apply P.
  - destruct (negb (z =? 0)%Z); [discriminate|]. intros [= <-]. apply P.
  - destruct (negb (String.eqb s "") && startsWithSelectOrWith s) eqn:Hs;
      intros [= <-]; [|apply P].
    apply andb_prop in Hs as [_ Hs]. exists fields, s. auto.
Qed.

Lemma validateAll_runsSelect d : forall qs vs,
  validateAll d qs = inr vs -> Forall runsSelect vs.
Proof.
  induction qs as [|q qs IH]; intros vs H; simpl in H.
  - injection H as <-. constructor.
  - destruct (validateQuery d q) as [e|v] eqn:Ev; [discriminate|].
    destruct (validateAll d qs) as [e|vs'] eqn:Evs; [discriminate|].
    injection H as <-. constructor; [eapply validateQuery_runsSelect, Ev|].
    apply IH. reflexivity.
Qed.

(** X9. Whatever the language model answers and whatever [JSON.parse]
    makes of it, [generateAdditionalQueries] returns a list (it does not
    raise) in which every query has an [sql] string that, trimmed, starts
    with SELECT or WITH; the list is empty when no description is given
    and when the model call fails. *)
Theorem generateAdditionalQueries_select_only (World : Type)
  (generateMistralResponse : string -> World -> (Error + string) * World)
  (JSON_parse : string -> option json)
  (userPrompt schemaText queryDescription : string) (w : World) :
  let queries :=
    fst (generateAdditionalQueries World generateMistralResponse JSON_parse
           userPrompt schemaText queryDescription w) in
  Forall runsSelect queries
  /\ (queryDescription = "" -> queries = [])
  /\ (forall e,
        fst (generateMistralResponse
               (additionalQueriesPrompt userPrompt schemaText queryDescription) w)
        = inl e -> queries = []).
Proof.
  cbv zeta. unfold generateAdditionalQueries.
  assert (D : Forall runsSelect (defaultQueries queryDescription)).
  { repeat constructor. eexists _, _. split; [reflexivity|].
    split; reflexivity. }
  destruct (String.eqb_spec queryDescription "") as [->|Hne].
  { split_and!; [constructor|reflexivity|reflexivity]. }
  destruct (generateMistralResponse _ w) as [[e|response] w1] eqn:Eg; cbn [fst].
  { split_and!; [constructor|reflexivity|reflexivity]. }
  split_and!; [|contradiction|discriminate].
  destruct (ReportService.matchBrackets response) as [text|]; [|exact D].
  destruct (JSON_parse text) as [[|b|z|s|parsed|fs]|]; try exact D.
  destruct (validateAll queryDescription parsed) as [e|valid] eqn:Ev;
    [exact D|].
  eapply validateAll_runsSelect, Ev.
Qed.

Definition replies (text : string) (q : string) (w : unit)
  : (Error + string) * unit := (inr text, w).

Definition parsesTo (j : json) (text : string) : option json := Some j.

Example generateAdditionalQueries_sample :
  fst (generateAdditionalQueries unit (replies "Here: [...]")
         (parsesTo (JArr [JObj [("description", JStr "totals");
                                ("sql", JStr "  select sum(x) from t")];
                          JObj [("description", JStr "cleanup");
                                ("sql", JStr "DROP TABLE t")];
                          JNum 5]))
         "sales" "{}" "more detail" tt)
  = [JObj [("description", JStr "totals"); ("sql", JStr "  select sum(x) from t")];
     JObj [("description", JStr "cleanup");
           ("sql", JStr "SELECT * FROM users LIMIT 10 -- Placeholder for: cleanup")];
     JObj [("description", JStr "more detail");
           ("sql", JStr "SELECT * FROM users LIMIT 10 -- Placeholder for: undefined")]].
Proof. vm_compute. reflexivity. Qed.

End QueryKnowledgeProps.

(** ** AnalyticsService: outliers and anomalies *)

Module AnomalyProps.
Import JsString JsValue JsDouble AnomalyDetection.

(** The rows are split between the two lists: none is lost, none is
    repeated, and each list keeps the order of the rows. *)
Definition splits (out : list row) (normal : option (list row))
  (rows : list row) : Prop :=
  exists rest,
    normal = Some rest
    /\ Permutation (out ++ rest) rows
    /\ sublist out rows /\ sublist rest rows.

Lemma filter_sublist {A} (p : A -> bool) l : sublist (List.filter p l) l.
Proof.
  induction l as [|x l IH]; simpl; [constructor|].
  destruct (p x); [apply sublist_skip|apply sublist_cons]; exact IH.
Qed.

(** Two filters that never keep the same element share out the elements
    that one of them keeps. *)
Lemma filter_either {A} (p q : A -> bool) l :
  (forall x, In x l -> p x && q x = false) ->
  Permutation (List.filter p l ++ List.filter q l)
    (List.filter (fun x => p x || q x) l).
Proof.
  induction l as [|x l IH]; intros H; simpl; [reflexivity|].
  assert (Hx := H x (or_introl eq_refl)).
  assert (IH' := IH (fun y Hy => H y (or_intror Hy))).
  destruct (p x), (q x); simpl; try discriminate.
  - constructor. exact IH'.
  - rewrite <- Permutation_middle. constructor. exact IH'.
  - exact IH'.
Qed.

Lemma filter_all {A} (p : A -> bool) l :
  (forall x, In x l -> p x = true) -> List.filter p l = l.
Proof.
  induction l as [|x l IH]; intros H; simpl; [reflexivity|].
  rewrite (H x (or_introl eq_refl)), IH; [reflexivity|].
  intros y Hy. apply H. right. exact Hy.
Qed.

(** The laws of doubles that the split relies on: a comparison with [NaN]
    fails, and of two numbers one is at most the other exactly when the
    other is not below it. *)
Record CompareLaws (D : Ops) : Prop := {
  lt_unordered : forall a b : number D,
    isNaN a = true \/ isNaN b = true -> lt a b = false;
  le_unordered : forall a b : number D,
    isNaN a = true \/ isNaN b = true -> le a b = false;
  le_ordered : forall a b : number D,
    isNaN a = false -> isNaN b = false -> le a b = negb (lt b a)
}.

Section Scores.
Variable D : Ops.
Variable parseFloat : value -> number D.

(** What the theorem says of one method, whose centre is [center] and
    whose spread is [spread]. *)
Definition splitsByScore (center spread : list (number D) -> number D)
  (rows : list row) (fld : string) (threshold : number D)
  (result : AnomalyResult D) : Prop :=
  let vals := values D parseFloat rows fld in
  let numeric (item : row) := negb (isNaN (parseFloat (field item fld))) in
  let scoreOf (item : row) :=
    score D (parseFloat (field item fld)) (center vals) (spread vals) in
  let unordered (item : row) :=
    isNaN (scoreOf item) || isNaN threshold in
  let skipped :=
    (List.length vals <? 2)%nat || strictEq (spread vals) (lit 0) in
  exists rest,
    normalData result = Some rest
    /\ sublist (outliers result) rows
    /\ sublist rest rows
    /\ Forall (fun item => numeric item = true) (outliers result)
    /\ (forall item, In item rows -> numeric item = false -> In item rest)
    /\ (skipped = true ->
        outliers result = [] /\ rest = rows /\ stats result = None)
    /\ (skipped = false ->
        stats result = Some (center vals, spread vals, threshold)
        /\ outliers result
           = List.filter
               (fun item => numeric item && lt threshold (scoreOf item)) rows
        /\ rest
           = List.filter
               (fun item => negb (numeric item)
                            || le (scoreOf item) threshold) rows
        /\ Permutation (outliers result ++ rest)
             (List.filter
                (fun item => negb (numeric item && unordered item)) rows))
    /\ ((forall item,
           In item rows -> numeric item = true -> unordered item = false) ->
        Permutation (outliers result ++ rest) rows).

Lemma detectByScore_splits (center spread : list (number D) -> number D)
  rows fld threshold :
  CompareLaws D ->
  splitsByScore center spread rows fld threshold
    (detectByScore D parseFloat center spread (Some rows) fld threshold).
Proof.
  intros Laws. unfold splitsByScore, detectByScore. cbv zeta.
  set (vals := values D parseFloat rows fld).
  set (c := center vals). set (s := spread vals).
  assert (Hempty : (List.length rows =? 0)%nat = true ->
                   (List.length vals <? 2)%nat = true).
  { intros H. apply Nat.eqb_eq in H. apply Nat.ltb_lt.
    destruct rows; [cbn; lia|discriminate]. }
  assert (Hskip : forall rest : list row,
            rest = rows ->
            Forall (fun item => negb (isNaN (parseFloat (field item fld))) = true)
              (@nil row)
            /\ (forall item, In item rows ->
                  negb (isNaN (parseFloat (field item fld))) = false ->
                  In item rest)
            /\ ([] = @nil row /\ rest = rows /\ @None (number D * number D * number D) = None)
            /\ Permutation ([] ++ rest) rows).
  { intros rest ->. split_and!; auto. }
  destruct (List.length rows =? 0)%nat eqn:E0.
  { rewrite (Hempty eq_refl). cbn [orb outliers normalData stats].
    exists rows. destruct (Hskip rows eq_refl) as (A & B & C & P).
    split_and!; auto; [apply sublist_nil_l|discriminate]. }
  destruct (List.length vals <? 2)%nat eqn:E1.
  { cbn [orb outliers normalData stats].
    exists rows. destruct (Hskip rows eq_refl) as (A & B & C & P).
    split_and!; auto; [apply sublist_nil_l|discriminate]. }
  destruct (strictEq s (lit 0)) eqn:E2.
  { cbn [orb outliers normalData stats].
    exists rows. destruct (Hskip rows eq_refl) as (A & B & C & P).
    split_and!; auto; [apply sublist_nil_l|discriminate]. }
  cbn [orb outliers normalData stats].
  set (p := fun item : row =>
              if isNaN (parseFloat (field item fld)) then false
              else lt threshold (score D (parseFloat (field item fld)) c s)).
  set (q := fun item : row =>
              if isNaN (parseFloat (field item fld)) then true
              else le (score D (parseFloat (field item fld)) c s) threshold).
  assert (Hp : forall item,
            p item = negb (isNaN (parseFloat (field item fld)))
                     && lt threshold (score D (parseFloat (field item fld)) c s)).
  { intros item. unfold p. destruct (isNaN _); reflexivity. }
  assert (Hq : forall item,
            q item = negb (negb (isNaN (parseFloat (field item fld))))
                     || le (score D (parseFloat (field item fld)) c s) threshold).
  { intros item. unfold q. destruct (isNaN _); reflexivity. }
  assert (Hpq : forall item,
            p item && q item = false
            /\ p item || q item
               = negb (negb (isNaN (parseFloat (field item fld)))
                       && (isNaN (score D (parseFloat (field item fld)) c s)
                           || isNaN threshold))).
  { intros item. rewrite Hp, Hq.
    destruct (isNaN (parseFloat (field item fld))); cbn [negb andb orb];
      [auto|].
    destruct (isNaN (score D (parseFloat (field item fld)) c s)) eqn:Es.
    { rewrite (lt_unordered D Laws), (le_unordered D Laws) by auto. auto. }
    destruct (isNaN threshold) eqn:Et.
    { rewrite (lt_unordered D Laws), (le_unordered D Laws) by auto. auto. }
    rewrite (le_ordered D Laws) by assumption.
    destruct (lt threshold _); auto. }
  assert (Hperm : Permutation (List.filter p rows ++ List.filter q rows)
                    (List.filter
                       (fun item =>
                          negb (negb (isNaN (parseFloat (field item fld)))
                                && (isNaN (score D (parseFloat (field item fld)) c s)
                                    || isNaN threshold))) rows)).
  { rewrite (filter_either p q rows) by (intros item _; apply Hpq).
    rewrite (List.filter_ext _ _ (fun item => proj2 (Hpq item))). reflexivity. }
  exists (List.filter q rows). split_and!.
  - reflexivity.
  - apply filter_sublist.
  - apply filter_sublist.
  - apply List.Forall_forall. intros item H. apply filter_In in H as [_ H].
    rewrite Hp in H. apply andb_true_iff in H as [H _]. exact H.
  - intros item Hin Hnum. apply filter_In. split; [exact Hin|].
    rewrite Hq, Hnum. reflexivity.
  - discriminate.
  - intros _. split_and!.
    + reflexivity.
    + apply List.filter_ext. exact Hp.
    + apply List.filter_ext. exact Hq.
    + exact Hperm.
  - intros Hall. rewrite Hperm. rewrite filter_all; [reflexivity|].
    intros item Hin.
    destruct (negb (isNaN (parseFloat (field item fld)))) eqn:Hnum;
      [|reflexivity].
    rewrite (Hall item Hin Hnum). reflexivity.
Qed.

Variable mean : list (number D) -> number D.
Variable standardDeviation : list (number D) -> number D.
Variable median : list (number D) -> number D.
Variable medianAbsoluteDeviation : list (number D) -> number D.

(** X11. Numbers are doubles, of which the comparisons with [NaN] fail.
    Given an array, the z-score method (centre: the mean, spread: the
    standard deviation) and the MAD method (centre: the median, spread:
    the median absolute deviation) return two lists that keep the order
    of the rows.  A row whose field is not a number is never an outlier
    and always in [normalData].  With fewer than two numeric values or a
    spread equal to 0 there are no outliers and [normalData] is the
    input.  Otherwise the outliers are the numeric rows whose score
    [|value - centre| / spread] exceeds the threshold, [normalData] holds
    the other rows whose score is at most the threshold, and a numeric
    row is in neither list exactly when its score or the threshold is
    [NaN] (as when the spread is [NaN]); when that is the case of no
    row, every row is in exactly one of the two lists. *)
Theorem anomaly_methods_partition (rows : list row) (fld : string)
  (threshold : number D) :
  CompareLaws D ->
  splitsByScore mean standardDeviation rows fld threshold
    (detectAnomaliesZScore D parseFloat mean standardDeviation
       (Some rows) fld threshold)
  /\ splitsByScore median medianAbsoluteDeviation rows fld threshold
       (detectAnomaliesMAD D parseFloat median medianAbsoluteDeviation
          (Some rows) fld threshold).
Proof.
  intros Laws. unfold detectAnomaliesZScore, detectAnomaliesMAD.
  split; apply detectByScore_splits, Laws.
Qed.

End Scores.

Lemma rational_compare : CompareLaws Rational.
Proof.
  split.
  - intros [a|] [b|] [H|H]; cbn in *; congruence.
  - intros [a|] [b|] [H|H]; cbn in *; congruence.
  - intros [a|] [b|] Ha Hb; cbn in *; try discriminate.
    unfold JsNumber.Qlt_bool. rewrite negb_involutive. reflexivity.
Qed.

(** [parseFloat] on cells that are numbers; any other cell is [NaN]. *)
Definition parseFloat_number (v : value) : number Rational :=
  match v with
  | VNum q => Some q
  | _ => None
  end.

(** A statistics library for the examples: the exact mean, a spread of 1,
    and a spread that is [NaN]. *)
Definition meanOf (l : list (number Rational)) : number Rational :=
  div (fold_right add (lit 0) l)
      (lit (inject_Z (Z.of_nat (List.length l)))).

Definition unitSpread (l : list (number Rational)) : number Rational :=
  lit 1.

Definition noSpread (l : list (number Rational)) : number Rational := None.

Definition scored : list row :=
  [[("v", VNum 1)]; [("v", VStr "n/a")]; [("v", VNum 9)]; [("v", VNum 2)]].

Lemma anomaly_methods_partition_witness :
  CompareLaws Rational
  /\ splitsByScore Rational parseFloat_number meanOf unitSpread scored "v"
       (lit (7 # 2))
       (detectAnomaliesZScore Rational parseFloat_number meanOf unitSpread
          (Some scored) "v" (lit (7 # 2)))
  /\ outliers
       (detectAnomaliesZScore Rational parseFloat_number meanOf unitSpread
          (Some scored) "v" (lit (7 # 2)))
     = [[("v", VNum 9)]].
Proof.
  split; [exact rational_compare|]. split.
  - apply (anomaly_methods_partition Rational parseFloat_number meanOf
             unitSpread meanOf unitSpread scored "v" (lit (7 # 2))
             rational_compare).
  - vm_compute. reflexivity.
Defined.

(** A spread that is [NaN], as the library computes it from a value that
    is infinite: no score compares, and the numeric rows are in neither
    list. *)
Example detectAnomaliesZScore_unordered :
  let result :=
    detectAnomaliesZScore Rational parseFloat_number meanOf noSpread
      (Some scored) "v" (lit (7 # 2)) in
  outliers result = [] /\ normalData result = Some [[("v", VStr "n/a")]].
Proof. vm_compute. split; reflexivity. Qed.

End AnomalyProps.

(** ** ReportService: truncation *)

Module DataTruncationProps.
Import JsString JsJson DataTruncation.

Lemma take_sublist_le {A} (l : list A) a b :
  (a <= b)%nat -> sublist (take a l) (take b l).
Proof.
  intros H. replace (take a l) with (take a (take b l)).
  - apply sublist_take.
  - rewrite take_take. f_equal. lia.
Qed.

(** The loop returns with the fuel it is given, adds rows in the order of
    the data, none of them the last row, and stops at [rowsToKeep - 1]
    rows. *)
Lemma middleRows_spec (data : list json) (step keep : nat) :
  (1 <= step)%nat ->
  forall fuel i acc,
    (List.length data <= i + fuel)%nat ->
    sublist acc (take (Nat.min i (List.length data - 1)) data) ->
    (List.length acc <= keep - 1)%nat ->
    exists more,
      middleRows fuel data i step keep acc = Some (acc ++ more)%list
      /\ sublist (acc ++ more)%list (take (List.length data - 1) data)
      /\ (List.length (acc ++ more)%list <= keep - 1)%nat.
Proof.
  intros Hstep. induction fuel as [|fuel IH]; intros i acc Hfuel Hsub Hlen.
  - cbn [middleRows].
    replace (i <? List.length data - 1)%nat with false
      by (symmetry; apply Nat.ltb_ge; lia).
    exists []. rewrite app_nil_r. split; [reflexivity|]. split; [|exact Hlen].
    etrans; [exact Hsub|]. apply take_sublist_le. lia.
  - cbn [middleRows].
    destruct (i <? List.length data - 1)%nat eqn:Ei.
    + apply Nat.ltb_lt in Ei.
      destruct (List.length acc <? keep - 1)%nat eqn:Ek.
      * apply Nat.ltb_lt in Ek. cbn [andb].
        destruct (lookup_lt_is_Some_2 data i ltac:(lia)) as [row Hrow].
        rewrite Hrow.
        destruct (IH (i + step)%nat (acc ++ [row])%list) as (more & E & S1 & L1).
        { lia. }
        { etrans; [|apply (take_sublist_le data (S i)); lia].
          rewrite (take_S_r data i row Hrow).
          apply sublist_app; [|reflexivity].
          replace (Nat.min i (List.length data - 1)) with i in Hsub by lia.
          exact Hsub. }
        { rewrite length_app. simpl. lia. }
        exists ([row] ++ more)%list. rewrite app_assoc.
        split; [exact E|]. split; [exact S1|exact L1].
      * cbn [andb]. exists []. rewrite app_nil_r. split; [reflexivity|].
        split; [|exact Hlen].
        etrans; [exact Hsub|]. apply take_sublist_le. lia.
    + cbn [andb]. apply Nat.ltb_ge in Ei.
      exists []. rewrite app_nil_r. split; [reflexivity|]. split; [|exact Hlen].
      etrans; [exact Hsub|]. apply take_sublist_le. lia.
Qed.

Lemma take_all_but_last {A} (l : list A) x :
  l !! (List.length l - 1)%nat = Some x ->
  l = (take (List.length l - 1) l ++ [x])%list.
Proof.
  intros H. rewrite <- (take_S_r l _ x H).
  assert (List.length l <> 0%nat).
  { intros E. destruct l; [rewrite lookup_nil in H; discriminate|discriminate E]. }
  replace (S (List.length l - 1)) with (List.length l) by lia.
  symmetry. apply firstn_all.
Qed.

(** X12. [truncateData] always returns, and what it returns is a
    selection of the rows in their original order that starts with the
    first row.  The rows come back unchanged when all are forced in or
    when the estimate of the whole array fits the budget.  When rows are
    dropped, at most [max(1, floor(maxTokens / tokens of the first row))]
    rows are kept, fewer than there were, and from two kept rows on the
    last row is among them. *)
Theorem truncateData_selection (first : json) (rest : list json)
  (maxTokens : Z) (forceIncludeAll : bool) :
  let rows := first :: rest in
  exists out,
    truncateData (Some rows) maxTokens forceIncludeAll = Some out
    /\ sublist out rows
    /\ head out = Some first
    /\ (forceIncludeAll = true -> out = rows)
    /\ ((Z.of_nat (estimateTokenCount (stringify (JArr rows))) <= maxTokens)%Z ->
        out = rows)
    /\ (out <> rows ->
        exists keep,
          rowsToKeep maxTokens (estimateTokenCount (stringify first)) = Some keep
          /\ (1 <= keep)%Z
          /\ (Z.of_nat (List.length out) <= keep)%Z
          /\ (keep < Z.of_nat (List.length rows))%Z
          /\ ((2 <= keep)%Z -> last out = last rows)).
Proof.
  cbv zeta. unfold truncateData.
  assert (Same : forall P : Prop,
            first :: rest `sublist_of` first :: rest
            /\ head (first :: rest) = Some first
            /\ (forceIncludeAll = true -> first :: rest = first :: rest)
            /\ ((Z.of_nat (estimateTokenCount (stringify (JArr (first :: rest))))
                 <= maxTokens)%Z -> first :: rest = first :: rest)
            /\ (first :: rest <> first :: rest -> P)).
  { intros P. split_and!; try reflexivity; try (intros; reflexivity).
    intros H. contradiction. }
  destruct forceIncludeAll; [eexists; split; [reflexivity|apply Same]|].
  destruct (Z.of_nat _ <=? maxTokens)%Z eqn:Efit;
    [eexists; split; [reflexivity|apply Same]|].
  apply Z.leb_gt in Efit.
  set (single := estimateTokenCount (stringify first)).
  destruct (rowsToKeep maxTokens single) as [keep|] eqn:Ekeep;
    [|eexists; split; [reflexivity|apply Same]].
  assert (Hkeep : (1 <= keep)%Z).
  { unfold rowsToKeep in Ekeep. destruct (single =? 0)%nat.
    - destruct (maxTokens <? 0)%Z; [|discriminate]. injection Ekeep as <-. lia.
    - injection Ekeep as <-. lia. }
  destruct (keep <? Z.of_nat (List.length (first :: rest)))%Z eqn:Emore;
    [|eexists; split; [reflexivity|apply Same]].
  apply Z.ltb_lt in Emore.
  set (rows := first :: rest) in *.
  set (n := List.length rows) in *.
  destruct (lookup_lt_is_Some_2 rows (n - 1)%nat) as [lastRow Hlast].
  { subst n rows. simpl. lia. }
  rewrite Hlast.
  assert (Hrows := take_all_but_last rows lastRow Hlast). fold n in Hrows.
  assert (Hlastrows : last rows = Some lastRow).
  { rewrite Hrows. apply last_snoc. }
  assert (Hhead : forall l, head ([first] ++ l)%list = Some first)
    by reflexivity.
  assert (Hfirst : sublist [first] (take (n - 1) rows)).
  { assert (2 <= n)%nat by lia.
    replace (n - 1)%nat with (S (n - 2)) by lia. subst rows.
    cbn [take]. apply sublist_skip, sublist_nil_l. }
  destruct (2 <? keep)%Z eqn:E2.
  - apply Z.ltb_lt in E2.
    set (step := Z.to_nat (Z.max 1 ((Z.of_nat n - 2) / (keep - 2)))).
    destruct (middleRows_spec rows step (Z.to_nat keep) ltac:(subst step; lia)
                n 1%nat [first]) as (more & E & S1 & L1).
    { lia. }
    { replace (Nat.min 1 (List.length rows - 1)) with 1%nat
        by (fold n; lia).
      subst rows. cbn [take]. reflexivity. }
    { simpl. lia. }
    fold n in S1. rewrite E.
    eexists. split; [reflexivity|]. split_and!.
    + assert (G : sublist (([first] ++ more) ++ [lastRow])%list
                    (take (n - 1) rows ++ [lastRow])%list)
        by (apply sublist_app; [exact S1|reflexivity]).
      rewrite <- Hrows in G. exact G.
    + reflexivity.
    + discriminate.
    + lia.
    + intros _. exists keep. split; [reflexivity|]. split; [lia|].
      split; [rewrite !length_app in *; simpl in *; lia|]. split; [lia|].
      intros _. rewrite Hlastrows. apply last_snoc.
  - apply Z.ltb_ge in E2. destruct (1 <? keep)%Z eqn:E1.
    + apply Z.ltb_lt in E1. eexists. split; [reflexivity|]. split_and!.
      * assert (G : sublist ([first] ++ [lastRow])%list
                      (take (n - 1) rows ++ [lastRow])%list)
          by (apply sublist_app; [exact Hfirst|reflexivity]).
        rewrite <- Hrows in G. exact G.
      * reflexivity.
      * discriminate.
      * lia.
      * intros _. exists keep. split; [reflexivity|]. split; [lia|].
        split; [simpl; lia|]. split; [lia|].
        intros _. rewrite Hlastrows. reflexivity.
    + apply Z.ltb_ge in E1. eexists. split; [reflexivity|]. split_and!.
      * subst rows. apply sublist_skip, sublist_nil_l.
      * reflexivity.
      * discriminate.
      * lia.
      * intros _. exists keep. split; [reflexivity|]. split; [lia|].
        split; [simpl; lia|]. split; [lia|]. lia.
Qed.

Definition numbered (k : nat) : json := JObj [("id", JNum (Z.of_nat k))].

Example truncateData_sample :
  truncateData (Some (map numbered (seq 0 12))) 10 false
  = Some (map numbered [0; 1; 4; 7; 11]%nat)
  /\ truncateData (Some (map numbered (seq 0 12))) 5 false
     = Some (map numbered [0; 11]%nat)
  /\ truncateData (Some (map numbered (seq 0 12))) 0 false
     = Some (map numbered [0]%nat)
  /\ truncateData (Some (map numbered (seq 0 12))) 40 false
     = Some (map numbered (seq 0 12)).
Proof. vm_compute. repeat split. Qed.

End DataTruncationProps.

(** ** ReportService: business metrics *)

Module BusinessMetricsProps.
Import JsString BusinessMetrics.

Definition sameText (a b : string) : Prop := toLowerCase a = toLowerCase b.

(** The metrics added from the prompt analysis: each one is of type
    [unknown] and its text differs, case apart, from every metric before
    it. *)
Inductive Extends (init : list Metric) (others : list string)
  : list Metric -> Prop :=
| extends_init : Extends init others init
| extends_snoc l m :
    Extends init others l ->
    type m = "unknown" -> confidence m = 7 # 10 -> In (rawText m) others ->
    (forall a, In a l -> ~ sameText (rawText a) (rawText m)) ->
    Extends init others (l ++ [m])%list.

Lemma Extends_mono init others o l :
  Extends init others l -> Extends init (o :: others) l.
Proof.
  induction 1 as [|l m H IH Ht Hc Hin Hnew]; [constructor|].
  constructor; try assumption. right. exact Hin.
Qed.

Lemma addUnknown_spec metrics metric :
  (exists m, In m (addUnknown metrics metric) /\ sameText (rawText m) metric)
  /\ (addUnknown metrics metric = metrics
      \/ exists m, addUnknown metrics metric = (metrics ++ [m])%list
                   /\ type m = "unknown" /\ confidence m = 7 # 10
                   /\ rawText m = metric
                   /\ forall a, In a metrics -> ~ sameText (rawText a) (rawText m)).
Proof.
  unfold addUnknown. destruct (existsb _ metrics) eqn:E.
  - split; [|left; reflexivity].
    apply existsb_exists in E as (m & Hm & Em). apply String.eqb_eq in Em.
    exists m. split; assumption.
  - split.
    + eexists. split; [apply in_or_app; right; left; reflexivity|reflexivity].
    + right. eexists. split; [reflexivity|]. split_and!; try reflexivity.
      intros a Ha Hs. cbn [rawText] in Hs.
      assert (existsb (fun m => String.eqb (toLowerCase (rawText m))
                                  (toLowerCase metric)) metrics = true) as C.
      { apply existsb_exists. exists a. split; [exact Ha|].
        apply String.eqb_eq, Hs. }
      congruence.
Qed.

Lemma fold_addUnknown_spec init all : forall others metrics,
  (forall o, In o others -> In o all) ->
  Extends init all metrics ->
  Extends init all (fold_left addUnknown others metrics)
  /\ (forall m, In m metrics -> In m (fold_left addUnknown others metrics))
  /\ (forall o, In o others ->
        exists m, In m (fold_left addUnknown others metrics)
                  /\ sameText (rawText m) o)
  /\ (List.length (fold_left addUnknown others metrics)
      <= List.length metrics + List.length others)%nat.
Proof.
  induction others as [|o others IH]; intros metrics Hall Hext.
  - cbn [fold_left]. split_and!; [exact Hext|auto|intros o []|lia].
  - cbn [fold_left].
    destruct (addUnknown_spec metrics o) as [(m0 & Hm0 & Em0) Hadd].
    assert (Hkeep : forall m, In m metrics -> In m (addUnknown metrics o)).
    { intros m Hm. destruct Hadd as [->|(x & -> & _)]; [exact Hm|].
      apply in_or_app. left. exact Hm. }
    assert (Hlen : (List.length (addUnknown metrics o)
                    <= S (List.length metrics))%nat).
    { destruct Hadd as [->|(x & -> & _)]; [lia|]. rewrite length_app. simpl. lia. }
    assert (Hext' : Extends init all (addUnknown metrics o)).
    { destruct Hadd as [->|(x & -> & Ht & Hc & Hr & Hnew)]; [exact Hext|].
      constructor; try assumption. rewrite Hr. apply Hall. left. reflexivity. }
    destruct (IH (addUnknown metrics o)
                (fun x Hx => Hall x (or_intror Hx)) Hext')
      as (E & K & F & L).
    split_and!.
    + exact E.
    + intros m Hm. apply K, Hkeep, Hm.
    + intros x [<-|Hx]; [|apply F, Hx].
      exists m0. split; [apply K, Hm0|exact Em0].
    + simpl. lia.
Qed.

Lemma omap_length_le {A B} (f : A -> option B) (l : list A) :
  (List.length (omap f l) <= List.length l)%nat.
Proof.
  induction l as [|x l IH]; [reflexivity|]. cbn [omap list_omap].
  destruct (f x); simpl; lia.
Qed.

Lemma find_split {A} (p : A -> bool) l x :
  List.find p l = Some x ->
  exists before after,
    l = (before ++ x :: after)%list /\ p x = true
    /\ Forall (fun y => p y = false) before.
Proof.
  induction l as [|y l IH]; simpl; [discriminate|].
  destruct (p y) eqn:E.
  - intros [= <-]. exists [], l. split; [reflexivity|]. split; [exact E|constructor].
  - intros H. destruct (IH H) as (b & a & -> & Hx & Hb).
    exists (y :: b), a. split; [reflexivity|]. split; [exact Hx|].
    constructor; assumption.
Qed.

(** A concept contains one of the patterns, case apart. *)
Definition containsOneOf (concept : string) (patterns : list string) : bool :=
  existsb (fun pattern => includes (toLowerCase concept) pattern) patterns.

(** The type of a metric is the first one, in the order of the table, with
    a pattern that the text contains. *)
Definition firstMatchingType (m : Metric) : Prop :=
  exists before patterns after,
    metricPatterns = (before ++ (type m, patterns) :: after)%list
    /\ containsOneOf (rawText m) patterns = true
    /\ Forall (fun entry => containsOneOf (rawText m) (snd entry) = false)
         before.

Lemma conceptMetric_spec concept :
  match conceptMetric concept with
  | Some m =>
      rawText m = concept /\ confidence m = 9 # 10 /\ firstMatchingType m
      /\ existsb (fun entry => containsOneOf concept (snd entry)) metricPatterns
         = true
  | None =>
      existsb (fun entry => containsOneOf concept (snd entry)) metricPatterns
      = false
  end.
Proof.
  unfold conceptMetric.
  destruct (List.find _ metricPatterns) as [[t ps]|] eqn:E.
  - destruct (find_split _ _ _ E) as (before & after & Hl & Hp & Hb).
    split; [reflexivity|]. split; [reflexivity|]. split.
    + exists before, ps, after. cbn [type rawText]. auto.
    + apply existsb_exists. exists (t, ps). split; [|exact Hp].
      rewrite Hl. apply in_or_app. right. left. reflexivity.
  - destruct (existsb _ metricPatterns) eqn:X; [|reflexivity].
    apply existsb_exists in X as (entry & Hin & Hc).
    assert (F := find_none _ _ E entry Hin). cbv beta in F.
    unfold containsOneOf in Hc. congruence.
Qed.

Lemma typed_concepts concepts :
  map rawText (omap conceptMetric concepts)
  = List.filter
      (fun concept =>
         existsb (fun entry => containsOneOf concept (snd entry)) metricPatterns)
      concepts
  /\ Forall (fun m => confidence m = 9 # 10 /\ firstMatchingType m)
       (omap conceptMetric concepts).
Proof.
  induction concepts as [|c concepts [IH1 IH2]]; [split; [reflexivity|constructor]|].
  cbn [omap list_omap List.filter].
  pose proof (conceptMetric_spec c) as H.
  destruct (conceptMetric c) as [m|].
  - destruct H as (Hr & Hc & Hf & ->). cbn [map]. rewrite Hr, IH1.
    split; [reflexivity|]. constructor; [split; assumption|exact IH2].
  - rewrite H. split; [exact IH1|exact IH2].
Qed.

Lemma Extends_order init all l :
  Extends init all l ->
  exists added,
    l = (init ++ added)%list
    /\ Forall (fun m => type m = "unknown" /\ confidence m = 7 # 10
                        /\ In (rawText m) all) added
    /\ forall pre m post,
         l = (pre ++ m :: post)%list ->
         (List.length init <= List.length pre)%nat ->
         forall a, In a pre -> ~ sameText (rawText a) (rawText m).
Proof.
  induction 1 as [|l m H IH Ht Hc Hin Hnew].
  - exists []. rewrite app_nil_r. split; [reflexivity|]. split; [constructor|].
    intros pre m post E Hlen. exfalso.
    apply (f_equal (@List.length Metric)) in E.
    rewrite length_app in E. simpl in E. lia.
  - destruct IH as (added & -> & Hadded & Hord).
    exists (added ++ [m])%list. rewrite app_assoc. split; [reflexivity|].
    split.
    { apply Forall_app. split; [exact Hadded|]. repeat constructor; assumption. }
    intros pre x post E Hlen a Ha.
    destruct post as [|y post'] using rev_ind.
    + apply app_inj_tail in E as [E1 E2]. subst pre x. apply Hnew, Ha.
    + clear IHpost'. rewrite app_comm_cons, app_assoc in E.
      apply app_inj_tail in E as [E1 E2].
      eapply Hord; eauto.
Qed.

(** X13. [identifyBusinessMetrics] lists first the concepts that contain
    a known pattern, all of them and in their order, each with the first
    metric type of the table that has such a pattern and with confidence
    0.9; then metrics of the prompt analysis as type [unknown] with
    confidence 0.7.  Every metric of the analysis is represented, case
    apart, and none is added whose text, case apart, is already in the
    list. *)
Theorem identifyBusinessMetrics_metrics (concepts others : list string) :
  let result := identifyBusinessMetrics (Some concepts) (Some others) in
  exists typed added,
    result = (typed ++ added)%list
    /\ map rawText typed
       = List.filter
           (fun concept =>
              existsb (fun entry => containsOneOf concept (snd entry))
                metricPatterns)
           concepts
    /\ Forall (fun m => confidence m = 9 # 10 /\ firstMatchingType m) typed
    /\ Forall (fun m => type m = "unknown" /\ confidence m = 7 # 10
                        /\ In (rawText m) others) added
    /\ (forall o, In o others ->
          exists m, In m result /\ sameText (rawText m) o)
    /\ (forall pre m post,
          result = (pre ++ m :: post)%list ->
          (List.length typed <= List.length pre)%nat ->
          forall a, In a pre -> ~ sameText (rawText a) (rawText m))
    /\ (List.length added <= List.length others)%nat.
Proof.
  cbv zeta. unfold identifyBusinessMetrics.
  set (typed := omap conceptMetric concepts).
  destruct (fold_addUnknown_spec typed others others typed
              (fun o H => H) (extends_init typed others))
    as (E & K & F & L).
  destruct (Extends_order _ _ _ E) as (added & Eq & Hadded & Hord).
  destruct (typed_concepts concepts) as [Htexts Htypes].
  exists typed, added. split_and!.
  - exact Eq.
  - exact Htexts.
  - exact Htypes.
  - exact Hadded.
  - exact F.
  - exact Hord.
  - rewrite Eq, length_app in L. lia.
Qed.

Example identifyBusinessMetrics_sample :
  map (fun m => (type m, rawText m))
    (identifyBusinessMetrics
       (Some ["Net Income per office"; "headcount"; "Best sellers"])
       (Some ["HEADCOUNT"; "churn"; "Churn"; "best sellers"]))
  = [("profit", "Net Income per office"); ("count", "headcount");
     ("maximum", "Best sellers"); ("unknown", "churn")].
Proof. vm_compute. reflexivity. Qed.

End BusinessMetricsProps.

(** ** AnalyticsService: the strength of a correlation *)

Module CorrelationStrengthProps.
Import AnomalyDetection JsNumberProps.

(** The labels, from the weakest to the strongest. *)
Definition strengthRank (label : string) : nat :=
  if String.eqb label "Very strong" then 4
  else if String.eqb label "Strong" then 3
  else if String.eqb label "Moderate" then 2
  else if String.eqb label "Weak" then 1
  else 0.

Lemma Qle_bool_false a b : Qle_bool a b = false -> (b < a)%Q.
Proof.
  intros H. apply Qnot_le_lt. intros C. apply Qle_bool_iff in C. congruence.
Qed.

Ltac strength_cases :=
  repeat match goal with
         | |- context [Qle_bool ?a ?b] =>
             let E := fresh "E" in
             destruct (Qle_bool a b) eqn:E;
             [apply Qle_bool_iff in E|apply Qle_bool_false in E]
         end.

(** X14. The label of [getCorrelationStrength] depends on the magnitude
    of the correlation only, and a correlation of larger magnitude never
    gets a weaker label. *)
Theorem getCorrelationStrength_monotone (a b : Q) :
  (Qabs a <= Qabs b)%Q ->
  (strengthRank (getCorrelationStrength (Some a))
   <= strengthRank (getCorrelationStrength (Some b)))%nat
  /\ getCorrelationStrength (Some (- a)) = getCorrelationStrength (Some a).
Proof.
  intros H. split.
  - unfold getCorrelationStrength. strength_cases;
      try (vm_compute; lia); exfalso; lra.
  - unfold getCorrelationStrength.
    assert (E : forall c, Qle_bool c (Qabs (- a)) = Qle_bool c (Qabs a)).
    { intros c. destruct (Qle_bool c (Qabs a)) eqn:E1.
      - apply Qle_bool_iff. apply Qle_bool_iff in E1. rewrite Qabs_opp. exact E1.
      - destruct (Qle_bool c (Qabs (- a))) eqn:E2; [|reflexivity].
        apply Qle_bool_iff in E2. rewrite Qabs_opp in E2.
        apply Qle_bool_iff in E2. congruence. }
    rewrite !E. reflexivity.
Qed.

Lemma getCorrelationStrength_monotone_witness :
  (strengthRank (getCorrelationStrength (Some (- (1 # 2))))
   <= strengthRank (getCorrelationStrength (Some (4 # 5))))%nat
  /\ getCorrelationStrength (Some (- - (1 # 2)))
     = getCorrelationStrength (Some (- (1 # 2))).
Proof.
  apply (getCorrelationStrength_monotone (- (1 # 2)) (4 # 5)).
  unfold Qle. simpl. lia.
Defined.

End CorrelationStrengthProps.

(** ** DataEnrichmentService: foreign keys and related data *)

Module RelatedDataProps.
Import JsString JsValue Js DataEnrichmentService.

Lemma get_In {V} (o : JsObject.obj V) k v :
  JsObject.get o k = Some v -> In (k, v) o.
Proof.
  induction o as [|[k' v'] o IH]; simpl; [discriminate|].
  destruct (String.eqb_spec k k') as [->|Hne].
  - intros [= ->]. left. reflexivity.
  - intros H. right. apply IH, H.
Qed.

Lemma In_set {V} (o : JsObject.obj V) k v k' v' :
  In (k', v') (JsObject.set o k v) -> (k' = k /\ v' = v) \/ In (k', v') o.
Proof.
  induction o as [|[k0 v0] o IH]; simpl.
  - intros [[= <- <-]|[]]. left. split; reflexivity.
  - destruct (String.eqb k k0).
    + intros [[= <- <-]|H]; [left; split; reflexivity|right; right; exact H].
    + intros [H|H]; [right; left; exact H|].
      destruct (IH H) as [E|E]; [left; exact E|right; right; exact E].
Qed.

(** A column that reads as an id: it ends in [_id] or [Id], or is [id]. *)
Definition idLike (k : string) : bool :=
  endsWith k "_id" || endsWith k "Id" || String.eqb k "id".

Lemma nonblank_string_spec v :
  nonblank_string v = true <-> exists s, v = VStr s /\ trim s <> "".
Proof.
  destruct v as [| |b|q| |s]; simpl; split;
    try discriminate; try (intros (s' & E & _); discriminate E).
  - intros H. exists s. split; [reflexivity|].
    intros E. rewrite E in H. discriminate.
  - intros (s' & [= <-] & H). destruct (String.eqb_spec (trim s) ""); [contradiction|].
    reflexivity.
Qed.

(** X15. When [findDescriptiveField] names a field, the record holds a
    non-blank string under that name and the name does not read as an id.
    It names none exactly when every non-blank string of the record sits
    under an id-like name.  A non-blank [name] wins over every other
    field, and whenever one of the priority fields is non-blank the answer
    is a priority field. *)
Theorem findDescriptiveField_spec (record : row) :
  (forall f, findDescriptiveField record = Some f ->
     idLike f = false
     /\ exists s, In (f, VStr s) record /\ trim s <> "")
  /\ (findDescriptiveField record = None <->
      forall k v, In (k, v) record -> nonblank_string v = true ->
                  idLike k = true)
  /\ (nonblank_string (field record "name") = true ->
      findDescriptiveField record = Some "name")
  /\ (forall p, In p priorityFields ->
        nonblank_string (field record p) = true ->
        exists q, findDescriptiveField record = Some q /\ In q priorityFields).
Proof.
  assert (Hprio : forall p, In p priorityFields -> idLike p = false).
  { intros p Hp. simpl in Hp.
    repeat (destruct Hp as [<-|Hp]; [reflexivity|]). destruct Hp. }
  assert (Hfield : forall p, nonblank_string (field record p) = true ->
            exists s, In (p, VStr s) record /\ trim s <> "").
  { intros p H. unfold field in H.
    destruct (JsObject.get record p) as [v|] eqn:E; [|discriminate].
    apply nonblank_string_spec in H as (s & -> & Hs).
    exists s. split; [apply get_In, E|exact Hs]. }
  unfold findDescriptiveField. split_and!.
  - intros f.
    destruct (List.find _ priorityFields) as [p|] eqn:E1.
    + intros [= <-]. apply find_some in E1 as [Hp Hn].
      split; [apply Hprio, Hp|apply Hfield, Hn].
    + destruct (List.find _ record) as [[k v]|] eqn:E2; [|discriminate].
      intros [= <-]. apply find_some in E2 as [Hin Hc]. cbn [fst snd] in Hc.
      apply andb_prop in Hc as [Hc Hv]. apply andb_prop in Hc as [Hc H3].
      apply andb_prop in Hc as [H1 H2].
      apply nonblank_string_spec in Hv as (s & -> & Hs).
      split; [|exists s; auto]. unfold idLike.
      apply negb_true_iff in H1, H2, H3. rewrite H1, H2, H3. reflexivity.
  - split.
    + destruct (List.find _ priorityFields) as [p|] eqn:E1; [discriminate|].
      destruct (List.find _ record) as [[k v]|] eqn:E2; [discriminate|].
      intros _ k v Hin Hv.
      assert (H := find_none _ _ E2 (k, v) Hin). cbn [fst snd] in H.
      rewrite Hv, andb_true_r in H. unfold idLike.
      destruct (endsWith k "_id"), (endsWith k "Id"), (String.eqb k "id");
        try reflexivity; discriminate H.
    + intros H.
      destruct (List.find _ priorityFields) as [p|] eqn:E1.
      { apply find_some in E1 as [Hp Hn].
        destruct (Hfield p Hn) as (s & Hin & Hs).
        assert (C : idLike p = true).
        { apply (H p (VStr s) Hin). apply nonblank_string_spec. eauto. }
        rewrite (Hprio p Hp) in C. discriminate. }
      destruct (List.find _ record) as [[k v]|] eqn:E2; [|reflexivity].
      apply find_some in E2 as [Hin Hc]. cbn [fst snd] in Hc.
      apply andb_prop in Hc as [Hc Hv]. specialize (H k v Hin Hv).
      unfold idLike in H.
      destruct (endsWith k "_id"), (endsWith k "Id"), (String.eqb k "id");
        discriminate.
  - intros H. cbn [priorityFields List.find]. rewrite H. reflexivity.
  - intros p Hp Hn.
    destruct (List.find _ priorityFields) as [q|] eqn:E1.
    + exists q. split; [reflexivity|]. apply find_some in E1 as [Hq _]. exact Hq.
    + assert (C := find_none _ _ E1 p Hp). cbv beta in C. congruence.
Qed.

(** *** identifyForeignKeys *)

Definition mentions (col : string) (rel : Relationship) : Prop :=
  column_name rel = col \/ foreign_column_name rel = col.

Definition mentionsb (col : string) (rel : Relationship) : bool :=
  String.eqb (column_name rel) col || String.eqb (foreign_column_name rel) col.

Lemma mentionsb_spec col rel : mentionsb col rel = true <-> mentions col rel.
Proof.
  unfold mentionsb, mentions. rewrite orb_true_iff, !String.eqb_eq. tauto.
Qed.

(** The table guessed from the name of a column: the name without a final
    [_id], and then without a final [id], letter case ignored both
    times. *)
Definition guessedTable (column : string) : string :=
  replace_suffix_ci "Id" "" (replace_suffix_ci "_id" "" column).

(** What a foreign key records about its column, given the relationships. *)
Definition describes (relationships : list Relationship) (fk : ForeignKey)
  : Prop :=
  (exists before rel after,
     relationships = (before ++ rel :: after)%list
     /\ mentions (column fk) rel
     /\ Forall (fun r => ~ mentions (column fk) r) before
     /\ table fk = table_name rel
     /\ referencedTable fk = foreign_table_name rel
     /\ referencedColumn fk = foreign_column_name rel)
  \/ (Forall (fun r => ~ mentions (column fk) r) relationships
      /\ (endsWith (column fk) "_id" = true \/ endsWith (column fk) "Id" = true)
      /\ table fk = ""
      /\ referencedTable fk = guessedTable (column fk)
      /\ referencedColumn fk = "id").

Lemma find_first {A} (p : A -> bool) l x :
  List.find p l = Some x ->
  exists before after,
    l = (before ++ x :: after)%list /\ p x = true
    /\ Forall (fun y => p y = false) before.
Proof.
  induction l as [|y l IH]; simpl; [discriminate|].
  destruct (p y) eqn:E.
  - intros [= <-]. exists [], l. split; [reflexivity|]. split; [exact E|constructor].
  - intros H. destruct (IH H) as (b & a & -> & Hx & Hb).
    exists (y :: b), a. split; [reflexivity|]. split; [exact Hx|].
    constructor; assumption.
Qed.

Section ForeignKeys.
Variable sampleRow : row.
Variable relationships : list Relationship.

Definition keyOf (col : string) : option ForeignKey :=
  match List.find (mentionsb col) relationships with
  | Some matchingRel =>
      Some {| table := table_name matchingRel; column := col;
              referencedTable := foreign_table_name matchingRel;
              referencedColumn := foreign_column_name matchingRel |}
  | None =>
      if endsWith col "_id" || endsWith col "Id" then
        Some {| table := ""; column := col;
                referencedTable := baseColumnName col;
                referencedColumn := "id" |}
      else None
  end.

Lemma identifyForeignKeys_unfold :
  identifyForeignKeys sampleRow relationships
  = omap keyOf
      (List.filter
         (fun col => endsWith col "_id" || endsWith col "Id"
                     || String.eqb col "id"
                     || existsb (mentionsb col) relationships)
         (JsObject.keys sampleRow)).
Proof. reflexivity. Qed.

Lemma keyOf_spec col fk :
  keyOf col = Some fk -> column fk = col /\ describes relationships fk.
Proof.
  unfold keyOf.
  destruct (List.find (mentionsb col) relationships) as [rel|] eqn:E.
  - intros [= <-]. split; [reflexivity|]. left.
    destruct (find_first _ _ _ E) as (b & a & Hl & Hm & Hb).
    exists b, rel, a. cbn [column table referencedTable referencedColumn].
    split_and!; try reflexivity; [exact Hl|apply mentionsb_spec, Hm|].
    eapply Forall_impl; [exact Hb|]. cbv beta. intros r Hr C.
    apply mentionsb_spec in C. congruence.
  - destruct (endsWith col "_id" || endsWith col "Id") eqn:Es; [|discriminate].
    intros [= <-]. split; [reflexivity|]. right.
    cbn [column table referencedTable referencedColumn].
    split_and!; try reflexivity.
    + apply List.Forall_forall. intros r Hr C. apply mentionsb_spec in C.
      assert (F := find_none _ _ E r Hr). congruence.
    + apply orb_prop, Es.
Qed.

Lemma omap_filter_columns (p : string -> bool) (cols : list string) :
  sublist (map column (omap keyOf (List.filter p cols))) cols.
Proof.
  induction cols as [|c cols IH]; [constructor|]. cbn [List.filter].
  destruct (p c); [|apply sublist_cons, IH].
  cbn [omap list_omap]. destruct (keyOf c) as [fk|] eqn:E.
  - destruct (keyOf_spec c fk E) as [Hc _]. cbn [map]. rewrite Hc.
    apply sublist_skip, IH.
  - apply sublist_cons, IH.
Qed.

(** X16. The foreign keys that [identifyForeignKeys] reports are columns
    of the sample row, in the order of the row and each at most once per
    occurrence.  A reported key either follows the first relationship that
    mentions its column (as the referencing or as the referenced column),
    or, when no relationship mentions it, is a column ending in [_id] or
    [Id] guessed to reference column [id] of the table whose name is the
    column with a final [_id] removed and then a final [id] removed,
    letter case ignored both times: [customer_id] gives [customer],
    [userId] gives [user], and [paid_id] gives [pa].  Every column that a
    relationship mentions or that ends in [_id] or [Id] is reported. *)
Theorem identifyForeignKeys_columns :
  let fks := identifyForeignKeys sampleRow relationships in
  sublist (map column fks) (JsObject.keys sampleRow)
  /\ Forall (describes relationships) fks
  /\ (forall col,
        In col (JsObject.keys sampleRow) ->
        (exists rel, In rel relationships /\ mentions col rel)
        \/ endsWith col "_id" = true \/ endsWith col "Id" = true ->
        In col (map column fks))
  /\ map guessedTable ["customer_id"; "userId"; "paid_id"; "user_Id"]
     = ["customer"; "user"; "pa"; "user"].
Proof.
  cbv zeta. rewrite identifyForeignKeys_unfold. split_and!.
  - apply omap_filter_columns.
  - apply List.Forall_forall. intros fk Hfk.
    apply list_elem_of_In, list_elem_of_omap in Hfk as (c & _ & E).
    apply (keyOf_spec c fk E).
  - intros col Hin Hcol.
    assert (Hk : exists fk, keyOf col = Some fk).
    { unfold keyOf. destruct (List.find (mentionsb col) relationships) eqn:E;
        [eexists; reflexivity|].
      destruct Hcol as [(rel & Hr & Hm)|Hs].
      - apply mentionsb_spec in Hm. assert (F := find_none _ _ E rel Hr).
        congruence.
      - destruct Hs as [-> | ->]; rewrite ?orb_true_r; eexists; reflexivity. }
    destruct Hk as (fk & Hk). destruct (keyOf_spec col fk Hk) as [Hc _].
    apply in_map_iff. exists fk. split; [exact Hc|].
    apply list_elem_of_In, list_elem_of_omap. exists col.
    split; [|exact Hk]. apply list_elem_of_In, filter_In. split; [exact Hin|].
    destruct Hcol as [(rel & Hr & Hm)|[-> | ->]];
      rewrite ?orb_true_r; try reflexivity.
    apply orb_true_iff. right. apply existsb_exists. exists rel.
    split; [exact Hr|apply mentionsb_spec, Hm].
  - reflexivity.
Qed.

End ForeignKeys.

(** *** performRelatedQueries *)

Section RelatedQueriesFacts.
Variable World : Type.
Variable pool_query : string -> World -> (Error + list row) * World.
Variable numberToString : Q -> string.

Definition fromKeys (fks : list ForeignKey) (related : JsObject.obj (list row))
  : Prop :=
  forall t found, In (t, found) related ->
    found <> [] /\ exists fk, In fk fks /\ referencedTable fk = t.

Lemma fetchRelated_fromKeys rows all : forall fks related processed w,
  (forall fk, In fk fks -> In fk all) ->
  fromKeys all related ->
  fromKeys all
    (fst (fetchRelated World pool_query numberToString rows fks related
            processed w)).
Proof.
  induction fks as [|fk fks IH]; intros related processed w Hall Hrel;
    [exact Hrel|].
  assert (Hall' : forall x, In x fks -> In x all)
    by (intros x Hx; apply Hall; right; exact Hx).
  cbn [fetchRelated].
  destruct (existsb _ processed); [apply IH; assumption|].
  destruct (List.length _ =? 0)%nat; [apply IH; assumption|].
  destruct (pool_query _ w) as [[e|found] w1]; [apply IH; assumption|].
  destruct (0 <? List.length found)%nat eqn:E; [|apply IH; assumption].
  apply IH; [assumption|].
  intros t rs Hin. apply In_set in Hin as [[-> ->]|Hin]; [|apply Hrel, Hin].
  split.
  - intros ->. discriminate E.
  - exists fk. split; [apply Hall; left; reflexivity|reflexivity].
Qed.

Lemma fetchRelated_all_fail rows : forall fks related processed w,
  (forall q w', exists e w'', pool_query q w' = (inl e, w'')) ->
  fst (fetchRelated World pool_query numberToString rows fks related
         processed w) = related.
Proof.
  induction fks as [|fk fks IH]; intros related processed w Hfail;
    [reflexivity|].
  cbn [fetchRelated].
  destruct (existsb _ processed); [apply IH, Hfail|].
  destruct (List.length _ =? 0)%nat; [apply IH, Hfail|].
  destruct (Hfail (relatedQuery numberToString fk
                     (uniq (List.filter (fun v => negb (nullish v))
                              (map (fun r => field r (column fk)) rows)))) w)
    as (e & w1 & ->).
  apply IH, Hfail.
Qed.

(** X17. [performRelatedQueries] hands the primary rows back as they
    are.  Every table it reports under [relatedData] has at least one row
    and is the table referenced by a foreign key identified in the first
    row.  Without rows it asks the database nothing, and when every query
    fails it reports no related data instead of failing. *)
Theorem performRelatedQueries_related (rows : list row)
  (relationships : list Relationship) (w : World) :
  let result :=
    fst (performRelatedQueries World pool_query numberToString rows
           relationships w) in
  primaryData result = rows
  /\ (forall t found,
        In (t, found) (relatedData result) ->
        found <> []
        /\ exists sampleRow more fk,
             rows = sampleRow :: more
             /\ In fk (identifyForeignKeys sampleRow relationships)
             /\ referencedTable fk = t)
  /\ (rows = [] ->
      performRelatedQueries World pool_query numberToString rows
        relationships w
      = ({| primaryData := []; relatedData := [] |}, w))
  /\ ((forall q w', exists e w'', pool_query q w' = (inl e, w'')) ->
      relatedData result = []).
Proof.
  cbv zeta. unfold performRelatedQueries.
  destruct rows as [|sampleRow more].
  { cbn [fst primaryData relatedData]. split_and!; try reflexivity.
    intros t found []. }
  destruct (fetchRelated _ _ _ _ _ _ _ _) as [related w1] eqn:E.
  cbn [fst primaryData relatedData]. split_and!.
  - reflexivity.
  - intros t found Hin.
    assert (H := fetchRelated_fromKeys (sampleRow :: more)
                   (identifyForeignKeys sampleRow relationships)
                   (identifyForeignKeys sampleRow relationships) [] [] w
                   (fun fk H => H)).
    rewrite E in H. cbn [fst] in H.
    destruct (H (fun t f (Hf : In (t, f) []) => match Hf with end) t found Hin)
      as (Hne & fk & Hfk & Ht).
    split; [exact Hne|]. exists sampleRow, more, fk. auto.
  - discriminate.
  - intros Hfail.
    assert (H := fetchRelated_all_fail (sampleRow :: more)
                   (identifyForeignKeys sampleRow relationships) [] [] w Hfail).
    rewrite E in H. exact H.
Qed.

End RelatedQueriesFacts.

Example identifyForeignKeys_sample :
  map (fun fk => (column fk, referencedTable fk, referencedColumn fk))
    (identifyForeignKeys
       [("id", VNum 1); ("customer_id", VNum 7); ("ownerId", VNum 2);
        ("note", VStr "x")]
       [{| table_name := "orders"; column_name := "customer_id";
           foreign_table_name := "customers"; foreign_column_name := "id" |}])
  = [("id", "customers", "id"); ("customer_id", "customers", "id");
     ("ownerId", "owner", "id")].
Proof. vm_compute. reflexivity. Qed.

End RelatedDataProps.

(** ** DataEnrichmentService: column metadata *)

Module ColumnMetaProps.
Import JsString JsValue DataEnrichmentService.

Section Facts.
Variable parseFloat : value -> option Q.
Variable dateValue : value -> option Q.
Variable toUpperCase : string -> string.

Ltac meta_cases :=
  repeat match goal with
         | |- _ /\ _ => split
         | |- _ <-> _ => split
         | |- _ -> _ => intro
         | H : _ \/ _ |- _ => destruct H
         | H : In _ _ |- _ => simpl in H
         | H : False |- _ => destruct H
         | H : _ = _ |- _ => discriminate H
         end;
  try reflexivity; simpl; auto 10.

Lemma mostCommonType_cases c :
  In (mostCommonType c) ["number"; "string"; "boolean"; "date"].
Proof.
  unfold mostCommonType. cbn [fold_left fst snd].
  repeat match goal with
         | |- context [if ?b then _ else _] => destruct b
         end; cbn [fst]; simpl; tauto.
Qed.

(** X18. Take a column whose name is not one that every object inherits
    (such as [constructor]: under such a name the lookups of the type and
    of the format find the inherited value).  The metadata that
    [ensureDataConsistency] computes for the column gives it one of the
    types number, string, boolean, date, and a format that goes with the
    type: currency, percent, integer or decimal for a number, date for a
    date, text for the rest.  A column named [..._name] or [...Name] is
    always a string in text format. *)
Theorem columnMeta_type_format (rows : list row) (column : string) :
  let meta := columnMeta parseFloat dateValue toUpperCase rows column in
  JsObject.inherited column = false ->
  In (type meta) ["number"; "string"; "boolean"; "date"]
  /\ (type meta = "number" <->
      In (format meta) ["currency"; "percent"; "integer"; "decimal"])
  /\ (type meta = "date" <-> format meta = "date")
  /\ (type meta = "string" \/ type meta = "boolean" <-> format meta = "text")
  /\ (isName meta = true -> type meta = "string" /\ format meta = "text").
Proof.
  cbv zeta. intros _. unfold columnMeta. cbn [type format isName].
  destruct (endsWith column "_name" || endsWith column "Name") eqn:En;
    [meta_cases|].
  set (t := mostCommonType _).
  assert (Ht := mostCommonType_cases
                  (fold_left (fun c r => countValue parseFloat dateValue
                                           (mightBeDate column) c (field r column))
                     rows {| numbers := 0; strings := 0; booleans := 0;
                             dates := 0; nulls := 0 |})).
  fold t in Ht. unfold columnFormat.
  simpl in Ht. destruct Ht as [<-|[<-|[<-|[<-|[]]]]];
    cbn [String.eqb Ascii.eqb Bool.eqb];
    repeat match goal with
           | |- context [if ?b then _ else _] => destruct b
           end;
    meta_cases.
Qed.

End Facts.

(** No cell is a date. *)
Definition noDate (v : value) : option Q := None.

Lemma columnMeta_type_format_witness :
  JsObject.inherited "unit_price" = false
  /\ (let meta :=
        columnMeta AnalyticsServiceProps.parseFloat_cells noDate
          (fun s => s) [[("unit_price", VNum 5)]] "unit_price" in
      In (type meta) ["number"; "string"; "boolean"; "date"]
      /\ (type meta = "number" <->
          In (format meta) ["currency"; "percent"; "integer"; "decimal"])
      /\ (type meta = "date" <-> format meta = "date")
      /\ (type meta = "string" \/ type meta = "boolean" <->
          format meta = "text")
      /\ (isName meta = true -> type meta = "string" /\ format meta = "text")).
Proof.
  assert (H : JsObject.inherited "unit_price" = false) by reflexivity.
  split; [exact H|].
  apply (columnMeta_type_format AnalyticsServiceProps.parseFloat_cells noDate
           (fun s => s) [[("unit_price", VNum 5)]] "unit_price" H).
Defined.

End ColumnMetaProps.

(** ** DataEnrichmentService: the table structure *)

Module TableStructureProps.
Import JsString JsValue DataEnrichmentService TableStructure.
Import JsNumberProps JsArrayProps.

(** The place of a column among the display columns: names first, ids
    last within each group. *)
Definition role (metadata : JsObject.obj ColumnMeta) (c : string) : nat :=
  match JsObject.get metadata c with
  | Some info =>
      ((if isName info then 0 else 2) + (if isId info then 1 else 0))%nat
  | None => 0%nat
  end.

Lemma In_get {V} (o : JsObject.obj V) k v :
  List.NoDup (JsObject.keys o) -> In (k, v) o -> JsObject.get o k = Some v.
Proof.
  induction o as [|[k' v'] o IH]; intros Hnd Hin; [destruct Hin|].
  simpl in Hnd. inversion Hnd as [|? ? Hk Hnd']; subst.
  simpl. destruct Hin as [[= -> ->]|Hin].
  - rewrite String.eqb_refl. reflexivity.
  - destruct (String.eqb_spec k k') as [->|Hne]; [|apply IH; assumption].
    exfalso. apply Hk. apply in_map_iff. exists (k', v). auto.
Qed.

Lemma columnsWhere_NoDup {V} (test : V -> bool) (o : JsObject.obj V) :
  List.NoDup (JsObject.keys o) ->
  List.NoDup (map fst (List.filter (fun entry : string * V => test (snd entry)) o)).
Proof.
  induction o as [|[k v] m IH]; intros Hnd; [constructor|].
  simpl in Hnd. inversion Hnd as [|? ? Hk Hnd']; subst.
  cbn [List.filter snd]. destruct (test v); [|apply IH, Hnd'].
  cbn [map fst]. constructor; [|apply IH, Hnd'].
  intros Hin. apply Hk. apply in_map_iff in Hin as ([k' v'] & E & Hf).
  apply filter_In in Hf as [Hf _]. cbn [fst] in E. subst k'.
  apply in_map_iff. exists (k, v'). auto.
Qed.

Section Facts.
Variable localeCompare : string -> string -> Z.
Variable metadata : JsObject.obj ColumnMeta.

Definition described (c : string) : Prop := JsObject.get metadata c <> None.

Lemma byRole_before x y :
  described x -> described y ->
  JsArray.comes_before (byRole localeCompare metadata) x y = true ->
  (role metadata x <= role metadata y)%nat.
Proof.
  unfold described, JsArray.comes_before, byRole, role.
  destruct (JsObject.get metadata x) as [a|]; [|congruence].
  destruct (JsObject.get metadata y) as [b|]; [|congruence].
  intros _ _.
  destruct (isName a), (isName b), (isId a), (isId b); cbn [andb negb];
    intros H; try (simpl; lia); vm_compute in H; discriminate H.
Qed.

Lemma byRole_after x y :
  described x -> described y ->
  JsArray.comes_before (byRole localeCompare metadata) x y = false ->
  (role metadata y <= role metadata x)%nat.
Proof.
  unfold described, JsArray.comes_before, byRole, role.
  destruct (JsObject.get metadata x) as [a|]; [|congruence].
  destruct (JsObject.get metadata y) as [b|]; [|congruence].
  intros _ _.
  destruct (isName a), (isName b), (isId a), (isId b); cbn [andb negb];
    intros H; try (simpl; lia); vm_compute in H; discriminate H.
Qed.

Lemma columnsWhere_In (test : ColumnMeta -> bool) c :
  In c (map fst (List.filter (fun entry : string * ColumnMeta => test (snd entry))
                   metadata))
  <-> exists info, In (c, info) metadata /\ test info = true.
Proof.
  rewrite in_map_iff. split.
  - intros ([k info] & <- & H). apply filter_In in H as [H1 H2].
    exists info. auto.
  - intros (info & H1 & H2). exists (c, info). split; [reflexivity|].
    apply filter_In. auto.
Qed.

(** X19. For data with at least one row, [generateConsistentTableStructure]
    returns the rows as they are and a structure whose display columns are
    at most 10 columns of the metadata, none twice, ordered with the name
    columns first and, within the names and within the rest, the id
    columns last, whatever order the locale gives to column names.  With
    more than 3 columns no id column is displayed.  All columns are
    sortable, the number columns are the summary columns, and the primary
    key is the column [id] when there is one. *)
Theorem generateConsistentTableStructure_display (first : row)
  (rest : list row) :
  List.NoDup (JsObject.keys metadata) ->
  exists structure,
    generateConsistentTableStructure localeCompare (Some (first :: rest))
      metadata = (first :: rest, Some structure)
    /\ (List.length (displayColumns structure) <= 10)%nat
    /\ List.NoDup (displayColumns structure)
    /\ (forall c, In c (displayColumns structure) ->
          exists info,
            JsObject.get metadata c = Some info
            /\ (isId info = false \/ (List.length metadata <= 3)%nat))
    /\ (forall i j a b,
          (i < j)%nat ->
          displayColumns structure !! i = Some a ->
          displayColumns structure !! j = Some b ->
          (role metadata a <= role metadata b)%nat)
    /\ sortableColumns structure = JsObject.keys metadata
    /\ (forall c, In c (summaryColumns structure) <->
          exists info, JsObject.get metadata c = Some info
                       /\ type info = "number")
    /\ (primaryKey structure = Some "id" <-> In "id" (JsObject.keys metadata)).
Proof.
  intros Hnd. unfold generateConsistentTableStructure.
  eexists. split; [reflexivity|].
  cbn [displayColumns sortableColumns summaryColumns primaryKey].
  set (shown := map fst (List.filter _ metadata)).
  set (sorted := JsArray.sort (byRole localeCompare metadata) shown).
  assert (Hperm : Permutation sorted shown) by apply sort_perm.
  assert (Hshown : forall c, In c shown ->
            exists info, JsObject.get metadata c = Some info
                         /\ (isId info = false
                             \/ (List.length metadata <= 3)%nat)).
  { intros c Hc.
    apply (columnsWhere_In
             (fun info => negb (isId info)
                          || (List.length (JsObject.keys metadata) <=? 3)%nat))
      in Hc as (info & Hin & Ht).
    exists info. split; [apply In_get; assumption|].
    apply orb_prop in Ht as [Ht|Ht].
    - left. apply negb_true_iff, Ht.
    - right. apply Nat.leb_le in Ht. unfold JsObject.keys in Ht.
      rewrite length_map in Ht. exact Ht. }
  assert (Hdesc : Forall described shown).
  { apply List.Forall_forall. intros c Hc. destruct (Hshown c Hc) as (i & E & _).
    unfold described. congruence. }
  assert (Hsorted : StronglySorted (fun a b => (role metadata a <= role metadata b)%nat)
                      sorted).
  { apply (sort_sorted (byRole localeCompare metadata) described
             (fun a b => (role metadata a <= role metadata b)%nat)).
    - intros x y z _ _ _. lia.
    - exact byRole_before.
    - exact byRole_after.
    - exact Hdesc. }
  assert (Hnd_shown : List.NoDup shown).
  { apply (columnsWhere_NoDup
             (fun info => negb (isId info)
                          || (List.length (JsObject.keys metadata) <=? 3)%nat)),
      Hnd. }
  assert (Hnd_sorted : List.NoDup sorted).
  { eapply Permutation_NoDup; [symmetry; exact Hperm|exact Hnd_shown]. }
  set (display := if (10 <? List.length sorted)%nat
                  then JsArray.slice 0 10 sorted else sorted).
  assert (Hdisplay : display = take 10 sorted).
  { subst display. destruct (10 <? List.length sorted)%nat eqn:E.
    - reflexivity.
    - apply Nat.ltb_ge in E. symmetry. apply firstn_all2. exact E. }
  rewrite Hdisplay. split_and!.
  - rewrite length_take. lia.
  - apply NoDup_ListNoDup.
    eapply sublist_NoDup; [apply NoDup_ListNoDup, Hnd_sorted|apply sublist_take].
  - intros c Hc. apply Hshown. eapply Permutation_in; [exact Hperm|].
    apply list_elem_of_In. eapply subseteq_take. apply list_elem_of_In, Hc.
  - intros i j a b Hij Ha Hb.
    apply (StronglySorted_lookup
             (fun a b => (role metadata a <= role metadata b)%nat)
             (take 10 sorted)
             (StronglySorted_firstn _ 10 sorted Hsorted) i j a b Hij Ha Hb).
  - reflexivity.
  - intros c.
    rewrite (columnsWhere_In (fun info => String.eqb (type info) "number")).
    split.
    + intros (info & Hin & Ht). exists info.
      split; [apply In_get; assumption|apply String.eqb_eq, Ht].
    + intros (info & Hg & Ht). exists info.
      split; [apply RelatedDataProps.get_In, Hg|apply String.eqb_eq, Ht].
  - split.
    + intros H. apply find_some in H as [H _]. exact H.
    + intros H. destruct (List.find _ (JsObject.keys metadata)) as [c|] eqn:E.
      * apply find_some in E as [_ E]. apply String.eqb_eq in E. subst. reflexivity.
      * assert (C := find_none _ _ E "id" H). discriminate C.
Qed.

End Facts.

Definition byCode (a b : string) : Z :=
  match String.compare a b with
  | Lt => (-1)%Z
  | Eq => 0%Z
  | Gt => 1%Z
  end.

Definition plainColumn (t : string) (id name : bool) : ColumnMeta :=
  {| type := t; format := "text"; isId := id; isName := name;
     displayName := "" |}.

Definition sampleMetadata : JsObject.obj ColumnMeta :=
  [("id", plainColumn "number" true false);
   ("total", plainColumn "number" false false);
   ("customer_name", plainColumn "string" false true);
   ("city", plainColumn "string" false false)].

Lemma generateConsistentTableStructure_display_witness :
  exists structure,
    generateConsistentTableStructure byCode (Some [[("id", VNum 1)]])
      sampleMetadata = ([[("id", VNum 1)]], Some structure)
    /\ displayColumns structure = ["customer_name"; "city"; "total"]
    /\ (List.length (displayColumns structure) <= 10)%nat.
Proof.
  destruct (generateConsistentTableStructure_display byCode sampleMetadata
              [("id", VNum 1)] [])
    as (structure & E & L & _).
  { repeat constructor; simpl; intuition discriminate. }
  exists structure. split; [exact E|]. split; [|exact L].
  vm_compute in E. injection E as <-. reflexivity.
Defined.

End TableStructureProps.

(** ** DataEnrichmentService: the relationship graph *)

Module RelationshipGraphProps.
Import JsString DataEnrichmentService RelationshipGraph.

(** The edge of a relationship, and the edge back. *)
Definition directEdge (rel : Relationship) : Edge :=
  {| sourceTable := table_name rel; sourceColumn := column_name rel;
     targetTable := foreign_table_name rel;
     targetColumn := foreign_column_name rel |}.

Definition inverseEdge (rel : Relationship) : Edge :=
  {| sourceTable := foreign_table_name rel;
     sourceColumn := foreign_column_name rel;
     targetTable := table_name rel; targetColumn := column_name rel |}.

(** The edges that a map holds under a table: its own array, if any. *)
Definition listed (m : gmap string (list Edge)) (t : string) : list Edge :=
  match m !! t with
  | Some edges => edges
  | None => []
  end.

(** A name under which the map holds nothing of its own and finds what
    every object inherits. *)
Definition inheritedOnly (m : gmap string (list Edge)) (t : string) : bool :=
  match slot m t with
  | InheritedValue => true
  | _ => false
  end.

Lemma inheritedOnly_empty t : inheritedOnly ∅ t = JsObject.inherited t.
Proof.
  unfold inheritedOnly, slot. rewrite lookup_empty.
  destruct (JsObject.inherited t); reflexivity.
Qed.

Lemma inheritedOnly_insert m k v t :
  inheritedOnly (<[k := v]> m) t = inheritedOnly m t && negb (String.eqb k t).
Proof.
  unfold inheritedOnly, slot. destruct (String.eqb_spec k t) as [->|Hne].
  - rewrite lookup_insert_eq, andb_false_r. reflexivity.
  - rewrite lookup_insert_ne by exact Hne. rewrite andb_true_r. reflexivity.
Qed.

Lemma listed_insert m k v t :
  listed (<[k := v]> m) t = if String.eqb k t then v else listed m t.
Proof.
  unfold listed. destruct (String.eqb_spec k t) as [->|Hne].
  - rewrite lookup_insert_eq. reflexivity.
  - rewrite lookup_insert_ne by exact Hne. reflexivity.
Qed.

Lemma pushEdge_cases m k e :
  (inheritedOnly m k = true /\ pushEdge m k e = None)
  \/ (inheritedOnly m k = false
      /\ pushEdge m k e = Some (<[k := (listed m k ++ [e])%list]> m)).
Proof.
  unfold inheritedOnly, pushEdge, listed, slot.
  destruct (m !! k) as [edges|]; [right; auto|].
  destruct (JsObject.inherited k); [left|right]; auto.
Qed.

Lemma edgesFrom_listed m t :
  edgesFrom m t = if inheritedOnly m t then None else Some (listed m t).
Proof.
  unfold edgesFrom, inheritedOnly, listed, slot.
  destruct (m !! t) as [edges|]; [reflexivity|].
  destruct (JsObject.inherited t); reflexivity.
Qed.

(** The names of the tables of the schema. *)
Definition schemaKeys (schemaTables : option SqlGenerationService.Schemas)
  : list string :=
  match schemaTables with
  | Some ts => JsObject.keys ts
  | None => []
  end.

(** A name that every object inherits and that is no table of the
    schema. *)
Definition strayName (schemaTables : option SqlGenerationService.Schemas)
  (t : string) : bool :=
  JsObject.inherited t
  && negb (existsb (String.eqb t) (schemaKeys schemaTables)).

Definition stray (schemaTables : option SqlGenerationService.Schemas)
  (rel : Relationship) : bool :=
  strayName schemaTables (table_name rel)
  || strayName schemaTables (foreign_table_name rel).

Lemma fold_addTableNode_edges ts : forall g t,
  listed (directRelationships g) t = [] ->
  listed (inverseRelationships g) t = [] ->
  listed (directRelationships (fold_left addTableNode ts g)) t = []
  /\ listed (inverseRelationships (fold_left addTableNode ts g)) t = []
  /\ pathCache (fold_left addTableNode ts g) = pathCache g.
Proof.
  induction ts as [|entry ts IH]; intros g t Hd Hi; [auto|].
  cbn [fold_left]. destruct (IH (addTableNode g entry) t) as (D & I & C).
  - unfold addTableNode. cbn [directRelationships].
    rewrite listed_insert, Hd. destruct (String.eqb (fst entry) t); reflexivity.
  - unfold addTableNode. cbn [inverseRelationships].
    rewrite listed_insert, Hi. destruct (String.eqb (fst entry) t); reflexivity.
  - split_and!; [exact D|exact I|]. rewrite C. reflexivity.
Qed.

Lemma fold_addTableNode_names ts : forall g t,
  inheritedOnly (directRelationships (fold_left addTableNode ts g)) t
  = inheritedOnly (directRelationships g) t
    && negb (existsb (String.eqb t) (JsObject.keys ts))
  /\ inheritedOnly (inverseRelationships (fold_left addTableNode ts g)) t
     = inheritedOnly (inverseRelationships g) t
       && negb (existsb (String.eqb t) (JsObject.keys ts)).
Proof.
  induction ts as [|entry ts IH]; intros g t.
  - cbn. rewrite !andb_true_r. auto.
  - cbn [fold_left JsObject.keys map existsb].
    destruct (IH (addTableNode g entry) t) as (-> & ->).
    unfold addTableNode. cbn [directRelationships inverseRelationships].
    rewrite !inheritedOnly_insert, (String.eqb_sym t (fst entry)).
    unfold JsObject.keys.
    destruct (String.eqb (fst entry) t); cbn [negb orb];
      rewrite ?andb_false_r, ?andb_true_r; auto.
Qed.

Lemma withTables_names schemaTables t :
  let withTables := match schemaTables with
                    | Some ts => fold_left addTableNode ts emptyGraph
                    | None => emptyGraph
                    end in
  inheritedOnly (directRelationships withTables) t = strayName schemaTables t
  /\ inheritedOnly (inverseRelationships withTables) t
     = strayName schemaTables t.
Proof.
  cbv zeta. unfold strayName, schemaKeys. destruct schemaTables as [ts|].
  - destruct (fold_addTableNode_names ts emptyGraph t) as (-> & ->).
    cbn [emptyGraph directRelationships inverseRelationships].
    rewrite inheritedOnly_empty. auto.
  - cbn [emptyGraph directRelationships inverseRelationships existsb negb].
    rewrite inheritedOnly_empty, andb_true_r. auto.
Qed.

(** The loop over the relationships, on a graph whose two maps hold the
    same inherited names: it throws at the first relationship that names
    one they do not hold, and otherwise appends every edge. *)
Lemma addRelationships_spec (foreign : string -> bool) rels : forall g,
  (forall t, inheritedOnly (directRelationships g) t = foreign t) ->
  (forall t, inheritedOnly (inverseRelationships g) t = foreign t) ->
  if existsb (fun rel => foreign (table_name rel)
                         || foreign (foreign_table_name rel)) rels
  then addRelationships g rels = None
  else exists g',
      addRelationships g rels = Some g'
      /\ (forall t,
            listed (directRelationships g') t
            = (listed (directRelationships g) t
               ++ map directEdge
                    (List.filter (fun rel => String.eqb (table_name rel) t)
                       rels))%list)
      /\ (forall t,
            listed (inverseRelationships g') t
            = (listed (inverseRelationships g) t
               ++ map inverseEdge
                    (List.filter
                       (fun rel => String.eqb (foreign_table_name rel) t)
                       rels))%list)
      /\ pathCache g' = pathCache g
      /\ (forall t, inheritedOnly (directRelationships g') t = foreign t)
      /\ (forall t, inheritedOnly (inverseRelationships g') t = foreign t).
Proof.
  induction rels as [|rel rels IH]; intros g Hd Hi.
  - cbn [existsb]. exists g. cbn [addRelationships List.filter map].
    split_and!; auto; intros t; rewrite app_nil_r; reflexivity.
  - cbn [existsb addRelationships]. unfold addRelationship.
    fold (directEdge rel). fold (inverseEdge rel).
    destruct (pushEdge_cases (directRelationships g) (table_name rel)
                (directEdge rel)) as [[Hs ->]|[Hs ->]].
    { rewrite Hd in Hs. rewrite Hs. reflexivity. }
    rewrite Hd in Hs. rewrite Hs. cbn [orb].
    destruct (pushEdge_cases (inverseRelationships g) (foreign_table_name rel)
                (inverseEdge rel)) as [[Hs' ->]|[Hs' ->]].
    { rewrite Hi in Hs'. rewrite Hs'. reflexivity. }
    rewrite Hi in Hs'. rewrite Hs'. cbn [orb].
    match goal with
    | |- context [addRelationships ?g1 rels] => specialize (IH g1)
    end.
    cbn [directRelationships inverseRelationships pathCache] in IH.
    assert (Kd : forall t,
              inheritedOnly
                (<[table_name rel :=
                     (listed (directRelationships g) (table_name rel)
                      ++ [directEdge rel])%list]> (directRelationships g)) t
              = foreign t).
    { intros t. rewrite inheritedOnly_insert, Hd.
      destruct (String.eqb_spec (table_name rel) t) as [<-|_];
        [rewrite Hs; reflexivity|apply andb_true_r]. }
    assert (Ki : forall t,
              inheritedOnly
                (<[foreign_table_name rel :=
                     (listed (inverseRelationships g) (foreign_table_name rel)
                      ++ [inverseEdge rel])%list]> (inverseRelationships g)) t
              = foreign t).
    { intros t. rewrite inheritedOnly_insert, Hi.
      destruct (String.eqb_spec (foreign_table_name rel) t) as [<-|_];
        [rewrite Hs'; reflexivity|apply andb_true_r]. }
    specialize (IH Kd Ki).
    destruct (existsb _ rels); [exact IH|].
    destruct IH as (g' & -> & D & I & C & Nd & Ni). exists g'.
    split_and!; [reflexivity| | |exact C|exact Nd|exact Ni].
    + intros t. rewrite D, listed_insert. cbn [List.filter].
      destruct (String.eqb_spec (table_name rel) t) as [<-|_]; cbn [map];
        [rewrite <- app_assoc|]; reflexivity.
    + intros t. rewrite I, listed_insert. cbn [List.filter].
      destruct (String.eqb_spec (foreign_table_name rel) t) as [<-|_];
        cbn [map]; [rewrite <- app_assoc|]; reflexivity.
Qed.

(** X20. Take a schema none of whose tables is named [__proto__].  When
    some relationship names, as its table or as the table it references,
    a property that every object inherits (such as [constructor]) and
    that is no table of the schema, [buildRelationshipGraph] returns the
    empty graph.  Otherwise, in the graph it builds, the direct edges
    held under a table are the relationships of that table, in their
    order, and the inverse edges held under a table are the
    relationships that reference it, turned around; a relationship is
    listed in both directions, and nothing else is; the lookup of a
    table fails exactly under an inherited name that is no table of the
    schema; and the path cache starts empty. *)
Theorem buildRelationshipGraph_edges
  (schemaTables : option SqlGenerationService.Schemas)
  (rels : list Relationship) :
  let g := buildRelationshipGraph schemaTables (Some rels) in
  ~ In "__proto__" (schemaKeys schemaTables) ->
  ((exists rel, In rel rels /\ stray schemaTables rel = true) ->
   g = emptyGraph)
  /\ ((forall rel, In rel rels -> stray schemaTables rel = false) ->
      (forall t,
         edgesFrom (directRelationships g) t
         = if strayName schemaTables t then None
           else Some (map directEdge
                        (List.filter
                           (fun rel => String.eqb (table_name rel) t) rels)))
      /\ (forall t,
            edgesFrom (inverseRelationships g) t
            = if strayName schemaTables t then None
              else Some (map inverseEdge
                           (List.filter
                              (fun rel =>
                                 String.eqb (foreign_table_name rel) t)
                              rels)))
      /\ (forall rel,
            In rel rels <->
            In (directEdge rel)
               (listed (directRelationships g) (table_name rel))
            /\ In (inverseEdge rel)
                 (listed (inverseRelationships g) (foreign_table_name rel)))
      /\ pathCache g = ∅).
Proof.
  cbv zeta. intros _. unfold buildRelationshipGraph.
  set (withTables := match schemaTables with
                     | Some ts => fold_left addTableNode ts emptyGraph
                     | None => emptyGraph
                     end).
  assert (H0 : forall t,
            listed (directRelationships withTables) t = []
            /\ listed (inverseRelationships withTables) t = []
            /\ pathCache withTables = ∅).
  { intros t. subst withTables. destruct schemaTables as [ts|].
    - apply (fold_addTableNode_edges ts emptyGraph t); reflexivity.
    - split_and!; reflexivity. }
  assert (Hspec := addRelationships_spec (strayName schemaTables) rels
                     withTables
                     (fun t => proj1 (withTables_names schemaTables t))
                     (fun t => proj2 (withTables_names schemaTables t))).
  fold (stray schemaTables) in Hspec.
  assert (Hex : existsb (stray schemaTables) rels = true
                <-> exists rel, In rel rels /\ stray schemaTables rel = true)
    by apply existsb_exists.
  split.
  - intros Hstray. apply Hex in Hstray. rewrite Hstray in Hspec.
    rewrite Hspec. reflexivity.
  - intros Hnone. clear Hex.
    destruct (existsb (stray schemaTables) rels) eqn:E.
    { apply existsb_exists in E as (rel & Hin & Hs).
      rewrite (Hnone rel Hin) in Hs.
      discriminate. }
    destruct Hspec as (g' & -> & D & I & C & Nd & Ni).
    assert (D' : forall t,
              listed (directRelationships g') t
              = map directEdge
                  (List.filter (fun rel => String.eqb (table_name rel) t)
                     rels)).
    { intros t. rewrite D. destruct (H0 t) as (-> & _ & _). reflexivity. }
    assert (I' : forall t,
              listed (inverseRelationships g') t
              = map inverseEdge
                  (List.filter
                     (fun rel => String.eqb (foreign_table_name rel) t) rels)).
    { intros t. rewrite I. destruct (H0 t) as (_ & -> & _). reflexivity. }
    split_and!.
    + intros t. rewrite edgesFrom_listed, Nd, D'. reflexivity.
    + intros t. rewrite edgesFrom_listed, Ni, I'. reflexivity.
    + intros rel. rewrite D', I'. split.
      * intros Hin. split; apply in_map, filter_In;
          (split; [exact Hin|apply String.eqb_refl]).
      * intros [H _]. apply in_map_iff in H as (r & Er & Hr).
        apply filter_In in Hr as [Hr _].
        assert (r = rel); [|subst; exact Hr].
        destruct r, rel. unfold directEdge in Er. cbn in Er.
        injection Er as -> -> -> ->. reflexivity.
    + rewrite C. apply (H0 "").
Qed.

Definition ordersRelationships : list Relationship :=
  [{| table_name := "orders"; column_name := "customer_id";
      foreign_table_name := "customers"; foreign_column_name := "id" |};
   {| table_name := "invoices"; column_name := "order_id";
      foreign_table_name := "orders"; foreign_column_name := "id" |}].

Lemma buildRelationshipGraph_edges_witness :
  ~ In "__proto__" (schemaKeys None)
  /\ edgesFrom
       (directRelationships
          (buildRelationshipGraph None (Some ordersRelationships))) "orders"
     = Some [{| sourceTable := "orders"; sourceColumn := "customer_id";
                targetTable := "customers"; targetColumn := "id" |}]
  /\ edgesFrom
       (inverseRelationships
          (buildRelationshipGraph None (Some ordersRelationships))) "orders"
     = Some [{| sourceTable := "orders"; sourceColumn := "id";
                targetTable := "invoices"; targetColumn := "order_id" |}].
Proof.
  assert (H : ~ In "__proto__" (schemaKeys None)) by (intros []).
  split; [exact H|].
  destruct (buildRelationshipGraph_edges None ordersRelationships H)
    as (_ & Hbuilt).
  destruct Hbuilt as (D & I & _).
  - intros rel [<-|[<-|[]]]; reflexivity.
  - rewrite (D "orders"), (I "orders"). split; reflexivity.
Defined.

(** A relationship of a table named [constructor], which the schema does
    not hold: the push throws and the graph comes back empty. *)
Example buildRelationshipGraph_inherited_name :
  buildRelationshipGraph None
    (Some (ordersRelationships
           ++ [{| table_name := "constructor"; column_name := "id";
                  foreign_table_name := "orders";
                  foreign_column_name := "id" |}])%list)
  = emptyGraph.
Proof. vm_compute. reflexivity. Qed.

(** *** Paths *)

(** A step that the graph holds from table [s]. *)
Definition stepFrom (g : Graph) (s : string) (st : Step) : Prop :=
  (kind st = "direct" /\ In (edge st) (listed (directRelationships g) s))
  \/ (kind st = "inverse"
      /\ In (edge st) (listed (inverseRelationships g) s)).

(** A chain of steps from one table to another, each step starting at the
    table the step before ended at. *)
Inductive chain (g : Graph) : string -> list Step -> string -> Prop :=
| chain_here t : chain g t [] t
| chain_step s st rest t :
    stepFrom g s st ->
    chain g (targetTable (edge st)) rest t ->
    chain g s (st :: rest) t.

(** The tables on a chain, the first one included. *)
Definition visits (s : string) (p : list Step) : list string :=
  s :: map (fun st => targetTable (edge st)) p.

(** A table under which both lookups of the search give a list. *)
Definition iterable (g : Graph) (t : string) : bool :=
  negb (inheritedOnly (directRelationships g) t)
  && negb (inheritedOnly (inverseRelationships g) t).

(** The errors of the two loops of the search. *)
Definition loopError (e : Js.Error) : Prop :=
  e = notIterable "directRelationships"
  \/ e = notIterable "inverseRelationships".

(** Every edge of the graph leads to a table whose lookups give a list. *)
Definition edgesIterable (g : Graph) : Prop :=
  forall t e,
    In e (listed (directRelationships g) t)
    \/ In e (listed (inverseRelationships g) t) ->
    iterable g (targetTable e) = true.

Lemma chain_ends g s p t :
  chain g s p t -> p <> [] -> In t (map (fun st => targetTable (edge st)) p).
Proof.
  induction 1 as [|s st rest t Hs Hc IH]; intros Hne; [congruence|].
  cbn [map]. destruct rest as [|st' rest'].
  - inversion Hc; subst. left. reflexivity.
  - right. apply IH. discriminate.
Qed.

(** The search over the lists that the graph holds, where no lookup
    throws. *)
Fixpoint search (g : Graph) (target : string) (budget : nat)
  (currentTable : string) (currentPath : list Step) (visited : gset string)
  : list (list Step) :=
  match budget with
  | O => []
  | S budget' =>
      if String.eqb currentTable target then [currentPath]
      else
        let visited' := {[ currentTable ]} ∪ visited in
        let explore (label : string) (rels : list Edge) :=
          flat_map
            (fun rel =>
               let nextTable := targetTable rel in
               if decide (nextTable ∈ visited') then []
               else search g target budget' nextTable
                      (currentPath ++ [{| kind := label; edge := rel |}])%list
                      visited')
            rels in
        (explore "direct" (listed (directRelationships g) currentTable)
         ++ explore "inverse" (listed (inverseRelationships g) currentTable))%list
  end.

Lemma collect_returns {A B : Type} (body : A -> Js.Error + list B)
  (f : A -> list B) (l : list A) :
  (forall x, In x l -> body x = inr (f x)) ->
  collect body l = inr (flat_map f l).
Proof.
  induction l as [|x rest IH]; intros H; [reflexivity|].
  cbn [collect flat_map]. rewrite (H x (or_introl eq_refl)).
  fold (collect body rest). rewrite IH; [reflexivity|].
  intros y Hy. apply H. right. exact Hy.
Qed.

Section Search.
Variable g : Graph.
Variable target : string.

Lemma dfs_search : edgesIterable g ->
  forall budget cur path (visited : gset string),
    iterable g cur = true ->
    dfs g target budget cur path visited
    = inr (search g target budget cur path visited).
Proof.
  intros Hedges. induction budget as [|budget IH];
    intros cur path visited Hcur; [reflexivity|].
  cbn [dfs search]. destruct (String.eqb cur target); [reflexivity|].
  unfold iterable in Hcur. apply andb_true_iff in Hcur as [Hd Hi].
  apply negb_true_iff in Hd, Hi.
  rewrite !edgesFrom_listed, Hd, Hi.
  rewrite (collect_returns _
             (fun rel =>
                if decide (targetTable rel ∈ {[ cur ]} ∪ visited) then []
                else search g target budget (targetTable rel)
                       (path ++ [{| kind := "direct"; edge := rel |}])%list
                       ({[ cur ]} ∪ visited))).
  2:{ intros rel Hrel.
      destruct (decide (targetTable rel ∈ {[ cur ]} ∪ visited));
        [reflexivity|].
      apply IH. apply (Hedges cur rel). left. exact Hrel. }
  rewrite (collect_returns _
             (fun rel =>
                if decide (targetTable rel ∈ {[ cur ]} ∪ visited) then []
                else search g target budget (targetTable rel)
                       (path ++ [{| kind := "inverse"; edge := rel |}])%list
                       ({[ cur ]} ∪ visited))).
  2:{ intros rel Hrel.
      destruct (decide (targetTable rel ∈ {[ cur ]} ∪ visited));
        [reflexivity|].
      apply IH. apply (Hedges cur rel). right. exact Hrel. }
  reflexivity.
Qed.

Lemma collect_throws {A B : Type} (body : A -> Js.Error + list B)
  (l : list A) e :
  collect body l = inl e -> exists x, In x l /\ body x = inl e.
Proof.
  induction l as [|x rest IH]; intros H; [discriminate|].
  cbn [collect] in H. fold (collect body rest) in H.
  destruct (body x) as [e'|found] eqn:E.
  - injection H as <-. exists x. split; [left; reflexivity|exact E].
  - destruct (collect body rest) as [e'|more]; [|discriminate].
    injection H as <-. destruct (IH eq_refl) as (y & Hy & Ey).
    exists y. split; [right; exact Hy|exact Ey].
Qed.

Lemma dfs_error : forall budget cur path (visited : gset string) e,
  dfs g target budget cur path visited = inl e -> loopError e.
Proof.
  induction budget as [|budget IH]; intros cur path visited e H;
    [discriminate|].
  cbn [dfs] in H. destruct (String.eqb cur target); [discriminate|].
  destruct (edgesFrom (directRelationships g) cur) as [directs|];
    [|injection H as <-; left; reflexivity].
  destruct (collect _ directs) as [e'|found] eqn:Ed.
  { injection H as <-. apply collect_throws in Ed as (rel & _ & Hrel).
    destruct (decide _); [discriminate|]. apply (IH _ _ _ _ Hrel). }
  destruct (edgesFrom (inverseRelationships g) cur) as [inverses|];
    [|injection H as <-; right; reflexivity].
  destruct (collect _ inverses) as [e'|more] eqn:Ei; [|discriminate].
  injection H as <-. apply collect_throws in Ei as (rel & _ & Hrel).
  destruct (decide _); [discriminate|]. apply (IH _ _ _ _ Hrel).
Qed.

Lemma dfs_throws budget cur path (visited : gset string) :
  cur <> target ->
  iterable g cur = false ->
  exists e,
    dfs g target (S budget) cur path visited = inl e
    /\ loopError e
    /\ (inheritedOnly (directRelationships g) cur = true ->
        e = notIterable "directRelationships").
Proof.
  intros Hne Hcur.
  destruct (dfs g target (S budget) cur path visited) as [e|paths] eqn:E.
  - exists e. split_and!; [reflexivity|apply (dfs_error _ _ _ _ _ E)|].
    intros Hd. cbn [dfs] in E.
    destruct (String.eqb_spec cur target) as [|_]; [contradiction|].
    rewrite edgesFrom_listed, Hd in E. injection E as <-. reflexivity.
  - exfalso. cbn [dfs] in E.
    destruct (String.eqb_spec cur target) as [|_]; [contradiction|].
    rewrite !edgesFrom_listed in E. unfold iterable in Hcur.
    destruct (inheritedOnly (directRelationships g) cur); [discriminate|].
    destruct (inheritedOnly (inverseRelationships g) cur); [|discriminate].
    destruct (collect _ _); discriminate.
Qed.

Lemma explore_In label (rels : list Edge) budget path (visited : gset string) p :
  In p (flat_map
          (fun rel =>
             if decide (targetTable rel ∈ visited) then []
             else search g target budget (targetTable rel)
                    (path ++ [{| kind := label; edge := rel |}])%list visited)
          rels)
  <-> exists rel,
        In rel rels /\ (targetTable rel ∉ visited)
        /\ In p (search g target budget (targetTable rel)
                   (path ++ [{| kind := label; edge := rel |}])%list visited).
Proof.
  rewrite in_flat_map. split.
  - intros (rel & Hrel & Hp). exists rel.
    destruct (decide (targetTable rel ∈ visited)); [destruct Hp|]. auto.
  - intros (rel & Hrel & Hv & Hp). exists rel. split; [exact Hrel|].
    destruct (decide (targetTable rel ∈ visited)); [contradiction|exact Hp].
Qed.

Lemma search_unfold budget cur path (visited : gset string) :
  search g target (S budget) cur path visited
  = if String.eqb cur target then [path]
    else
      (flat_map
         (fun rel =>
            if decide (targetTable rel ∈ {[ cur ]} ∪ visited) then []
            else search g target budget (targetTable rel)
                   (path ++ [{| kind := "direct"; edge := rel |}])%list
                   ({[ cur ]} ∪ visited))
         (listed (directRelationships g) cur)
       ++ flat_map
            (fun rel =>
               if decide (targetTable rel ∈ {[ cur ]} ∪ visited) then []
               else search g target budget (targetTable rel)
                      (path ++ [{| kind := "inverse"; edge := rel |}])%list
                      ({[ cur ]} ∪ visited))
            (listed (inverseRelationships g) cur))%list.
Proof. reflexivity. Qed.

Lemma search_sound : forall budget cur path (visited : gset string) p,
  cur ∉ visited ->
  In p (search g target budget cur path visited) ->
  exists suffix,
    p = (path ++ suffix)%list
    /\ chain g cur suffix target
    /\ (List.length suffix < budget)%nat
    /\ List.NoDup (visits cur suffix)
    /\ forall x, In x (visits cur suffix) -> x ∉ visited.
Proof.
  induction budget as [|budget IH]; intros cur path visited p Hcur Hp;
    [destruct Hp|].
  rewrite search_unfold in Hp.
  destruct (String.eqb_spec cur target) as [->|Hne].
  - destruct Hp as [<-|[]]. exists []. rewrite app_nil_r.
    split_and!; [reflexivity|constructor|simpl; lia| |].
    + repeat constructor. intros [].
    + intros x [<-|[]]. exact Hcur.
  - assert (Step : forall label,
              (label = "direct" \/ label = "inverse") ->
              forall rel,
                In rel (listed (if String.eqb label "direct"
                                   then directRelationships g
                                   else inverseRelationships g) cur) ->
                targetTable rel ∉ {[ cur ]} ∪ visited ->
                In p (search g target budget (targetTable rel)
                        (path ++ [{| kind := label; edge := rel |}])%list
                        ({[ cur ]} ∪ visited)) ->
                exists suffix,
                  p = (path ++ suffix)%list
                  /\ chain g cur suffix target
                  /\ (List.length suffix < S budget)%nat
                  /\ List.NoDup (visits cur suffix)
                  /\ forall x, In x (visits cur suffix) -> x ∉ visited).
    { intros label Hlabel rel Hrel Hv Hin.
      destruct (IH _ _ _ _ Hv Hin) as (suffix & -> & Hc & Hl & Hnd & Hout).
      exists ({| kind := label; edge := rel |} :: suffix).
      rewrite <- app_assoc. split_and!.
      - reflexivity.
      - apply chain_step; [|exact Hc]. unfold stepFrom. cbn [kind edge].
        destruct Hlabel as [-> | ->]; [left|right]; split; auto.
      - simpl. lia.
      - unfold visits in *. cbn [map edge]. constructor; [|exact Hnd].
        intros Hin'. apply (Hout cur Hin').
        apply elem_of_union. left. apply elem_of_singleton. reflexivity.
      - intros x [<-|Hx]; [exact Hcur|].
        intros Hx'. apply (Hout x Hx). apply elem_of_union. right. exact Hx'. }
    apply in_app_or in Hp as [Hp|Hp];
      apply explore_In in Hp as (rel & Hrel & Hv & Hin).
    + apply (Step "direct" (or_introl eq_refl) rel Hrel Hv Hin).
    + apply (Step "inverse" (or_intror eq_refl) rel Hrel Hv Hin).
Qed.

Lemma search_complete : forall budget cur path (visited : gset string) suffix,
  chain g cur suffix target ->
  (List.length suffix < budget)%nat ->
  List.NoDup (visits cur suffix) ->
  (forall x, In x (visits cur suffix) -> x ∉ visited) ->
  In (path ++ suffix)%list (search g target budget cur path visited).
Proof.
  induction budget as [|budget IH]; intros cur path visited suffix Hc Hl Hnd Hout;
    [lia|].
  rewrite search_unfold.
  destruct (String.eqb_spec cur target) as [->|Hne].
  - destruct suffix as [|st rest].
    + rewrite app_nil_r. left. reflexivity.
    + exfalso. assert (Hin := chain_ends _ _ _ _ Hc ltac:(discriminate)).
      unfold visits in Hnd. inversion Hnd; subst. contradiction.
  - inversion Hc as [|s st rest t Hs Hc']; subst; [congruence|].
    unfold visits in Hnd, Hout. cbn [map] in Hnd, Hout.
    inversion Hnd as [|? ? Hs_notin Hnd']; subst.
    assert (Hv : targetTable (edge st) ∉ {[ cur ]} ∪ visited).
    { intros Hx. apply elem_of_union in Hx as [Hx|Hx].
      - apply elem_of_singleton in Hx. apply Hs_notin. left. exact Hx.
      - apply (Hout (targetTable (edge st))); [right; left; reflexivity|exact Hx]. }
    assert (Hrec : forall label,
              kind st = label ->
              In ((path ++ [{| kind := label; edge := edge st |}]) ++ rest)%list
                 (search g target budget (targetTable (edge st))
                    (path ++ [{| kind := label; edge := edge st |}])%list
                    ({[ cur ]} ∪ visited))).
    { intros label _. apply IH.
      - exact Hc'.
      - simpl in Hl. lia.
      - exact Hnd'.
      - intros x Hx Hx'. apply elem_of_union in Hx' as [Hx'|Hx'].
        + apply elem_of_singleton in Hx'. subst x. apply Hs_notin. exact Hx.
        + apply (Hout x); [right; exact Hx|exact Hx']. }
    assert (Est : forall label, kind st = label ->
              (path ++ st :: rest
               = (path ++ [{| kind := label; edge := edge st |}]) ++ rest)%list).
    { intros label <-. rewrite <- app_assoc. destruct st. reflexivity. }
    apply in_or_app. destruct Hs as [[Hk He]|[Hk He]]; [left|right];
      apply explore_In; exists (edge st);
      (split; [exact He|]); (split; [exact Hv|]);
      rewrite (Est _ Hk); apply Hrec, Hk.
Qed.

End Search.

(** *** The key of the cache *)

Definition hyphenated (s : string) : bool :=
  existsb (Ascii.eqb "-") (list_ascii_of_string s).

Lemma hyphenated_app (s r : string) : hyphenated (s +:+ "-" +:+ r) = true.
Proof.
  unfold hyphenated. induction s as [|c s IH]; [reflexivity|].
  change (String c s +:+ "-" +:+ r) with (String c (s +:+ "-" +:+ r)).
  cbn [list_ascii_of_string existsb]. rewrite IH. apply orb_true_r.
Qed.

Lemma inherited_plain (k : string) :
  JsObject.inherited k = true -> hyphenated k = false.
Proof.
  unfold JsObject.inherited. intros H. apply existsb_exists in H as (n & Hn & E).
  apply String.eqb_eq in E. subst k.
  repeat (destruct Hn as [<-|Hn]; [reflexivity|]). destruct Hn.
Qed.

Lemma cacheKey_own source target maxDepth :
  JsObject.inherited (cacheKey source target maxDepth) = false.
Proof.
  destruct (JsObject.inherited (cacheKey source target maxDepth)) eqn:E;
    [|reflexivity].
  apply inherited_plain in E. unfold cacheKey in E.
  rewrite hyphenated_app in E. discriminate.
Qed.

(** The graph with paths stored in its cache. *)
Definition cached (g : Graph) (key : string) (paths : list (list Step))
  : Graph :=
  {| tables := tables g;
     directRelationships := directRelationships g;
     inverseRelationships := inverseRelationships g;
     pathCache := <[key := paths]> (pathCache g) |}.

(** X21. Take a request for which the cache holds nothing.  When the
    lookups of the source table and of every table that an edge of the
    graph leads to give lists (none of these names is an inherited
    property that the graph does not hold), [findRelationshipPaths]
    returns exactly the chains of steps of the graph that lead from the
    source table to the target table, have at most [maxDepth] steps and
    visit no table twice.  A table is joined to itself by the empty path
    only, whatever its name.  When the source differs from the target
    and is an inherited name, such as [constructor], that one of the two
    maps does not hold, the call throws the TypeError of a loop over a
    value that is not iterable, and leaves the graph as it was. *)
Theorem findRelationshipPaths_simple_chains (g : Graph)
  (source target : string) (maxDepth : nat) :
  pathCache g !! cacheKey source target maxDepth = None ->
  (iterable g source = true -> edgesIterable g ->
   exists paths,
     findRelationshipPaths g source target maxDepth
     = (inr paths, cached g (cacheKey source target maxDepth) paths)
     /\ forall p,
          In p paths <->
          chain g source p target
          /\ (List.length p <= maxDepth)%nat
          /\ List.NoDup (visits source p))
  /\ (source = target ->
      findRelationshipPaths g source target maxDepth
      = (inr [[]], cached g (cacheKey source target maxDepth) [[]]))
  /\ (source <> target -> iterable g source = false ->
      exists e,
        findRelationshipPaths g source target maxDepth = (inl e, g)
        /\ loopError e
        /\ (inheritedOnly (directRelationships g) source = true ->
            e = notIterable "directRelationships")).
Proof.
  intros Hmiss. unfold findRelationshipPaths. rewrite Hmiss. split_and!.
  - intros Hsource Hedges.
    rewrite (dfs_search g target Hedges (S maxDepth) source [] ∅ Hsource).
    eexists. split; [reflexivity|].
    intros p. split.
    + intros Hp.
      destruct (search_sound g target (S maxDepth) source [] ∅ p
                  (not_elem_of_empty source) Hp)
        as (suffix & -> & Hc & Hl & Hnd & _).
      cbn [app]. split_and!; [exact Hc|lia|exact Hnd].
    + intros (Hc & Hl & Hnd).
      apply (search_complete g target (S maxDepth) source [] ∅ p Hc);
        [lia|exact Hnd|]. intros x _. apply not_elem_of_empty.
  - intros ->. cbn [dfs]. rewrite String.eqb_refl. reflexivity.
  - intros Hne Hsource.
    destruct (dfs_throws g target maxDepth source [] ∅ Hne Hsource)
      as (e & -> & He & Hd).
    exists e. split_and!; [reflexivity|exact He|exact Hd].
Qed.

Definition ordersGraph : Graph :=
  buildRelationshipGraph None (Some ordersRelationships).

Lemma findRelationshipPaths_simple_chains_witness :
  pathCache ordersGraph !! cacheKey "customers" "invoices" 3 = None
  /\ (exists paths,
        findRelationshipPaths ordersGraph "customers" "invoices" 3
        = (inr paths,
           cached ordersGraph (cacheKey "customers" "invoices" 3) paths)
        /\ forall p,
             In p paths <->
             chain ordersGraph "customers" p "invoices"
             /\ (List.length p <= 3)%nat
             /\ List.NoDup (visits "customers" p)).
Proof.
  assert (H : pathCache ordersGraph !! cacheKey "customers" "invoices" 3 = None)
    by (vm_compute; reflexivity).
  split; [exact H|].
  apply (findRelationshipPaths_simple_chains ordersGraph "customers"
           "invoices" 3 H).
  - vm_compute. reflexivity.
  - intros t e. unfold ordersGraph.
    assert (Hno : ~ In "__proto__" (schemaKeys None)) by (intros []).
    intros Hin.
    assert (Ht : In (targetTable e) ["customers"; "orders"; "invoices"]).
    { unfold listed in Hin.
      destruct Hin as [Hin|Hin];
        [destruct (directRelationships
                     (buildRelationshipGraph None (Some ordersRelationships))
                   !! t) as [edges|] eqn:E
        |destruct (inverseRelationships
                     (buildRelationshipGraph None (Some ordersRelationships))
                   !! t) as [edges|] eqn:E]; try destruct Hin.
      all: apply (elem_of_map_to_list _ t edges) in E;
        vm_compute in E;
        apply list_elem_of_In in E;
        repeat (destruct E as [E|E];
                [injection E as <- <-;
                 repeat (destruct Hin as [<-|Hin]; [cbn; auto|]);
                 destruct Hin|]);
        destruct E. }
    repeat (destruct Ht as [<-|Ht]; [vm_compute; reflexivity|]). destruct Ht.
Defined.

Example findRelationshipPaths_sample :
  (exists g',
     findRelationshipPaths ordersGraph "customers" "invoices" 3
     = (inr [[{| kind := "inverse";
                 edge := {| sourceTable := "customers"; sourceColumn := "id";
                            targetTable := "orders";
                            targetColumn := "customer_id" |} |};
              {| kind := "inverse";
                 edge := {| sourceTable := "orders"; sourceColumn := "id";
                            targetTable := "invoices";
                            targetColumn := "order_id" |} |}]], g'))
  /\ fst (findRelationshipPaths ordersGraph "customers" "invoices" 1) = inr []
  /\ findRelationshipPaths ordersGraph "constructor" "invoices" 3
     = (inl (notIterable "directRelationships"), ordersGraph).
Proof.
  split_and!; [eexists|..]; vm_compute; reflexivity.
Qed.

(** X22. [findRelationshipPaths] changes nothing of the graph but the
    cache.  When it returns paths, the cache holds them under the key of
    the request (the names and the depth joined by hyphens, which is
    never a name that the cache inherits), and any later request with
    the same key is answered with the stored paths and changes nothing.
    When it throws, the graph and its cache are as they were. *)
Theorem findRelationshipPaths_cached (g : Graph) (source target : string)
  (maxDepth : nat) :
  let result := findRelationshipPaths g source target maxDepth in
  let g' := snd result in
  JsObject.inherited (cacheKey source target maxDepth) = false
  /\ tables g' = tables g
  /\ directRelationships g' = directRelationships g
  /\ inverseRelationships g' = inverseRelationships g
  /\ (forall key, key <> cacheKey source target maxDepth ->
                  pathCache g' !! key = pathCache g !! key)
  /\ match fst result with
     | inr paths =>
         pathCache g' !! cacheKey source target maxDepth = Some paths
         /\ forall source' target' maxDepth',
              cacheKey source' target' maxDepth'
              = cacheKey source target maxDepth ->
              findRelationshipPaths g' source' target' maxDepth'
              = (inr paths, g')
     | inl _ =>
         g' = g /\ pathCache g !! cacheKey source target maxDepth = None
     end.
Proof.
  cbv zeta. split; [apply cacheKey_own|]. unfold findRelationshipPaths.
  destruct (pathCache g !! cacheKey source target maxDepth) as [stored|] eqn:E;
    cbn [fst snd].
  - split_and!; try reflexivity; [exact E|].
    intros s' t' d' ->. rewrite E. reflexivity.
  - destruct (dfs g target (S maxDepth) source [] ∅) as [e|paths];
      cbn [fst snd pathCache tables directRelationships inverseRelationships].
    + split_and!; reflexivity.
    + split_and!; try reflexivity.
      * intros key Hk. apply lookup_insert_ne. congruence.
      * apply lookup_insert_eq.
      * intros s' t' d' ->. cbn [pathCache]. rewrite lookup_insert_eq.
        reflexivity.
Qed.

Example cacheKey_collision :
  cacheKey "a-b" "c" 3 = cacheKey "a" "b-c" 3.
Proof. reflexivity. Qed.

End RelationshipGraphProps.

(** ** DataEnrichmentService: batches of queries *)

Module BatchQueriesProps.
Import JsString JsValue Js BatchQueries.

Section Facts.
Variable World : Type.
Variable pool_query : string -> World -> (Error + list row * Z) * World.

(** The state of the database when query number [i] is sent: what the
    queries before it have left. *)
Definition worldBefore (queries : list BatchQuery) (w : World) (i : nat)
  : World :=
  fold_left (fun w0 q => snd (pool_query (sql q) w0)) (take i queries) w.

(** The result that goes with a query, given what the database said. *)
Definition answers (q : BatchQuery) (said : Error + list row * Z)
  (r : BatchResult) : Prop :=
  resultId r = id q
  /\ match said with
     | inr (found, count) =>
         success r = true /\ rows r = Some found /\ rowCount r = Some count
         /\ error r = None
     | inl e =>
         success r = false /\ error r = Some (message e) /\ rows r = None
         /\ rowCount r = None
     end.

Lemma runQuery_answers q w :
  snd (runQuery World pool_query q w) = snd (pool_query (sql q) w)
  /\ answers q (fst (pool_query (sql q) w)) (fst (runQuery World pool_query q w)).
Proof.
  unfold runQuery, answers.
  destruct (pool_query (sql q) w) as [[e|[found count]] w1];
    cbn [fst snd resultId success rows rowCount error];
    repeat split; reflexivity.
Qed.

Lemma runAll_answers : forall queries w,
  List.length (fst (runAll World pool_query queries w)) = List.length queries
  /\ snd (runAll World pool_query queries w)
     = worldBefore queries w (List.length queries)
  /\ forall i q,
       queries !! i = Some q ->
       exists r,
         fst (runAll World pool_query queries w) !! i = Some r
         /\ answers q (fst (pool_query (sql q) (worldBefore queries w i))) r.
Proof.
  induction queries as [|q0 rest IH]; intros w.
  - split; [reflexivity|]. split; [reflexivity|].
    intros i q H. rewrite lookup_nil in H. discriminate H.
  - cbn [runAll].
    destruct (runQuery_answers q0 w) as [Hw0 Hr0].
    destruct (runQuery World pool_query q0 w) as [r0 w1].
    cbn [fst snd] in Hw0, Hr0. subst w1.
    destruct (IH (snd (pool_query (sql q0) w))) as (Hlen & Hw & Hres).
    destruct (runAll World pool_query rest (snd (pool_query (sql q0) w)))
      as [rs w2].
    cbn [fst snd] in *.
    split; [cbn [List.length]; rewrite Hlen; reflexivity|].
    split.
    + rewrite Hw. reflexivity.
    + intros [|i] q Hq.
      * simpl in Hq. injection Hq as <-. exists r0. split; [reflexivity|].
        exact Hr0.
      * simpl in Hq. destruct (Hres i q Hq) as (r & Hr & Ha).
        exists r. split; [exact Hr|exact Ha].
Qed.

(** X23. [performBatchQueries] sends every query, in the order of the
    array, and returns one result per query, in that order and with the id
    of its query.  When the database answers a query, its result has
    [success: true] with the rows and the row count of the answer; when
    the database rejects it, its result has [success: false] with the
    message of the error and neither rows nor count, and the queries after
    it are sent all the same.  The function itself never raises. *)
Theorem performBatchQueries_results (queries : list BatchQuery) (w : World) :
  let results := fst (performBatchQueries World pool_query (Some queries) w) in
  List.length results = List.length queries
  /\ snd (performBatchQueries World pool_query (Some queries) w)
     = worldBefore queries w (List.length queries)
  /\ forall i q,
       queries !! i = Some q ->
       exists r,
         results !! i = Some r
         /\ resultId r = id q
         /\ match fst (pool_query (sql q) (worldBefore queries w i)) with
            | inr (found, count) =>
                success r = true /\ rows r = Some found
                /\ rowCount r = Some count /\ error r = None
            | inl e =>
                success r = false /\ error r = Some (message e)
                /\ rows r = None /\ rowCount r = None
            end.
Proof.
  cbv zeta.
  assert (E : performBatchQueries World pool_query (Some queries) w
              = runAll World pool_query queries w).
  { destruct queries; reflexivity. }
  rewrite E. clear E.
  destruct (runAll_answers queries w) as (Hlen & Hw & Hres).
  split; [exact Hlen|]. split; [exact Hw|].
  intros i q Hq. destruct (Hres i q Hq) as (r & Hr & Hid & Ha).
  exists r. auto.
Qed.

End Facts.

Definition oddFails (q : string) (w : nat) : (Error + list row * Z) * nat :=
  if Nat.odd w then (inl (new_Error ("syntax error in " +:+ q)), S w)
  else (inr ([[("n", VNum (inject_Z (Z.of_nat w)))]], 1%Z), S w).

Example performBatchQueries_sample :
  map (fun r => (resultId r, success r, error r))
    (fst (performBatchQueries nat oddFails
            (Some [{| id := "a"; sql := "select 1" |};
                   {| id := "b"; sql := "selec 2" |};
                   {| id := "c"; sql := "select 3" |}]) 0%nat))
  = [("a", true, None); ("b", false, Some "syntax error in selec 2");
     ("c", true, None)].
Proof. vm_compute. reflexivity. Qed.

End BatchQueriesProps.

(** ** DataEnrichmentService: keeping the relevant fields *)

Module DataFilterProps.
Import JsString JsValue DataFilter.

Lemma pick_fields kept : forall r acc k,
  JsObject.get (fold_left (fun filteredRow fld => JsObject.set filteredRow fld
                                                    (field r fld)) kept acc) k
  = if existsb (String.eqb k) kept then Some (field r k)
    else JsObject.get acc k.
Proof.
  induction kept as [|f kept IH]; intros r acc k; [reflexivity|].
  cbn [fold_left existsb]. rewrite IH.
  destruct (existsb (String.eqb k) kept); [rewrite orb_true_r; reflexivity|].
  rewrite orb_false_r. destruct (String.eqb_spec k f) as [->|Hne].
  - apply JsObjectProps.get_set_eq.
  - apply JsObjectProps.get_set_ne. congruence.
Qed.

Lemma pick_get kept r k :
  JsObject.get (pick kept r) k
  = if existsb (String.eqb k) kept then Some (field r k) else None.
Proof. unfold pick. rewrite pick_fields. reflexivity. Qed.

(** Columns that are always kept: ids and names. *)
Definition idOrName (fld : string) : bool :=
  let f := toLowerCase fld in
  String.eqb f "id" || endsWith f "_id" || endsWith f "name"
  || includes f "name_".

(** X24. [filterDataBasedOnPromptAnalysis] never drops or adds a row.
    Without data or without an analysis the data comes back as it is.
    Otherwise the result is either the JSON copy of all rows or, for a set
    of kept fields taken from the first row that holds every id and name
    column of that row, the copy of each row cut down to exactly these
    fields. *)
Theorem filterDataBasedOnPromptAnalysis_rows (first : row) (rest : list row)
  (analysis : PromptAnalysis) :
  let rows := first :: rest in
  let copies := map JsHeap.json_row rows in
  exists out kept,
    filterDataBasedOnPromptAnalysis (Some rows) (Some analysis) = Some out
    /\ List.length out = List.length rows
    /\ sublist kept (JsObject.keys (JsHeap.json_row first))
    /\ (forall k, In k (JsObject.keys (JsHeap.json_row first)) ->
                  idOrName k = true -> In k kept)
    /\ (out = copies
        \/ (kept <> []
            /\ forall i r,
                 copies !! i = Some r ->
                 exists r',
                   out !! i = Some r'
                   /\ forall k,
                        JsObject.get r' k
                        = if existsb (String.eqb k) kept
                          then Some (field r k) else None)).
Proof.
  cbv zeta. unfold filterDataBasedOnPromptAnalysis.
  set (relevant := match relevantFields analysis with
                   | Some fields => fields
                   | None => []
                   end).
  set (normalized := map (fun fld => underscored (toLowerCase fld)) relevant).
  set (available := JsObject.keys (JsHeap.json_row first)).
  set (kept := List.filter (keepField normalized) available).
  assert (Hsub : sublist kept available) by apply AnomalyProps.filter_sublist.
  assert (Hid : forall k, In k available -> idOrName k = true -> In k kept).
  { intros k Hk Hi. apply filter_In. split; [exact Hk|].
    unfold keepField. unfold idOrName in Hi. rewrite Hi. reflexivity. }
  destruct (List.length relevant =? 0)%nat.
  { exists (map JsHeap.json_row (first :: rest)), kept.
    split_and!; auto. apply length_map. }
  destruct ((List.length kept =? 0)%nat
            || (List.length kept =? List.length available)%nat) eqn:E.
  { exists (map JsHeap.json_row (first :: rest)), kept.
    split_and!; auto. apply length_map. }
  exists (map (pick kept) (map JsHeap.json_row (first :: rest))), kept.
  split_and!; auto.
  - rewrite !length_map. reflexivity.
  - right. split.
    + intros Hk. rewrite Hk in E. discriminate E.
    + intros i r Hr. exists (pick kept r). split.
      * rewrite list_lookup_fmap, Hr. reflexivity.
      * intros k. apply pick_get.
Qed.

Example filterDataBasedOnPromptAnalysis_sample :
  filterDataBasedOnPromptAnalysis
    (Some [[("id", VNum 1); ("customer_name", VStr "Ann");
            ("total_amount", VNum 5); ("note", VUndefined); ("city", VStr "Rome")];
           [("id", VNum 2); ("total_amount", VNaN); ("city", VStr "Oslo")]])
    (Some {| relevantFields := Some ["Total   Amount"] |})
  = Some [[("id", VNum 1); ("customer_name", VStr "Ann"); ("total_amount", VNum 5)];
          [("id", VNum 2); ("customer_name", VUndefined);
           ("total_amount", VNull)]]
  /\ filterDataBasedOnPromptAnalysis None
       (Some {| relevantFields := None |}) = None.
Proof. vm_compute. split; reflexivity. Qed.

End DataFilterProps.

(** ** The gateway as its callers see it *)

Module GatewayProps.
Import JsString Js MistralService MistralServiceProps.

Section Facts.
Variable World : Type.
Variable fetch : list Message -> World -> (Error + Response) * World.
Variable random : World -> Q * World.

(** The two errors the body of a request ends with. *)
Lemma request_error messages w e w1 :
  request World fetch messages w = (inl e, w1) ->
  e = mkError "Rate limit exceeded" (Some 429%Z)
  \/ exists m, e = new_Error ("AI Service Error: " +:+ m).
Proof.
  unfold request. destruct (fetch messages w) as [r w0].
  match goal with
  | |- context [match ?a with inl _ => _ | inr _ => _ end] =>
      destruct a as [error|text]
  end; [|discriminate].
  destruct (has_status error 429 || _).
  - intros [= <- _]. left. reflexivity.
  - intros [= <- _]. right. exists (message error). reflexivity.
Qed.

(** What a caller can be thrown. *)
Definition surfaced (e : Error) : Prop :=
  statusCode e = None
  /\ (e = rateLimitExceeded
      \/ exists m,
           message e = "AI Service Error: " +:+ m
           \/ message e =
              "Maximum retry attempts (3) exceeded: AI Service Error: " +:+ m).

Lemma retry_request_surfaced messages : forall k rc w,
  (maxRetries - rc = k)%nat ->
  exists r tr w',
    retryWithBackoff World string (request World fetch messages) random rc w
    = Some (r, tr, w')
    /\ (invocations tr <= S k)%nat
    /\ forall e, r = inl e -> surfaced e.
Proof.
  induction k as [|k IH]; intros rc w Hk.
  - destruct (request World fetch messages w) as [[e|v] w1] eqn:H.
    + eexists _, _, _.
      rewrite (retry_step_exhausted _ _ _ _ rc w e w1) by (try lia; assumption).
      split; [reflexivity|]. split; [simpl; lia|].
      intros e' [= <-]. destruct (isRateLimit e) eqn:He.
      * split; [reflexivity|]. left. reflexivity.
      * destruct (request_error _ _ _ _ H) as [->|[m ->]]; [discriminate He|].
        split; [reflexivity|]. right. exists m. right. reflexivity.
    + eexists _, _, _. rewrite (retry_step_success _ _ _ _ rc w v w1 H).
      split; [reflexivity|]. split; [simpl; lia|]. intros e [=].
  - destruct (request World fetch messages w) as [[e|v] w1] eqn:H.
    + destruct (isRateLimit e) eqn:He.
      * rewrite (retry_step_wait _ _ _ _ rc w e w1) by (try lia; assumption).
        destruct (IH (rc + 1)%nat (snd (random w1)))
          as (r & tr & w' & -> & Hn & He'); [lia|].
        eexists _, _, _. split; [reflexivity|]. split; [simpl; lia|]. exact He'.
      * eexists _, _, _.
        rewrite (retry_step_rethrow _ _ _ _ rc w e w1) by (try lia; assumption).
        split; [reflexivity|]. split; [simpl; lia|].
        intros e' [= <-].
        destruct (request_error _ _ _ _ H) as [->|[m ->]]; [discriminate He|].
        split; [reflexivity|]. right. exists m. left. reflexivity.
    + eexists _, _, _. rewrite (retry_step_success _ _ _ _ rc w v w1 H).
      split; [reflexivity|]. split; [simpl; lia|]. intros e [=].
Qed.

End Facts.

(** X25.  Whatever the remote service and the random generator do,
    [generateMistralResponse] ends after at most four requests.  An error it
    raises never carries a status code, 429 included: it is the
    rate-limit-exceeded error, or its message is "AI Service Error: "
    followed by the cause, or that text after "Maximum retry attempts (3)
    exceeded: ". *)
Theorem generateMistralResponse_errors (World : Type)
  (fetch : list Message -> World -> (Error + Response) * World)
  (random : World -> Q * World)
  (prompt : string) (conversationHistory : list Message) (w : World) :
  exists r tr w',
    generateMistralResponse World fetch random prompt conversationHistory w
    = Some (r, tr, w')
    /\ (invocations tr <= 4)%nat
    /\ forall e, r = inl e ->
         statusCode e = None
         /\ (e = new_Error "API rate limit exceeded. Please try again later."
             \/ exists m,
                  message e = "AI Service Error: " +:+ m
                  \/ message e =
                     "Maximum retry attempts (3) exceeded: AI Service Error: "
                     +:+ m).
Proof.
  unfold generateMistralResponse.
  apply (retry_request_surfaced World fetch random _ 3 0 w). reflexivity.
Qed.

End GatewayProps.

(** ** The rows of a response sent in pieces *)

Module ChunkRowsProps.
Import JsString JsJson ReportService JsObjectProps ChunkProps.

(** A receiver of the events: the rows are those of the last [rawData]
    seen, followed by every [rawDataChunk] that came after it. *)
Definition receive (rows : list json) (ev : Event) : list json :=
  let current :=
    match JsObject.get ev "rawData" with
    | Some (JArr r) => r
    | _ => rows
    end in
  match JsObject.get ev "rawDataChunk" with
  | Some (JArr c) => (current ++ c)%list
  | _ => current
  end.

Definition received (events : list Event) : list json :=
  fold_left receive events [].

Lemma receive_nthChunk rows k acc :
  receive acc (nthChunk rows k) =
  (acc ++ firstn 100 (skipn (100 * k) rows))%list.
Proof. reflexivity. Qed.

Lemma receive_complete rows acc : receive acc (completeEvent rows) = acc.
Proof. reflexivity. Qed.

Lemma receive_chunks rows : forall n k acc,
  fold_left receive (map (nthChunk rows) (seq k n)) acc =
  (acc ++ firstn (100 * n) (skipn (100 * k) rows))%list.
Proof.
  induction n as [|n IH]; intros k acc.
  - rewrite Nat.mul_0_r. simpl. rewrite app_nil_r. reflexivity.
  - cbn [seq map fold_left]. rewrite IH, receive_nthChunk.
    rewrite <- app_assoc. f_equal.
    replace (100 * S n)%nat with (100 + 100 * n)%nat by lia.
    rewrite <- take_take_drop, drop_drop.
    replace (100 * k + 100)%nat with (100 * S k)%nat by lia. reflexivity.
Qed.

(** X26.  When the response carries its rows as the array [rawData] and
    has no [rawDataChunk] of its own, a receiver that takes [rawData] from
    the events and appends every [rawDataChunk] ends with exactly the rows
    of the response, in order, whether [chunkJsonData] sent it whole or in
    pieces. *)
Theorem chunkJsonData_lossless (data : Event) (rows : list json) :
  JsObject.get data "rawData" = Some (JArr rows) ->
  JsObject.get data "rawDataChunk" = None ->
  received (chunkJsonData data) = rows.
Proof.
  intros Hrows Hchunk. unfold chunkJsonData.
  destruct (String.length (stringify (JObj data)) <? sizeThreshold)%nat.
  { unfold received. cbn [fold_left]. unfold receive.
    rewrite Hrows, Hchunk. reflexivity. }
  rewrite Hrows. destruct rows as [|row more].
  { unfold received. cbn [fold_left]. unfold receive.
    rewrite Hrows, Hchunk. reflexivity. }
  rewrite chunkLoop_all. set (all := row :: more).
  unfold received. cbn [fold_left].
  rewrite fold_left_app. rewrite receive_chunks. cbn [fold_left].
  rewrite receive_complete.
  unfold receive.
  assert (H1 : JsObject.get
                 (JsObject.set (JsObject.set data "rawData" (JArr []))
                    "rawDataPending" (JBool true)) "rawData"
               = Some (JArr [])).
  { rewrite get_set_ne by discriminate. apply get_set_eq. }
  assert (H2 : JsObject.get
                 (JsObject.set (JsObject.set data "rawData" (JArr []))
                    "rawDataPending" (JBool true)) "rawDataChunk"
               = None).
  { rewrite !get_set_ne by discriminate. exact Hchunk. }
  rewrite H1, H2.
  rewrite Nat.mul_0_r. cbn [app skipn].
  apply firstn_all2.
  pose proof (Nat.div_mod_eq (List.length all + 99) 100) as E.
  pose proof (Nat.mod_upper_bound (List.length all + 99) 100) as U. lia.
Qed.

(** A response of two rows under a report of 50,000 letters. *)
Definition longResponse : Event :=
  [("status", JStr "complete"); ("report", JStr longReport);
   ("rawData", JArr [JNum 1; JNum 2])].

(** X26, witness: the rows of the long response. *)
Lemma chunkJsonData_lossless_witness :
  received (chunkJsonData longResponse) = [JNum 1; JNum 2].
Proof.
  apply (chunkJsonData_lossless longResponse [JNum 1; JNum 2]); reflexivity.
Defined.

End ChunkRowsProps.

(** ** The answer of the report controller *)

Module ReportControllerProps.
Import JsString JsJson Js ReportController.

Lemma fold_write updates : forall res,
  fold_left (fun r update => write (frame update) r) updates res =
  {| status := status res; headers := headers res;
     body := (body res ++ map frame updates)%list; ended := ended res |}.
Proof.
  induction updates as [|u updates IH]; intros res.
  - simpl. rewrite app_nil_r. destruct res; reflexivity.
  - cbn [fold_left map]. rewrite IH. unfold write. cbn [status headers body ended].
    rewrite <- app_assoc. reflexivity.
Qed.

(** X27.  The streaming handler always ends the response.  Without a
    prompt it answers 400 with the JSON error and does not call the report
    service.  Otherwise every update of the service becomes one
    [data: ...] frame of the body, in order, under the three event-stream
    headers; a failure of the service before its first update is answered
    with status 500 and the JSON error as the whole body, and a later
    failure with one more frame that carries the error, the status staying
    200. *)
Theorem generateReport_response (World : Type)
  (generateReportStream :
     string -> list json -> World ->
     (list (JsObject.obj json) * (Error + unit)) * World)
  (prompt : option string) (conversationHistory : option (list json))
  (w : World) :
  let res := fst (generateReport World generateReportStream prompt
                    conversationHistory w) in
  let w' := snd (generateReport World generateReportStream prompt
                   conversationHistory w) in
  ended res = true
  /\ (prompt = None \/ prompt = Some "" ->
      status res = 400%nat
      /\ body res = [stringify (JObj [("error", JStr "Prompt is required")])]
      /\ headers res = []
      /\ w' = w)
  /\ (forall text,
        prompt = Some text -> text <> "" ->
        let history := match conversationHistory with
                       | Some h => h
                       | None => []
                       end in
        let updates := fst (fst (generateReportStream text history w)) in
        let outcome := snd (fst (generateReportStream text history w)) in
        w' = snd (generateReportStream text history w)
        /\ headers res = [("Content-Type", "text/event-stream");
                          ("Cache-Control", "no-cache");
                          ("Connection", "keep-alive")]
        /\ match outcome with
           | inr _ => status res = 200%nat /\ body res = map frame updates
           | inl error =>
               match updates with
               | [] =>
                   status res = 500%nat
                   /\ body res = [stringify (JObj (failure error))]
               | _ :: _ =>
                   status res = 200%nat
                   /\ body res =
                      (map frame updates ++ [frame (failure error)])%list
               end
           end).
Proof.
  cbv zeta. split_and!.
  - unfold generateReport. destruct prompt as [[|c text]|]; try reflexivity.
    destruct (generateReportStream _ _ w) as [[updates [error|[]]] w1];
      [|reflexivity].
    destruct (negb _); reflexivity.
  - intros [->| ->]; repeat split; reflexivity.
  - intros text -> Hne. destruct text as [|c text]; [congruence|].
    unfold generateReport.
    destruct (generateReportStream _ _ w) as [[updates [error|[]]] w1];
      cbn [fst snd].
    + rewrite fold_write. unfold headersSent.
      cbn [status headers body ended setHeader freshResponse app].
      destruct updates as [|u updates]; cbn [map List.length Nat.eqb negb orb];
        repeat split; reflexivity.
    + rewrite fold_write. repeat split; reflexivity.
Qed.

(** A service that sends one update and then fails. *)
Definition failsAfterUpdate (_ : string) (_ : list json) (w : unit)
  : (list (JsObject.obj json) * (Error + unit)) * unit :=
  ([[("status", JStr "processing")]], inl (new_Error "boom"), w).

Example generateReport_sample :
  body (fst (generateReport unit failsAfterUpdate (Some "sales") None tt)) =
  ["data: {" +:+ dq +:+ "status" +:+ dq +:+ ":" +:+ dq +:+ "processing" +:+ dq
   +:+ "}" +:+ nl +:+ nl;
   "data: {" +:+ dq +:+ "error" +:+ dq +:+ ":" +:+ dq
   +:+ "Failed to generate report" +:+ dq +:+ "," +:+ dq +:+ "message" +:+ dq
   +:+ ":" +:+ dq +:+ "boom" +:+ dq +:+ "}" +:+ nl +:+ nl].
Proof. reflexivity. Qed.

End ReportControllerProps.

(** ** The columns the chat page shows *)

Module ChatBotProps.
Import JsString ChatBot.

Lemma firstn_sublist {A} n (l : list A) : sublist (firstn n l) l.
Proof. apply sublist_take. Qed.

Lemma filter_is_sublist {A} (p : A -> bool) (l : list A) :
  sublist (List.filter p l) l.
Proof.
  induction l as [|x l IH]; simpl; [constructor|].
  destruct (p x); [apply sublist_skip|apply sublist_cons]; exact IH.
Qed.

Lemma Forall_firstn {A} (P : A -> Prop) n (l : list A) :
  List.Forall P l -> List.Forall P (firstn n l).
Proof.
  intros H. revert n. induction H as [|x l Hx H IH]; intros [|n]; simpl;
    constructor; auto.
Qed.

(** X28.  [selectImportantColumns] shows at most five columns, all of them
    columns of the table and in the table's order.  Up to five columns are
    all shown; of more than five, between three and five are shown, and
    they are either the first five columns or columns whose names all match
    one of the patterns. *)
Theorem selectImportantColumns_columns (allColumns : list string) :
  let shown := selectImportantColumns allColumns in
  (List.length shown <= 5)%nat
  /\ sublist shown allColumns
  /\ ((List.length allColumns <= 5)%nat -> shown = allColumns)
  /\ ((5 < List.length allColumns)%nat ->
      (3 <= List.length shown)%nat
      /\ (shown = firstn 5 allColumns
          \/ List.Forall (fun col => isImportant col = true) shown)).
Proof.
  cbv zeta. unfold selectImportantColumns, JsArray.slice.
  change (5 - 0)%nat with 5%nat. rewrite !drop_0.
  destruct (List.length allColumns <=? 5)%nat eqn:E.
  - apply Nat.leb_le in E. split_and!; [exact E|reflexivity|reflexivity|intros ?; exfalso; lia].
  - apply Nat.leb_gt in E.
    destruct (3 <=? List.length (List.filter isImportant allColumns))%nat eqn:F.
    + apply Nat.leb_le in F. split_and!.
      * rewrite length_firstn. lia.
      * etransitivity; [apply firstn_sublist|apply filter_is_sublist].
      * intros ?; exfalso; lia.
      * intros _. split; [rewrite length_firstn; lia|]. right.
        apply Forall_firstn. apply List.Forall_forall.
        intros col Hc. apply filter_In in Hc. tauto.
    + split_and!.
      * rewrite length_firstn. lia.
      * apply firstn_sublist.
      * intros ?; exfalso; lia.
      * intros _. split; [rewrite length_firstn; lia|]. left. reflexivity.
Qed.

(** X28, witness: seven columns, of which four match a pattern. *)
Lemma selectImportantColumns_columns_witness :
  let all := ["id"; "notes"; "created_date"; "sku"; "Status"; "qty"; "price"] in
  (5 < List.length all)%nat
  /\ selectImportantColumns all = ["id"; "created_date"; "Status"; "price"]
  /\ (3 <= List.length (selectImportantColumns all))%nat.
Proof.
  cbv zeta. split; [simpl; lia|]. split; [reflexivity|].
  apply (selectImportantColumns_columns
           ["id"; "notes"; "created_date"; "sku"; "Status"; "qty"; "price"]).
  simpl; lia.
Defined.

(** X29.  [toggleColumnVisibility] flips whether the column is shown and
    changes that of no other column; the columns that stay shown keep
    their order, and a column that becomes shown is put last. *)
Theorem toggleColumnVisibility_flips (column : string) (prev : list string) :
  let next := toggleColumnVisibility column prev in
  (In column next <-> ~ In column prev)
  /\ (forall other, other <> column -> (In other next <-> In other prev))
  /\ (In column prev -> sublist next prev)
  /\ (~ In column prev -> next = (prev ++ [column])%list).
Proof.
  cbv zeta. unfold toggleColumnVisibility.
  destruct (existsb (String.eqb column) prev) eqn:E.
  - apply existsb_exists in E as (x & Hx & Heq).
    apply String.eqb_eq in Heq. subst x. split_and!.
    + split.
      * intros H. apply filter_In in H as [_ H].
        rewrite String.eqb_refl in H. discriminate H.
      * intros H. contradiction.
    + intros other Hne. rewrite filter_In. split; [tauto|].
      intros H. split; [exact H|].
      destruct (String.eqb_spec other column); [contradiction|reflexivity].
    + intros _. apply filter_is_sublist.
    + intros H. contradiction.
  - assert (Hnot : ~ In column prev).
    { intros H. apply not_true_iff_false in E. apply E.
      apply existsb_exists. exists column. split; [exact H|].
      apply String.eqb_refl. }
    split_and!.
    + split; [intros _; exact Hnot|]. intros _. apply in_or_app. right.
      left. reflexivity.
    + intros other Hne. rewrite in_app_iff. simpl. split; [|tauto].
      intros [H|[H|[]]]; [exact H|congruence].
    + intros H. contradiction.
    + reflexivity.
Qed.

End ChatBotProps.

(** ** The dates of a result *)

Module DateFormatProps.
Import JsString JsValue ReportService.

Lemma after_digits_length : forall n s r,
  after_digits n s = Some r -> String.length s = (n + String.length r)%nat.
Proof.
  induction n as [|n IH]; intros s r; simpl.
  - intros [= ->]. reflexivity.
  - destruct s as [|c s]; [discriminate|].
    destruct (is_digit c); [|discriminate].
    intros H. apply IH in H. simpl. lia.
Qed.

Lemma after_char_length c o r :
  after_char c o = Some r ->
  exists s, o = Some s /\ String.length s = S (String.length r).
Proof.
  destruct o as [[|c' s']|]; simpl; try discriminate.
  destruct (Ascii.eqb c c'); [|discriminate].
  intros [= ->]. eexists. split; reflexivity.
Qed.

Lemma and_then_Some o f r :
  and_then o f = Some r -> exists x, o = Some x /\ f x = Some r.
Proof. destruct o as [x|]; simpl; [|discriminate]. intros H. exists x. auto. Qed.

Lemma matched_Some o : matched o = true -> exists r, o = Some r.
Proof. destruct o as [r|]; [|discriminate]. intros _. exists r. reflexivity. Qed.

Ltac lengths :=
  repeat match goal with
         | H : matched _ = true |- _ => apply matched_Some in H as [? H]
         | H : and_then _ _ = Some _ |- _ =>
             apply and_then_Some in H as (? & ? & H)
         | H : after_char _ _ = Some _ |- _ =>
             apply after_char_length in H as (? & H & ?)
         | H : after_digits _ _ = Some _ |- _ => apply after_digits_length in H
         end.

Lemma looksLikeDigits_length a b c sep s :
  looksLikeDigits a b c sep s = true ->
  (a + b + c + 2 <= String.length s)%nat.
Proof. unfold looksLikeDigits. intros H. lengths. lia. Qed.

Lemma looksLikeMonthDate_length s :
  looksLikeMonthDate s = true -> (12 <= String.length s)%nat.
Proof.
  unfold looksLikeMonthDate.
  destruct s as [|c1 [|c2 [|c3 [|sp rest]]]]; try discriminate.
  intros H. apply andb_prop in H as [_ H].
  destruct (after_char "," (after_digits 2 rest)) as [[|sp' rest']|] eqn:E;
    try discriminate.
  apply andb_prop in H as [_ H]. lengths. simpl in *. lia.
Qed.

(** A string that looks like a date has ten code units or more. *)
Lemma isLikelyDate_length s :
  isLikelyDate s = true -> (10 <= String.length s)%nat.
Proof.
  unfold isLikelyDate. rewrite !orb_true_iff.
  intros [[[[[H|H]|H]|H]|H]|H].
  - apply looksLikeDigits_length in H. lia.
  - lengths. lia.
  - apply looksLikeDigits_length in H. lia.
  - apply looksLikeDigits_length in H. lia.
  - apply looksLikeDigits_length in H. lia.
  - apply looksLikeMonthDate_length in H. lia.
Qed.

Section Facts.
Variable formatDate : string -> option string.

(** A cell after formatting: as it was, or the text of a date string. *)
Definition formatted (v v' : value) : Prop :=
  v' = v
  \/ exists s text,
       v = VStr s /\ (10 <= String.length s)%nat /\ isLikelyDate s = true
       /\ formatDate s = Some text /\ v' = VStr text.

Lemma formatCell_formatted v : formatted v (formatCell formatDate v).
Proof.
  destruct v as [| | | | |s]; try (left; reflexivity).
  unfold formatCell. destruct (isLikelyDate s) eqn:E; [|left; reflexivity].
  destruct (formatDate s) as [text|] eqn:F; [|left; reflexivity].
  right. exists s, text. split_and!; try reflexivity; try assumption.
  apply isLikelyDate_length, E.
Qed.

End Facts.

(** X30.  [formatDatesInData] returns as many rows as it is given, each
    with the same columns in the same order.  A cell is changed only when
    it is a string of ten code units or more that starts like a date in one
    of the six formats and that reads as a valid date, and it is then the
    text of that date; numbers, booleans, nulls and all other strings are
    left as they are. *)
Theorem formatDatesInData_cells (formatDate : string -> option string)
  (data : list row) :
  Forall2
    (fun r r' =>
       Forall2
         (fun kv kv' =>
            fst kv' = fst kv /\ formatted formatDate (snd kv) (snd kv'))
         r r')
    data (formatDatesInData formatDate data).
Proof.
  unfold formatDatesInData.
  assert (G : forall rows : list row,
    Forall2
      (fun r r' =>
         Forall2
           (fun kv kv' =>
              fst kv' = fst kv /\ formatted formatDate (snd kv) (snd kv'))
           r r')
      rows
      (map (fun r => map (fun kv => (fst kv, formatCell formatDate (snd kv))) r)
         rows)).
  { induction rows as [|r rows IH]; [constructor|].
    cbn [map]. constructor; [|exact IH].
    induction r as [|kv r IHr]; [constructor|].
    cbn [map]. constructor; [|exact IHr].
    split; [reflexivity|]. apply formatCell_formatted. }
  destruct data as [|r data]; [constructor|]. apply G.
Qed.

(** A date of our own, for the sample. *)
Definition sampleDate (s : string) : option string :=
  if String.eqb s "2023-01-15" then Some "January 15, 2023" else None.

Example formatDatesInData_sample :
  formatDatesInData sampleDate
    [[("id", VNum 7); ("day", VStr "2023-01-15"); ("code", VStr "2023-01")];
     [("id", VNum 8); ("day", VStr "2023-02-30"); ("code", VNull)]] =
    [[("id", VNum 7); ("day", VStr "January 15, 2023"); ("code", VStr "2023-01")];
     [("id", VNum 8); ("day", VStr "2023-02-30"); ("code", VNull)]].
Proof. reflexivity. Qed.

End DateFormatProps.
